(* ===== verification/_CoqProject ===== *)
-Q . S2P
Prelude.v
GoString.v
GoTime.v
GoNet.v
GoJson.v
JsonRoundtrip.v
GoUrl.v
Kube.v
Api.v
DeepCopy.v
Effects.v
KubeLib.v
Metrics.v
PolicyObjects.v
PolicyConfig.v
PolicyNetwork.v
Reconciler.v
Samples.v
PolicyResult.v
Build.v
Status.v
TaskResult.v
Sync.v
Reconcile.v
Lifecycle.v
ApiServer.v
Settle.v
Quiescence.v
PassCalls.v
Completion.v
Watch.v
Healing.v
Signature.v
Mapping.v
ConfigRoundtrip.v
TemplateCopy.v
Admission.v
Webhook.v
Redelivery.v
Cluster.v
Overlap.v
Server.v
Main.v
TestUtils.v
