(* ===== verification/Prelude.v ===== *)
(** * OpenConveyor verification

    OpenConveyor is a Kubernetes controller, written in Go, that runs coding
    agents as hardened Jobs.  A user, or an authenticated webhook, creates a
    [Task] that names a [ClusterAgentClass]; the controller turns the two into a
    ServiceAccount, a Role and its binding, a NetworkPolicy, ConfigMaps and one
    Job, mirrors the Job into the status of the Task, reads the result the agent
    leaves in its termination message, and deletes the Task when its TTL is over.
    This library models that program and proves what makes it correct.

    ** The parts of the program and the files that model them

    - [Api], [Kube]: the custom resources ([src/api/v1alpha1/*_types.go]) and the
      Kubernetes objects the program handles, as records with the source's fields.
    - [PolicyObjects] (modules [Labels], [Secrets], [Rbac], [Prompt]),
      [PolicyConfig] ([Config]), [PolicyNetwork] ([Network]) and [PolicyResult]
      ([Result]): the pure builders and parsers of [src/internal/policy]:
      [labels.go], [secrets.go], [rbac.go], [prompt.go], [config.go],
      [networkpolicy.go], [result.go], [errors.go].
    - [Metrics]: [src/internal/metrics/metrics.go].
    - [Reconciler], [Build], [Status], [TaskResult], [Sync], [Reconcile],
      [Lifecycle]: [src/internal/controller]: [build.go] and [validate.go] in
      [Build], [status.go] in [Status] with [syncStatus] in [Sync], [result.go] in
      [TaskResult], [task_controller.go] in [Reconcile]; [Lifecycle] holds the
      theorems about whole passes of [Reconcile] and about sequences of them.
    - [Watch]: [SetupWithManager] and the watch handlers of [task_controller.go].
    - [Signature], [Mapping], [Webhook], [Server]: the webhook adapter of
      [src/internal/trigger]: [signature.go], [mapping.go], [dedupe.go] with
      [handler.go], and [server.go] (the routes in front of the handler, and
      [Start] as a state machine of its two goroutines).
    - [DeepCopy], [TemplateCopy]: [zz_generated.deepcopy.go] on a heap with shared
      cells and the scheme registration; the lines of [BuildTask] that copy the
      template of a trigger class.
    - [Admission]: the validation markers in the comments of [*_types.go], which
      the API server runs, and the schema of the conditions in
      [src/config/crd/bases/openconveyor.ai_tasks.yaml], as predicates.
    - [ConfigRoundtrip]: [setConfigKey] of [mapping.go] composed with the
      projection of [config.go], on the printer and parser of [JsonRoundtrip].
    - [Cluster]: reconcile passes and webhook requests interleaved over one store.
    - [ApiServer], [Settle], [PassCalls], [Quiescence], [Completion], [Healing],
      [Redelivery], [Overlap]: passes and requests against one server that keeps every
      object.  [ApiServer] is the server, [Settle] what each operation of a pass does
      to it, [PassCalls] what each single call of a pass can be, the others the
      theorems.  In [Quiescence], [Completion] and [Redelivery] whole passes and
      requests follow one another; in [Healing] the calls of a pass are interleaved with
      the writes of others, in [Overlap] those of passes and requests with one another.
      They model no further code: they compose [Reconcile], [ServeHTTP] and, in
      [Healing], the table of [Watch].
    - [TestUtils]: the helpers of the test suite, [src/test/utils/utils.go].
    - [Main]: [src/cmd/main.go]: the flags with their checks, the configuration of
      the reconciler, the adapter and the servers, the filter of the pod cache, and
      [run] with the order of its calls and its error paths.
    - [GoString], [GoTime], [GoNet], [GoJson], [GoUrl]: what the source uses of the
      Go library, evaluable: UTF-8, [strings], [strconv], [path], durations and
      times with their 64-bit wrap-around and the conversion to floating-point
      seconds, addresses and prefixes, [encoding/json], [net/url].
      [JsonRoundtrip] proves that the parser reads back what the printer writes.
    - [Samples]: concrete objects and a concrete API server, at which the theorems
      with hypotheses are applied ([..._witness]).

    ** State, effects and errors

    A function of the source that talks to the API server, the resolver, the
    clock, the metrics registry, the event recorder or an HTTP client is a tree
    of calls ([Effects.Prog]).  [exec p tr a] says that [p] can make the calls of
    the trace [tr], get the answers recorded there, and return [a]; the answers
    are arbitrary, so a theorem over [exec] holds for every behaviour of the
    server, of other clients and of the clock, and in every interleaving with
    them at the granularity of a call.  [run] executes a program against a
    concrete server and is one of the executions ([run_exec]); every program has
    an execution for every choice of answers ([exec_exists]).  The trees are
    finite: the modelled functions return on every answer.  [Cluster] runs several
    such trees, one call at a time, against one store of NetworkPolicies whose
    reads may be stale and whose answers may be lost.  [ApiServer.served] relates
    each call to its answer and to the objects before and after it, as the
    documentation of the API server states it for a time in which nobody else
    writes; [ApiServer.answered] is a trace of such answers, and
    [ApiServer.respond] a server that can be run and gives them.  [Overlap] adds that
    answers of creates may be lost, that reads of a pass may be stale, and that a
    status write succeeds only on the version that was read.  [Healing] adds the work
    queue: an event puts the keys of [Watch.dispatch] into it, a pass takes one out,
    and an error puts it back; writes may be refused or their answers lost, and succeed
    only on the version that was read.  [Server] and [Main] have
    their own small effects: a step relation for the goroutines of [Start], and
    the monad [Setup] that records the calls on the manager.  [DeepCopy] passes a
    heap explicitly, because its claims are about aliasing.

    A Go error is a value of [GoError], with wrapping, the permanent errors of
    [errors.go] and API errors; a function into [(T, error)] is a function into
    [result T].  A panic is the constructor [Panics] of [outcome].  A nil map and
    an empty one differ ([Kube.GoMap]).  Machine integers are [Z] with the
    wrap-around written where an operation can overflow.

    ** Parameters

    Code that is not in the repository is a class parameter, with the documented
    behaviour the proofs use as a class of laws: [KubeLib] and [KubeLaws] for
    [apimachinery] and [controller-runtime] (owner references, conditions,
    quantities, label values, semantic equality), with the instance
    [KubeLib.KubeRef] that satisfies them; [Gjson] for the query language of
    [tidwall/gjson]; [JsonErrors] for the texts of JSON errors;
    [UnicodeTables] for the tables of letters and categories outside ASCII;
    [LibTypes] and [LibCopies] for the types of [apimachinery] that have deep
    copies of their own; [CelLib] and [CelLaws] for the functions of the rule
    language of the API server.  The answers of the manager in [Main] and of the
    request multiplexer's default pages in [Server] are arguments.

    ** What the theorems show

    - Whole passes ([Lifecycle]): a terminal Task never runs again, over any
      sequence of passes; a NetworkPolicy for exactly the declared egress is held
      by the server before the Job is created; the Job is the one declared; a Task
      fails only for cause; no rejected write is swallowed; reports follow the
      write they report; garbage collection respects the TTL; a Task waits for a
      missing class.
    - Rest ([Quiescence]): a pass changes no object of another Task, and over any
      schedule at most three passes for each Task change anything.
    - Completion ([Completion]): on a server that carries out every write, a pass over a
      valid Task whose names resolve succeeds and leaves the server with exactly the
      objects the Task declares (a binding that was there keeps its RoleRef); a Task goes
      from its creation over its Job to its Result, and is deleted after its TTL.
    - Redelivery ([Redelivery]): over any sequence of requests and passes, no two active
      Tasks of a class stand for the same event, and a repeated delivery is answered
      with the Task of the first.
    - Duplicates ([Overlap]): when the calls interleave, two active Tasks for one event
      come from two requests that each checked before the other created, and from
      nothing else.
    - Drift ([Healing]): in every state that the control loop reaches, a Task that can
      be run and is neither queued nor being worked on has the objects it declares, and
      its status mirrors its Job, whatever others did to them.
    - Interleavings ([Cluster]): no interleaving of passes and requests leaves a
      Job without the policy that guards its pods.
    - Watches ([Watch]): an event on an object that a pass created, on the class a
      Task names or on a pod of its Job brings that Task back to the queue.
    - Upserts ([Reconcile]): [ensureOwned] establishes its contract, stated for
      every kind through the class [Mutator], and then performs no further write.
    - Status and Result ([Status], [Sync], [TaskResult], [PolicyResult]): the
      phase function, semantic equality, the deadline; written statuses mirror
      the Job and converge; a Result comes from the agent container of a pod of
      the Job, is decided once and no later than the wait allows, and is bounded and
      clean whatever the agent wrote.
    - Builders ([Build], [PolicyObjects], [PolicyConfig], [PolicyNetwork]): the
      pod is restricted, gets exactly the declared Secrets, prompt and config, takes no
      variable from a Secret, and gets
      a token exactly when rules are declared; the allowlist resolves soundly and
      completely; errors are permanent or transient by their cause.
    - Webhook adapter ([Signature], [Mapping], [Webhook]): the signature check
      accepts exactly the HMAC of the body; a Task is created only for an
      authenticated request and carries what its class grants; one answer and one
      sample for each request, with the documented status; duplicates are found
      exactly and not created; a path selects the one class that claims it.
    - Webhook server ([Server]): which requests reach the handler; [Start] ends with its
      context or with the error of the listener, and never hangs.
    - Configuration ([JsonRoundtrip], [ConfigRoundtrip]): a value that a mapping
      wrote into the config reaches the agent unchanged.
    - Copies ([DeepCopy], [TemplateCopy]): a deep copy is equal to its original and
      shares no cell with it; a built Task never aliases the cached trigger class.
    - Admission ([Admission]): admitted specs pass the controller's own checks and
      admitted allowlists resolve unless a lookup fails, built Tasks satisfy the schema,
      and so do written statuses, but for the length of the Ready message: it is written
      uncut, so a long name in the config gives a status that the server must refuse.
    - Command ([Main]): the flags are checked so that no conversion truncates, the
      pods of every built Job pass the cache filter, and [run] starts the manager
      only after every registration succeeded, on which the exit status depends.
    - Test helpers ([TestUtils]): what [UncommentCode] writes, lines beyond the token
      limit included.

    ** Fuel

    The JSON parser recurses with the fuel [2 * length + 2]: a byte is consumed at
    least at every second call, so more fuel changes nothing
    ([GoJson.parse_value_fuel]).  The group loop of IPv6 addresses runs at most
    eight times, as in the source, the hex digits of a 16-bit group are at most
    four, and the blocks of SHA-256 are bounded by the number of words, which
    exceeds theirs.  All other recursion is structural.

    ** What is not modelled

    Log lines; the parsing of the command line; the timeouts of the HTTP server;
    the inside of [controller-runtime] (event sources, work queues, caches, leader
    election, certificate watching, probes) and of the Prometheus registry; the
    validation markers on the deduplication keys, filters and mappings of a
    [ClusterTriggerClass]; finalizers, which the program neither sets nor reads;
    the agents' images, manifests and documentation.

    ** Limits of the compositions

    [Quiescence] and [Completion] run passes while nobody else writes.  In [Healing]
    one pass runs at a time, which is the controller's default; others write between any
    two of its calls and keep the owner references of what belongs to a Task, reads see
    what is stored, and a lookup of a name answers the same throughout, since the
    program gets no event when it changes.  In [Overlap]
    others write at any moment, but add no active Task, and the handlers list Tasks
    with the live reader, which [cmd/main.go] gives them. *)

From stdpp Require Export base tactics option list sorting gmap strings pretty.
From Stdlib Require Export ZArith Lia Ascii.

Open Scope Z_scope.

(** ** Results of fallible calls

    A Go function that returns [(T, error)] becomes a function into
    [res E T]; the source never uses the value next to a non-nil error. *)

Inductive res (E A : Type) : Type :=
| Ok (a : A)
| Err (e : E).
Arguments Ok {E A} a.
Arguments Err {E A} e.

Definition is_ok {E A} (r : res E A) : bool :=
  match r with Ok _ => true | Err _ => false end.

Declare Scope conveyor_scope.
Delimit Scope conveyor_scope with conveyor.

Notation "'try' x := r 'in' k" :=
  (match r with Ok x => k | Err e => Err e end)
  (at level 10, x name, r at level 100, k at level 200)
  : conveyor_scope.
Open Scope conveyor_scope.

#[export] Instance res_eq_dec {E A} `{EqDecision E, EqDecision A} : EqDecision (res E A).
Proof. solve_decision. Defined.

(** ** Machine integers

    Go's fixed-width integers are kept as [Z] with the wrap-around written
    where an operation can overflow. *)

Definition wrap_signed (w : Z) (z : Z) : Z := (z + 2 ^ (w - 1)) mod 2 ^ w - 2 ^ (w - 1).
Definition int32 (z : Z) : Z := wrap_signed 32 z.
Definition int64 (z : Z) : Z := wrap_signed 64 z.
Definition MaxInt32 : Z := 2147483647.
Definition MaxInt64 : Z := 9223372036854775807.
Definition MinInt64 : Z := -9223372036854775808.

(** ** Automation *)

(** Comparisons of characters and strings stay folded under [simpl]. *)
#[global] Arguments Ascii.eqb : simpl never.
#[global] Arguments String.eqb : simpl never.
#[global] Arguments Z.mul : simpl never.

Create HintDb conveyor.

(** Splits the first [match] or [if] on a hypothesis-free scrutinee found in
    the context, keeping its equation, and cleans up. *)
Ltac split_match :=
  match goal with
  | H : context [match ?x with _ => _ end] |- _ =>
      lazymatch x with context [match _ with _ => _ end] => fail | _ => destruct x eqn:?; simplify_eq/= end
  | |- context [match ?x with _ => _ end] =>
      lazymatch x with context [match _ with _ => _ end] => fail | _ => destruct x eqn:?; simplify_eq/= end
  end.

Ltac split_matches := repeat (split_match; try done).

Ltac str_eqb :=
  repeat match goal with
  | H : String.eqb _ _ = true |- _ => apply String.eqb_eq in H; simplify_eq/=
  | H : String.eqb _ _ = false |- _ => apply String.eqb_neq in H
  end.

(** ** Integers *)

Lemma wrap_signed_id w z :
  0 < w -> - 2 ^ (w - 1) <= z < 2 ^ (w - 1) -> wrap_signed w z = z.
Proof.
  intros Hw Hz. unfold wrap_signed.
  assert (Hp : 2 ^ w = 2 * 2 ^ (w - 1)).
  { rewrite <- Z.pow_succ_r by lia. f_equal. lia. }
  rewrite Z.mod_small; lia.
Qed.

Lemma int32_id z : -2147483648 <= z <= MaxInt32 -> int32 z = z.
Proof. intros Hz. unfold MaxInt32 in Hz. apply wrap_signed_id; lia. Qed.

Lemma int64_id z : MinInt64 <= z <= MaxInt64 -> int64 z = z.
Proof. intros Hz. unfold MinInt64, MaxInt64 in Hz. apply wrap_signed_id; lia. Qed.

(** ** Strings *)

Lemma append_nil_r (s : string) : s +:+ "" = s.
Proof. induction s as [|c s IH]; [done|]. change (String c (s +:+ "") = String c s). by rewrite IH. Qed.

Lemma append_cons c (s t : string) : String c s +:+ t = String c (s +:+ t).
Proof. done. Qed.

Lemma append_assoc (a b c : string) : (a +:+ b) +:+ c = a +:+ (b +:+ c).
Proof. induction a as [|x a IH]; [done|]. rewrite !append_cons. by rewrite IH. Qed.

Lemma length_append (a b : string) :
  String.length (a +:+ b) = (String.length a + String.length b)%nat.
Proof. induction a as [|x a IH]; [done|]. rewrite append_cons. simpl. by rewrite IH. Qed.

#[export] Instance append_inj_r (a : string) : Inj (=) (=) (String.append a).
Proof.
  induction a as [|x a IH]; intros b c H; [done|].
  rewrite !append_cons in H. simplify_eq. by apply IH.
Qed.

Lemma list_ascii_append (a b : string) :
  String.list_ascii_of_string (a +:+ b) = String.list_ascii_of_string a ++ String.list_ascii_of_string b.
Proof. induction a as [|c a IH]; [done|]. rewrite append_cons. simpl. by rewrite IH. Qed.

Lemma append_inj_l (a b s : string) : a +:+ s = b +:+ s -> a = b.
Proof.
  revert b. induction a as [|x a IH]; intros [|y b] H.
  - done.
  - apply (f_equal String.length) in H. rewrite !length_append in H. simpl in H. lia.
  - apply (f_equal String.length) in H. rewrite !length_append in H. simpl in H. lia.
  - rewrite !append_cons in H. simplify_eq. f_equal. by apply IH.
Qed.

(** ** Sorting

    [slices.Sort] and [slices.Sorted] on strings order bytewise, which is
    [String.le]. *)

Definition sort_strings (l : list string) : list string := merge_sort String.le l.

Lemma sort_strings_perm l : sort_strings l ≡ₚ l.
Proof. apply merge_sort_Permutation. Qed.

Lemma sort_strings_sorted l : StronglySorted String.le (sort_strings l).
Proof. apply StronglySorted_merge_sort; apply _. Qed.

Lemma elem_of_sort_strings x l : x ∈ sort_strings l <-> x ∈ l.
Proof. by rewrite sort_strings_perm. Qed.

Lemma length_sort_strings l : length (sort_strings l) = length l.
Proof. by rewrite sort_strings_perm. Qed.

Lemma NoDup_sort_strings l : NoDup (sort_strings l) <-> NoDup l.
Proof. by rewrite sort_strings_perm. Qed.

(** ** Lists *)

Lemma fmap_flat_map {A B C} (f : A -> list B) (g : B -> C) l :
  g <$> flat_map f l = flat_map (fun x => g <$> f x) l.
Proof. induction l as [|x l IH]; [done|]. simpl. by rewrite fmap_app, IH. Qed.

Lemma NoDup_fmap_inj_on {A B} (f : A -> B) l :
  (forall x y, x ∈ l -> y ∈ l -> f x = f y -> x = y) -> NoDup l -> NoDup (f <$> l).
Proof.
  induction l as [|x l IH]; intros Hinj Hnd; [constructor|].
  apply NoDup_cons in Hnd as [Hx Hnd]. rewrite fmap_cons. apply NoDup_cons. split.
  - rewrite list_elem_of_fmap. intros (y & Hxy & Hy).
    assert (x = y) as -> by (apply Hinj; set_solver). done.
  - apply IH; [|done]. intros a b Ha Hb. apply Hinj; set_solver.
Qed.

Lemma rev_fmap {A B} (f : A -> B) l : rev (f <$> l) = f <$> rev l.
Proof. symmetry. apply map_rev. Qed.

Lemma filter_all {A} (P : A -> Prop) `{forall x, Decision (P x)} (l : list A) :
  (forall x, x ∈ l -> P x) -> filter P l = l.
Proof.
  induction l as [|x l IH]; intros Hp; [done|].
  rewrite filter_cons_True by (apply Hp; left). f_equal. apply IH. intros y Hy. apply Hp. by right.
Qed.

Lemma filter_none {A} (P : A -> Prop) `{forall x, Decision (P x)} (l : list A) :
  (forall x, x ∈ l -> ~ P x) -> filter P l = [].
Proof.
  induction l as [|x l IH]; intros Hp; [done|].
  rewrite filter_cons_False by (apply Hp; left). apply IH. intros y Hy. apply Hp. by right.
Qed.

Lemma filter_cons_inv {A} (P : A -> Prop) `{forall x, Decision (P x)} (l l' : list A) x :
  filter P l = x :: l' -> exists l1 l2, l = l1 ++ x :: l2 /\ P x /\ (forall y, y ∈ l1 -> ~ P y) /\ filter P l2 = l'.
Proof.
  induction l as [|y l IH]; intros Hf; [done|]. destruct (decide (P y)) as [Hy|Hy].
  - rewrite filter_cons_True in Hf by done. simplify_eq. exists [], l. split_and!; [done..| |done]. by intros z ?%elem_of_nil.
  - rewrite filter_cons_False in Hf by done. destruct (IH Hf) as (l1 & l2 & -> & Hx & Hn & He).
    exists (y :: l1), l2. split_and!; [done..| |done]. intros z [->|Hz]%elem_of_cons; auto.
Qed.

Lemma filter_one {A} (P : A -> Prop) `{forall x, Decision (P x)} (l : list A) x :
  filter P l = [x] -> exists l1 l2, l = l1 ++ x :: l2 /\ P x /\ forall y, y ∈ l1 ++ l2 -> ~ P y.
Proof.
  intros (l1 & l2 & -> & Hx & Hn & He)%filter_cons_inv. exists l1, l2. split_and!; [done..|].
  intros y [Hy|Hy]%elem_of_app; [auto|]. intros Hp.
  assert (Hin : y ∈ filter P l2) by (by apply list_elem_of_filter). rewrite He in Hin. by apply elem_of_nil in Hin.
Qed.

Lemma filter_two {A} (P : A -> Prop) `{forall x, Decision (P x)} (l : list A) :
  (2 <= length (filter P l))%nat -> exists l1 x l2 y l3, l = l1 ++ x :: l2 ++ y :: l3 /\ P x /\ P y.
Proof.
  intros Hl. destruct (filter P l) as [|x [|y l']] eqn:Hf; cbn in Hl; [lia..|].
  apply filter_cons_inv in Hf as (l1 & l2 & -> & Hx & _ & Hf).
  apply filter_cons_inv in Hf as (l3 & l4 & -> & Hy & _ & _). by exists l1, x, l3, y, l4.
Qed.

Lemma elem_of_concat {A} (x : A) (ls : list (list A)) :
  x ∈ concat ls <-> exists l, l ∈ ls /\ x ∈ l.
Proof. rewrite list_elem_of_In, in_concat. by setoid_rewrite list_elem_of_In. Qed.
