(* ===== verification/GoString.v ===== *)
(** * Go strings

    A Go string is a sequence of bytes; it is modelled by [string], whose
    [ascii] characters are the bytes.  This file holds what the program uses of
    the packages [strings], [unicode], [unicode/utf8], [path] and [strconv]:
    UTF-8 decoding with Go's treatment of invalid bytes, the trimming and
    splitting functions, case mapping and quoting.  The two large generated
    tables (lower case and printable runes above ASCII) are fields of the class
    [UnicodeTables]; everything else is written out. *)

From S2P Require Import Prelude.

(** ** Bytes and runes *)

Definition byte_val (c : ascii) : Z := Z.of_N (N_of_ascii c).
Definition byte_of (z : Z) : ascii := ascii_of_N (Z.to_N z).

Definition RuneError : Z := 65533.

Definition in_range (lo hi z : Z) : bool := (lo <=? z) && (z <=? hi).
Definition is_cont (z : Z) : bool := in_range 128 191 z.

(** A rune that UTF-8 can encode. *)
Definition valid_rune (r : Z) : bool := in_range 0 55295 r || in_range 57344 1114111 r.

(** [utf8.DecodeRuneInString]: the first rune and its width; [RuneError] with
    width 1 for a byte that starts no valid encoding. *)
Definition DecodeRune (s : string) : Z * nat :=
  match s with
  | EmptyString => (RuneError, 0%nat)
  | String c0 s1 =>
    let b0 := byte_val c0 in
    if b0 <? 128 then (b0, 1%nat)
    else if in_range 194 223 b0 then
      match s1 with
      | String c1 _ =>
        let b1 := byte_val c1 in
        if is_cont b1 then ((b0 - 192) * 64 + (b1 - 128), 2%nat) else (RuneError, 1%nat)
      | _ => (RuneError, 1%nat)
      end
    else if in_range 224 239 b0 then
      match s1 with
      | String c1 (String c2 _) =>
        let b1 := byte_val c1 in
        let b2 := byte_val c2 in
        let lo := if b0 =? 224 then 160 else 128 in
        let hi := if b0 =? 237 then 159 else 191 in
        if in_range lo hi b1 && is_cont b2
        then ((b0 - 224) * 4096 + (b1 - 128) * 64 + (b2 - 128), 3%nat)
        else (RuneError, 1%nat)
      | _ => (RuneError, 1%nat)
      end
    else if in_range 240 244 b0 then
      match s1 with
      | String c1 (String c2 (String c3 _)) =>
        let b1 := byte_val c1 in
        let b2 := byte_val c2 in
        let b3 := byte_val c3 in
        let lo := if b0 =? 240 then 144 else 128 in
        let hi := if b0 =? 244 then 143 else 191 in
        if in_range lo hi b1 && is_cont b2 && is_cont b3
        then ((b0 - 240) * 262144 + (b1 - 128) * 4096 + (b2 - 128) * 64 + (b3 - 128), 4%nat)
        else (RuneError, 1%nat)
      | _ => (RuneError, 1%nat)
      end
    else (RuneError, 1%nat)
  end.

(** [utf8.AppendRune] to an empty buffer. *)
Definition EncodeRune (r : Z) : string :=
  let r := if valid_rune r then r else RuneError in
  if r <=? 127 then String (byte_of r) ""
  else if r <=? 2047 then
    String (byte_of (192 + r / 64)) (String (byte_of (128 + r mod 64)) "")
  else if r <=? 65535 then
    String (byte_of (224 + r / 4096))
      (String (byte_of (128 + r / 64 mod 64)) (String (byte_of (128 + r mod 64)) ""))
  else
    String (byte_of (240 + r / 262144))
      (String (byte_of (128 + r / 4096 mod 64))
        (String (byte_of (128 + r / 64 mod 64)) (String (byte_of (128 + r mod 64)) ""))).

Fixpoint take_str (n : nat) (s : string) : string :=
  match n, s with
  | S n', String c s' => String c (take_str n' s')
  | _, _ => ""
  end.

Fixpoint drop_str (n : nat) (s : string) : string :=
  match n, s with
  | S n', String _ s' => drop_str n' s'
  | _, _ => s
  end.

(** The runes of a string with the bytes each one came from.  [skip] counts
    the bytes that belong to the rune decoded before them. *)
Fixpoint chunks_from (skip : nat) (s : string) : list (Z * string) :=
  match s with
  | EmptyString => []
  | String _ s' =>
    match skip with
    | S n => chunks_from n s'
    | O => let '(r, w) := DecodeRune s in (r, take_str w s) :: chunks_from (Nat.pred w) s'
    end
  end.
Definition chunks (s : string) : list (Z * string) := chunks_from 0 s.

(** What [for _, r := range s] visits. *)
Definition runes (s : string) : list Z := fst <$> chunks s.

Definition concat_strs (l : list string) : string := foldr String.append "" l.

Definition string_of_runes (rs : list Z) : string := concat_strs (EncodeRune <$> rs).

(** An invalid byte decodes to [RuneError] with width one; a valid U+FFFD has width three. *)
Definition invalid_chunk (c : Z * string) : bool :=
  (c.1 =? RuneError) && (String.length c.2 =? 1)%nat.

(** [strings.ToValidUTF8] with an empty replacement. *)
Definition ToValidUTF8_drop (s : string) : string :=
  concat_strs (snd <$> filter (fun c => invalid_chunk c = false) (chunks s)).

(** ** Rune classes *)

Definition IsControl (r : Z) : bool := in_range 0 31 r || in_range 127 159 r.

(** [unicode.IsSpace], the White_Space property. *)
Definition IsSpace (r : Z) : bool :=
  in_range 9 13 r || (r =? 32) || (r =? 133) || (r =? 160) || (r =? 5760) ||
  in_range 8192 8202 r || (r =? 8232) || (r =? 8233) || (r =? 8239) || (r =? 8287) || (r =? 12288).

(** [unicode.Cf], the format characters. *)
Definition Cf (r : Z) : bool :=
  (r =? 173) || in_range 1536 1541 r || (r =? 1564) || (r =? 1757) || (r =? 1807) ||
  in_range 2192 2193 r || (r =? 2274) || (r =? 6158) || in_range 8203 8207 r ||
  in_range 8234 8238 r || in_range 8288 8292 r || in_range 8294 8303 r || (r =? 65279) ||
  in_range 65529 65531 r || (r =? 69821) || (r =? 69837) || in_range 78896 78911 r ||
  in_range 113824 113827 r || in_range 119155 119162 r || (r =? 917505) || in_range 917536 917631 r.

(** The generated tables of the [unicode] and [strconv] packages above ASCII. *)
Class UnicodeTables := {
  table_ToLower : Z -> Z;
  table_IsPrint : Z -> bool;
}.

Definition ascii_ToLower (r : Z) : Z := if in_range 65 90 r then r + 32 else r.

Definition ToLowerRune `{UnicodeTables} (r : Z) : Z :=
  if r <=? 127 then ascii_ToLower r else table_ToLower r.

(** [strings.ToLower]: bytewise on ASCII, otherwise [strings.Map], which
    turns an invalid byte into U+FFFD. *)
Definition ToLower `{UnicodeTables} (s : string) : string :=
  string_of_runes (ToLowerRune <$> runes s).

(** ** Searching and trimming *)

Fixpoint rev_app (s acc : string) : string :=
  match s with
  | EmptyString => acc
  | String c s' => rev_app s' (String c acc)
  end.
Definition rev_string (s : string) : string := rev_app s "".

Fixpoint CutPrefix (p s : string) : option string :=
  match p, s with
  | EmptyString, _ => Some s
  | String a p', String b s' => if Ascii.eqb a b then CutPrefix p' s' else None
  | _, _ => None
  end.
Definition HasPrefix (s p : string) : bool :=
  match CutPrefix p s with Some _ => true | None => false end.
Definition TrimPrefix (s p : string) : string := default s (CutPrefix p s).
Definition TrimSuffix (s p : string) : string :=
  match CutPrefix (rev_string p) (rev_string s) with
  | Some r => rev_string r
  | None => s
  end.

Fixpoint IndexByte (s : string) (c : ascii) : option nat :=
  match s with
  | EmptyString => None
  | String a s' => if Ascii.eqb a c then Some 0%nat else S <$> IndexByte s' c
  end.
Definition ContainsByte (s : string) (c : ascii) : bool :=
  match IndexByte s c with Some _ => true | None => false end.

(** [strings.Cut] at a one-byte separator. *)
Definition CutByte (s : string) (c : ascii) : string * string * bool :=
  match IndexByte s c with
  | Some i => (take_str i s, drop_str (S i) s, true)
  | None => (s, "", false)
  end.

Fixpoint drop_while_byte (c : ascii) (s : string) : string :=
  match s with
  | String a s' => if Ascii.eqb a c then drop_while_byte c s' else s
  | EmptyString => ""
  end.
(** [strings.TrimRight] with a one-byte cutset. *)
Definition TrimRightByte (s : string) (c : ascii) : string :=
  rev_string (drop_while_byte c (rev_string s)).

Fixpoint drop_spaces (l : list (Z * string)) : list (Z * string) :=
  match l with
  | c :: l' => if IsSpace c.1 then drop_spaces l' else l
  | [] => []
  end.
(** [strings.TrimSpace]: the white space runes at both ends go. *)
Definition TrimSpace (s : string) : string :=
  concat_strs (snd <$> rev (drop_spaces (rev (drop_spaces (chunks s))))).

(** ** Quoting, [%q] *)

Definition dquote : ascii := "034"%char.
Definition backslash : ascii := "092"%char.
Definition str1 (c : ascii) : string := String c "".

Definition hex_digit (z : Z) : ascii :=
  if z <=? 9 then byte_of (48 + z) else byte_of (87 + z).

Definition escape_rune `{UnicodeTables} (c : Z * string) : string :=
  let r := c.1 in
  let hex4 := String (hex_digit (r / 4096 mod 16)) (String (hex_digit (r / 256 mod 16))
                (String (hex_digit (r / 16 mod 16)) (String (hex_digit (r mod 16)) ""))) in
  if invalid_chunk c then
    let b := match c.2 with String a _ => byte_val a | EmptyString => 0 end in
    String backslash (String "x" (String (hex_digit (b / 16)) (String (hex_digit (b mod 16)) "")))
  else if (r =? 34) || (r =? 92) then String backslash (String (byte_of r) "")
  else if in_range 32 126 r then String (byte_of r) ""
  else if (127 <? r) && table_IsPrint r then c.2
  else if r =? 7 then String backslash "a"
  else if r =? 8 then String backslash "b"
  else if r =? 12 then String backslash "f"
  else if r =? 10 then String backslash "n"
  else if r =? 13 then String backslash "r"
  else if r =? 9 then String backslash "t"
  else if r =? 11 then String backslash "v"
  else if (r <? 32) || (r =? 127) then
    String backslash (String "x" (String (hex_digit (r / 16)) (String (hex_digit (r mod 16)) "")))
  else if r <? 65536 then String backslash (String "u" hex4)
  else String backslash (String "U" (String "0" (String "0"
         (String (hex_digit (r / 1048576 mod 16)) (String (hex_digit (r / 65536 mod 16)) hex4))))).

Definition Quote `{UnicodeTables} (s : string) : string :=
  str1 dquote +:+ concat_strs (escape_rune <$> chunks s) +:+ str1 dquote.

(** ** [path.Join] of two elements

    The elements are joined with a slash, empty ones skipped, and the result is
    cleaned: empty and [.] segments go, [..] removes the segment before it. *)

Fixpoint split_slash (s : string) (cur : string) : list string :=
  match s with
  | EmptyString => [rev_string cur]
  | String c s' =>
    if Ascii.eqb c "/" then rev_string cur :: split_slash s' "" else split_slash s' (String c cur)
  end.

(** The stack holds the kept segments, last one first. *)
Definition clean_step (rooted : bool) (st : list string) (seg : string) : list string :=
  if (seg =? "")%string || (seg =? ".")%string then st
  else if (seg =? "..")%string then
    match st with
    | [] => if rooted then [] else [".."%string]
    | top :: st' => if (top =? "..")%string then ".."%string :: st else st'
    end
  else seg :: st.

Definition Clean (p : string) : string :=
  if (p =? "")%string then "."
  else
    let rooted := HasPrefix p "/" in
    let body := String.concat "/" (rev (foldl (clean_step rooted) [] (split_slash p ""))) in
    if rooted then "/" +:+ body else if (body =? "")%string then "." else body.

Definition path_Join (a b : string) : string :=
  if (a =? "")%string then (if (b =? "")%string then "" else Clean b)
  else if (b =? "")%string then Clean a
  else Clean (a +:+ "/" +:+ b).

(** ** Decimal, [%d] and [strconv] *)

Definition Itoa (z : Z) : string := pretty z.
Definition FormatBool (b : bool) : string := if b then "true" else "false".

(** An evaluable table: no case mapping and nothing printable above ASCII. *)
Definition plain_tables : UnicodeTables :=
  {| table_ToLower := fun r => r; table_IsPrint := fun _ => false |}.

(** ** Lemmas *)

Lemma byte_val_byte_of z : 0 <= z <= 255 -> byte_val (byte_of z) = z.
Proof.
  intros Hz. unfold byte_val, byte_of. rewrite N_ascii_embedding by lia. lia.
Qed.

Lemma byte_val_bound c : 0 <= byte_val c <= 255.
Proof. unfold byte_val. pose proof (N_ascii_bounded c). lia. Qed.

Lemma in_range_spec lo hi z : in_range lo hi z = true <-> lo <= z <= hi.
Proof. unfold in_range. rewrite andb_true_iff, !Z.leb_le. done. Qed.

Lemma valid_rune_spec r :
  valid_rune r = true <-> 0 <= r <= 55295 \/ 57344 <= r <= 1114111.
Proof. unfold valid_rune. rewrite orb_true_iff, !in_range_spec. done. Qed.

Lemma in_range_true lo hi z : lo <= z <= hi -> in_range lo hi z = true.
Proof. by rewrite in_range_spec. Qed.
Lemma in_range_false lo hi z : z < lo \/ hi < z -> in_range lo hi z = false.
Proof. intros H. apply not_true_iff_false. rewrite in_range_spec. lia. Qed.

(** Rewrites with the truth value of every decided comparison in the goal. *)
Ltac decide_ranges :=
  repeat first
    [ rewrite in_range_true by lia | rewrite in_range_false by lia
    | rewrite (proj2 (Z.ltb_lt _ _)) by lia | rewrite (proj2 (Z.ltb_ge _ _)) by lia
    | rewrite (proj2 (Z.leb_le _ _)) by lia | rewrite (proj2 (Z.leb_gt _ _)) by lia
    | rewrite (proj2 (Z.eqb_eq _ _)) by lia | rewrite (proj2 (Z.eqb_neq _ _)) by lia ].

Lemma decode_encode_2 r s :
  128 <= r <= 2047 ->
  DecodeRune (String (byte_of (192 + r / 64)) (String (byte_of (128 + r mod 64)) s)) = (r, 2%nat).
Proof.
  intros Hr. cbn [DecodeRune].
  pose proof (Z.div_mod r 64 ltac:(lia)). pose proof (Z.mod_pos_bound r 64 ltac:(lia)).
  rewrite !byte_val_byte_of by lia. unfold is_cont. decide_ranges. f_equal. lia.
Qed.

Lemma decode_encode_3 r s :
  2048 <= r <= 55295 \/ 57344 <= r <= 65535 ->
  DecodeRune (String (byte_of (224 + r / 4096)) (String (byte_of (128 + r / 64 mod 64))
    (String (byte_of (128 + r mod 64)) s))) = (r, 3%nat).
Proof.
  intros Hr. cbn [DecodeRune].
  pose proof (Z.div_mod r 64 ltac:(lia)). pose proof (Z.mod_pos_bound r 64 ltac:(lia)).
  pose proof (Z.div_mod (r / 64) 64 ltac:(lia)). pose proof (Z.mod_pos_bound (r / 64) 64 ltac:(lia)).
  assert (Hd : r / 64 / 64 = r / 4096) by (rewrite Z.div_div by lia; done).
  rewrite Hd in *. set (a := r / 4096) in *. set (b := r / 64 mod 64) in *. set (c := r mod 64) in *.
  rewrite !byte_val_byte_of by lia. unfold is_cont. decide_ranges.
  assert (Hb : in_range (if 224 + a =? 224 then 160 else 128) (if 224 + a =? 237 then 159 else 191)
                 (128 + b) = true).
  { apply in_range_true.
    destruct (Z.eqb_spec (224 + a) 224), (Z.eqb_spec (224 + a) 237); lia. }
  rewrite Hb. decide_ranges. cbn [andb]. f_equal. lia.
Qed.

Lemma decode_encode_4 r s :
  65536 <= r <= 1114111 ->
  DecodeRune (String (byte_of (240 + r / 262144)) (String (byte_of (128 + r / 4096 mod 64))
    (String (byte_of (128 + r / 64 mod 64)) (String (byte_of (128 + r mod 64)) s)))) = (r, 4%nat).
Proof.
  intros Hr. cbn [DecodeRune].
  pose proof (Z.div_mod r 64 ltac:(lia)). pose proof (Z.mod_pos_bound r 64 ltac:(lia)).
  pose proof (Z.div_mod (r / 64) 64 ltac:(lia)). pose proof (Z.mod_pos_bound (r / 64) 64 ltac:(lia)).
  pose proof (Z.div_mod (r / 4096) 64 ltac:(lia)). pose proof (Z.mod_pos_bound (r / 4096) 64 ltac:(lia)).
  assert (Hd : r / 64 / 64 = r / 4096) by (rewrite Z.div_div by lia; done).
  assert (He : r / 4096 / 64 = r / 262144) by (rewrite Z.div_div by lia; done).
  rewrite Hd, He in *. set (a := r / 262144) in *. set (b := r / 4096 mod 64) in *.
  set (c := r / 64 mod 64) in *. set (d := r mod 64) in *.
  rewrite !byte_val_byte_of by lia. unfold is_cont. decide_ranges.
  assert (Hb : in_range (if 240 + a =? 240 then 144 else 128) (if 240 + a =? 244 then 143 else 191)
                 (128 + b) = true).
  { apply in_range_true.
    destruct (Z.eqb_spec (240 + a) 240), (Z.eqb_spec (240 + a) 244); lia. }
  rewrite Hb. decide_ranges. cbn [andb]. f_equal. lia.
Qed.

(** Decoding undoes encoding for every rune UTF-8 can carry. *)
Lemma decode_encode r s :
  valid_rune r = true ->
  DecodeRune (EncodeRune r +:+ s) = (r, String.length (EncodeRune r)).
Proof.
  intros Hv. pose proof (proj1 (valid_rune_spec r) Hv) as Hr.
  unfold EncodeRune. rewrite Hv. cbv zeta.
  destruct (Z.leb_spec r 127).
  { rewrite append_cons. cbn [DecodeRune]. rewrite byte_val_byte_of by lia. by decide_ranges. }
  destruct (Z.leb_spec r 2047).
  { rewrite !append_cons. by rewrite decode_encode_2 by lia. }
  destruct (Z.leb_spec r 65535).
  { rewrite !append_cons. by rewrite decode_encode_3 by lia. }
  rewrite !append_cons. by rewrite decode_encode_4 by lia.
Qed.

Lemma encode_nonempty r : exists c s, EncodeRune r = String c s.
Proof. unfold EncodeRune. repeat case_match; eauto. Qed.

Lemma take_str_app a b : take_str (String.length a) (a +:+ b) = a.
Proof. induction a as [|c a IH]; [by destruct b|]. rewrite append_cons. simpl. by rewrite IH. Qed.

Lemma drop_str_app a b : drop_str (String.length a) (a +:+ b) = b.
Proof. induction a as [|c a IH]; [by destruct b|]. rewrite append_cons. simpl. by rewrite IH. Qed.

Lemma take_drop_str n s : take_str n s +:+ drop_str n s = s.
Proof.
  revert s. induction n as [|n IH]; intros s; [by destruct s|].
  destruct s as [|c s]; [done|]. simpl. rewrite append_cons. by rewrite IH.
Qed.

Lemma length_take_str n s : (String.length (take_str n s) <= n)%nat.
Proof.
  revert s. induction n as [|n IH]; intros s; [by destruct s|].
  destruct s as [|c s]; simpl; [lia|]. specialize (IH s). lia.
Qed.

Lemma chunks_from_skip a b : chunks_from (String.length a) (a +:+ b) = chunks b.
Proof.
  induction a as [|c a IH]; [by destruct b|]. rewrite append_cons. simpl. apply IH.
Qed.

Lemma chunks_encode r s :
  valid_rune r = true -> chunks (EncodeRune r +:+ s) = (r, EncodeRune r) :: chunks s.
Proof.
  intros Hv. pose proof (decode_encode r s Hv) as Hd.
  destruct (encode_nonempty r) as (c & t & He). rewrite He in Hd |- *.
  rewrite append_cons in Hd |- *. unfold chunks. cbn [chunks_from].
  rewrite Hd. f_equal.
  - f_equal. rewrite <- append_cons. apply take_str_app.
  - cbn [String.length Nat.pred]. apply chunks_from_skip.
Qed.

Lemma chunks_string_of_runes rs :
  Forall (fun r => valid_rune r = true) rs ->
  chunks (string_of_runes rs) = (fun r => (r, EncodeRune r)) <$> rs.
Proof.
  induction 1 as [|r rs Hr _ IH]; [done|].
  unfold string_of_runes. rewrite fmap_cons. simpl. rewrite chunks_encode by done.
  f_equal. apply IH.
Qed.

Lemma runes_string_of_runes rs :
  Forall (fun r => valid_rune r = true) rs -> runes (string_of_runes rs) = rs.
Proof.
  intros H. unfold runes. rewrite chunks_string_of_runes by done.
  rewrite <- list_fmap_compose. apply list_fmap_id.
Qed.

Lemma DecodeRune_cases s :
  s <> ""%string ->
  valid_rune (DecodeRune s).1 = true /\ (1 <= (DecodeRune s).2 <= String.length s)%nat.
Proof.
  intros Hs. destruct s as [|c0 s1]; [done|]. cbn [DecodeRune].
  pose proof (byte_val_bound c0).
  assert (valid_rune RuneError = true) by done.
  repeat case_match; simplify_eq/=; try (split; [done|lia]);
    repeat match goal with
    | H : _ && _ = true |- _ => apply andb_true_iff in H as [? ?]
    | H : is_cont _ = true |- _ => unfold is_cont in H
    | H : in_range _ _ _ = true |- _ => apply in_range_spec in H
    | H : (_ <? _) = true |- _ => apply Z.ltb_lt in H
    | H : (_ =? _) = true |- _ => apply Z.eqb_eq in H
    | H : (_ =? _) = false |- _ => apply Z.eqb_neq in H
    end; (split; [apply valid_rune_spec; lia|lia]).
Qed.

Lemma runes_valid s : Forall (fun r => valid_rune r = true) (runes s).
Proof.
  unfold runes, chunks.
  assert (H : forall n, Forall (fun r => valid_rune r = true) (fst <$> chunks_from n s)); [|done].
  induction s as [|c s IH]; intros n; [constructor|]. destruct n; [|apply IH].
  cbn [chunks_from]. destruct (DecodeRune (String c s)) as [r w] eqn:Hd.
  rewrite fmap_cons. constructor; [|apply IH].
  pose proof (DecodeRune_cases (String c s)) as Hc. rewrite Hd in Hc. by apply Hc.
Qed.

Lemma TrimSpace_runes rs :
  Forall (fun r => valid_rune r = true) rs ->
  exists pre mid post, rs = pre ++ mid ++ post /\ TrimSpace (string_of_runes rs) = string_of_runes mid.
Proof.
  intros Hv. unfold TrimSpace. rewrite chunks_string_of_runes by done.
  assert (Hd : forall l : list Z, exists p m, l = p ++ m /\
            drop_spaces ((fun r => (r, EncodeRune r)) <$> l) = (fun r => (r, EncodeRune r)) <$> m).
  { induction l as [|r l (p & m & -> & IH)]; [by exists [], []|].
    cbn. destruct (IsSpace r); [|by exists [], (r :: p ++ m)].
    exists (r :: p), m. split; [done|]. exact IH. }
  destruct (Hd rs) as (pre & m1 & -> & ->).
  rewrite rev_fmap. destruct (Hd (rev m1)) as (post & m2 & Hm & ->).
  exists pre, (rev m2), (rev post). split.
  - rewrite <- rev_app_distr, <- Hm, rev_involutive. done.
  - rewrite rev_fmap. unfold string_of_runes. by rewrite <- list_fmap_compose.
Qed.

Lemma CutPrefix_app p s : CutPrefix p (p +:+ s) = Some s.
Proof. induction p as [|c p IH]; [done|]. rewrite append_cons. simpl. by rewrite Ascii.eqb_refl. Qed.

Lemma CutPrefix_Some p s r : CutPrefix p s = Some r -> s = p +:+ r.
Proof.
  revert s. induction p as [|c p IH]; intros s H; simpl in H; [by simplify_eq|].
  destruct s as [|d s]; [done|]. destruct (Ascii.eqb_spec c d) as [->|]; [|done].
  rewrite append_cons. f_equal. by apply IH.
Qed.
(** ** ASCII strings *)

Definition is_ascii (c : ascii) : bool := byte_val c <? 128.

Lemma str_of_byte c : is_ascii c = true -> EncodeRune (byte_val c) = str1 c.
Proof.
  unfold is_ascii. rewrite Z.ltb_lt. intros Hc. unfold EncodeRune. pose proof (byte_val_bound c).
  destruct c as [[] [] [] [] [] [] [] []]; try (vm_compute in Hc; discriminate Hc); reflexivity.
Qed.

Lemma chunks_ascii s :
  Forall (fun c => is_ascii c = true) (String.list_ascii_of_string s) ->
  chunks s = (fun c => (byte_val c, str1 c)) <$> String.list_ascii_of_string s.
Proof.
  induction s as [|c s IH]; intros Ha; [done|]. cbn [String.list_ascii_of_string] in Ha.
  apply Forall_cons in Ha as [Hc Ha]. specialize (IH Ha).
  assert (Hd : chunks (str1 c +:+ s) = (byte_val c, str1 c) :: chunks s).
  { rewrite <- (str_of_byte c Hc) at 1. rewrite chunks_encode; [by rewrite (str_of_byte c Hc)|].
    apply valid_rune_spec. unfold is_ascii in Hc. apply Z.ltb_lt in Hc. pose proof (byte_val_bound c). lia. }
  change (str1 c +:+ s) with (String c s) in Hd. rewrite Hd, IH. done.
Qed.

Lemma concat_str1 l : concat_strs (str1 <$> l) = String.string_of_list_ascii l.
Proof. induction l as [|c l IH]; [done|]. exact (f_equal (String c) IH). Qed.

Lemma string_of_list_ascii_of_string s : String.string_of_list_ascii (String.list_ascii_of_string s) = s.
Proof. induction s as [|c s IH]; [done|]. cbn. by rewrite IH. Qed.

Lemma ToLower_ascii `{UnicodeTables} s :
  Forall (fun c => is_ascii c = true /\ in_range 65 90 (byte_val c) = false) (String.list_ascii_of_string s) ->
  ToLower s = s.
Proof.
  intros Ha. assert (Hasc : Forall (fun c => is_ascii c = true) (String.list_ascii_of_string s))
    by (eapply Forall_impl; [exact Ha|naive_solver]).
  unfold ToLower, runes, string_of_runes. rewrite (chunks_ascii s Hasc), <- !list_fmap_compose.
  rewrite <- (string_of_list_ascii_of_string s) at 2. rewrite <- concat_str1. f_equal.
  apply list_fmap_ext. intros i c Hc. apply list_elem_of_lookup_2 in Hc. rewrite Forall_forall in Ha.
  destruct (Ha c Hc) as [Hca Hcr]. cbn. unfold ToLowerRune, ascii_ToLower.
  rewrite Hcr. unfold is_ascii in Hca. rewrite (proj2 (Z.leb_le _ _)) by (apply Z.ltb_lt in Hca; lia).
  by apply str_of_byte.
Qed.

Lemma drop_spaces_none l : Forall (fun c => IsSpace c.1 = false) l -> drop_spaces l = l.
Proof. destruct 1 as [|c l Hc Hl]; [done|]. cbn. by rewrite Hc. Qed.

Lemma TrimSpace_ascii s :
  Forall (fun c => is_ascii c = true /\ IsSpace (byte_val c) = false) (String.list_ascii_of_string s) ->
  TrimSpace s = s.
Proof.
  intros Ha. assert (Hasc : Forall (fun c => is_ascii c = true) (String.list_ascii_of_string s))
    by (eapply Forall_impl; [exact Ha|naive_solver]).
  unfold TrimSpace. rewrite (chunks_ascii s Hasc).
  assert (Hn : Forall (fun c : Z * string => IsSpace c.1 = false)
    ((fun c => (byte_val c, str1 c)) <$> String.list_ascii_of_string s)).
  { apply Forall_fmap. eapply Forall_impl; [exact Ha|]. naive_solver. }
  rewrite (drop_spaces_none _ Hn), drop_spaces_none by (by apply Forall_rev). rewrite rev_involutive.
  rewrite <- list_fmap_compose. rewrite <- (string_of_list_ascii_of_string s) at 2. by rewrite <- concat_str1.
Qed.

(** ** Trimming one byte at the end *)

Lemma rev_app_append (a b c : string) : rev_app (a +:+ b) c = rev_app b (rev_app a c).
Proof. revert c. induction a as [|x a IH]; intros c; [done|]. rewrite append_cons. cbn [rev_app]. by rewrite IH. Qed.

Lemma rev_app_rev (a c : string) : rev_app a c = rev_string a +:+ c.
Proof.
  unfold rev_string. revert c. induction a as [|x a IH]; intros c; [done|]. cbn [rev_app].
  rewrite IH, (IH (String x "")), append_assoc. done.
Qed.

Lemma rev_string_cons x (a : string) : rev_string (String x a) = rev_string a +:+ str1 x.
Proof. unfold rev_string at 1. cbn [rev_app]. apply rev_app_rev. Qed.

Lemma rev_string_append (a b : string) : rev_string (a +:+ b) = rev_string b +:+ rev_string a.
Proof. unfold rev_string at 1. rewrite rev_app_append, rev_app_rev. done. Qed.

Lemma rev_string_involutive (a : string) : rev_string (rev_string a) = a.
Proof. induction a as [|x a IH]; [done|]. rewrite rev_string_cons, rev_string_append, IH. done. Qed.

(** [n] times the byte [c]. *)
Fixpoint byte_run (c : ascii) (n : nat) : string :=
  match n with O => "" | S n' => String c (byte_run c n') end.

Lemma rev_byte_run c n : rev_string (byte_run c n) = byte_run c n.
Proof.
  induction n as [|n IH]; [done|]. cbn [byte_run]. rewrite rev_string_cons, IH. clear IH.
  induction n as [|n IH]; [done|]. cbn [byte_run]. rewrite append_cons, IH. done.
Qed.

Lemma drop_while_byte_run c n s : drop_while_byte c (byte_run c n +:+ s) = drop_while_byte c s.
Proof. induction n as [|n IH]; [done|]. cbn [byte_run]. rewrite append_cons. cbn [drop_while_byte]. by rewrite Ascii.eqb_refl. Qed.

Lemma drop_while_byte_split c s : exists n, s = byte_run c n +:+ drop_while_byte c s.
Proof.
  induction s as [|a s [n IH]]; [by exists 0%nat|]. cbn [drop_while_byte]. destruct (Ascii.eqb_spec a c) as [->|Hn].
  - exists (S n). cbn [byte_run]. rewrite append_cons. by f_equal.
  - by exists 0%nat.
Qed.

Lemma TrimRightByte_run s c n : TrimRightByte (s +:+ byte_run c n) c = TrimRightByte s c.
Proof. unfold TrimRightByte. by rewrite rev_string_append, rev_byte_run, drop_while_byte_run. Qed.

Lemma TrimRightByte_split s c : exists n, s = TrimRightByte s c +:+ byte_run c n.
Proof.
  destruct (drop_while_byte_split c (rev_string s)) as [n Hn]. exists n. unfold TrimRightByte.
  apply (f_equal rev_string) in Hn. by rewrite rev_string_involutive, rev_string_append, rev_byte_run in Hn.
Qed.

Lemma TrimRightByte_idemp s c : TrimRightByte (TrimRightByte s c) c = TrimRightByte s c.
Proof. destruct (TrimRightByte_split s c) as [n Hn]. by rewrite Hn at 2; rewrite TrimRightByte_run. Qed.

Lemma contains_cons c d s : ContainsByte (String c s) d = Ascii.eqb c d || ContainsByte s d.
Proof. unfold ContainsByte. cbn. destruct (Ascii.eqb c d); [done|]. by destruct (IndexByte s d). Qed.

Lemma contains_append a b d : ContainsByte (a +:+ b) d = ContainsByte a d || ContainsByte b d.
Proof. induction a as [|c a IH]; [done|]. rewrite append_cons, !contains_cons, IH. by rewrite orb_assoc. Qed.

(** A text has no more characters than bytes. *)
Lemma runes_length s : (length (runes s) <= String.length s)%nat.
Proof.
  unfold runes, chunks. rewrite length_fmap. generalize 0%nat. induction s as [|c s IH]; intros n; cbn [chunks_from String.length]; [cbn; lia|].
  destruct n as [|n]; [|specialize (IH n); lia]. destruct (DecodeRune (String c s)) as [r w]. cbn [length]. specialize (IH (Nat.pred w)). lia.
Qed.
