(* ===== verification/GoTime.v ===== *)
(** * Go errors and time

    The errors the program builds (with [fmt.Errorf]'s wrapping, [errors.Join],
    [errors.As] and [errors.Is]), instants and durations in nanoseconds, and
    [Duration.Seconds] with the rounding of [float64]. *)

From S2P Require Import Prelude GoString.

(** ** Errors *)

(** The reasons of an API status error that the program distinguishes. *)
Inductive ApiReason := NotFound | AlreadyExists | Conflict | OtherReason.
#[export] Instance ApiReason_eq_dec : EqDecision ApiReason.
Proof. solve_decision. Defined.

Record ApiError := mkApiError { api_reason : ApiReason; api_msg : string }.
#[export] Instance ApiError_eq_dec : EqDecision ApiError.
Proof. solve_decision. Defined.

(** [ErrPermanent] is [policy.PermanentError]; its [Error] is the text of the
    wrapped error and its [Unwrap] the wrapped error. *)
Inductive GoError :=
| ErrNew (msg : string)
| ErrSentinel (msg : string)
| ErrWrap (pre : string) (inner : GoError) (post : string)
| ErrPermanent (inner : GoError)
| ErrDNS (msg : string) (isNotFound : bool)
| ErrApi (e : ApiError)
| ErrJoin (a b : GoError).
#[export] Instance GoError_eq_dec : EqDecision GoError.
Proof. solve_decision. Defined.

Abbreviation result := (res GoError).

Fixpoint Error (e : GoError) : string :=
  match e with
  | ErrNew m | ErrSentinel m => m
  | ErrWrap pre i post => pre +:+ Error i +:+ post
  | ErrPermanent i => Error i
  | ErrDNS m _ => m
  | ErrApi a => api_msg a
  | ErrJoin a b => Error a +:+ String "010" "" +:+ Error b
  end.

(** [errors.As(err, **PermanentError)]. *)
Fixpoint IsPermanent (e : GoError) : bool :=
  match e with
  | ErrPermanent _ => true
  | ErrWrap _ i _ => IsPermanent i
  | ErrJoin a b => IsPermanent a || IsPermanent b
  | _ => false
  end.

(** [errors.As(err, **net.DNSError)] with the field [IsNotFound] set. *)
Fixpoint IsDNSNotFound (e : GoError) : bool :=
  match e with
  | ErrDNS _ nf => nf
  | ErrWrap _ i _ | ErrPermanent i => IsDNSNotFound i
  | ErrJoin a b => IsDNSNotFound a || IsDNSNotFound b
  | _ => false
  end.

(** [errors.Is] for a sentinel error. *)
Fixpoint errors_Is (e : GoError) (sentinel : string) : bool :=
  match e with
  | ErrSentinel m => (m =? sentinel)%string
  | ErrWrap _ i _ | ErrPermanent i => errors_Is i sentinel
  | ErrJoin a b => errors_Is a sentinel || errors_Is b sentinel
  | _ => false
  end.

(** [apierrors.IsNotFound], applied to the error of a client call. *)
Definition IsNotFound (e : ApiError) : bool :=
  match api_reason e with NotFound => true | _ => false end.

(** ** Instants and durations *)

(** An instant: nanoseconds since Go's zero time. *)
Definition Time := Z.
(** A signed 64-bit number of nanoseconds. *)
Definition Duration := Z.

Definition IsZero (t : Time) : bool := t =? 0.
Definition Second : Duration := 1000000000.
Definition Minute : Duration := 60 * Second.

(** [t.Sub(u)] saturates at the bounds of a [Duration]. *)
Definition Time_Sub (t u : Time) : Duration := Z.max MinInt64 (Z.min MaxInt64 (t - u)).
Definition Time_Add (t : Time) (d : Duration) : Time := t + d.

(** ** [Duration.Seconds] truncated to an integer

    [d.Seconds()] is [float64(sec) + float64(nsec)/1e9]; the division and the
    sum each round to 53 significant bits, ties to even.  [float64(sec)] is
    exact because a duration has fewer than 2^34 seconds. *)

Definition scale (n e : Z) : Z := if 0 <=? e then n * 2 ^ e else n.

(** Nearest integer to [n / d], ties to even. *)
Definition round_even (n d : Z) : Z :=
  let q := n / d in
  let r := n mod d in
  if 2 * r <? d then q
  else if d <? 2 * r then q + 1
  else if Z.even q then q else q + 1.

(** The exponent [k] with [2^k <= n/d < 2^(k+1)], for positive [n] and [d]. *)
Definition exponent (n d : Z) : Z :=
  let k := Z.log2 n - Z.log2 d in
  if scale n (- k) <? scale d k then k - 1 else k.

(** [n/d] rounded to 53 bits, as [m * 2^e]. *)
Definition round53 (n d : Z) : Z * Z :=
  let e := exponent n d - 52 in
  (round_even (scale n (- e)) (scale d e), e).

Definition seconds_nonneg (d : Duration) : Z :=
  let sec := d / Second in
  let nsec := d mod Second in
  if nsec =? 0 then sec
  else
    let '(m, e) := round53 nsec Second in
    let '(m', e') := round53 (sec * 2 ^ (- e) + m) (2 ^ (- e)) in
    if 0 <=? e' then m' * 2 ^ e' else m' / 2 ^ (- e').

(** [int64(d.Seconds())]. *)
Definition SecondsInt (d : Duration) : Z := Z.sgn d * seconds_nonneg (Z.abs d).

(** ** Lemmas *)

Lemma scale_nonneg n e : 0 <= e -> scale n e = n * 2 ^ e.
Proof. intros He. unfold scale. by rewrite (proj2 (Z.leb_le 0 e)). Qed.

Lemma scale_neg n e : e <= 0 -> scale n e = n.
Proof. intros He. unfold scale. destruct (Z.leb_spec 0 e); [|done]. replace e with 0 by lia. lia. Qed.

Lemma round_even_near n d :
  0 < d -> - d <= 2 * (round_even n d * d - n) <= d.
Proof.
  intros Hd. unfold round_even. pose proof (Z.div_mod n d ltac:(lia)).
  pose proof (Z.mod_pos_bound n d Hd).
  destruct (Z.ltb_spec (2 * (n mod d)) d); [nia|].
  destruct (Z.ltb_spec d (2 * (n mod d))); [nia|].
  destruct (Z.even (n / d)); nia.
Qed.

(** Rounding never crosses an integer. *)
Lemma round_even_ge n d a : 0 < d -> a * d <= n -> a <= round_even n d.
Proof.
  intros Hd Ha. assert (a <= n / d) by (apply Z.div_le_lower_bound; lia).
  unfold round_even. repeat case_match; lia.
Qed.
Lemma round_even_le n d a : 0 < d -> n <= a * d -> round_even n d <= a.
Proof.
  intros Hd Ha. pose proof (round_even_near n d Hd).
  pose proof (Z.div_mod n d ltac:(lia)). pose proof (Z.mod_pos_bound n d Hd).
  destruct (Z.eq_dec (n mod d) 0) as [Hz|].
  - unfold round_even. rewrite Hz, (proj2 (Z.ltb_lt _ _)) by lia. nia.
  - assert (n / d < a) by nia. unfold round_even. repeat case_match; lia.
Qed.

Lemma exponent_lower n d :
  0 < n -> 0 < d -> scale d (exponent n d) <= scale n (- exponent n d).
Proof.
  intros Hn Hd. unfold exponent. set (k := Z.log2 n - Z.log2 d).
  destruct (Z.ltb_spec (scale n (- k)) (scale d k)) as [_|]; [|done].
  pose proof (Z.log2_spec n Hn) as [Hn1 Hn2]. pose proof (Z.log2_spec d Hd) as [Hd1 Hd2].
  pose proof (Z.log2_nonneg n). pose proof (Z.log2_nonneg d).
  destruct (Z.le_gt_cases 0 (k - 1)).
  - rewrite (scale_neg n), scale_nonneg by lia.
    assert (2 ^ Z.log2 n = 2 ^ Z.succ (Z.log2 d) * 2 ^ (k - 1)) as Hp.
    { rewrite <- Z.pow_add_r by lia. f_equal. lia. }
    rewrite Hp in *. pose proof (Z.pow_pos_nonneg 2 (k - 1)). nia.
  - rewrite (scale_neg d), scale_nonneg by lia.
    assert (2 ^ Z.succ (Z.log2 d) = 2 ^ Z.log2 n * 2 ^ (- (k - 1))) as Hp.
    { rewrite <- Z.pow_add_r by lia. f_equal. lia. }
    rewrite Hp in *. pose proof (Z.pow_pos_nonneg 2 (- (k - 1))). nia.
Qed.

Lemma exponent_lt n d j :
  0 < n -> 0 < d -> 0 <= j -> n < d * 2 ^ j -> exponent n d < j.
Proof.
  intros Hn Hd Hj Hlt. pose proof (exponent_lower n d Hn Hd) as Hk.
  destruct (Z.lt_ge_cases (exponent n d) j) as [|Hge]; [done|].
  rewrite (scale_neg n), scale_nonneg in Hk by lia.
  assert (2 ^ j <= 2 ^ exponent n d) by (apply Z.pow_le_mono_r; lia). nia.
Qed.

(** The fraction of a second, rounded, is below one. *)
Lemma fraction_rounded ns m e :
  0 < ns < Second -> round53 ns Second = (m, e) ->
  e <= -53 /\ 0 < m /\ 2 * (m * Second) <= 2 * (ns * 2 ^ (- e)) + Second.
Proof.
  unfold Second. intros Hns Hr. unfold round53 in Hr. injection Hr as Hm He.
  assert (exponent ns 1000000000 < 0) as Hlt.
  { pose proof (exponent_lower ns 1000000000 ltac:(lia) ltac:(lia)) as Hk.
    destruct (Z.lt_ge_cases (exponent ns 1000000000) 0) as [|Hge]; [done|].
    rewrite (scale_neg ns), scale_nonneg in Hk by lia.
    pose proof (Z.pow_pos_nonneg 2 (exponent ns 1000000000) ltac:(lia) Hge). lia. }
  rewrite He in Hm. rewrite scale_nonneg, scale_neg in Hm by lia. subst m.
  pose proof (round_even_near (ns * 2 ^ (- e)) 1000000000 ltac:(lia)).
  pose proof (Z.pow_pos_nonneg 2 (- e) ltac:(lia) ltac:(lia)).
  repeat split; [lia| |lia].
  assert (1 <= round_even (ns * 2 ^ (- e)) 1000000000); [|lia].
  apply round_even_ge; [lia|].
  assert (2 ^ 53 <= 2 ^ (- e)) by (apply Z.pow_le_mono_r; lia). nia.
Qed.

(** A sum below [sec + 1], rounded to 53 bits and truncated: [n/d] is the
    exact sum, [sec] its integer part. *)
Section SumRounding.
Context (sec n d m e : Z).
Context (Hd : 0 < d) (Hn : 0 < n) (Hsec : 0 <= sec < 2 ^ 34).
Context (Hlow : sec * d <= n) (Hhigh : n < (sec + 1) * d).
Context (Hround : round53 n d = (m, e)).

Lemma sum_exponent j : 0 <= j -> sec + 1 <= 2 ^ j -> e < j - 52.
Proof using Hd Hn Hhigh Hround.
  intros Hj Hs. unfold round53 in Hround. injection Hround as _ <-.
  assert (exponent n d < j); [|lia]. apply exponent_lt; [lia..|]. nia.
Qed.

Lemma sum_mantissa : e < 0 /\ m = round_even (n * 2 ^ (- e)) d.
Proof using Hd Hn Hsec Hhigh Hround.
  assert (He : e < 0) by (pose proof (sum_exponent 34 ltac:(lia) ltac:(lia)); lia).
  split; [done|]. unfold round53 in Hround. injection Hround as <- He'.
  rewrite He'. by rewrite scale_nonneg, scale_neg by lia.
Qed.

Lemma sum_truncated : sec <= m / 2 ^ (- e) <= sec + 1.
Proof using Hd Hn Hsec Hlow Hhigh Hround.
  destruct sum_mantissa as [He Hm].
  assert (HP : 0 < 2 ^ (- e)) by (apply Z.pow_pos_nonneg; lia).
  assert (Hlo : sec * 2 ^ (- e) <= m) by (rewrite Hm; apply round_even_ge; nia).
  assert (Hhi : m <= (sec + 1) * 2 ^ (- e)) by (rewrite Hm; apply round_even_le; nia).
  split; [apply Z.div_le_lower_bound; lia|].
  assert (m / 2 ^ (- e) < sec + 2); [apply Z.div_lt_upper_bound; nia|lia].
Qed.

(** With a gap of almost [1/10^9] below the next integer and fewer than 2^24
    seconds, the sum stays below the next integer. *)
Lemma sum_truncated_exact :
  sec < 2 ^ 24 -> 2 ^ 53 <= d -> 2 * d - 1000000000 <= 2000000000 * ((sec + 1) * d - n) ->
  m / 2 ^ (- e) = sec.
Proof using Hd Hn Hsec Hlow Hhigh Hround.
  intros Hsmall Hbig Hgap. destruct sum_mantissa as [He Hm].
  assert (HP : 2 ^ 29 <= 2 ^ (- e)).
  { pose proof (sum_exponent 24 ltac:(lia) ltac:(lia)). apply Z.pow_le_mono_r; lia. }
  pose proof (round_even_near (n * 2 ^ (- e)) d Hd) as Hr. rewrite <- Hm in Hr.
  pose proof sum_truncated as Ht.
  set (P := 2 ^ (- e)) in *. assert (Hstrict : m < (sec + 1) * P).
  { destruct (Z.lt_ge_cases m ((sec + 1) * P)) as [|Hge]; [done|exfalso].
    assert (2 * (((sec + 1) * d - n) * P) <= d) by nia. nia. }
  assert (m / P < sec + 1) by (apply Z.div_lt_upper_bound; lia). lia.
Qed.
End SumRounding.

(** The integer part of [Seconds] is the whole seconds or, when the sum
    rounds up, one more; below 2^24 seconds it never rounds up. *)
Lemma seconds_nonneg_bounds d :
  0 <= d <= MaxInt64 ->
  d / Second <= seconds_nonneg d <= d / Second + 1 /\
  (d / Second < 2 ^ 24 -> seconds_nonneg d = d / Second).
Proof.
  intros Hd. unfold seconds_nonneg. set (sec := d / Second). set (ns := d mod Second).
  assert (Hns : 0 <= ns < Second) by (apply Z.mod_pos_bound; done).
  assert (Hsec : 0 <= sec < 2 ^ 34).
  { unfold sec, MaxInt64, Second in *. split; [apply Z.div_pos; lia|].
    apply Z.div_lt_upper_bound; lia. }
  destruct (Z.eqb_spec ns 0) as [|Hnz]; [lia|].
  destruct (round53 ns Second) as [m e] eqn:H1.
  destruct (fraction_rounded ns m e ltac:(lia) H1) as (He & Hm0 & Hm). unfold Second in *.
  assert (HD : 2 ^ 53 <= 2 ^ (- e)) by (apply Z.pow_le_mono_r; lia).
  set (D := 2 ^ (- e)) in *. assert (HnsD : ns * D <= 999999999 * D) by nia.
  destruct (round53 (sec * D + m) D) as [m' e'] eqn:H2.
  assert (HN : sec * D <= sec * D + m < (sec + 1) * D) by lia.
  destruct (sum_mantissa sec (sec * D + m) D m' e') as [He' _]; [lia..|done|].
  rewrite (proj2 (Z.leb_gt 0 e')) by lia. split.
  - apply (sum_truncated sec (sec * D + m) D m' e'); lia || done.
  - intros Hsmall. apply (sum_truncated_exact sec (sec * D + m) D m' e'); lia || done.
Qed.
