(* ===== verification/GoNet.v ===== *)
(** * Go's [net] addresses

    What the program uses of [net] and [net/netip]: [ParseIP], [ParseCIDR],
    [IP.To4], [IP.String], [IP.Equal] and [IPNet.Contains].  An address is its
    list of bytes; [ParseIP] always returns the 16-byte form. *)

From S2P Require Import Prelude GoString.

(** ** Addresses *)

Inductive Addr :=
| Addr4 (bytes : list Z)
| Addr6 (bytes : list Z) (zone : string).

Definition digit_val (c : ascii) : option Z :=
  let b := byte_val c in if in_range 48 57 b then Some (b - 48) else None.

Definition hex_val (c : ascii) : option Z :=
  let b := byte_val c in
  if in_range 48 57 b then Some (b - 48)
  else if in_range 97 102 b then Some (b - 87)
  else if in_range 65 70 b then Some (b - 55)
  else None.

(** [netip.parseIPv4Fields]; [fields] holds the finished fields in order. *)
Fixpoint parseIPv4Fields (s : string) (val : Z) (digLen : nat) (fields : list Z) : option (list Z) :=
  match s with
  | EmptyString => if (length fields <? 3)%nat then None else Some (fields ++ [val])
  | String c s' =>
    match digit_val c with
    | Some d =>
      if (digLen =? 1)%nat && (val =? 0) then None
      else
        let val' := val * 10 + d in
        if 255 <? val' then None else parseIPv4Fields s' val' (S digLen) fields
    | None =>
      if Ascii.eqb c "." then
        if (digLen =? 0)%nat || (s' =? "")%string then None
        else if (length fields =? 3)%nat then None
        else parseIPv4Fields s' 0 0 (fields ++ [val])
      else None
    end
  end.

(** One group of hexadecimal digits: its value, its length and the rest;
    [None] when a fifth digit follows. *)
Fixpoint hex_group (s : string) (acc : Z) (off : nat) : option (Z * nat * string) :=
  match s with
  | EmptyString => Some (acc, off, s)
  | String c s' =>
    match hex_val c with
    | Some d => if (3 <? off)%nat then None else hex_group s' (acc * 16 + d) (S off)
    | None => Some (acc, off, s)
    end
  end.

(** The group loop of [netip.parseIPv6]: at most eight groups; the bytes read
    so far, the position of the ellipsis and the text that remains. *)
Fixpoint parseIPv6Groups (fuel : nat) (s : string) (ip : list Z) (ellipsis : option nat)
  : option (list Z * option nat * string) :=
  match fuel with
  | O => Some (ip, ellipsis, s)
  | S fuel' =>
    match hex_group s 0 0 with
    | None => None
    | Some (acc, off, rest) =>
      if (off =? 0)%nat then None
      else
        let ip' := ip ++ [acc / 256; acc mod 256] in
        match rest with
        | EmptyString => Some (ip', ellipsis, ""%string)
        | String c s1 =>
          if Ascii.eqb c "." then
            if match ellipsis with None => negb (length ip =? 12)%nat | Some _ => false end then None
            else if (16 <? length ip + 4)%nat then None
            else
              match parseIPv4Fields s 0 0 [] with
              | None => None
              | Some f => Some (ip ++ f, ellipsis, ""%string)
              end
          else if Ascii.eqb c ":" then
            match s1 with
            | EmptyString => None
            | String c1 s2 =>
              if Ascii.eqb c1 ":" then
                match ellipsis with
                | Some _ => None
                | None =>
                  if (s2 =? "")%string then Some (ip', Some (length ip'), ""%string)
                  else parseIPv6Groups fuel' s2 ip' (Some (length ip'))
                end
              else parseIPv6Groups fuel' s1 ip' ellipsis
            end
          else None
        end
    end
  end.

(** The ellipsis stands for at least one group of zeros. *)
Definition expandEllipsis (ip : list Z) (ellipsis : option nat) : option (list Z) :=
  if (length ip <? 16)%nat then
    match ellipsis with
    | None => None
    | Some k => Some (take k ip ++ replicate (16 - length ip) 0 ++ drop k ip)
    end
  else match ellipsis with None => Some ip | Some _ => None end.

Definition parseIPv6 (s0 : string) : option Addr :=
  let '(s, zone, found) := CutByte s0 "%" in
  if found && (zone =? "")%string then None
  else
    let '(s, ellipsis) :=
      match CutPrefix "::" s with Some r => (r, Some 0%nat) | None => (s, None) end in
    match ellipsis, s with
    | Some _, EmptyString => Some (Addr6 (replicate 16 0) zone)
    | _, _ =>
      match parseIPv6Groups 8 s [] ellipsis with
      | Some (ip, ell, EmptyString) =>
        match expandEllipsis ip ell with Some b => Some (Addr6 b zone) | None => None end
      | _ => None
      end
    end.

(** [netip.ParseAddr] looks for the first separator. *)
Fixpoint ParseAddr_from (full s : string) : option Addr :=
  match s with
  | EmptyString => None
  | String c s' =>
    if Ascii.eqb c "." then
      match parseIPv4Fields full 0 0 [] with Some f => Some (Addr4 f) | None => None end
    else if Ascii.eqb c ":" then parseIPv6 full
    else if Ascii.eqb c "%" then None
    else ParseAddr_from full s'
  end.
Definition ParseAddr (s : string) : option Addr := ParseAddr_from s s.

Definition zone_of (a : Addr) : string := match a with Addr4 _ => "" | Addr6 _ z => z end.
Definition BitLen (a : Addr) : Z := match a with Addr4 _ => 32 | Addr6 _ _ => 128 end.

Definition v4_in_v6_prefix : list Z := replicate 10 0 ++ [255; 255].
Definition As16 (a : Addr) : list Z :=
  match a with Addr4 b => v4_in_v6_prefix ++ b | Addr6 b _ => b end.

(** [net.ParseIP]. *)
Definition ParseIP (s : string) : option (list Z) :=
  match ParseAddr s with
  | Some a => if (zone_of a =? "")%string then Some (As16 a) else None
  | None => None
  end.

(** [IP.To4] of a 16-byte address, and of a 4-byte one. *)
Definition To4 (ip : list Z) : option (list Z) :=
  if (length ip =? 4)%nat then Some ip
  else if (length ip =? 16)%nat && bool_decide (take 12 ip = v4_in_v6_prefix)
  then Some (drop 12 ip) else None.

(** [ip.Equal(x)]: an IPv4 address equals its IPv4-in-IPv6 form. *)
Definition IP_Equal (a b : list Z) : bool :=
  match To4 a, To4 b with
  | Some x, Some y => bool_decide (x = y)
  | None, None => bool_decide (a = b)
  | _, _ => false
  end.

(** ** Printing *)

Definition dotted (b : list Z) : string := String.concat "." (Itoa <$> b).

Fixpoint hex_digits (fuel : nat) (z : Z) : string :=
  match fuel with
  | O => ""
  | S f => if z =? 0 then "" else hex_digits f (z / 16) +:+ str1 (hex_digit (z mod 16))
  end.
Definition hex_u16 (z : Z) : string := if z =? 0 then "0" else hex_digits 4 z.

Fixpoint u16s (b : list Z) : list Z :=
  match b with hi :: lo :: b' => hi * 256 + lo :: u16s b' | _ => [] end.

Fixpoint zero_run (l : list Z) : nat :=
  match l with z :: l' => if z =? 0 then S (zero_run l') else 0%nat | [] => 0%nat end.

(** The first longest run of at least two zero groups: start and length. *)
Fixpoint longest_zeros (i : nat) (l : list Z) (best : nat * nat) : nat * nat :=
  match l with
  | [] => best
  | _ :: l' =>
    let n := zero_run l in
    longest_zeros (S i) l' (if (2 <=? n)%nat && (best.2 <? n)%nat then (i, n) else best)
  end.

Definition groups_string (l : list Z) : string := String.concat ":" (hex_u16 <$> l).

Definition v6_string (b : list Z) : string :=
  let g := u16s b in
  let '(start, len) := longest_zeros 0 g (0%nat, 0%nat) in
  if (len =? 0)%nat then groups_string g
  else groups_string (take start g) +:+ "::" +:+ groups_string (drop (start + len) g).

Definition IP_String (ip : list Z) : string :=
  match To4 ip with Some b => dotted b | None => v6_string ip end.

(** ** CIDR blocks *)

Record IPNet := mkIPNet { net_IP : list Z; net_Mask : list Z }.

(** [net.dtoi] on the whole text; [None] unless every character is a digit,
    there is one, and no prefix of the number reaches 0xFFFFFF. *)
Fixpoint dtoi (s : string) (n : Z) : option Z :=
  match s with
  | EmptyString => Some n
  | String c s' =>
    match digit_val c with
    | Some d => let n' := n * 10 + d in if 16777215 <=? n' then None else dtoi s' n'
    | None => None
    end
  end.

(** [net.CIDRMask(ones, bits)]. *)
Fixpoint CIDRMask_bytes (nbytes : nat) (ones : Z) : list Z :=
  match nbytes with
  | O => []
  | S k => (if 8 <=? ones then 255 else 255 - (2 ^ (8 - Z.max 0 ones) - 1)) :: CIDRMask_bytes k (ones - 8)
  end.

Definition mask_bytes (ip mask : list Z) : list Z := zip_with Z.land ip mask.

(** [IP.Mask]: a 4-byte mask applies to the last four bytes of an
    IPv4-in-IPv6 address. *)
Definition IP_Mask (ip mask : list Z) : list Z :=
  if (length mask =? 4)%nat && (length ip =? 16)%nat then mask_bytes (drop 12 ip) mask
  else mask_bytes ip mask.

(** [net.ParseCIDR]: the address and its network. *)
Definition ParseCIDR (s : string) : option (list Z * IPNet) :=
  let '(addr, mask, found) := CutByte s "/" in
  if negb found then None
  else
    match ParseAddr addr with
    | None => None
    | Some a =>
      if negb (zone_of a =? "")%string || (mask =? "")%string then None
      else
        match dtoi mask 0 with
        | None => None
        | Some n =>
          if BitLen a <? n then None
          else
            let m := CIDRMask_bytes (Z.to_nat (BitLen a / 8)) n in
            Some (As16 a, mkIPNet (IP_Mask (As16 a) m) m)
        end
    end.

(** [IPNet.Contains]. *)
Definition Contains (n : IPNet) (ip : list Z) : bool :=
  let nn := default (net_IP n) (To4 (net_IP n)) in
  let m := if (length (net_Mask n) =? 16)%nat && (length nn =? 4)%nat
           then drop 12 (net_Mask n) else net_Mask n in
  let x := default ip (To4 ip) in
  (length m =? length nn)%nat && (length x =? length nn)%nat &&
  bool_decide (mask_bytes nn m = mask_bytes x m).
