(* ===== verification/GoJson.v ===== *)
(** * Go's [encoding/json]

    The values of a JSON text, a parser with the lexical rules and the string
    decoding of Go's decoder, [json.Valid], the behaviour of [Decoder.Decode]
    into a [map[string]any] with [UseNumber], and [json.Marshal] of such a map.

    The parser runs on fuel.  Each call consumes a byte of its input before it
    recurses twice, so [2 * length + 2] is enough; [parse_value_fuel] proves
    that more fuel never changes the answer. *)

From S2P Require Import Prelude GoString.

(** Number literals are kept as written ([UseNumber]); objects keep the order
    and the duplicates of the text. *)
Inductive json :=
| JNull
| JBool (b : bool)
| JNumber (lit : string)
| JString (s : string)
| JArray (l : list json)
| JObject (l : list (string * json)).

(** ** Lexing *)

Definition is_ws (c : ascii) : bool :=
  let b := byte_val c in (b =? 32) || (b =? 9) || (b =? 10) || (b =? 13).

Fixpoint skip_ws (s : string) : string :=
  match s with
  | String c s' => if is_ws c then skip_ws s' else s
  | EmptyString => ""
  end.

Definition is_digit (c : ascii) : bool := in_range 48 57 (byte_val c).

Definition hex1 (c : ascii) : option Z :=
  let b := byte_val c in
  if in_range 48 57 b then Some (b - 48)
  else if in_range 97 102 b then Some (b - 87)
  else if in_range 65 70 b then Some (b - 55)
  else None.

Definition hex4 (a b c d : ascii) : option Z :=
  match hex1 a, hex1 b, hex1 c, hex1 d with
  | Some w, Some x, Some y, Some z => Some (((w * 16 + x) * 16 + y) * 16 + z)
  | _, _, _, _ => None
  end.

Definition simple_escape (c : ascii) : option ascii :=
  let b := byte_val c in
  if (b =? 34) || (b =? 92) || (b =? 47) then Some c
  else if b =? 98 then Some (byte_of 8)
  else if b =? 102 then Some (byte_of 12)
  else if b =? 110 then Some (byte_of 10)
  else if b =? 114 then Some (byte_of 13)
  else if b =? 116 then Some (byte_of 9)
  else None.

Definition is_surrogate (r : Z) : bool := in_range 55296 57343 r.
(** [utf16.DecodeRune]: a high and a low surrogate make one rune. *)
Definition surrogate_pair (r1 r2 : Z) : option Z :=
  if in_range 55296 56319 r1 && in_range 56320 57343 r2
  then Some ((r1 - 55296) * 1024 + (r2 - 56320) + 65536) else None.

Definition prepend (p : string) (r : option (string * string)) : option (string * string) :=
  match r with Some (a, rest) => Some (p +:+ a, rest) | None => None end.

(** The bytes of a string literal after its opening quote, escapes resolved,
    and the text after its closing quote. *)
Fixpoint parse_str (s : string) : option (string * string) :=
  match s with
  | EmptyString => None
  | String c s1 =>
    if Ascii.eqb c dquote then Some (""%string, s1)
    else if Ascii.eqb c backslash then
      match s1 with
      | EmptyString => None
      | String e s2 =>
        match simple_escape e with
        | Some ch => prepend (str1 ch) (parse_str s2)
        | None =>
          if Ascii.eqb e "u" then
            match s2 with
            | String h1 (String h2 (String h3 (String h4 s3))) =>
              match hex4 h1 h2 h3 h4 with
              | None => None
              | Some r =>
                if is_surrogate r then
                  match s3 with
                  | String b (String u (String g1 (String g2 (String g3 (String g4 s4))))) =>
                    match (if Ascii.eqb b backslash && Ascii.eqb u "u"
                           then hex4 g1 g2 g3 g4 else None) with
                    | Some r2 =>
                      match surrogate_pair r r2 with
                      | Some p => prepend (EncodeRune p) (parse_str s4)
                      | None => prepend (EncodeRune RuneError) (parse_str s3)
                      end
                    | None => prepend (EncodeRune RuneError) (parse_str s3)
                    end
                  | _ => prepend (EncodeRune RuneError) (parse_str s3)
                  end
                else prepend (EncodeRune r) (parse_str s3)
              end
            | _ => None
            end
          else None
        end
      end
    else if byte_val c <? 32 then None
    else prepend (str1 c) (parse_str s1)
  end.

(** Invalid UTF-8 in a literal becomes U+FFFD. *)
Definition unquoted (s : string) : string := string_of_runes (runes s).

Fixpoint take_digits (s : string) : string * string :=
  match s with
  | String c s' =>
    if is_digit c then let '(d, r) := take_digits s' in (String c d, r) else (""%string, s)
  | EmptyString => (""%string, ""%string)
  end.

Definition parse_int_part (s : string) : option (string * string) :=
  match s with
  | String c s' =>
    if Ascii.eqb c "0" then Some ("0"%string, s')
    else if is_digit c then Some (take_digits s) else None
  | EmptyString => None
  end.

Definition parse_frac (s : string) : option (string * string) :=
  match s with
  | String c s' =>
    if Ascii.eqb c "." then
      let '(d, r) := take_digits s' in
      if (d =? "")%string then None else Some (String c d, r)
    else Some (""%string, s)
  | EmptyString => Some (""%string, s)
  end.

Definition parse_exp (s : string) : option (string * string) :=
  match s with
  | String c s' =>
    if Ascii.eqb c "e" || Ascii.eqb c "E" then
      let '(sign, s2) :=
        match s' with
        | String g t => if Ascii.eqb g "+" || Ascii.eqb g "-" then (str1 g, t) else (""%string, s')
        | EmptyString => (""%string, s')
        end in
      let '(d, r) := take_digits s2 in
      if (d =? "")%string then None else Some (String c (sign +:+ d), r)
    else Some (""%string, s)
  | EmptyString => Some (""%string, s)
  end.

Definition parse_number (s : string) : option (string * string) :=
  let '(sign, s1) :=
    match s with
    | String c s' => if Ascii.eqb c "-" then ("-"%string, s') else (""%string, s)
    | EmptyString => (""%string, s)
    end in
  match parse_int_part s1 with
  | None => None
  | Some (i, s2) =>
    match parse_frac s2 with
    | None => None
    | Some (f, s3) =>
      match parse_exp s3 with
      | None => None
      | Some (e, s4) => Some (sign +:+ i +:+ f +:+ e, s4)
      end
    end
  end.

(** ** Values *)

(** The nesting the scanner allows. *)
Definition maxNestingDepth : Z := 10000.

Fixpoint parse_value (fuel : nat) (depth : Z) (s : string) : option (json * string) :=
  match fuel with
  | O => None
  | S f =>
    match s with
    | EmptyString => None
    | String c s1 =>
      if Ascii.eqb c "{" then
        if maxNestingDepth <=? depth then None
        else
          match skip_ws s1 with
          | String d s2 =>
            if Ascii.eqb d "}" then Some (JObject [], s2)
            else
              match parse_members f (depth + 1) (skip_ws s1) with
              | Some (m, r) => Some (JObject m, r)
              | None => None
              end
          | EmptyString => None
          end
      else if Ascii.eqb c "[" then
        if maxNestingDepth <=? depth then None
        else
          match skip_ws s1 with
          | String d s2 =>
            if Ascii.eqb d "]" then Some (JArray [], s2)
            else
              match parse_elems f (depth + 1) (skip_ws s1) with
              | Some (l, r) => Some (JArray l, r)
              | None => None
              end
          | EmptyString => None
          end
      else if Ascii.eqb c dquote then
        match parse_str s1 with
        | Some (b, r) => Some (JString (unquoted b), r)
        | None => None
        end
      else
        match CutPrefix "true" s with
        | Some r => Some (JBool true, r)
        | None =>
          match CutPrefix "false" s with
          | Some r => Some (JBool false, r)
          | None =>
            match CutPrefix "null" s with
            | Some r => Some (JNull, r)
            | None =>
              match parse_number s with
              | Some (n, r) => Some (JNumber n, r)
              | None => None
              end
            end
          end
        end
    end
  end
with parse_elems (fuel : nat) (depth : Z) (s : string) : option (list json * string) :=
  match fuel with
  | O => None
  | S f =>
    match parse_value f depth s with
    | None => None
    | Some (v, r) =>
      match skip_ws r with
      | String d r1 =>
        if Ascii.eqb d "]" then Some ([v], r1)
        else if Ascii.eqb d "," then
          match parse_elems f depth (skip_ws r1) with
          | Some (l, r2) => Some (v :: l, r2)
          | None => None
          end
        else None
      | EmptyString => None
      end
    end
  end
with parse_members (fuel : nat) (depth : Z) (s : string) : option (list (string * json) * string) :=
  match fuel with
  | O => None
  | S f =>
    match s with
    | String q s1 =>
      if Ascii.eqb q dquote then
        match parse_str s1 with
        | None => None
        | Some (k, r) =>
          match skip_ws r with
          | String d r1 =>
            if Ascii.eqb d ":" then
              match parse_value f depth (skip_ws r1) with
              | None => None
              | Some (v, r2) =>
                match skip_ws r2 with
                | String d2 r3 =>
                  if Ascii.eqb d2 "}" then Some ([(unquoted k, v)], r3)
                  else if Ascii.eqb d2 "," then
                    match parse_members f depth (skip_ws r3) with
                    | Some (m, r4) => Some ((unquoted k, v) :: m, r4)
                    | None => None
                    end
                  else None
                | EmptyString => None
                end
              end
            else None
          | EmptyString => None
          end
        end
      else None
    | EmptyString => None
    end
  end.

Definition json_fuel (s : string) : nat := 2 * String.length s + 2.

(** The first value of a stream and what follows it ([Decoder.Decode]). *)
Definition decode_first (s : string) : option (json * string) :=
  parse_value (json_fuel s) 0 (skip_ws s).

(** [json.Valid]. *)
Definition json_Valid (s : string) : bool :=
  match decode_first s with
  | Some (_, r) => (skip_ws r =? "")%string
  | None => false
  end.

(** The members of an object as a Go map: the last duplicate wins. *)
Definition members_map (l : list (string * json)) : gmap string json :=
  foldl (fun m kv => <[kv.1 := kv.2]> m) ∅ l.

(** ** [json.Marshal] *)

Definition u_escape (r : Z) : string :=
  String backslash (String "u" (String (hex_digit (r / 4096 mod 16)) (String (hex_digit (r / 256 mod 16))
    (String (hex_digit (r / 16 mod 16)) (String (hex_digit (r mod 16)) ""))))).

(** One rune of a string, HTML characters escaped. *)
Definition marshal_chunk (c : Z * string) : string :=
  let r := c.1 in
  if invalid_chunk c then u_escape RuneError
  else if (r =? 34) || (r =? 92) then String backslash (str1 (byte_of r))
  else if r =? 8 then String backslash "b"
  else if r =? 12 then String backslash "f"
  else if r =? 10 then String backslash "n"
  else if r =? 13 then String backslash "r"
  else if r =? 9 then String backslash "t"
  else if (r <? 32) || (r =? 60) || (r =? 62) || (r =? 38) || (r =? 8232) || (r =? 8233) then u_escape r
  else c.2.

Definition marshal_string (s : string) : string :=
  str1 dquote +:+ concat_strs (marshal_chunk <$> chunks s) +:+ str1 dquote.

Definition marshal_list (open close : string) (l : list string) : string :=
  open +:+ String.concat "," l +:+ close.

(** The value printed with its objects' members sorted by key; an object is a
    Go map here, so its keys are distinct. *)
Fixpoint Marshal (v : json) : string :=
  match v with
  | JNull => "null"
  | JBool b => FormatBool b
  | JNumber n => if (n =? "")%string then "0" else n
  | JString s => marshal_string s
  | JArray l => marshal_list "[" "]" (Marshal <$> l)
  | JObject l =>
    let m : gmap string string :=
      foldl (fun m kv => <[kv.1 := Marshal kv.2]> m) ∅ l in
    marshal_list "{" "}"
      ((fun k => marshal_string k +:+ ":" +:+ default ""%string (m !! k))
         <$> sort_strings (map_to_list m).*1)
  end.

(** A [map[string]any] marshals like the object with its entries. *)
Definition Marshal_map (m : gmap string json) : string := Marshal (JObject (map_to_list m)).

(** ** The parser consumes its input *)

Lemma skip_ws_length s : (String.length (skip_ws s) <= String.length s)%nat.
Proof. induction s as [|c s IH]; simpl; [lia|]. destruct (is_ws c); simpl; lia. Qed.

Lemma CutPrefix_length p s r :
  CutPrefix p s = Some r -> String.length s = (String.length p + String.length r)%nat.
Proof. intros ->%CutPrefix_Some. apply length_append. Qed.

Lemma take_digits_length s d r :
  take_digits s = (d, r) -> String.length s = (String.length d + String.length r)%nat.
Proof.
  revert d r. induction s as [|c s IH]; intros d r; simpl; [by intros; simplify_eq|].
  destruct (is_digit c); [|by intros; simplify_eq].
  destruct (take_digits s) as [d' r'] eqn:E. intros; simplify_eq/=. by rewrite (IH d' r).
Qed.

Lemma parse_number_length s n r :
  parse_number s = Some (n, r) -> (String.length r < String.length s)%nat.
Proof.
  unfold parse_number, parse_int_part, parse_frac, parse_exp. intros H.
  repeat (case_match; simplify_eq/=);
    repeat match goal with H : take_digits _ = _ |- _ => apply take_digits_length in H end;
    simpl in *; lia.
Qed.

Lemma parse_str_length s b r :
  parse_str s = Some (b, r) -> (String.length r < String.length s)%nat.
Proof.
  assert (H : forall n s b r, (String.length s < n)%nat -> parse_str s = Some (b, r) ->
                (String.length r < String.length s)%nat); [|eauto].
  clear s b r. induction n as [|n IH]; [lia|]. intros s b r Hlen.
  destruct s as [|c s1]; [done|]. cbn [parse_str]. unfold prepend. intros H.
  repeat (case_match; simplify_eq); cbn [String.length] in *; try lia;
    match goal with
    | H : parse_str _ = Some _ |- _ => apply IH in H; cbn [String.length] in *; lia
    end.
Qed.

Lemma parse_consumes f :
  (forall d s v r, parse_value f d s = Some (v, r) -> (String.length r < String.length s)%nat) /\
  (forall d s v r, parse_elems f d s = Some (v, r) -> (String.length r < String.length s)%nat) /\
  (forall d s v r, parse_members f d s = Some (v, r) -> (String.length r < String.length s)%nat).
Proof.
  induction f as [|f (IHv & IHe & IHm)]; [by repeat split|]. repeat split; intros d s v r H;
    cbn [parse_value parse_elems parse_members] in H.
  all: repeat (case_match; simplify_eq);
    repeat match goal with
    | H : parse_value _ _ _ = Some _ |- _ => apply IHv in H
    | H : parse_elems _ _ _ = Some _ |- _ => apply IHe in H
    | H : parse_members _ _ _ = Some _ |- _ => apply IHm in H
    | H : parse_str _ = Some _ |- _ => apply parse_str_length in H
    | H : parse_number _ = Some _ |- _ => apply parse_number_length in H; simpl in H
    | H : CutPrefix _ _ = Some _ |- _ => apply CutPrefix_length in H; simpl in H
    | H : skip_ws ?t = String _ _ |- _ =>
        pose proof (skip_ws_length t); rewrite H in *; simpl in *; clear H
    end;
    repeat match goal with
    | H : context [String.length (skip_ws ?t)] |- _ =>
        pose proof (skip_ws_length t); generalize dependent (String.length (skip_ws t)); intros
    end; simpl in *; lia.
Qed.

Lemma parse_value_consumes f d s v r :
  parse_value f d s = Some (v, r) -> (String.length r < String.length s)%nat.
Proof. apply parse_consumes. Qed.

(** Closes a length bound from the facts about the rests of the parsers. *)
Ltac consumed :=
  repeat match goal with
  | H : parse_value _ _ _ = Some _ |- _ => apply parse_value_consumes in H
  | H : parse_str _ = Some _ |- _ => apply parse_str_length in H
  | H : skip_ws ?t = String _ _ |- _ =>
      pose proof (skip_ws_length t); rewrite H in *; cbn [String.length] in *; clear H
  | |- context [String.length (skip_ws ?t)] =>
      pose proof (skip_ws_length t); generalize dependent (String.length (skip_ws t)); intros
  | H : context [String.length (skip_ws ?t)] |- _ =>
      pose proof (skip_ws_length t); generalize dependent (String.length (skip_ws t)); intros
  end; cbn [String.length] in *; lia.

Lemma parse_fuel_irrelevant f1 :
  (forall f2 d s, (2 * String.length s + 2 <= f1)%nat -> (2 * String.length s + 2 <= f2)%nat ->
     parse_value f1 d s = parse_value f2 d s) /\
  (forall f2 d s, (2 * String.length s + 3 <= f1)%nat -> (2 * String.length s + 3 <= f2)%nat ->
     parse_elems f1 d s = parse_elems f2 d s) /\
  (forall f2 d s, (2 * String.length s + 3 <= f1)%nat -> (2 * String.length s + 3 <= f2)%nat ->
     parse_members f1 d s = parse_members f2 d s).
Proof.
  induction f1 as [|f1 (IHv & IHe & IHm)]; [repeat split; intros; lia|].
  repeat split; intros f2 d s H1 H2; (destruct f2 as [|f2]; [lia|]);
    cbn [parse_value parse_elems parse_members].
  - destruct s as [|c s1]; [done|]. cbn [String.length] in H1, H2.
    pose proof (skip_ws_length s1).
    rewrite (IHe f2 (d + 1) (skip_ws s1)), (IHm f2 (d + 1) (skip_ws s1)) by lia. done.
  - rewrite (IHv f2) by lia. destruct (parse_value f2 d s) as [[v r]|] eqn:Hv; [|done].
    destruct (skip_ws r) as [|x r1] eqn:Hr; [done|].
    rewrite (IHe f2 d (skip_ws r1)) by consumed. done.
  - destruct s as [|q s1]; [done|]. destruct (Ascii.eqb q dquote); [|done].
    destruct (parse_str s1) as [[k r]|] eqn:Hk; [|done].
    destruct (skip_ws r) as [|x r1] eqn:Hr; [done|].
    rewrite (IHv f2 d (skip_ws r1)) by consumed.
    destruct (Ascii.eqb x ":"); [|done].
    destruct (parse_value f2 d (skip_ws r1)) as [[v r2]|] eqn:Hv; [|done].
    destruct (skip_ws r2) as [|x2 r3] eqn:Hr2; [done|].
    rewrite (IHm f2 d (skip_ws r3)) by consumed. done.
Qed.

(** More fuel than [json_fuel] changes nothing. *)
Lemma parse_value_fuel f d s :
  (json_fuel s <= f)%nat -> parse_value f d s = parse_value (json_fuel s) d s.
Proof. unfold json_fuel. intros Hf. apply parse_fuel_irrelevant; lia. Qed.

(** ** No array is longer than its text *)

Lemma parse_elems_count f d s l r :
  parse_elems f d s = Some (l, r) -> (length l + String.length r <= String.length s)%nat.
Proof.
  revert s l r. induction f as [|f IH]; intros s l r; cbn [parse_elems]; [done|]. intros H.
  destruct (parse_value f d s) as [[v r1]|] eqn:Hv; [|done]. destruct (skip_ws r1) as [|c r2] eqn:Hr; [done|].
  destruct (Ascii.eqb c "]"); [simplify_eq; cbn [length]; consumed|]. destruct (Ascii.eqb c ","); [|done].
  destruct (parse_elems f d (skip_ws r2)) as [[l' r3]|] eqn:He; [|done]. simplify_eq. apply IH in He. cbn [length]. consumed.
Qed.

Lemma parse_array_count f d s l r : parse_value f d s = Some (JArray l, r) -> (length l <= String.length s)%nat.
Proof.
  destruct f as [|f]; cbn [parse_value]; [done|]. intros H. destruct s as [|c s1]; [done|].
  destruct (Ascii.eqb c "{"); [by repeat (case_match; simplify_eq)|].
  destruct (Ascii.eqb c "["); [|by repeat (case_match; simplify_eq)]. destruct (_ <=? d); [done|].
  pose proof (skip_ws_length s1) as Hw. destruct (skip_ws s1) as [|x s2]; [done|].
  destruct (Ascii.eqb x "]"); [simplify_eq; cbn; lia|].
  destruct (parse_elems f (d + 1) (String x s2)) as [[l' r']|] eqn:He; simplify_eq. apply parse_elems_count in He. cbn [String.length] in *. lia.
Qed.

Lemma parse_members_count f d s m r k l :
  parse_members f d s = Some (m, r) -> (k, JArray l) ∈ m -> (length l <= String.length s)%nat.
Proof.
  revert s m r. induction f as [|f IH]; intros s m r; cbn [parse_members]; [done|]. intros H Hin.
  destruct s as [|q s1]; [done|]. destruct (Ascii.eqb q dquote); [|done].
  destruct (parse_str s1) as [[k1 r1]|] eqn:Hk; [|done]. destruct (skip_ws r1) as [|c r2] eqn:Hr; [done|].
  destruct (Ascii.eqb c ":"); [|done]. destruct (parse_value f d (skip_ws r2)) as [[v r3]|] eqn:Hv; [|done].
  assert (Hval : v = JArray l -> (length l <= String.length (String q s1))%nat).
  { intros ->. pose proof Hv as Hc%parse_array_count. clear Hv. consumed. }
  destruct (skip_ws r3) as [|c2 r4] eqn:Hr3; [done|].
  destruct (Ascii.eqb c2 "}"); [simplify_eq; apply list_elem_of_singleton in Hin; simplify_eq; by apply Hval|].
  destruct (Ascii.eqb c2 ","); [|done]. destruct (parse_members f d (skip_ws r4)) as [[m' r5]|] eqn:Hm; [|done]. simplify_eq.
  apply elem_of_cons in Hin as [?|Hin]; [simplify_eq; by apply Hval|]. apply IH in Hm; [|done]. consumed.
Qed.

Lemma decode_array_count s m rest k l :
  decode_first s = Some (JObject m, rest) -> (k, JArray l) ∈ m -> (length l <= String.length s)%nat.
Proof.
  unfold decode_first. generalize (json_fuel s). intros f Hp Hin. pose proof (skip_ws_length s) as Hs.
  destruct f as [|f]; [done|]. cbn [parse_value] in Hp. destruct (skip_ws s) as [|c s1]; [done|].
  destruct (Ascii.eqb c "{"); [|by repeat (case_match; simplify_eq)]. destruct (_ <=? 0); [done|].
  pose proof (skip_ws_length s1) as Hw. destruct (skip_ws s1) as [|x s2]; [done|].
  destruct (Ascii.eqb x "}"); [simplify_eq; by apply elem_of_nil in Hin|].
  destruct (parse_members f _ (String x s2)) as [[m' r']|] eqn:Hm; simplify_eq.
  pose proof (parse_members_count _ _ _ _ _ _ _ Hm Hin). cbn [String.length] in *. lia.
Qed.
