(* ===== verification/JsonRoundtrip.v ===== *)
(** * JSON round trips

    What [json.Marshal] prints, the decoder reads back. *)

From S2P Require Import Prelude GoString GoJson.

(** ** Strings *)

Lemma byte_of_byte_val c : byte_of (byte_val c) = c.
Proof. unfold byte_of, byte_val. rewrite N2Z.id. apply ascii_N_embedding. Qed.

Ltac range_hyps :=
  repeat match goal with
  | H : _ && _ = true |- _ => apply andb_true_iff in H as [? ?]
  | H : is_cont _ = true |- _ => unfold is_cont in H
  | H : in_range _ _ _ = true |- _ => apply in_range_spec in H
  | H : (_ <? _) = true |- _ => apply Z.ltb_lt in H
  | H : (_ <? _) = false |- _ => apply Z.ltb_ge in H
  | H : (_ =? _) = true |- _ => apply Z.eqb_eq in H
  | H : (_ =? _) = false |- _ => apply Z.eqb_neq in H
  end.

(** Digits base 64 of a sum of continuation bytes. *)
Lemma div64 a b : 0 <= b < 64 -> (a * 64 + b) / 64 = a.
Proof. intros Hb. rewrite Z.div_add_l by lia. rewrite Z.div_small by lia. lia. Qed.
Lemma mod64 a b : 0 <= b < 64 -> (a * 64 + b) mod 64 = b.
Proof. intros Hb. rewrite Z.add_comm, Z.mod_add by lia. apply Z.mod_small. lia. Qed.

Lemma encode_2 a b : 2 <= a <= 31 -> 0 <= b < 64 ->
  EncodeRune (a * 64 + b) = String (byte_of (192 + a)) (str1 (byte_of (128 + b))).
Proof.
  intros Ha Hb. unfold EncodeRune. rewrite (proj2 (valid_rune_spec _)) by lia. cbn zeta. decide_ranges.
  by rewrite div64, mod64 by lia.
Qed.

Lemma encode_3 a b c : 0 <= a <= 15 -> 0 <= b < 64 -> 0 <= c < 64 ->
  (2048 <= (a * 64 + b) * 64 + c <= 55295 \/ 57344 <= (a * 64 + b) * 64 + c <= 65535) ->
  EncodeRune ((a * 64 + b) * 64 + c) =
  String (byte_of (224 + a)) (String (byte_of (128 + b)) (str1 (byte_of (128 + c)))).
Proof.
  intros Ha Hb Hc Hr. unfold EncodeRune. rewrite (proj2 (valid_rune_spec _)) by lia. cbn zeta. decide_ranges.
  change 4096 with (64 * 64). by rewrite <- Z.div_div, !div64, !mod64 by lia.
Qed.

Lemma encode_4 a b c d : 0 <= a <= 4 -> 0 <= b < 64 -> 0 <= c < 64 -> 0 <= d < 64 ->
  65536 <= ((a * 64 + b) * 64 + c) * 64 + d <= 1114111 ->
  EncodeRune (((a * 64 + b) * 64 + c) * 64 + d) =
  String (byte_of (240 + a)) (String (byte_of (128 + b)) (String (byte_of (128 + c)) (str1 (byte_of (128 + d))))).
Proof.
  intros Ha Hb Hc Hd Hr. unfold EncodeRune. rewrite (proj2 (valid_rune_spec _)) by lia. cbn zeta. decide_ranges.
  change 262144 with (64 * 64 * 64). change 4096 with (64 * 64). by rewrite <- !Z.div_div, !div64, !mod64 by lia.
Qed.

(** A byte sequence that decodes is the encoding of what it decodes to. *)
Lemma encode_decode s r w :
  s <> ""%string -> DecodeRune s = (r, w) -> (r = RuneError /\ w = 1%nat) \/ take_str w s = EncodeRune r.
Proof.
  intros Hs Hd. destruct s as [|c0 s1]; [done|]. cbn [DecodeRune] in Hd. pose proof (byte_val_bound c0).
  destruct (Z.ltb_spec (byte_val c0) 128).
  { simplify_eq. right. unfold EncodeRune. rewrite (proj2 (valid_rune_spec _)) by lia. cbn zeta. decide_ranges.
    rewrite byte_of_byte_val. by destruct s1. }
  destruct (in_range 194 223 (byte_val c0)) eqn:H2.
  { destruct s1 as [|c1 s2]; [naive_solver|]. destruct (is_cont (byte_val c1)) eqn:Hc; [|naive_solver]. range_hyps.
    simplify_eq. right. rewrite encode_2 by lia. rewrite !Zplus_minus, !byte_of_byte_val. by destruct s2. }
  destruct (in_range 224 239 (byte_val c0)) eqn:H3.
  { destruct s1 as [|c1 [|c2 s2]]; [naive_solver..|]. destruct (in_range _ _ _ && _) eqn:Hc; [|naive_solver].
    apply andb_true_iff in Hc as [Hl Hc]. apply in_range_spec in Hl. range_hyps. simplify_eq. right.
    replace ((byte_val c0 - 224) * 4096 + (byte_val c1 - 128) * 64 + (byte_val c2 - 128)) with
      (((byte_val c0 - 224) * 64 + (byte_val c1 - 128)) * 64 + (byte_val c2 - 128)) by lia.
    destruct (Z.eqb_spec (byte_val c0) 224), (Z.eqb_spec (byte_val c0) 237); try lia.
    all: rewrite encode_3 by lia; rewrite !Zplus_minus, !byte_of_byte_val; by destruct s2. }
  destruct (in_range 240 244 (byte_val c0)) eqn:H4; [|naive_solver].
  destruct s1 as [|c1 [|c2 [|c3 s2]]]; [naive_solver..|]. destruct (in_range _ _ _ && _ && _) eqn:Hc; [|naive_solver].
  apply andb_true_iff in Hc as [Hc ?]. apply andb_true_iff in Hc as [Hl ?]. apply in_range_spec in Hl. range_hyps.
  simplify_eq. right.
  replace ((byte_val c0 - 240) * 262144 + (byte_val c1 - 128) * 4096 + (byte_val c2 - 128) * 64 + (byte_val c3 - 128))
    with ((((byte_val c0 - 240) * 64 + (byte_val c1 - 128)) * 64 + (byte_val c2 - 128)) * 64 + (byte_val c3 - 128)) by lia.
  destruct (Z.eqb_spec (byte_val c0) 240), (Z.eqb_spec (byte_val c0) 244); try lia.
  all: rewrite encode_4 by lia; rewrite !Zplus_minus, !byte_of_byte_val; by destruct s2.
Qed.

(** A chunk is an invalid byte or the encoding of its rune. *)
Definition good_chunk (c : Z * string) : Prop :=
  valid_rune c.1 = true /\ (invalid_chunk c = true \/ c.2 = EncodeRune c.1).

Lemma chunks_good s : Forall good_chunk (chunks s).
Proof.
  unfold chunks. assert (H : forall n, Forall good_chunk (chunks_from n s)); [|done].
  induction s as [|c s IH]; intros n; [constructor|]. destruct n; [|apply IH].
  cbn [chunks_from]. destruct (DecodeRune (String c s)) as [r w] eqn:Hd. constructor; [|apply IH].
  pose proof (DecodeRune_cases (String c s) ltac:(done)) as [Hv _]. rewrite Hd in Hv. split; [done|].
  apply encode_decode in Hd as [[-> ->]|He]; [left|right; exact He|done].
  cbn. unfold invalid_chunk. cbn. by destruct s.
Qed.

Lemma prepend_app a b r : prepend a (prepend b r) = prepend (a +:+ b) r.
Proof. destruct r as [[x y]|]; [|done]. cbn. by rewrite append_assoc. Qed.

(** Bytes that a literal holds as they are. *)
Definition plain (c : ascii) : Prop := 32 <= byte_val c /\ c <> dquote /\ c <> backslash.

Lemma parse_str_plain b t :
  Forall plain (String.list_ascii_of_string b) -> parse_str (b +:+ t) = prepend b (parse_str t).
Proof.
  induction b as [|c b IH]; intros Hp.
  { change (parse_str ("" +:+ t)) with (parse_str t). by destruct (parse_str t) as [[]|]. }
  rewrite append_cons. cbn [parse_str]. inversion Hp as [|? ? (Hc & Hd & Hb) Hp']; subst.
  destruct (Ascii.eqb_spec c dquote); [done|]. destruct (Ascii.eqb_spec c backslash); [done|].
  destruct (Z.ltb_spec (byte_val c) 32); [lia|]. rewrite IH by done. by rewrite prepend_app.
Qed.

Lemma plain_byte z : 32 <= z <= 255 -> z <> 34 -> z <> 92 -> plain (byte_of z).
Proof.
  intros Hz H1 H2. unfold plain. rewrite byte_val_byte_of by lia. split; [lia|].
  split; intros He; apply (f_equal byte_val) in He; rewrite byte_val_byte_of in He by lia; by subst.
Qed.

Lemma encode_plain r : valid_rune r = true -> 32 <= r -> r <> 34 -> r <> 92 ->
  Forall plain (String.list_ascii_of_string (EncodeRune r)).
Proof.
  intros Hv H32 H34 H92. pose proof (proj1 (valid_rune_spec r) Hv) as Hr. unfold EncodeRune. rewrite Hv. cbn zeta.
  pose proof (Z.mod_pos_bound r 64 ltac:(lia)). pose proof (Z.mod_pos_bound (r / 64) 64 ltac:(lia)).
  pose proof (Z.mod_pos_bound (r / 4096) 64 ltac:(lia)).
  destruct (Z.leb_spec r 127); [|destruct (Z.leb_spec r 2047); [|destruct (Z.leb_spec r 65535)]];
    cbn; repeat constructor; apply plain_byte; try lia.
  all: try (assert (0 <= r / 64 < 32) by (split; [apply Z.div_pos|apply Z.div_lt_upper_bound]; lia); lia).
  all: try (assert (0 <= r / 4096 < 16) by (split; [apply Z.div_pos|apply Z.div_lt_upper_bound]; lia); lia).
  all: assert (0 <= r / 262144 < 5) by (split; [apply Z.div_pos|apply Z.div_lt_upper_bound]; lia); lia.
Qed.

Lemma hex1_digit z : 0 <= z < 16 -> hex1 (hex_digit z) = Some z.
Proof.
  intros Hz. unfold hex1, hex_digit. destruct (Z.leb_spec z 9); rewrite byte_val_byte_of by lia; decide_ranges; f_equal; lia.
Qed.

Lemma hex4_digits r : 0 <= r < 65536 ->
  hex4 (hex_digit (r / 4096 mod 16)) (hex_digit (r / 256 mod 16)) (hex_digit (r / 16 mod 16)) (hex_digit (r mod 16)) = Some r.
Proof.
  intros Hr. unfold hex4.
  pose proof (Z.mod_pos_bound r 16 ltac:(lia)). pose proof (Z.mod_pos_bound (r / 16) 16 ltac:(lia)).
  pose proof (Z.mod_pos_bound (r / 256) 16 ltac:(lia)). pose proof (Z.mod_pos_bound (r / 4096) 16 ltac:(lia)).
  rewrite !hex1_digit by lia. f_equal.
  pose proof (Z.div_mod r 16 ltac:(lia)). pose proof (Z.div_mod (r / 16) 16 ltac:(lia)).
  pose proof (Z.div_mod (r / 256) 16 ltac:(lia)).
  assert (r / 16 / 16 = r / 256) by (by rewrite Z.div_div by lia).
  assert (r / 256 / 16 = r / 4096) by (by rewrite Z.div_div by lia).
  assert (0 <= r / 4096 < 16) by (split; [apply Z.div_pos|apply Z.div_lt_upper_bound]; lia).
  rewrite (Z.mod_small (r / 4096) 16) by lia. lia.
Qed.

Lemma parse_u_escape r t : 0 <= r < 65536 -> is_surrogate r = false ->
  parse_str (u_escape r +:+ t) = prepend (EncodeRune r) (parse_str t).
Proof.
  intros Hr Hs. unfold u_escape. rewrite !append_cons. cbn [parse_str].
  change (Ascii.eqb backslash dquote) with false. change (Ascii.eqb backslash backslash) with true. cbn [andb].
  change (simple_escape "u") with (@None ascii). change (Ascii.eqb "u" "u") with true. cbn iota.
  rewrite hex4_digits, Hs by lia. done.
Qed.

Lemma parse_chunk c t : good_chunk c ->
  parse_str (marshal_chunk c +:+ t) = prepend (EncodeRune c.1) (parse_str t).
Proof.
  destruct c as [r b]. intros [Hv Hb]. cbn [fst snd] in *. unfold marshal_chunk. cbn [fst snd].
  pose proof (proj1 (valid_rune_spec r) Hv) as Hr.
  destruct (invalid_chunk (r, b)) eqn:Hi.
  { unfold invalid_chunk in Hi. apply andb_true_iff in Hi as [Hr' _]. cbn in Hr'. apply Z.eqb_eq in Hr' as ->.
    by rewrite parse_u_escape. }
  destruct Hb as [?| ->]; [done|].
  destruct (Z.eqb_spec r 34) as [->|H34]; [done|]. destruct (Z.eqb_spec r 92) as [->|H92]; [done|]. cbn [orb].
  destruct (Z.eqb_spec r 8) as [->|]; [done|]. destruct (Z.eqb_spec r 12) as [->|]; [done|].
  destruct (Z.eqb_spec r 10) as [->|]; [done|]. destruct (Z.eqb_spec r 13) as [->|]; [done|].
  destruct (Z.eqb_spec r 9) as [->|]; [done|].
  destruct (_ || _) eqn:He.
  - apply parse_u_escape; [|apply in_range_false]; repeat (apply orb_true_iff in He as [He|He]); range_hyps; lia.
  - repeat (apply orb_false_iff in He as [He ?]). range_hyps. apply parse_str_plain, encode_plain; lia || done.
Qed.

(** The literal of a string is read back as the string, with U+FFFD for its
    invalid bytes. *)
Lemma parse_marshal_string s t :
  parse_str (concat_strs (marshal_chunk <$> chunks s) +:+ String dquote t) = Some (unquoted s, t).
Proof.
  unfold unquoted, runes, string_of_runes. pose proof (chunks_good s) as Hg.
  induction Hg as [|c l Hc Hg IH]; [done|].
  rewrite !fmap_cons. cbn [concat_strs foldr]. rewrite append_assoc, parse_chunk by done.
  unfold concat_strs in IH. rewrite IH. done.
Qed.

Lemma unquoted_idemp s : unquoted (unquoted s) = unquoted s.
Proof. unfold unquoted. by rewrite runes_string_of_runes by apply runes_valid. Qed.

(** ** Numbers *)

(** The first byte of a text, if any, is none that [bad] holds of. *)
Definition starts_without (bad : ascii -> bool) (s : string) : Prop :=
  match s with String c _ => bad c = false | EmptyString => True end.

Definition no_frac (c : ascii) : bool := is_digit c || Ascii.eqb c ".".
Definition no_exp (c : ascii) : bool := is_digit c || Ascii.eqb c "e" || Ascii.eqb c "E".
Definition no_number (c : ascii) : bool := no_frac c || no_exp c.

Lemma starts_weaken (b1 b2 : ascii -> bool) s :
  (forall c, b1 c = true -> b2 c = true) -> starts_without b2 s -> starts_without b1 s.
Proof. intros Hb. destruct s as [|c s]; [done|]. cbn. intros H2. specialize (Hb c). destruct (b1 c); [|done]. by rewrite Hb in H2. Qed.

Lemma take_digits_ext s t d r :
  take_digits s = (d, r) -> starts_without is_digit t -> take_digits (s +:+ t) = (d, r +:+ t).
Proof.
  revert d r. induction s as [|c s IH]; intros d r Hd Ht.
  - cbn in Hd. simplify_eq. change ("" +:+ t) with t. destruct t as [|c t]; [done|]. cbn in Ht |- *. by rewrite Ht.
  - rewrite append_cons. cbn [take_digits] in *. destruct (is_digit c); [|by simplify_eq].
    destruct (take_digits s) as [d' r']. simplify_eq. by rewrite (IH d' r) by done.
Qed.

Lemma take_digits_split s d r :
  take_digits s = (d, r) -> s = d +:+ r /\ take_digits d = (d, ""%string) /\ starts_without is_digit r.
Proof.
  revert d r. induction s as [|c s IH]; intros d r Hd; cbn [take_digits] in Hd; [by simplify_eq|].
  destruct (is_digit c) eqn:Hc; [|by simplify_eq/=]. destruct (take_digits s) as [d' r'] eqn:He. simplify_eq.
  destruct (IH d' r eq_refl) as (-> & Hd' & Hr). split_and!; [done| |done]. cbn [take_digits]. by rewrite Hc, Hd'.
Qed.

Lemma parse_int_ext s t i r :
  parse_int_part s = Some (i, r) -> starts_without is_digit t -> parse_int_part (s +:+ t) = Some (i, r +:+ t).
Proof.
  destruct s as [|c s]; [done|]. intros Hp Ht. rewrite append_cons. unfold parse_int_part in *.
  destruct (Ascii.eqb c "0"); [by simplify_eq|]. destruct (is_digit c); [|done].
  destruct (take_digits (String c s)) as [d' r'] eqn:Hd. simplify_eq. rewrite <- append_cons.
  by rewrite (take_digits_ext _ _ _ _ Hd Ht).
Qed.

Lemma parse_frac_ext s t f r :
  parse_frac s = Some (f, r) -> starts_without no_frac t -> parse_frac (s +:+ t) = Some (f, r +:+ t).
Proof.
  destruct s as [|c s]; intros Hp Ht.
  - cbn in Hp. simplify_eq. change ("" +:+ t) with t. destruct t as [|c t]; [done|]. cbn in Ht |- *.
    by apply orb_false_iff in Ht as [_ ->].
  - rewrite append_cons. unfold parse_frac in *. destruct (Ascii.eqb c "."); [|by simplify_eq].
    destruct (take_digits s) as [d' r'] eqn:Hd. rewrite (take_digits_ext _ t _ _ Hd).
    + by destruct (_ =? _)%string; simplify_eq.
    + eapply starts_weaken; [|exact Ht]. intros x Hx. unfold no_frac. by rewrite Hx.
Qed.

Lemma parse_exp_ext s t e r :
  parse_exp s = Some (e, r) -> starts_without no_exp t -> parse_exp (s +:+ t) = Some (e, r +:+ t).
Proof.
  destruct s as [|c s]; intros Hp Ht.
  - cbn in Hp. simplify_eq. change ("" +:+ t) with t. destruct t as [|c t]; [done|]. cbn in Ht |- *.
    apply orb_false_iff in Ht as [Ht ->]. by apply orb_false_iff in Ht as [_ ->].
  - assert (Hdig : starts_without is_digit t).
    { eapply starts_weaken; [|exact Ht]. intros x Hx. unfold no_exp. by rewrite Hx. }
    rewrite append_cons. unfold parse_exp in *. destruct (Ascii.eqb c "e" || Ascii.eqb c "E"); [|by simplify_eq].
    destruct s as [|g s]; [done|]. rewrite append_cons.
    destruct (Ascii.eqb g "+" || Ascii.eqb g "-").
    + destruct (take_digits s) as [d' r'] eqn:Hd. rewrite (take_digits_ext _ t _ _ Hd Hdig).
      by destruct (_ =? _)%string; simplify_eq.
    + rewrite <- append_cons. destruct (take_digits (String g s)) as [d' r'] eqn:Hd.
      rewrite (take_digits_ext _ t _ _ Hd Hdig). by destruct (_ =? _)%string; simplify_eq.
Qed.

(** A literal followed by something that cannot continue it. *)
Lemma parse_number_ext n t :
  parse_number n = Some (n, ""%string) -> starts_without no_number t -> parse_number (n +:+ t) = Some (n, t).
Proof.
  intros Hp Ht. assert (Hd : starts_without is_digit t /\ starts_without no_frac t /\ starts_without no_exp t).
  { split_and!; (eapply starts_weaken; [|exact Ht]); intros c Hc; unfold no_number, no_frac in *; rewrite ?Hc, ?orb_true_r; done. }
  destruct Hd as (Hd1 & Hd2 & Hd3).
  destruct n as [|c n]; [done|]. rewrite append_cons. unfold parse_number in *.
  destruct (Ascii.eqb c "-"); [|rewrite <- append_cons];
    (destruct (parse_int_part _) as [[i s2]|] eqn:Hi; [|done]); rewrite (parse_int_ext _ t _ _ Hi) by done;
    (destruct (parse_frac s2) as [[f s3]|] eqn:Hf; [|done]); rewrite (parse_frac_ext _ t _ _ Hf) by done;
    (destruct (parse_exp s3) as [[e s4]|] eqn:He; [|done]); rewrite (parse_exp_ext _ t _ _ He) by done;
    apply Some_inj, pair_equal_spec in Hp as [Hn ->]; by rewrite Hn.
Qed.

Lemma parse_int_split s i r :
  parse_int_part s = Some (i, r) -> s = i +:+ r /\ parse_int_part i = Some (i, ""%string).
Proof.
  destruct s as [|c s]; [done|]. unfold parse_int_part. destruct (Ascii.eqb_spec c "0") as [->|Hc]; [by intros; simplify_eq|].
  destruct (is_digit c) eqn:Hd; [|done]. intros Hi. apply Some_inj in Hi. pose proof Hi as Hi'.
  apply take_digits_split in Hi' as (Hs & Hi' & _). split; [done|].
  destruct i as [|c' i]; [cbn [take_digits] in Hi; rewrite Hd in Hi; by destruct (take_digits s)|].
  rewrite append_cons in Hs. simplify_eq. destruct (Ascii.eqb_spec c' "0"); [done|]. by rewrite Hd, Hi'.
Qed.

Lemma parse_frac_split s f r :
  parse_frac s = Some (f, r) ->
  s = f +:+ r /\ parse_frac f = Some (f, ""%string) /\ starts_without is_digit f.
Proof.
  destruct s as [|c s]; [by intros; simplify_eq/=|]. unfold parse_frac at 1.
  destruct (Ascii.eqb_spec c ".") as [->|Hc]; [|by intros; simplify_eq].
  destruct (take_digits s) as [d r'] eqn:Hd. destruct (String.eqb_spec d "") as [|Hn]; [done|]. intros; simplify_eq.
  apply take_digits_split in Hd as (-> & Hd & _). split_and!; [done| |done].
  unfold parse_frac. rewrite Ascii.eqb_refl, Hd. by destruct (String.eqb_spec d "").
Qed.

Lemma parse_exp_split s e r :
  parse_exp s = Some (e, r) ->
  s = e +:+ r /\ parse_exp e = Some (e, ""%string) /\ starts_without no_frac e.
Proof.
  destruct s as [|c s]; [by intros; simplify_eq/=|]. unfold parse_exp at 1.
  destruct (Ascii.eqb c "e" || Ascii.eqb c "E") eqn:Hc; [|by intros; simplify_eq].
  assert (Hs : forall t, starts_without no_frac (String c t)).
  { intros t. cbn. apply orb_true_iff in Hc as [Hc%Ascii.eqb_eq|Hc%Ascii.eqb_eq]; by subst. }
  destruct s as [|g s]; [done|]. destruct (Ascii.eqb g "+" || Ascii.eqb g "-") eqn:Hg.
  - destruct (take_digits s) as [d r'] eqn:Hd. destruct (String.eqb_spec d "") as [|Hn]; [done|]. intros; simplify_eq.
    apply take_digits_split in Hd as (-> & Hd & _). split_and!; [done| |done].
    unfold parse_exp. change (str1 g +:+ d) with (String g d). rewrite Hc, Hg, Hd. by destruct (String.eqb_spec d "").
  - destruct (take_digits (String g s)) as [d r'] eqn:Hd. destruct (String.eqb_spec d "") as [|Hn]; [done|]. intros; simplify_eq.
    apply take_digits_split in Hd as (Hgs & Hd & _). change ("" +:+ d) with d. split_and!; [by rewrite Hgs| |done].
    destruct d as [|g' d]; [done|]. rewrite append_cons in Hgs. simplify_eq.
    unfold parse_exp. rewrite Hc, Hg, Hd. by destruct (String.eqb_spec (String g' d) "").
Qed.

(** The literals that the decoder reads are literals again. *)
Lemma parse_number_literal s n r : parse_number s = Some (n, r) -> parse_number n = Some (n, ""%string).
Proof.
  assert (Hgo : forall sign s1 n, (sign = "-"%string \/ sign = ""%string) ->
    match parse_int_part s1 with
    | None => None
    | Some (i, s2) =>
      match parse_frac s2 with
      | None => None
      | Some (f, s3) => match parse_exp s3 with None => None | Some (e, s4) => Some (sign +:+ i +:+ f +:+ e, s4) end
      end
    end = Some (n, r) -> parse_number n = Some (n, ""%string)).
  { clear. intros sign s1 n Hsign Hp. destruct (parse_int_part s1) as [[i s2]|] eqn:Hi; [|done].
    destruct (parse_frac s2) as [[f s3]|] eqn:Hf; [|done]. destruct (parse_exp s3) as [[e s4]|] eqn:He; [|done].
    apply Some_inj, pair_equal_spec in Hp as [<- _].
    apply parse_int_split in Hi as [_ Hi]. apply parse_frac_split in Hf as (_ & Hf & Hfd). apply parse_exp_split in He as (_ & He & Hed).
    assert (Hrest : parse_int_part (i +:+ f +:+ e) = Some (i, f +:+ e) /\ parse_frac (f +:+ e) = Some (f, e)).
    { split.
      - apply (parse_int_ext i (f +:+ e) i "") in Hi; [done|]. destruct f as [|c f]; [|done].
        eapply starts_weaken; [|exact Hed]. intros c Hc. unfold no_frac. by rewrite Hc.
      - apply (parse_frac_ext f e f "") in Hf; done. }
    destruct Hrest as [Hr1 Hr2]. unfold parse_number. destruct Hsign as [-> | ->].
    - change ("-" +:+ i +:+ f +:+ e) with (String "-" (i +:+ f +:+ e)).
      cbn iota beta. change (Ascii.eqb "-" "-") with true. cbn iota beta. rewrite Hr1, Hr2, He. done.
    - change ("" +:+ i +:+ f +:+ e) with (i +:+ f +:+ e). destruct i as [|c i]; [done|]. rewrite append_cons in *.
      destruct (Ascii.eqb_spec c "-") as [->|Hc]; [done|]. rewrite Hr1, Hr2, He. done. }
  unfold parse_number at 1. destruct s as [|c s]; [done|].
  destruct (Ascii.eqb c "-"); intros Hp; eapply Hgo in Hp; eauto.
Qed.

(** ** Values *)

Section JsonInd.
Context (P : json -> Prop)
  (Hnull : P JNull) (Hbool : forall b, P (JBool b)) (Hnum : forall n, P (JNumber n)) (Hstr : forall s, P (JString s))
  (Harr : forall l, Forall P l -> P (JArray l)) (Hobj : forall l, Forall (fun kv => P kv.2) l -> P (JObject l)).

Fixpoint json_nested_ind (v : json) : P v :=
  match v with
  | JNull => Hnull
  | JBool b => Hbool b
  | JNumber n => Hnum n
  | JString s => Hstr s
  | JArray l =>
    Harr l ((fix go (l : list json) : Forall P l :=
      match l with [] => List.Forall_nil _ | x :: l' => List.Forall_cons _ _ _ (json_nested_ind x) (go l') end) l)
  | JObject l =>
    Hobj l ((fix go (l : list (string * json)) : Forall (fun kv => P kv.2) l :=
      match l with [] => List.Forall_nil _ | x :: l' => List.Forall_cons _ _ _ (json_nested_ind x.2) (go l') end) l)
  end.
End JsonInd.

(** Every number is a literal the decoder reads. *)
Fixpoint literals (v : json) : bool :=
  match v with
  | JNumber n => bool_decide (parse_number n = Some (n, ""%string))
  | JArray l => forallb literals l
  | JObject l => forallb (fun kv => literals kv.2) l
  | _ => true
  end.

(** The nesting of arrays and objects. *)
Fixpoint depth (v : json) : Z :=
  match v with
  | JArray l => 1 + foldr (fun x n => Z.max (depth x) n) 0 l
  | JObject l => 1 + foldr (fun kv n => Z.max (depth kv.2) n) 0 l
  | _ => 0
  end.

(** A value as it comes back: strings without invalid bytes, and the members of
    an object in the order of their keys, the last of duplicates kept. *)
Fixpoint normal (v : json) : json :=
  match v with
  | JString s => JString (unquoted s)
  | JArray l => JArray (normal <$> l)
  | JObject l =>
    let m : gmap string json := foldl (fun m kv => <[kv.1 := normal kv.2]> m) ∅ l in
    JObject ((fun k => (unquoted k, default JNull (m !! k))) <$> sort_strings (map_to_list m).*1)
  | v => v
  end.

Lemma sort_strings_proper l l' : l ≡ₚ l' -> sort_strings l = sort_strings l'.
Proof.
  intros Hp. apply (StronglySorted_unique String.le); [apply sort_strings_sorted..|].
  by rewrite !sort_strings_perm.
Qed.

(** The keys of a map in order. *)
Definition sorted_keys {A} (m : gmap string A) : list string := sort_strings (map_to_list m).*1.

Lemma sorted_keys_fmap {A B} (f : A -> B) (m : gmap string A) : sorted_keys (f <$> m) = sorted_keys m.
Proof.
  apply sort_strings_proper. rewrite map_to_list_fmap, <- list_fmap_compose. by apply reflexive_eq, list_fmap_ext.
Qed.

Lemma elem_of_sorted_keys {A} (m : gmap string A) k : k ∈ sorted_keys m <-> is_Some (m !! k).
Proof.
  unfold sorted_keys. rewrite elem_of_sort_strings, list_elem_of_fmap. split.
  - intros ([k' v] & -> & Hin%elem_of_map_to_list). by exists v.
  - intros [v Hv]. exists (k, v). split; [done|]. by apply elem_of_map_to_list.
Qed.

Lemma NoDup_sorted_keys {A} (m : gmap string A) : NoDup (sorted_keys m).
Proof. unfold sorted_keys. apply NoDup_sort_strings, NoDup_fst_map_to_list. Qed.

Lemma foldl_members {A} (f : json -> A) (l : list (string * json)) :
  foldl (fun m kv => <[kv.1 := f kv.2]> m) (∅ : gmap string A) l = f <$> members_map l.
Proof.
  unfold members_map. rewrite <- (fmap_empty f). generalize (∅ : gmap string json).
  induction l as [|kv l IH]; intros m; [done|]. cbn [foldl]. rewrite <- fmap_insert. apply IH.
Qed.

Lemma elem_of_members_map l k v : members_map l !! k = Some v -> (k, v) ∈ l.
Proof.
  unfold members_map. assert (H : forall m : gmap string json, foldl (fun m kv => <[kv.1 := kv.2]> m) m l !! k = Some v ->
    m !! k = Some v \/ (k, v) ∈ l).
  { induction l as [|[k' v'] l IH]; intros m Hm; [by left|]. cbn [foldl] in Hm.
    apply IH in Hm as [Hm|Hm]; [|right; by right]. destruct (decide (k = k')) as [->|Hn].
    - rewrite lookup_insert_eq in Hm. simplify_eq. right. left.
    - rewrite lookup_insert_ne in Hm by done. by left. }
  intros [Hm|Hm]%H; [|done]. by rewrite lookup_empty in Hm.
Qed.

(** Printing and normalising an object, through its map. *)
Lemma Marshal_object l :
  Marshal (JObject l) = marshal_list "{" "}"
    ((fun k => marshal_string k +:+ ":" +:+ default ""%string (Marshal <$> members_map l !! k)) <$> sorted_keys (members_map l)).
Proof.
  cbn [Marshal]. rewrite foldl_members. f_equal. change (sort_strings _) with (sorted_keys (Marshal <$> members_map l)).
  rewrite sorted_keys_fmap. apply list_fmap_ext. intros _ k _. by rewrite lookup_fmap.
Qed.

Lemma normal_object l :
  normal (JObject l) = JObject
    ((fun k => (unquoted k, default JNull (normal <$> members_map l !! k))) <$> sorted_keys (members_map l)).
Proof.
  cbn [normal]. rewrite foldl_members. f_equal. change (sort_strings _) with (sorted_keys (normal <$> members_map l)).
  rewrite sorted_keys_fmap. apply list_fmap_ext. intros _ k _. by rewrite lookup_fmap.
Qed.

Definition eventually (p : nat -> Prop) : Prop := exists f0, forall f, (f0 <= f)%nat -> p f.

Lemma eventually_S (p q : nat -> Prop) : (forall f, p f -> q (S f)) -> eventually p -> eventually q.
Proof.
  intros Hpq [f0 Hp]. exists (S f0). intros f Hf. destruct f as [|f]; [lia|]. apply Hpq, Hp. lia.
Qed.

Lemma eventually_and (p q r : nat -> Prop) : (forall f, p f -> q f -> r f) -> eventually p -> eventually q -> eventually r.
Proof. intros Hr [f0 Hp] [f1 Hq]. exists (Nat.max f0 f1). intros f Hf. apply Hr; [apply Hp|apply Hq]; lia. Qed.

Lemma eventually_now (p : nat -> Prop) : (forall f, p (S f)) -> eventually p.
Proof. intros Hp. exists 1%nat. intros f Hf. destruct f; [lia|]. apply Hp. Qed.

Lemma marshal_head v : literals v = true ->
  exists c s, Marshal v = String c s /\ is_ws c = false /\ c <> "]"%char /\ c <> "}"%char.
Proof.
  destruct v as [|[]|n|s|l|l]; intros Hl; try (eexists _, _; split; [reflexivity|done]).
  cbn in Hl. apply bool_decide_eq_true in Hl. destruct n as [|c n]; [done|]. exists c, n. split; [done|].
  unfold parse_number in Hl. destruct (Ascii.eqb_spec c "-") as [->|]; [done|].
  unfold parse_int_part in Hl. destruct (Ascii.eqb_spec c "0") as [->|]; [done|]. destruct (is_digit c) eqn:Hd; [|done].
  apply in_range_spec in Hd. unfold is_ws. split; [decide_ranges; done|].
  split; intros ->; vm_compute in Hd; naive_solver lia.
Qed.

Lemma skip_ws_head c s : is_ws c = false -> skip_ws (String c s) = String c s.
Proof. intros Hc. cbn. by rewrite Hc. Qed.

Definition reads (v : json) : Prop :=
  forall d t, d + depth v <= maxNestingDepth -> starts_without no_number t ->
  eventually (fun f => parse_value f d (Marshal v +:+ t) = Some (normal v, t)).

Lemma elems_read l d t :
  l <> [] -> Forall (fun v => reads v /\ literals v = true /\ d + depth v <= maxNestingDepth) l ->
  eventually (fun f => parse_elems f d (String.concat "," (Marshal <$> l) +:+ String "]" t) = Some (normal <$> l, t)).
Proof.
  induction l as [|v l IH]; intros Hne Hl; [done|]. inversion Hl as [|? ? (Hv & Hlit & Hd) Hl']; subst. clear Hne Hl.
  destruct l as [|w l].
  - specialize (Hv d (String "]" t) Hd eq_refl). revert Hv. apply eventually_S. intros f Hf.
    cbn [fmap list_fmap String.concat parse_elems]. rewrite Hf. done.
  - specialize (IH ltac:(done) Hl'). inversion Hl' as [|? ? (_ & Hlw & _) _]; subst.
    change (String.concat "," (Marshal <$> v :: w :: l)) with (Marshal v +:+ "," +:+ String.concat "," (Marshal <$> w :: l)).
    set (rest := String.concat "," (Marshal <$> w :: l) +:+ String "]" t) in *.
    assert (Hrest : skip_ws rest = rest).
    { destruct (marshal_head w Hlw) as (c & s & Hw & Hws & _). unfold rest.
      assert (exists s', String.concat "," (Marshal <$> w :: l) = String c s') as [s' ->].
      { rewrite fmap_cons, Hw. cbn [String.concat]. destruct (Marshal <$> l); eexists; [done|by rewrite append_cons]. }
      rewrite append_cons. by apply skip_ws_head. }
    rewrite !append_assoc. change ("," +:+ _) with (String "," rest).
    specialize (Hv d (String "," rest) Hd eq_refl).
    eapply eventually_S; [|apply (eventually_and _ _ _ (fun f Hp Hq => conj Hp Hq) Hv IH)].
    cbn beta. intros f [H1 H2]. cbn [parse_elems]. rewrite H1. rewrite skip_ws_head by done.
    change (Ascii.eqb "," "]") with false. change (Ascii.eqb "," ",") with true. cbn iota. rewrite Hrest, H2. done.
Qed.

(** A member of an object as text. *)
Definition member_text (kv : string * json) : string := marshal_string kv.1 +:+ ":" +:+ Marshal kv.2.
Definition normal_member (kv : string * json) : string * json := (unquoted kv.1, normal kv.2).

Lemma members_read l d t :
  l <> [] -> Forall (fun kv => reads kv.2 /\ literals kv.2 = true /\ d + depth kv.2 <= maxNestingDepth) l ->
  eventually (fun f => parse_members f d (String.concat "," (member_text <$> l) +:+ String "}" t) = Some (normal_member <$> l, t)).
Proof.
  assert (Hm : forall f d k v rest, literals v = true -> parse_members (S f) d (member_text (k, v) +:+ rest) =
    match parse_value f d (Marshal v +:+ rest) with
    | None => None
    | Some (v', r2) =>
      match skip_ws r2 with
      | String d2 r3 =>
        if Ascii.eqb d2 "}" then Some ([(unquoted k, v')], r3)
        else if Ascii.eqb d2 "," then
          match parse_members f d (skip_ws r3) with Some (m, r4) => Some ((unquoted k, v') :: m, r4) | None => None end
        else None
      | EmptyString => None
      end
    end).
  { intros f d' k v rest Hv. unfold member_text, marshal_string. cbn [fst snd]. rewrite !append_assoc.
    change (str1 dquote +:+ ?x) with (String dquote x). cbn [parse_members].
    rewrite Ascii.eqb_refl. change (str1 dquote +:+ ?x) with (String dquote x). rewrite parse_marshal_string.
    change (":" +:+ ?x) with (String ":" x). rewrite skip_ws_head by done. change (Ascii.eqb ":" ":") with true. cbn iota.
    destruct (marshal_head v Hv) as (c & s & Hc & Hws & _). rewrite Hc, append_cons, skip_ws_head by done.
    rewrite unquoted_idemp. done. }
  induction l as [|[k v] l IH]; intros Hne Hl; [done|]. inversion Hl as [|? ? (Hv & Hlit & Hd) Hl']; subst. clear Hne Hl.
  cbn [snd] in *. destruct l as [|w l].
  - specialize (Hv d (String "}" t) Hd eq_refl). revert Hv. apply eventually_S. intros f Hf.
    cbn [fmap list_fmap String.concat]. rewrite Hm, Hf by done. done.
  - specialize (IH ltac:(done) Hl').
    change (String.concat "," (member_text <$> (k, v) :: w :: l)) with
      (member_text (k, v) +:+ "," +:+ String.concat "," (member_text <$> w :: l)).
    set (rest := String.concat "," (member_text <$> w :: l) +:+ String "}" t) in *.
    assert (Hrest : skip_ws rest = rest).
    { unfold rest. rewrite fmap_cons. assert (exists s, member_text w = String dquote s) as [s Hs] by (by eexists).
      rewrite Hs. cbn [String.concat]. destruct (member_text <$> l); rewrite ?append_assoc, append_cons; by apply skip_ws_head. }
    rewrite !append_assoc. change ("," +:+ _) with (String "," rest).
    specialize (Hv d (String "," rest) Hd eq_refl).
    eapply eventually_S; [|apply (eventually_and _ _ _ (fun f Hp Hq => conj Hp Hq) Hv IH)].
    cbn beta. intros f [H1 H2]. rewrite Hm, H1 by done. rewrite skip_ws_head by done.
    change (Ascii.eqb "," "}") with false. change (Ascii.eqb "," ",") with true. cbn iota. rewrite Hrest, H2. done.
Qed.

Lemma depth_fold {A} (g : A -> Z) l x : x ∈ l -> g x <= foldr (fun y n => Z.max (g y) n) 0 l.
Proof. induction 1 as [|y z l Hx IH]; cbn [foldr]; lia. Qed.

(** The members that are printed: the last of each key, in the order of the keys. *)
Definition printed_members (l : list (string * json)) : list (string * json) :=
  (fun k => (k, default JNull (members_map l !! k))) <$> sorted_keys (members_map l).

Lemma elem_of_printed l kv : kv ∈ printed_members l -> kv ∈ l.
Proof.
  intros (k & -> & Hk)%list_elem_of_fmap. apply elem_of_sorted_keys in Hk as [v Hv].
  rewrite Hv. cbn. by apply elem_of_members_map.
Qed.

Lemma Marshal_printed l : Marshal (JObject l) = marshal_list "{" "}" (member_text <$> printed_members l).
Proof.
  rewrite Marshal_object. f_equal. unfold printed_members. rewrite <- list_fmap_compose. apply Forall_fmap_ext_1.
  apply Forall_forall. intros k [v Hv]%elem_of_sorted_keys. rewrite Hv. unfold compose, member_text. cbn. by rewrite Hv.
Qed.

Lemma normal_printed l : normal (JObject l) = JObject (normal_member <$> printed_members l).
Proof.
  rewrite normal_object. f_equal. unfold printed_members. rewrite <- list_fmap_compose. apply Forall_fmap_ext_1.
  apply Forall_forall. intros k [v Hv]%elem_of_sorted_keys. rewrite Hv. unfold compose, normal_member. cbn. by rewrite Hv.
Qed.

Lemma reads_array l : Forall (fun v => literals v = true -> reads v) l -> literals (JArray l) = true -> reads (JArray l).
Proof.
  intros IH Hl d t Hd Ht. cbn [literals] in Hl. rewrite forallb_forall in Hl. cbn [depth] in Hd.
  assert (Hdep : forall x, x ∈ l -> d + 1 + depth x <= maxNestingDepth /\ 0 <= foldr (fun y n => Z.max (depth y) n) 0 l).
  { intros x Hx. pose proof (depth_fold depth l x Hx). split; [lia|]. clear. induction l; cbn [foldr]; lia. }
  assert (0 <= foldr (fun y n => Z.max (depth y) n) 0 l) by (clear; induction l; cbn [foldr]; lia).
  cbn [Marshal]. unfold marshal_list. rewrite !append_assoc. change ("[" +:+ ?x) with (String "[" x).
  destruct l as [|v l].
  { apply eventually_now. intros f. cbn. rewrite (proj2 (Z.leb_gt _ _)) by (cbn in Hd; lia). done. }
  change (normal (JArray (v :: l))) with (JArray (normal <$> v :: l)).
  assert (Hall : Forall (fun v => reads v /\ literals v = true /\ d + 1 + depth v <= maxNestingDepth) (v :: l)).
  { rewrite Forall_forall in IH |- *. intros x Hx. assert (Hlx : literals x = true) by (apply Hl; by apply list_elem_of_In).
    split_and!; [by apply IH|done|]. by apply Hdep. }
  assert (Hel := elems_read (v :: l) (d + 1) t ltac:(done) Hall). revert Hel. apply eventually_S. intros f Hf. change ("]" +:+ t) with (String "]" t).
  set (text := String.concat "," (Marshal <$> v :: l) +:+ String "]" t) in *.
  assert (exists c s, text = String c s /\ is_ws c = false /\ c <> "]"%char) as (c & s & Hc & Hws & Hb).
  { destruct (marshal_head v) as (c & s & Hv & Hws & Hb & _); [apply Hl; by left|]. unfold text.
    rewrite fmap_cons, Hv. cbn [String.concat]. destruct (Marshal <$> l); rewrite ?append_assoc, append_cons; eauto. }
  cbn [parse_value]. change (Ascii.eqb "[" "{") with false. change (Ascii.eqb "[" "[") with true. cbn iota.
  rewrite (proj2 (Z.leb_gt _ _)) by lia. rewrite Hc in Hf |- *. rewrite skip_ws_head by done.
  destruct (Ascii.eqb_spec c "]"); [done|]. by rewrite Hf.
Qed.

Lemma reads_object l : Forall (fun kv => literals kv.2 = true -> reads kv.2) l -> literals (JObject l) = true -> reads (JObject l).
Proof.
  intros IH Hl d t Hd Ht. cbn [literals] in Hl. rewrite forallb_forall in Hl. cbn [depth] in Hd.
  assert (0 <= foldr (fun (y : string * json) n => Z.max (depth y.2) n) 0 l) by (clear; induction l; cbn [foldr]; lia).
  assert (Hp : Forall (fun kv => reads kv.2 /\ literals kv.2 = true /\ d + 1 + depth kv.2 <= maxNestingDepth) (printed_members l)).
  { rewrite Forall_forall in IH |- *. intros kv Hkv%elem_of_printed.
    assert (Hlx : literals kv.2 = true) by (apply Hl; by apply list_elem_of_In).
    split_and!; [by apply IH|done|]. pose proof (depth_fold (fun kv => depth kv.2) l kv Hkv) as Hf. cbn beta in Hf. lia. }
  rewrite Marshal_printed, normal_printed. unfold marshal_list. rewrite !append_assoc.
  change ("{" +:+ ?x) with (String "{" x). change ("}" +:+ ?x) with (String "}" x).
  destruct (printed_members l) as [|kv m].
  { apply eventually_now. intros f. cbn. rewrite (proj2 (Z.leb_gt _ _)) by lia. done. }
  assert (Hm := members_read (kv :: m) (d + 1) t ltac:(done) Hp). revert Hm. apply eventually_S. intros f Hf.
  set (text := String.concat "," (member_text <$> kv :: m) +:+ String "}" t) in *.
  assert (exists s, text = String dquote s) as [s Hs].
  { unfold text. rewrite fmap_cons. assert (exists s, member_text kv = String dquote s) as [s ->] by (by eexists).
    cbn [String.concat]. destruct (member_text <$> m); rewrite ?append_assoc, append_cons; eauto. }
  cbn [parse_value]. change (Ascii.eqb "{" "{") with true. cbn iota.
  rewrite (proj2 (Z.leb_gt _ _)) by lia. rewrite Hs in Hf |- *. rewrite skip_ws_head by done.
  change (Ascii.eqb dquote "}") with false. cbn iota. by rewrite Hf.
Qed.

Lemma reads_number n : literals (JNumber n) = true -> reads (JNumber n).
Proof.
  intros Hl d t Hd Ht. cbn [literals] in Hl. apply bool_decide_eq_true in Hl. apply eventually_now. intros f.
  assert (Hne : n <> ""%string) by (by intros ->). cbn [Marshal normal]. destruct (String.eqb_spec n ""); [done|].
  pose proof (parse_number_ext n t Hl Ht) as Hp.
  assert (Hc : exists c s, n +:+ t = String c s /\ c <> "{"%char /\ c <> "["%char /\ c <> dquote /\
    c <> "t"%char /\ c <> "f"%char /\ c <> "n"%char).
  { destruct n as [|c n]; [done|]. exists c, (n +:+ t). split; [done|]. unfold parse_number in Hl.
    destruct (Ascii.eqb_spec c "-") as [->|]; [done|]. unfold parse_int_part in Hl.
    destruct (Ascii.eqb_spec c "0") as [->|]; [done|]. destruct (is_digit c) eqn:Hd'; [|done].
    split_and!; intros ->; done. }
  destruct Hc as (c & s & Hs & H1 & H2 & H3 & H4 & H5 & H6). rewrite Hs in *. cbn [parse_value].
  destruct (Ascii.eqb_spec c "{"); [done|]. destruct (Ascii.eqb_spec c "["); [done|]. destruct (Ascii.eqb_spec c dquote); [done|].
  cbn [CutPrefix]. destruct (Ascii.eqb_spec "t" c); [congruence|]. destruct (Ascii.eqb_spec "f" c); [congruence|].
  destruct (Ascii.eqb_spec "n" c); [congruence|]. by rewrite Hp.
Qed.

(** Every value with literal numbers is read back after it is printed. *)
Lemma marshal_reads v : literals v = true -> reads v.
Proof.
  induction v as [|b|n|s|l IH|l IH] using json_nested_ind; intros Hl.
  - intros d t _ _. by apply eventually_now.
  - intros d t _ _. apply eventually_now. intros f. by destruct b.
  - by apply reads_number.
  - intros d t _ _. apply eventually_now. intros f. cbn [Marshal normal]. unfold marshal_string. rewrite !append_assoc.
    change (str1 dquote +:+ ?x) with (String dquote x). cbn [parse_value].
    change (Ascii.eqb dquote "{") with false. change (Ascii.eqb dquote "[") with false. rewrite Ascii.eqb_refl. cbn iota.
    change (str1 dquote +:+ ?x) with (String dquote x). rewrite parse_marshal_string, unquoted_idemp. done.
  - by apply reads_array.
  - by apply reads_object.
Qed.

(** The decoder on printed text. *)
Lemma decode_marshal v t :
  literals v = true -> depth v <= maxNestingDepth -> starts_without no_number t ->
  decode_first (Marshal v +:+ t) = Some (normal v, t).
Proof.
  intros Hl Hd Ht. destruct (marshal_reads v Hl 0 t ltac:(lia) Ht) as [f0 Hf]. unfold decode_first.
  destruct (marshal_head v Hl) as (c & s & Hc & Hws & _).
  replace (skip_ws (Marshal v +:+ t)) with (Marshal v +:+ t) by (rewrite Hc, append_cons; by rewrite skip_ws_head).
  rewrite <- (parse_value_fuel (Nat.max f0 (json_fuel (Marshal v +:+ t)))) by lia. apply Hf. lia.
Qed.

(** ** What the decoder yields *)

(** Valid UTF-8 in every key of an object. *)
Definition clean_keys (l : list (string * json)) : Prop := Forall (fun kv => unquoted kv.1 = kv.1) l.

Definition decoded (d : Z) (v : json) : Prop :=
  literals v = true /\ d + depth v <= maxNestingDepth /\ match v with JObject l => clean_keys l | JString s => unquoted s = s | _ => True end.

Lemma depth_bound {A} (g : A -> Z) l d :
  d <= maxNestingDepth -> Forall (fun x => d + g x <= maxNestingDepth) l ->
  d + foldr (fun y n => Z.max (g y) n) 0 l <= maxNestingDepth.
Proof. intros Hd. induction 1 as [|x l Hx Hl IH]; cbn [foldr]; lia. Qed.

Lemma decoded_array d l : d < maxNestingDepth -> Forall (decoded (d + 1)) l -> decoded d (JArray l).
Proof.
  intros Hd Hl. split_and!; [| |done].
  - cbn [literals]. apply forallb_forall. intros v Hv%list_elem_of_In. rewrite Forall_forall in Hl. by apply Hl.
  - cbn [depth]. rewrite Z.add_assoc. apply depth_bound; [lia|]. apply (Forall_impl _ _ _ Hl). by intros v (_ & Hv & _).
Qed.

Lemma decoded_object d l : d < maxNestingDepth -> Forall (fun kv => decoded (d + 1) kv.2 /\ unquoted kv.1 = kv.1) l -> decoded d (JObject l).
Proof.
  intros Hd Hl. split_and!.
  - cbn [literals]. apply forallb_forall. intros v Hv%list_elem_of_In. rewrite Forall_forall in Hl. by apply Hl.
  - cbn [depth]. rewrite Z.add_assoc. apply (depth_bound (fun kv : string * json => depth kv.2)); [lia|].
    apply (Forall_impl _ _ _ Hl). by intros v [(_ & Hv & _) _].
  - apply (Forall_impl _ _ _ Hl). by intros v [_ Hv].
Qed.

Lemma parse_decoded f :
  (forall d s v r, d <= maxNestingDepth -> parse_value f d s = Some (v, r) -> decoded d v) /\
  (forall d s l r, d <= maxNestingDepth -> parse_elems f d s = Some (l, r) -> Forall (decoded d) l) /\
  (forall d s l r, d <= maxNestingDepth -> parse_members f d s = Some (l, r) ->
     Forall (fun kv => decoded d kv.2 /\ unquoted kv.1 = kv.1) l).
Proof.
  induction f as [|f (IHv & IHe & IHm)]; [by repeat split|]. split_and!; intros d s v r Hd Hp.
  - cbn [parse_value] in Hp. repeat (case_match; simplify_eq);
      repeat match goal with H : (_ <=? _) = false |- _ => apply Z.leb_gt in H end;
      lazymatch goal with
      | |- decoded _ (JObject _) => apply decoded_object; [done|]; first [constructor|eapply IHm; [|done]; lia]
      | |- decoded _ (JArray _) => apply decoded_array; [done|]; first [constructor|eapply IHe; [|done]; lia]
      | |- decoded _ (JNumber _) =>
          split_and!; [|cbn; lia|done]; cbn [literals]; apply bool_decide_eq_true; by eapply parse_number_literal
      | |- decoded _ (JString _) => split_and!; [done|cbn; lia|apply unquoted_idemp]
      | |- _ => split_and!; [done|cbn; lia|done]
      end.
  - cbn [parse_elems] in Hp. repeat (case_match; simplify_eq); eauto.
  - cbn [parse_members] in Hp. repeat (case_match; simplify_eq); constructor; eauto using unquoted_idemp.
Qed.

Lemma decode_first_decoded s v r : decode_first s = Some (v, r) -> decoded 0 v.
Proof. unfold decode_first. apply parse_decoded. unfold maxNestingDepth. lia. Qed.

(** ** Maps *)

Lemma members_map_perm l (m : gmap string json) : l ≡ₚ map_to_list m -> members_map l = m.
Proof.
  intros Hl. assert (He : members_map l = list_to_map (rev l)).
  { clear. induction l as [|[k v] l IH] using rev_ind; [done|]. unfold members_map in *.
    rewrite foldl_snoc, rev_app_distr. cbn. by rewrite IH. }
  rewrite He, <- (list_to_map_to_list m). apply list_to_map_proper; [|by rewrite <- Hl, <- Permutation_rev].
  rewrite <- Permutation_rev, Hl. apply NoDup_fst_map_to_list.
Qed.

Lemma members_map_of (m : gmap string json) : members_map (map_to_list m) = m.
Proof. by apply members_map_perm. Qed.

Lemma members_map_normal (m : gmap string json) :
  (forall k, is_Some (m !! k) -> unquoted k = k) ->
  members_map (normal_member <$> printed_members (map_to_list m)) = normal <$> m.
Proof.
  intros Hk. unfold printed_members. rewrite members_map_of. rewrite <- list_fmap_compose.
  assert (Hl : normal_member ∘ (fun k => (k, default JNull (m !! k))) <$> sorted_keys m =
               (fun k => (k, default JNull ((normal <$> m) !! k))) <$> sorted_keys m).
  { apply Forall_fmap_ext_1, Forall_forall. intros k [v Hv]%elem_of_sorted_keys.
    unfold compose, normal_member. cbn [fst snd]. rewrite lookup_fmap, Hv, Hk by eauto. done. }
  rewrite Hl, <- (sorted_keys_fmap normal). generalize (normal <$> m). clear. intros m.
  apply members_map_perm, NoDup_Permutation.
  - apply NoDup_fmap_inj_on; [by intros ? ? _ _ [= -> _]|apply NoDup_sorted_keys].
  - apply NoDup_map_to_list.
  - intros [k v]. rewrite list_elem_of_fmap, elem_of_map_to_list. split.
    + intros (k' & [= -> ->] & [w Hw]%elem_of_sorted_keys). by rewrite Hw.
    + intros Hm. exists k. rewrite Hm. split; [done|]. apply elem_of_sorted_keys. eauto.
Qed.

(** A printed map is read back as the map of its normal values. *)
Lemma decode_marshal_map (m : gmap string json) :
  (forall k v, m !! k = Some v -> unquoted k = k /\ literals v = true /\ 1 + depth v <= maxNestingDepth) ->
  exists l, decode_first (Marshal_map m) = Some (JObject l, ""%string) /\ members_map l = normal <$> m.
Proof.
  intros Hm. exists (normal_member <$> printed_members (map_to_list m)). split.
  - unfold Marshal_map. rewrite <- (append_nil_r (Marshal _)), decode_marshal, normal_printed; [done| | |done].
    + cbn [literals]. apply forallb_forall. intros [k v] Hin%list_elem_of_In%elem_of_map_to_list. by apply Hm in Hin as (_ & ? & _).
    + cbn [depth]. apply (depth_bound (fun kv : string * json => depth kv.2)); [unfold maxNestingDepth; lia|].
      apply Forall_forall. intros [k v] Hin%elem_of_map_to_list. by apply Hm in Hin as (_ & _ & ?).
  - apply members_map_normal. intros k [v Hv]. by apply Hm in Hv as [? _].
Qed.
