(* ===== verification/GoUrl.v ===== *)
(** * Go's [net/url]

    [url.Parse], [URL.Hostname] and [URL.String], as far as the link
    validation of the Result uses them.  [None] is a parse error. *)

From S2P Require Import Prelude GoString GoNet.

Record URL := mkURL {
  url_Scheme : string;
  url_Opaque : string;
  url_User : option string;
  url_Host : string;
  url_Path : string;
  url_RawPath : string;
  url_OmitHost : bool;
  url_ForceQuery : bool;
  url_RawQuery : string;
  url_Fragment : string;
  url_RawFragment : string }.

Inductive EncodingMode := encodePath | encodeHost | encodeZone | encodeUserPassword | encodeFragment.

Fixpoint all_chars (p : ascii -> bool) (s : string) : bool :=
  match s with EmptyString => true | String c s' => p c && all_chars p s' end.

Definition is_alpha (c : ascii) : bool :=
  let b := byte_val c in in_range 65 90 b || in_range 97 122 b.
Definition is_alnum (c : ascii) : bool := is_alpha c || in_range 48 57 (byte_val c).

Definition one_of (set : string) (c : ascii) : bool := ContainsByte set c.

(** The sub-delimiters [! $ & ' ( ) * + , ; =]. *)
Definition sub_delims : string := "!$&'()*+,;=".

Definition is_host_mode (m : EncodingMode) : bool :=
  match m with encodeHost | encodeZone => true | _ => false end.

Definition shouldEscape (c : ascii) (m : EncodingMode) : bool :=
  if is_alnum c then false
  else if is_host_mode m && (one_of sub_delims c || one_of ":[]<>" c || Ascii.eqb c dquote) then false
  else if one_of "-_.~" c then false
  else if one_of "$&+,/:;=?@" c then
    match m with
    | encodePath => Ascii.eqb c "?"
    | encodeUserPassword => one_of "@/?:" c
    | encodeFragment => false
    | encodeHost | encodeZone => true
    end
  else
    match m with
    | encodeFragment => negb (one_of "!()*" c)
    | _ => true
    end.

(** [url.unescape]: the decoded text, or an error. *)
Fixpoint unescape (s : string) (m : EncodingMode) : option string :=
  match s with
  | EmptyString => Some ""%string
  | String c s1 =>
    if Ascii.eqb c "%" then
      match s1 with
      | String h (String l s2) =>
        match hex_val h, hex_val l with
        | Some a, Some b =>
          let percent := Ascii.eqb h "2" && Ascii.eqb l "5" in
          let v := byte_of (a * 16 + b) in
          if match m with
             | encodeHost => (a <? 8) && negb percent
             | encodeZone => negb percent && negb (Ascii.eqb v " ") && shouldEscape v encodeHost
             | _ => false
             end then None
          else String v <$> unescape s2 m
        | _, _ => None
        end
      | _ => None
      end
    else if is_host_mode m && (byte_val c <? 128) && shouldEscape c m then None
    else String c <$> unescape s1 m
  end.

Definition upper_hex (z : Z) : ascii := if z <=? 9 then byte_of (48 + z) else byte_of (55 + z).

Fixpoint escape (s : string) (m : EncodingMode) : string :=
  match s with
  | EmptyString => ""
  | String c s' =>
    if shouldEscape c m then
      String "%" (String (upper_hex (byte_val c / 16)) (String (upper_hex (byte_val c mod 16)) (escape s' m)))
    else String c (escape s' m)
  end.

Definition validEncoded (s : string) (m : EncodingMode) : bool :=
  all_chars (fun c => one_of sub_delims c || one_of ":@[]%" c || negb (shouldEscape c m)) s.

(** ** Parsing *)

Fixpoint LastIndexByte_from (s : string) (c : ascii) (i : nat) (best : option nat) : option nat :=
  match s with
  | EmptyString => best
  | String a s' => LastIndexByte_from s' c (S i) (if Ascii.eqb a c then Some i else best)
  end.
Definition LastIndexByte (s : string) (c : ascii) : option nat := LastIndexByte_from s c 0 None.

Definition has_control (s : string) : bool :=
  negb (all_chars (fun c => let b := byte_val c in (32 <=? b) && negb (b =? 127)) s).

(** [getScheme]: the scheme and the rest; [None] for a missing scheme name. *)
Fixpoint getScheme_from (full s : string) (i : nat) : option (string * string) :=
  match s with
  | EmptyString => Some (""%string, full)
  | String c s' =>
    if is_alpha c then getScheme_from full s' (S i)
    else if is_alnum c || one_of "+-." c then
      if (i =? 0)%nat then Some (""%string, full) else getScheme_from full s' (S i)
    else if Ascii.eqb c ":" then
      if (i =? 0)%nat then None else Some (take_str i full, s')
    else Some (""%string, full)
  end.
Definition getScheme (s : string) : option (string * string) := getScheme_from s s 0.

Definition validOptionalPort (port : string) : bool :=
  match port with
  | EmptyString => true
  | String c ds => Ascii.eqb c ":" && all_chars (fun d => in_range 48 57 (byte_val d)) ds
  end.

Fixpoint find_sub (sub s : string) (i : nat) : option nat :=
  match CutPrefix sub s with
  | Some _ => Some i
  | None => match s with EmptyString => None | String _ s' => find_sub sub s' (S i) end
  end.

Definition parse_bracketed (host : string) : option string :=
  match LastIndexByte host "]" with
  | None => None
  | Some close =>
    let colonPort := drop_str (S close) host in
    if negb (validOptionalPort colonPort) then None
    else
      let hostname := drop_str 1 (take_str close host) in
      let unescaped :=
        match find_sub "%25" hostname 0 with
        | Some z =>
          match unescape (take_str z hostname) encodeHost, unescape (drop_str z hostname) encodeZone with
          | Some h, Some zone => Some (h +:+ zone)
          | _, _ => None
          end
        | None => unescape hostname encodeHost
        end in
      match unescaped with
      | Some h =>
        match ParseAddr h with
        | Some (Addr6 _ _) => Some ("[" +:+ h +:+ "]" +:+ colonPort)
        | _ => None
        end
      | None => None
      end
  end.

Definition parseHost (host : string) : option string :=
  match LastIndexByte host "[" with
  | Some O => parse_bracketed host
  | Some (S _) => None
  | None =>
    match IndexByte host ":" with
    | Some i => if validOptionalPort (drop_str i host) then unescape host encodeHost else None
    | None => unescape host encodeHost
    end
  end.

Definition validUserinfo (s : string) : bool :=
  all_chars (fun c => is_alnum c || one_of sub_delims c || one_of "-._:~%@" c) s.

(** The user information and the host of an authority. *)
Definition parseAuthority (authority : string) : option (option string * string) :=
  match LastIndexByte authority "@" with
  | None => match parseHost authority with Some h => Some (None, h) | None => None end
  | Some i =>
    match parseHost (drop_str (S i) authority) with
    | None => None
    | Some h =>
      let userinfo := take_str i authority in
      if validUserinfo userinfo then
        match unescape userinfo encodeUserPassword with
        | Some _ => Some (Some userinfo, h)
        | None => None
        end
      else None
    end
  end.

(** A component with the encoding it was written in: the decoded text and the
    raw text when it is not the default encoding. *)
Definition set_component (p : string) (m : EncodingMode) : option (string * string) :=
  match unescape p m with
  | None => None
  | Some d => Some (d, if (escape d m =? p)%string then ""%string else p)
  end.

(** The scheme and the path apart, an URL without its fragment. *)
Definition parse_rest (scheme rest0 : string) : option URL :=
  let '(rest, force, query) :=
    let '(a, b, found) := CutByte rest0 "?" in
    if found && (b =? "")%string then (a, true, ""%string) else (a, false, b) in
  if negb (HasPrefix rest "/") && negb (scheme =? "")%string then
    Some (mkURL scheme rest None "" "" "" false force query "" "")
  else if negb (HasPrefix rest "/") && ContainsByte (CutByte rest "/").1.1 ":" then None
  else
    let authority_form :=
      HasPrefix rest "//" && (negb (scheme =? "")%string || negb (HasPrefix rest "///")) in
    let omit := negb authority_form && negb (scheme =? "")%string && HasPrefix rest "/" in
    let auth_path :=
      if authority_form then
        let a := drop_str 2 rest in
        match IndexByte a "/" with
        | Some i => (take_str i a, drop_str i a)
        | None => (a, ""%string)
        end
      else (""%string, rest) in
    match (if authority_form then parseAuthority auth_path.1 else Some (None, ""%string)) with
    | None => None
    | Some (user, host) =>
      match set_component auth_path.2 encodePath with
      | None => None
      | Some (path, raw) => Some (mkURL scheme "" user host path raw omit force query "" "")
      end
    end.

Definition parse_no_fragment (s : string) `{UnicodeTables} : option URL :=
  if has_control s then None
  else if (s =? "*")%string then Some (mkURL "" "" None "" "*" "" false false "" "" "")
  else
    match getScheme s with
    | None => None
    | Some (scheme, rest) => parse_rest (ToLower scheme) rest
    end.

(** [url.Parse]. *)
Definition url_Parse `{UnicodeTables} (raw : string) : option URL :=
  let '(u, frag, _) := CutByte raw "#" in
  match parse_no_fragment u with
  | None => None
  | Some url =>
    if (frag =? "")%string then Some url
    else
      match set_component frag encodeFragment with
      | None => None
      | Some (f, rf) =>
        Some (mkURL (url_Scheme url) (url_Opaque url) (url_User url) (url_Host url) (url_Path url)
                (url_RawPath url) (url_OmitHost url) (url_ForceQuery url) (url_RawQuery url) f rf)
      end
  end.

(** ** Reading and printing *)

Definition Hostname (u : URL) : string :=
  let h := url_Host u in
  let host :=
    match LastIndexByte h ":" with
    | Some i => if validOptionalPort (drop_str i h) then take_str i h else h
    | None => h
    end in
  if HasPrefix host "[" && HasPrefix (rev_string host) "]"
  then drop_str 1 (take_str (String.length host - 1) host) else host.

Definition escaped (text raw : string) (m : EncodingMode) : string :=
  if negb (raw =? "")%string && validEncoded raw m && bool_decide (unescape raw m = Some text)
  then raw else escape text m.

Definition EscapedPath (u : URL) : string :=
  if (url_RawPath u =? "")%string && (url_Path u =? "*")%string then "*"
  else escaped (url_Path u) (url_RawPath u) encodePath.

Definition URL_String (u : URL) : string :=
  let scheme := if (url_Scheme u =? "")%string then "" else url_Scheme u +:+ ":" in
  let body :=
    if negb (url_Opaque u =? "")%string then url_Opaque u
    else
      let has_user := match url_User u with Some _ => true | None => false end in
      let no_host := (url_Host u =? "")%string in
      let authority :=
        if negb (url_Scheme u =? "")%string || negb no_host || has_user then
          if url_OmitHost u && no_host && negb has_user then ""
          else
            (if negb no_host || negb (url_Path u =? "")%string || has_user then "//" else "")
            +:+ (match url_User u with Some ui => ui +:+ "@" | None => "" end)
            +:+ escape (url_Host u) encodeHost
        else "" in
      let path := EscapedPath u in
      let slash := if negb (path =? "")%string && negb (HasPrefix path "/") && negb no_host then "/" else "" in
      let dot := if (scheme +:+ authority +:+ slash =? "")%string && ContainsByte (CutByte path "/").1.1 ":"
                 then "./" else "" in
      authority +:+ slash +:+ dot +:+ path in
  let query := if url_ForceQuery u || negb (url_RawQuery u =? "")%string then "?" +:+ url_RawQuery u else "" in
  let frag := if (url_Fragment u =? "")%string then ""
              else "#" +:+ escaped (url_Fragment u) (url_RawFragment u) encodeFragment in
  scheme +:+ body +:+ query +:+ frag.
