(* ===== verification/Kube.v ===== *)
(** * Kubernetes objects

    The shapes of the Kubernetes objects the controller reads and writes, with
    the fields the source sets or inspects.  A Go pointer is an [option], a
    slice a list; a Go map that can be nil is an [option (gmap _ _)]. *)

From S2P Require Import Prelude GoString GoTime.

(** ** Go maps from strings to strings *)

Definition GoMap := option (gmap string string).
#[export] Instance GoMap_eq_dec : EqDecision GoMap.
Proof. unfold GoMap. solve_decision. Defined.

(** [m[k]]: the zero value for a missing key and for a nil map. *)
Definition map_get (m : GoMap) (k : string) : string :=
  match m with Some g => default ""%string (g !! k) | None => "" end.

(** [m[k] = v] panics on a nil map; [None] is that panic. *)
Definition map_set (m : GoMap) (k v : string) : option GoMap :=
  match m with Some g => Some (Some (<[k := v]> g)) | None => None end.

(** ** Metadata *)

Record NamespacedName := mkNN { nn_Namespace : string; nn_Name : string }.
#[export] Instance NamespacedName_eq_dec : EqDecision NamespacedName.
Proof. solve_decision. Defined.
#[export] Instance NamespacedName_countable : Countable NamespacedName.
Proof.
  apply (inj_countable' (fun k => (nn_Namespace k, nn_Name k)) (fun p => mkNN p.1 p.2)).
  by intros [].
Defined.

Record OwnerReference := mkOwner {
  owner_Kind : string; owner_Name : string; owner_UID : string; owner_Controller : bool }.
#[export] Instance OwnerReference_eq_dec : EqDecision OwnerReference.
Proof. solve_decision. Defined.

Record ObjectMeta := mkMeta {
  om_Name : string;
  om_GenerateName : string;
  om_Namespace : string;
  om_UID : string;
  om_Generation : Z;
  om_DeletionTimestamp : option Time;
  om_Labels : GoMap;
  om_Annotations : GoMap;
  om_OwnerReferences : list OwnerReference }.
#[export] Instance ObjectMeta_eq_dec : EqDecision ObjectMeta.
Proof. unfold Time. solve_decision. Defined.

(** A fresh [metav1.ObjectMeta] literal with a name, a namespace and labels. *)
Definition new_meta (name namespace : string) (labels : GoMap) : ObjectMeta :=
  mkMeta name "" namespace "" 0 None labels None [].

Definition key_of (m : ObjectMeta) : NamespacedName := mkNN (om_Namespace m) (om_Name m).

Definition set_labels (l : GoMap) (m : ObjectMeta) : ObjectMeta :=
  mkMeta (om_Name m) (om_GenerateName m) (om_Namespace m) (om_UID m) (om_Generation m)
    (om_DeletionTimestamp m) l (om_Annotations m) (om_OwnerReferences m).

(** ** Conditions *)

Inductive ConditionStatus := ConditionTrue | ConditionFalse | ConditionUnknown.
#[export] Instance ConditionStatus_eq_dec : EqDecision ConditionStatus.
Proof. solve_decision. Defined.

Record Condition := mkCondition {
  cond_Type : string;
  cond_Status : ConditionStatus;
  cond_Reason : string;
  cond_Message : string;
  cond_ObservedGeneration : Z;
  cond_LastTransitionTime : Time }.
#[export] Instance Condition_eq_dec : EqDecision Condition.
Proof. unfold Time. solve_decision. Defined.

(** ** Pods and Jobs *)

Record KeySelector := mkKeySelector { sel_Name : string; sel_Key : string }.
#[export] Instance KeySelector_eq_dec : EqDecision KeySelector.
Proof. solve_decision. Defined.

Inductive VolumeSource :=
| EmptyDir
| SecretVolume (SecretName : string)
| ConfigMapVolume (Name : string).
#[export] Instance VolumeSource_eq_dec : EqDecision VolumeSource.
Proof. solve_decision. Defined.

Record Volume := mkVolume { vol_Name : string; vol_Source : VolumeSource }.
#[export] Instance Volume_eq_dec : EqDecision Volume.
Proof. solve_decision. Defined.

Record VolumeMount := mkMount {
  vm_Name : string; vm_ReadOnly : bool; vm_MountPath : string; vm_SubPath : string }.
#[export] Instance VolumeMount_eq_dec : EqDecision VolumeMount.
Proof. solve_decision. Defined.

(** [EnvVarSource]: where a variable without a text of its own takes its value. *)
Inductive EnvVarSource :=
| SecretKeyRef (ref : KeySelector)
| ConfigMapKeyRef (ref : KeySelector)
| FieldRef (FieldPath : string)
| ResourceFieldRef (Resource : string).
#[export] Instance EnvVarSource_eq_dec : EqDecision EnvVarSource.
Proof. solve_decision. Defined.

Record EnvVar := mkEnvVar { env_Name : string; env_Value : string; env_ValueFrom : option EnvVarSource }.
#[export] Instance EnvVar_eq_dec : EqDecision EnvVar.
Proof. solve_decision. Defined.

(** The literal [EnvVar{Name: name, Value: value}]. *)
Definition mkEnv (name value : string) : EnvVar := mkEnvVar name value None.

(** A whole object whose keys become variables, with their prefix. *)
Inductive EnvFromSource :=
| SecretEnvFrom (Prefix Name : string)
| ConfigMapEnvFrom (Prefix Name : string).
#[export] Instance EnvFromSource_eq_dec : EqDecision EnvFromSource.
Proof. solve_decision. Defined.

(** A resource quantity, by its canonical text. *)
Definition Quantity := string.
Record ResourceRequirements := mkResources {
  rr_Requests : option (gmap string Quantity); rr_Limits : option (gmap string Quantity) }.
#[export] Instance ResourceRequirements_eq_dec : EqDecision ResourceRequirements.
Proof. unfold Quantity. solve_decision. Defined.

Inductive SeccompProfileType := SeccompRuntimeDefault | SeccompUnconfined | SeccompLocalhost.
#[export] Instance SeccompProfileType_eq_dec : EqDecision SeccompProfileType.
Proof. solve_decision. Defined.

Record SecurityContext := mkSecurityContext {
  sc_RunAsNonRoot : option bool;
  sc_RunAsUser : option Z;
  sc_RunAsGroup : option Z;
  sc_ReadOnlyRootFilesystem : option bool;
  sc_AllowPrivilegeEscalation : option bool;
  sc_CapabilitiesAdd : list string;
  sc_CapabilitiesDrop : list string;
  sc_SeccompProfile : option SeccompProfileType }.
#[export] Instance SecurityContext_eq_dec : EqDecision SecurityContext.
Proof. solve_decision. Defined.

Record PodSecurityContext := mkPodSecurityContext {
  psc_RunAsNonRoot : option bool;
  psc_RunAsUser : option Z;
  psc_RunAsGroup : option Z;
  psc_SeccompProfile : option SeccompProfileType }.
#[export] Instance PodSecurityContext_eq_dec : EqDecision PodSecurityContext.
Proof. solve_decision. Defined.

Inductive TerminationMessagePolicy := TerminationMessageReadFile | TerminationMessageFallbackToLogsOnError.
#[export] Instance TerminationMessagePolicy_eq_dec : EqDecision TerminationMessagePolicy.
Proof. solve_decision. Defined.

Record Container := mkContainer {
  ct_Name : string;
  ct_Image : string;
  ct_ImagePullPolicy : string;
  ct_Command : list string;
  ct_Args : list string;
  ct_EnvFrom : list EnvFromSource;
  ct_Env : list EnvVar;
  ct_Resources : ResourceRequirements;
  ct_SecurityContext : option SecurityContext;
  ct_VolumeMounts : list VolumeMount;
  ct_TerminationMessagePath : string;
  ct_TerminationMessagePolicy : TerminationMessagePolicy }.
#[export] Instance Container_eq_dec : EqDecision Container.
Proof. solve_decision. Defined.

Inductive RestartPolicy := RestartPolicyAlways | RestartPolicyOnFailure | RestartPolicyNever.
#[export] Instance RestartPolicy_eq_dec : EqDecision RestartPolicy.
Proof. solve_decision. Defined.

Record PodSpec := mkPodSpec {
  ps_RestartPolicy : RestartPolicy;
  ps_ServiceAccountName : string;
  ps_AutomountServiceAccountToken : option bool;
  ps_SecurityContext : option PodSecurityContext;
  ps_Containers : list Container;
  ps_Volumes : list Volume }.
#[export] Instance PodSpec_eq_dec : EqDecision PodSpec.
Proof. solve_decision. Defined.

Record PodTemplateSpec := mkPodTemplate { pt_Labels : GoMap; pt_Spec : PodSpec }.
#[export] Instance PodTemplateSpec_eq_dec : EqDecision PodTemplateSpec.
Proof. solve_decision. Defined.

Record JobSpec := mkJobSpec {
  js_BackoffLimit : option Z;
  js_ActiveDeadlineSeconds : option Z;
  js_TTLSecondsAfterFinished : option Z;
  js_Template : PodTemplateSpec }.
#[export] Instance JobSpec_eq_dec : EqDecision JobSpec.
Proof. solve_decision. Defined.

Record JobCondition := mkJobCondition {
  jc_Type : string; jc_Status : ConditionStatus; jc_Reason : string; jc_Message : string }.
#[export] Instance JobCondition_eq_dec : EqDecision JobCondition.
Proof. solve_decision. Defined.

Record JobStatus := mkJobStatus {
  jst_Conditions : list JobCondition;
  jst_Active : Z;
  jst_StartTime : option Time;
  jst_CompletionTime : option Time }.
#[export] Instance JobStatus_eq_dec : EqDecision JobStatus.
Proof. unfold Time. solve_decision. Defined.

Record Job := mkJob { job_Meta : ObjectMeta; job_Spec : JobSpec; job_Status : JobStatus }.
#[export] Instance Job_eq_dec : EqDecision Job.
Proof. solve_decision. Defined.

(** [cs_Terminated] is the message of [State.Terminated], when set. *)
Record ContainerStatus := mkContainerStatus { cs_Name : string; cs_Terminated : option string }.
Record Pod := mkPod { pod_Meta : ObjectMeta; pod_ContainerStatuses : list ContainerStatus }.

(** ** The other owned objects *)

Record ServiceAccount := mkServiceAccount {
  sa_Meta : ObjectMeta; sa_AutomountServiceAccountToken : option bool }.
#[export] Instance ServiceAccount_eq_dec : EqDecision ServiceAccount.
Proof. solve_decision. Defined.

Record ConfigMap := mkConfigMap { cm_Meta : ObjectMeta; cm_Data : GoMap }.
#[export] Instance ConfigMap_eq_dec : EqDecision ConfigMap.
Proof. solve_decision. Defined.

Record PolicyRule := mkPolicyRule {
  pr_APIGroups : list string; pr_Resources : list string;
  pr_Verbs : list string; pr_ResourceNames : list string }.
#[export] Instance PolicyRule_eq_dec : EqDecision PolicyRule.
Proof. solve_decision. Defined.

Record Role := mkRole { role_Meta : ObjectMeta; role_Rules : list PolicyRule }.
#[export] Instance Role_eq_dec : EqDecision Role.
Proof. solve_decision. Defined.

Record Subject := mkSubject { sub_Kind : string; sub_Name : string; sub_Namespace : string }.
#[export] Instance Subject_eq_dec : EqDecision Subject.
Proof. solve_decision. Defined.
Record RoleRef := mkRoleRef { ref_APIGroup : string; ref_Kind : string; ref_Name : string }.
#[export] Instance RoleRef_eq_dec : EqDecision RoleRef.
Proof. solve_decision. Defined.
Record RoleBinding := mkRoleBinding {
  rb_Meta : ObjectMeta; rb_Subjects : list Subject; rb_RoleRef : RoleRef }.
#[export] Instance RoleBinding_eq_dec : EqDecision RoleBinding.
Proof. solve_decision. Defined.

Inductive Protocol := ProtocolTCP | ProtocolUDP.
#[export] Instance Protocol_eq_dec : EqDecision Protocol.
Proof. solve_decision. Defined.

Record NetworkPolicyPort := mkPort { npp_Protocol : Protocol; npp_Port : Z }.
#[export] Instance NetworkPolicyPort_eq_dec : EqDecision NetworkPolicyPort.
Proof. solve_decision. Defined.

(** [npe_IPBlock] is the CIDR of the peer's [IPBlock]; the selectors are the
    [MatchLabels] of label selectors. *)
Record NetworkPolicyPeer := mkPeer {
  npe_IPBlock : option string;
  npe_NamespaceSelector : option (gmap string string);
  npe_PodSelector : option (gmap string string) }.
#[export] Instance NetworkPolicyPeer_eq_dec : EqDecision NetworkPolicyPeer.
Proof. solve_decision. Defined.

Record NetworkPolicyEgressRule := mkEgressRule {
  ner_To : list NetworkPolicyPeer; ner_Ports : list NetworkPolicyPort }.
#[export] Instance NetworkPolicyEgressRule_eq_dec : EqDecision NetworkPolicyEgressRule.
Proof. solve_decision. Defined.

Inductive PolicyType := PolicyTypeIngress | PolicyTypeEgress.
#[export] Instance PolicyType_eq_dec : EqDecision PolicyType.
Proof. solve_decision. Defined.

Record NetworkPolicyIngressRule := mkIngressRule {
  nir_From : list NetworkPolicyPeer; nir_Ports : list NetworkPolicyPort }.
#[export] Instance NetworkPolicyIngressRule_eq_dec : EqDecision NetworkPolicyIngressRule.
Proof. solve_decision. Defined.

Record NetworkPolicySpec := mkNetworkPolicySpec {
  nps_PodSelector : gmap string string;
  nps_PolicyTypes : list PolicyType;
  nps_Ingress : list NetworkPolicyIngressRule;
  nps_Egress : list NetworkPolicyEgressRule }.
#[export] Instance NetworkPolicySpec_eq_dec : EqDecision NetworkPolicySpec.
Proof. solve_decision. Defined.

Record NetworkPolicy := mkNetworkPolicy { np_Meta : ObjectMeta; np_Spec : NetworkPolicySpec }.
#[export] Instance NetworkPolicy_eq_dec : EqDecision NetworkPolicy.
Proof. solve_decision. Defined.

Record Secret := mkSecret { secret_Meta : ObjectMeta; secret_Data : gmap string string }.
#[export] Instance Secret_eq_dec : EqDecision Secret.
Proof. solve_decision. Defined.

(** A label selector with [MatchLabels] selects an object whose labels include
    every pair. *)
Definition selects (sel : gmap string string) (labels : GoMap) : bool :=
  bool_decide (sel ⊆ default ∅ labels).
