(* ===== verification/Api.v ===== *)
(** * The custom resources

    The types of [api/v1alpha1]: [Task], [ClusterAgentClass] and
    [ClusterTriggerClass], with the fields of the source.  A raw JSON extension
    is its bytes. *)

From S2P Require Import Prelude GoString GoTime Kube.

(** ** Task *)

Record AgentRef := mkAgentRef {
  agent_Ref : string;
  agent_Config : option string (* the bytes of a runtime.RawExtension *) }.
#[export] Instance AgentRef_eq_dec : EqDecision AgentRef.
Proof. solve_decision. Defined.

Record PromptSource := mkPromptSource {
  prompt_Inline : string;
  prompt_SecretRef : option KeySelector;
  prompt_ConfigMapRef : option KeySelector }.
#[export] Instance PromptSource_eq_dec : EqDecision PromptSource.
Proof. solve_decision. Defined.

Record RBACRule := mkRBACRule {
  rbac_APIGroups : list string;
  rbac_Resources : list string;
  rbac_Verbs : list string;
  rbac_ResourceNames : list string }.
#[export] Instance RBACRule_eq_dec : EqDecision RBACRule.
Proof. solve_decision. Defined.

Record Permissions := mkPermissions {
  perm_Secrets : list string;
  perm_Egress : list string;
  perm_EgressPorts : list Z;
  perm_RBAC : list RBACRule }.
#[export] Instance Permissions_eq_dec : EqDecision Permissions.
Proof. solve_decision. Defined.

Record TaskResources := mkTaskResources {
  res_CPU : string;
  res_Memory : string;
  res_Timeout : Duration }.
#[export] Instance TaskResources_eq_dec : EqDecision TaskResources.
Proof. unfold Duration. solve_decision. Defined.

Record TaskSpec := mkTaskSpec {
  spec_Agent : AgentRef;
  spec_Prompt : PromptSource;
  spec_Permissions : Permissions;
  spec_Resources : TaskResources;
  spec_TTLSecondsAfterFinished : option Z }.
#[export] Instance TaskSpec_eq_dec : EqDecision TaskSpec.
Proof. solve_decision. Defined.

(** [PhaseNone] is the empty phase of a Task no reconcile has seen; the CRD
    enumerates the other five values. *)
Inductive TaskPhase :=
| PhaseNone
| TaskPhasePending
| TaskPhaseRunning
| TaskPhaseCompleted
| TaskPhaseFailed
| TaskPhaseTimedOut.
#[export] Instance TaskPhase_eq_dec : EqDecision TaskPhase.
Proof. solve_decision. Defined.

Definition phase_string (p : TaskPhase) : string :=
  match p with
  | PhaseNone => ""
  | TaskPhasePending => "Pending"
  | TaskPhaseRunning => "Running"
  | TaskPhaseCompleted => "Completed"
  | TaskPhaseFailed => "Failed"
  | TaskPhaseTimedOut => "TimedOut"
  end.

Record ResultLink := mkResultLink { link_Name : string; link_URL : string }.
#[export] Instance ResultLink_eq_dec : EqDecision ResultLink.
Proof. solve_decision. Defined.

Record TaskResult := mkTaskResult { result_Summary : string; result_Links : list ResultLink }.
#[export] Instance TaskResult_eq_dec : EqDecision TaskResult.
Proof. solve_decision. Defined.

Record TaskStatus := mkTaskStatus {
  st_Phase : TaskPhase;
  st_ObservedGeneration : Z;
  st_JobName : string;
  st_StartTime : option Time;
  st_CompletionTime : option Time;
  st_Result : option TaskResult;
  st_Conditions : list Condition }.
#[export] Instance TaskStatus_eq_dec : EqDecision TaskStatus.
Proof. unfold Time. solve_decision. Defined.

Record Task := mkTask {
  task_Meta : ObjectMeta;
  task_Spec : TaskSpec;
  task_Status : TaskStatus }.
#[export] Instance Task_eq_dec : EqDecision Task.
Proof. solve_decision. Defined.

Definition task_Name (t : Task) : string := om_Name (task_Meta t).
Definition task_Namespace (t : Task) : string := om_Namespace (task_Meta t).
Definition task_UID (t : Task) : string := om_UID (task_Meta t).
Definition task_Generation (t : Task) : Z := om_Generation (task_Meta t).
Definition task_Phase (t : Task) : TaskPhase := st_Phase (task_Status t).

(** Assignments to fields of [task.Status]. *)
Definition set_status (f : TaskStatus -> TaskStatus) (t : Task) : Task :=
  mkTask (task_Meta t) (task_Spec t) (f (task_Status t)).
Definition with_Phase (p : TaskPhase) (s : TaskStatus) : TaskStatus :=
  mkTaskStatus p (st_ObservedGeneration s) (st_JobName s) (st_StartTime s) (st_CompletionTime s)
    (st_Result s) (st_Conditions s).
Definition with_ObservedGeneration (g : Z) (s : TaskStatus) : TaskStatus :=
  mkTaskStatus (st_Phase s) g (st_JobName s) (st_StartTime s) (st_CompletionTime s)
    (st_Result s) (st_Conditions s).
Definition with_JobName (n : string) (s : TaskStatus) : TaskStatus :=
  mkTaskStatus (st_Phase s) (st_ObservedGeneration s) n (st_StartTime s) (st_CompletionTime s)
    (st_Result s) (st_Conditions s).
Definition with_Times (start compl : option Time) (s : TaskStatus) : TaskStatus :=
  mkTaskStatus (st_Phase s) (st_ObservedGeneration s) (st_JobName s) start compl
    (st_Result s) (st_Conditions s).
Definition with_Result (r : option TaskResult) (s : TaskStatus) : TaskStatus :=
  mkTaskStatus (st_Phase s) (st_ObservedGeneration s) (st_JobName s) (st_StartTime s)
    (st_CompletionTime s) r (st_Conditions s).
Definition with_Conditions (c : list Condition) (s : TaskStatus) : TaskStatus :=
  mkTaskStatus (st_Phase s) (st_ObservedGeneration s) (st_JobName s) (st_StartTime s)
    (st_CompletionTime s) (st_Result s) c.

Definition empty_status : TaskStatus := mkTaskStatus PhaseNone 0 "" None None None [].

(** ** ClusterAgentClass *)

Record AgentInputMount := mkAgentInputMount { input_Mount : string; input_Env : string }.
#[export] Instance AgentInputMount_eq_dec : EqDecision AgentInputMount.
Proof. solve_decision. Defined.

Record AgentInputs := mkAgentInputs {
  inputs_Prompt : option AgentInputMount;
  inputs_Config : option AgentInputMount }.
#[export] Instance AgentInputs_eq_dec : EqDecision AgentInputs.
Proof. solve_decision. Defined.

Record AgentRequirements := mkAgentRequirements {
  req_Egress : list string;
  req_Secrets : list string }.
#[export] Instance AgentRequirements_eq_dec : EqDecision AgentRequirements.
Proof. solve_decision. Defined.

Record ClusterAgentClassSpec := mkClusterAgentClassSpec {
  cac_Image : string;
  cac_ImagePullPolicy : string;
  cac_Command : list string;
  cac_Args : list string;
  cac_Inputs : AgentInputs;
  cac_Requires : AgentRequirements }.
#[export] Instance ClusterAgentClassSpec_eq_dec : EqDecision ClusterAgentClassSpec.
Proof. solve_decision. Defined.

Record ClusterAgentClass := mkClusterAgentClass {
  class_Meta : ObjectMeta;
  class_Spec : ClusterAgentClassSpec }.
#[export] Instance ClusterAgentClass_eq_dec : EqDecision ClusterAgentClass.
Proof. solve_decision. Defined.

(** ** ClusterTriggerClass *)

Record WebhookSignature := mkWebhookSignature {
  sig_Header : string;
  sig_Algorithm : string;
  sig_Prefix : string;
  sig_SecretRef : KeySelector }.
#[export] Instance WebhookSignature_eq_dec : EqDecision WebhookSignature.
Proof. solve_decision. Defined.

Record FieldMapping := mkFieldMapping {
  map_From : string;
  map_To : string;
  map_Default : string }.
#[export] Instance FieldMapping_eq_dec : EqDecision FieldMapping.
Proof. solve_decision. Defined.

Record WebhookFilter := mkWebhookFilter { filter_Path : string; filter_Equals : string }.
#[export] Instance WebhookFilter_eq_dec : EqDecision WebhookFilter.
Proof. solve_decision. Defined.

Record TaskTemplate := mkTaskTemplate {
  tmpl_Namespace : string;
  tmpl_GenerateNamePrefix : string;
  tmpl_Agent : AgentRef;
  tmpl_Permissions : Permissions;
  tmpl_Resources : TaskResources;
  tmpl_TTLSecondsAfterFinished : option Z;
  tmpl_Mappings : list FieldMapping }.
#[export] Instance TaskTemplate_eq_dec : EqDecision TaskTemplate.
Proof. solve_decision. Defined.

Record TriggerDedupe := mkTriggerDedupe { dedupe_UniqueBy : list string }.
#[export] Instance TriggerDedupe_eq_dec : EqDecision TriggerDedupe.
Proof. solve_decision. Defined.

Record ClusterTriggerClassSpec := mkClusterTriggerClassSpec {
  ctc_Path : string;
  ctc_Signature : WebhookSignature;
  ctc_Filters : list WebhookFilter;
  ctc_Task : TaskTemplate;
  ctc_Dedupe : option TriggerDedupe }.
#[export] Instance ClusterTriggerClassSpec_eq_dec : EqDecision ClusterTriggerClassSpec.
Proof. solve_decision. Defined.

Record ClusterTriggerClass := mkClusterTriggerClass {
  trigger_Meta : ObjectMeta;
  trigger_Spec : ClusterTriggerClassSpec }.
#[export] Instance ClusterTriggerClass_eq_dec : EqDecision ClusterTriggerClass.
Proof. solve_decision. Defined.
