(* ===== verification/DeepCopy.v ===== *)
(** * Deep copies

    [api/v1alpha1/zz_generated.deepcopy.go].  The other files treat the custom
    resources as values; this one shows why they may.  Here a value of the API
    lies in a heap: pointers and slices are addresses, several of them may point
    to the same cell, and a write through one is seen through all.  [read] gives
    the value an object stands for, [reach] the cells it depends on.  A copy is
    deep when it stands for the same value and reaches no old cell.

    The cells and the copy functions of the Kubernetes types inside the resources
    ([ObjectMeta], [ListMeta], [RawExtension], the key selectors, [Condition],
    [Time]) are parameters, with the contract that the generated functions of this
    file are shown to satisfy themselves. *)

From S2P Require Import Prelude GoString GoTime Kube Api.

Module DeepCopy.

Abbreviation loc := nat.

(** A pointer is an address or nil; a slice is an array with a window on it, or
    nil. *)
Inductive ptr (T : Type) := Nil | At (l : loc).
Inductive slice (T : Type) := NilSlice | Window (l : loc) (off len : nat).
Arguments Nil {T}.
Arguments At {T}.
Arguments NilSlice {T}.
Arguments Window {T}.

Record TypeMeta := mkTypeMeta { tm_Kind : string; tm_APIVersion : string }.

(** ** Resources in memory *)

(** The memory layout of the library types, and the other allocations they use. *)
Class LibTypes := {
  LibCell : Type; gObjectMeta : Type; gListMeta : Type; gRawExtension : Type; gSecretSelector : Type;
  gConfigMapSelector : Type; gCondition : Type; gTime : Type }.

(** ** The scheme *)

Record GroupVersion := mkGroupVersion { gv_Group : string; gv_Version : string }.
Definition SchemeGroupVersion : GroupVersion := mkGroupVersion "openconveyor.ai" "v1alpha1".

(** The kinds a scheme knows, by their group and version. *)
Definition Scheme := list (GroupVersion * string).
Definition AddKnownTypes (gv : GroupVersion) (kinds : list string) (s : Scheme) : Scheme := s ++ ((fun k => (gv, k)) <$> kinds).

(** What the [init] functions of the three files of types register. *)
Definition register_Task : Scheme -> Scheme := AddKnownTypes SchemeGroupVersion ["Task"; "TaskList"]%string.
Definition register_ClusterAgentClass : Scheme -> Scheme :=
  AddKnownTypes SchemeGroupVersion ["ClusterAgentClass"; "ClusterAgentClassList"]%string.
Definition register_ClusterTriggerClass : Scheme -> Scheme :=
  AddKnownTypes SchemeGroupVersion ["ClusterTriggerClass"; "ClusterTriggerClassList"]%string.

(** The builder of [groupversion_info.go]; [AddToGroupVersion] is [metav1]'s. *)
Definition SchemeBuilder (AddToGroupVersion : GroupVersion -> Scheme -> Scheme) : list (Scheme -> Scheme) :=
  [AddToGroupVersion SchemeGroupVersion; register_ClusterAgentClass; register_ClusterTriggerClass; register_Task].
Definition AddToScheme (AddToGroupVersion : GroupVersion -> Scheme -> Scheme) (s : Scheme) : Scheme :=
  foldl (fun s f => f s) s (SchemeBuilder AddToGroupVersion).

Section Memory.
Context {L : LibTypes}.

Record gAgentRef := mkGAgentRef { g_Ref : string; g_Config : ptr gRawExtension }.
Record gPromptSource := mkGPromptSource { g_Inline : string; g_SecretRef : ptr gSecretSelector; g_ConfigMapRef : ptr gConfigMapSelector }.
Record gRBACRule := mkGRBACRule { g_APIGroups : slice string; g_Resources : slice string; g_Verbs : slice string; g_ResourceNames : slice string }.
Record gPermissions := mkGPermissions { g_Secrets : slice string; g_Egress : slice string; g_EgressPorts : slice Z; g_RBAC : slice gRBACRule }.
Record gTaskSpec := mkGTaskSpec {
  g_Agent : gAgentRef; g_Prompt : gPromptSource; g_Permissions : gPermissions; g_SpecResources : TaskResources; g_TTL : ptr Z }.
Record gTaskResult := mkGTaskResult { g_Summary : string; g_Links : slice ResultLink }.
Record gTaskStatus := mkGTaskStatus {
  g_Phase : TaskPhase; g_ObservedGeneration : Z; g_JobName : string; g_StartTime : ptr gTime; g_CompletionTime : ptr gTime;
  g_Result : ptr gTaskResult; g_Conditions : slice gCondition }.
Record gTask := mkGTask { g_TaskType : TypeMeta; g_TaskMeta : gObjectMeta; g_TaskSpec : gTaskSpec; g_TaskStatus : gTaskStatus }.

Record gAgentInputs := mkGAgentInputs { g_InputPrompt : ptr AgentInputMount; g_InputConfig : ptr AgentInputMount }.
Record gAgentRequirements := mkGAgentRequirements { g_ReqEgress : slice string; g_ReqSecrets : slice string }.
Record gClusterAgentClassSpec := mkGClusterAgentClassSpec {
  g_Image : string; g_ImagePullPolicy : string; g_Command : slice string; g_Args : slice string;
  g_Inputs : gAgentInputs; g_Requires : gAgentRequirements }.
Record gClusterAgentClass := mkGClusterAgentClass {
  g_ClassType : TypeMeta; g_ClassMeta : gObjectMeta; g_ClassSpec : gClusterAgentClassSpec }.

Record gWebhookSignature := mkGWebhookSignature {
  g_Header : string; g_Algorithm : string; g_Prefix : string; g_SigSecretRef : gSecretSelector }.
Record gTaskTemplate := mkGTaskTemplate {
  g_TmplNamespace : string; g_GenerateNamePrefix : string; g_TmplAgent : gAgentRef; g_TmplPermissions : gPermissions;
  g_TmplResources : TaskResources; g_TmplTTL : ptr Z; g_Mappings : slice FieldMapping }.
Record gTriggerDedupe := mkGTriggerDedupe { g_UniqueBy : slice string }.
Record gClusterTriggerClassSpec := mkGClusterTriggerClassSpec {
  g_Path : string; g_Signature : gWebhookSignature; g_Filters : slice WebhookFilter; g_Task : gTaskTemplate; g_Dedupe : ptr gTriggerDedupe }.
Record gClusterTriggerClass := mkGClusterTriggerClass {
  g_TriggerType : TypeMeta; g_TriggerMeta : gObjectMeta; g_TriggerSpec : gClusterTriggerClassSpec }.

(** [TaskList], [ClusterAgentClassList] and [ClusterTriggerClassList]. *)
Record gList (T : Type) := mkGList { g_ListType : TypeMeta; g_ListMeta : gListMeta; g_Items : slice T }.

#[global] Arguments mkGList {T}.
#[global] Arguments g_ListType {T}.
#[global] Arguments g_ListMeta {T}.
#[global] Arguments g_Items {T}.

(** An allocation: an array of one type; a pointer points to an array of one. *)
Inductive cell :=
| CLib (c : LibCell)
| CStrings (l : list string)
| CInts (l : list Z)
| CRaws (l : list gRawExtension)
| CSecretSelectors (l : list gSecretSelector)
| CConfigMapSelectors (l : list gConfigMapSelector)
| CTimes (l : list gTime)
| CConditions (l : list gCondition)
| CRules (l : list gRBACRule)
| CLinks (l : list ResultLink)
| CResults (l : list gTaskResult)
| CInputMounts (l : list AgentInputMount)
| CFilters (l : list WebhookFilter)
| CMappings (l : list FieldMapping)
| CDedupes (l : list gTriggerDedupe)
| CTasks (l : list gTask)
| CClasses (l : list gClusterAgentClass)
| CTriggers (l : list gClusterTriggerClass)
| CAgentRefs (l : list gAgentRef)
| CPromptSources (l : list gPromptSource)
| CPermissionSets (l : list gPermissions)
| CTaskResourceSets (l : list TaskResources)
| CTaskSpecs (l : list gTaskSpec)
| CTaskStatuses (l : list gTaskStatus)
| CInputs (l : list gAgentInputs)
| CRequirements (l : list gAgentRequirements)
| CClassSpecs (l : list gClusterAgentClassSpec)
| CSignatures (l : list gWebhookSignature)
| CTemplates (l : list gTaskTemplate)
| CTriggerSpecs (l : list gClusterTriggerClassSpec)
| CTaskLists (l : list (gList gTask))
| CClassLists (l : list (gList gClusterAgentClass))
| CTriggerLists (l : list (gList gClusterTriggerClass)).

Abbreviation heap := (gmap loc cell).

(** A type whose arrays have a cell. *)
Class Stored (G : Type) := {
  pack : list G -> cell;
  unpack : cell -> option (list G);
  unpack_pack : forall l, unpack (pack l) = Some l }.

#[export] Instance strings_stored : Stored string :=
  {| pack := CStrings; unpack := fun c => match c with CStrings l => Some l | _ => None end; unpack_pack := fun l => eq_refl |}.
#[export] Instance ints_stored : Stored Z :=
  {| pack := CInts; unpack := fun c => match c with CInts l => Some l | _ => None end; unpack_pack := fun l => eq_refl |}.
#[export] Instance raws_stored : Stored gRawExtension :=
  {| pack := CRaws; unpack := fun c => match c with CRaws l => Some l | _ => None end; unpack_pack := fun l => eq_refl |}.
#[export] Instance secret_selectors_stored : Stored gSecretSelector :=
  {| pack := CSecretSelectors; unpack := fun c => match c with CSecretSelectors l => Some l | _ => None end; unpack_pack := fun l => eq_refl |}.
#[export] Instance configmap_selectors_stored : Stored gConfigMapSelector :=
  {| pack := CConfigMapSelectors; unpack := fun c => match c with CConfigMapSelectors l => Some l | _ => None end; unpack_pack := fun l => eq_refl |}.
#[export] Instance times_stored : Stored gTime :=
  {| pack := CTimes; unpack := fun c => match c with CTimes l => Some l | _ => None end; unpack_pack := fun l => eq_refl |}.
#[export] Instance conditions_stored : Stored gCondition :=
  {| pack := CConditions; unpack := fun c => match c with CConditions l => Some l | _ => None end; unpack_pack := fun l => eq_refl |}.
#[export] Instance rules_stored : Stored gRBACRule :=
  {| pack := CRules; unpack := fun c => match c with CRules l => Some l | _ => None end; unpack_pack := fun l => eq_refl |}.
#[export] Instance links_stored : Stored ResultLink :=
  {| pack := CLinks; unpack := fun c => match c with CLinks l => Some l | _ => None end; unpack_pack := fun l => eq_refl |}.
#[export] Instance results_stored : Stored gTaskResult :=
  {| pack := CResults; unpack := fun c => match c with CResults l => Some l | _ => None end; unpack_pack := fun l => eq_refl |}.
#[export] Instance mounts_stored : Stored AgentInputMount :=
  {| pack := CInputMounts; unpack := fun c => match c with CInputMounts l => Some l | _ => None end; unpack_pack := fun l => eq_refl |}.
#[export] Instance filters_stored : Stored WebhookFilter :=
  {| pack := CFilters; unpack := fun c => match c with CFilters l => Some l | _ => None end; unpack_pack := fun l => eq_refl |}.
#[export] Instance mappings_stored : Stored FieldMapping :=
  {| pack := CMappings; unpack := fun c => match c with CMappings l => Some l | _ => None end; unpack_pack := fun l => eq_refl |}.
#[export] Instance dedupes_stored : Stored gTriggerDedupe :=
  {| pack := CDedupes; unpack := fun c => match c with CDedupes l => Some l | _ => None end; unpack_pack := fun l => eq_refl |}.
#[export] Instance tasks_stored : Stored gTask :=
  {| pack := CTasks; unpack := fun c => match c with CTasks l => Some l | _ => None end; unpack_pack := fun l => eq_refl |}.
#[export] Instance classes_stored : Stored gClusterAgentClass :=
  {| pack := CClasses; unpack := fun c => match c with CClasses l => Some l | _ => None end; unpack_pack := fun l => eq_refl |}.
#[export] Instance triggers_stored : Stored gClusterTriggerClass :=
  {| pack := CTriggers; unpack := fun c => match c with CTriggers l => Some l | _ => None end; unpack_pack := fun l => eq_refl |}.

#[export] Instance agent_refs_stored : Stored gAgentRef :=
  {| pack := CAgentRefs; unpack := fun c => match c with CAgentRefs l => Some l | _ => None end; unpack_pack := fun l => eq_refl |}.
#[export] Instance prompt_sources_stored : Stored gPromptSource :=
  {| pack := CPromptSources; unpack := fun c => match c with CPromptSources l => Some l | _ => None end; unpack_pack := fun l => eq_refl |}.
#[export] Instance permission_sets_stored : Stored gPermissions :=
  {| pack := CPermissionSets; unpack := fun c => match c with CPermissionSets l => Some l | _ => None end; unpack_pack := fun l => eq_refl |}.
#[export] Instance resource_sets_stored : Stored TaskResources :=
  {| pack := CTaskResourceSets; unpack := fun c => match c with CTaskResourceSets l => Some l | _ => None end; unpack_pack := fun l => eq_refl |}.
#[export] Instance task_specs_stored : Stored gTaskSpec :=
  {| pack := CTaskSpecs; unpack := fun c => match c with CTaskSpecs l => Some l | _ => None end; unpack_pack := fun l => eq_refl |}.
#[export] Instance task_statuses_stored : Stored gTaskStatus :=
  {| pack := CTaskStatuses; unpack := fun c => match c with CTaskStatuses l => Some l | _ => None end; unpack_pack := fun l => eq_refl |}.
#[export] Instance inputs_stored : Stored gAgentInputs :=
  {| pack := CInputs; unpack := fun c => match c with CInputs l => Some l | _ => None end; unpack_pack := fun l => eq_refl |}.
#[export] Instance requirements_stored : Stored gAgentRequirements :=
  {| pack := CRequirements; unpack := fun c => match c with CRequirements l => Some l | _ => None end; unpack_pack := fun l => eq_refl |}.
#[export] Instance class_specs_stored : Stored gClusterAgentClassSpec :=
  {| pack := CClassSpecs; unpack := fun c => match c with CClassSpecs l => Some l | _ => None end; unpack_pack := fun l => eq_refl |}.
#[export] Instance signatures_stored : Stored gWebhookSignature :=
  {| pack := CSignatures; unpack := fun c => match c with CSignatures l => Some l | _ => None end; unpack_pack := fun l => eq_refl |}.
#[export] Instance templates_stored : Stored gTaskTemplate :=
  {| pack := CTemplates; unpack := fun c => match c with CTemplates l => Some l | _ => None end; unpack_pack := fun l => eq_refl |}.
#[export] Instance trigger_specs_stored : Stored gClusterTriggerClassSpec :=
  {| pack := CTriggerSpecs; unpack := fun c => match c with CTriggerSpecs l => Some l | _ => None end; unpack_pack := fun l => eq_refl |}.
#[export] Instance task_lists_stored : Stored (gList gTask) :=
  {| pack := CTaskLists; unpack := fun c => match c with CTaskLists l => Some l | _ => None end; unpack_pack := fun l => eq_refl |}.
#[export] Instance class_lists_stored : Stored (gList gClusterAgentClass) :=
  {| pack := CClassLists; unpack := fun c => match c with CClassLists l => Some l | _ => None end; unpack_pack := fun l => eq_refl |}.
#[export] Instance trigger_lists_stored : Stored (gList gClusterTriggerClass) :=
  {| pack := CTriggerLists; unpack := fun c => match c with CTriggerLists l => Some l | _ => None end; unpack_pack := fun l => eq_refl |}.

(** ** Reading *)

(** What a representation stands for, and the cells it depends on. *)
Class Repr (G A : Type) := {
  read : heap -> G -> option A;
  reach : heap -> G -> gset loc }.
#[global] Hint Mode Repr ! - : typeclass_instances.

(** Reading depends on the reached cells only, and they are allocated. *)
Class ReprLaws (G A : Type) `{Repr G A} := {
  read_local : forall h h' (g : G) (a : A), read h g = Some a -> (forall l, l ∈ reach h g -> h' !! l = h !! l) ->
    read h' g = Some a /\ reach h' g = reach h g;
  reach_dom : forall h (g : G) (a : A), read h g = Some a -> reach h g ⊆ dom h }.

Definition deref {G} `{Stored G} (h : heap) (l : loc) : option (list G) := h !! l ≫= unpack.

Definition reads {G A} `{Repr G A} (h : heap) (l : list G) : option (list A) := mapM (read h) l.
Definition reaches {G A} `{Repr G A} (h : heap) (l : list G) : gset loc := ⋃ (reach h <$> l).

(** A value without pointers stands for itself. *)
Definition plain_repr (A : Type) : Repr A A := {| read := fun _ a => Some a; reach := fun _ _ => ∅ |}.

(** The pointee of a pointer: nil stands for [None]. *)
#[export] Instance ptr_repr {G A} `{Stored G, Repr G A} : Repr (ptr G) (option A) := {|
  read := fun h p =>
    match p with
    | Nil => Some None
    | At l => match deref h l with Some [g] => Some <$> read h g | _ => None end
    end;
  reach := fun h p =>
    match p with
    | Nil => ∅
    | At l => {[ l ]} ∪ match deref h l with Some [g] => reach h g | _ => ∅ end
    end |}.

Definition window {G} (off len : nat) (arr : list G) : option (list G) :=
  if (off + len <=? length arr)%nat then Some (take len (drop off arr)) else None.

(** The elements of a slice: a nil slice has none. *)
Definition elements_of {G} `{Stored G} (h : heap) (s : slice G) : option (list G) :=
  match s with
  | NilSlice => Some []
  | Window l off len => match deref h l with Some arr => window off len arr | None => None end
  end.

#[export] Instance slice_repr {G A} `{Stored G, Repr G A} : Repr (slice G) (list A) := {|
  read := fun h s => match elements_of h s with Some gs => reads h gs | None => None end;
  reach := fun h s =>
    match s with Window l _ _ => {[ l ]} | NilSlice => ∅ end ∪
    match elements_of h s with Some gs => reaches h gs | None => ∅ end |}.

(** ** Copying *)

(** A computation that allocates; [None] is a dangling address, which Go does not
    have. *)
Definition M (X : Type) : Type := heap -> option (X * heap).
Definition ret {X} (x : X) : M X := fun h => Some (x, h).
Definition mbind_ {X Y} (m : M X) (k : X -> M Y) : M Y :=
  fun h => match m h with Some (x, h') => k x h' | None => None end.
Notation "'do' x <- m ; k" := (mbind_ m (fun x => k)) (at level 10, x name, m at level 100, k at level 200).

Definition alloc {G} `{Stored G} (l : list G) : M loc :=
  fun h => let a := fresh (dom h) in Some (a, <[a := pack l]> h).

Fixpoint map_copy {G} (copy : G -> M G) (l : list G) : M (list G) :=
  match l with
  | [] => ret []
  | g :: l' => do g' <- copy g; do l'' <- map_copy copy l'; ret (g' :: l'')
  end.

(** A pointer field: unless it is nil, a new object and [DeepCopyInto] into it; with
    [ret] as the copy, the object is assigned. *)
Definition ptr_copy {G} `{Stored G} (copy : G -> M G) (p : ptr G) : M (ptr G) :=
  match p with
  | Nil => ret Nil
  | At l => fun h =>
    match deref h l with
    | Some [g] => (do g' <- copy g; do a <- alloc [g']; ret (At a)) h
    | _ => None
    end
  end.

(** A slice field: unless it is nil, a new array of its length and [DeepCopyInto]
    for each element; with [ret] as the copy, the builtin [copy].  The elements are
    allocated before the array here; no address is observable. *)
Definition slice_copy {G} `{Stored G} (copy : G -> M G) (s : slice G) : M (slice G) :=
  match s with
  | NilSlice => ret NilSlice
  | Window _ _ len => fun h =>
    match elements_of h s with
    | Some gs => (do gs' <- map_copy copy gs; do a <- alloc gs'; ret (Window a 0 len)) h
    | None => None
    end
  end.

(** ** Laws *)

Lemma read_extends {G A} `{ReprLaws G A} h h' (g : G) (a : A) :
  h ⊆ h' -> read h g = Some a -> read h' g = Some a /\ reach h' g = reach h g.
Proof.
  intros Hs Hr. apply (read_local h h' g a Hr). intros l Hl. apply (reach_dom h g a Hr) in Hl.
  apply elem_of_dom in Hl as [c Hc]. rewrite Hc. by eapply lookup_weaken.
Qed.

Lemma plain_laws (A : Type) : @ReprLaws A A (plain_repr A).
Proof. split; [done|]. intros h g a _. apply empty_subseteq. Qed.

Lemma deref_same {G} `{Stored G} (h h' : heap) l : h' !! l = h !! l -> deref h' l = (deref h l : option (list G)).
Proof. unfold deref. by intros ->. Qed.

Lemma deref_dom {G} `{Stored G} (h : heap) l (gs : list G) : deref h l = Some gs -> l ∈ dom h.
Proof. unfold deref. intros (c & Hc & _)%bind_Some. apply elem_of_dom. eauto. Qed.

#[export] Instance ptr_laws {G A} `{Stored G, ReprLaws G A} : ReprLaws (ptr G) (option A).
Proof.
  split.
  - intros h h' [|l] a Hr Hl; [done|]. cbn in *. rewrite (deref_same h h' l) by (apply Hl; set_solver).
    destruct (deref h l) as [[|g [|]]|] eqn:Hd; try done. apply fmap_Some in Hr as (x & Hx & ->).
    destruct (read_local h h' g x Hx) as [-> ->]; [|done]. intros l' Hl'. apply Hl. set_solver.
  - intros h [|l] a Hr; [apply empty_subseteq|]. cbn in *. destruct (deref h l) as [[|g [|]]|] eqn:Hd; try done.
    apply deref_dom in Hd. apply fmap_Some in Hr as (x & Hx & ->). apply reach_dom in Hx. set_solver.
Qed.

Lemma reads_local {G A} `{ReprLaws G A} h h' (gs : list G) (xs : list A) :
  reads h gs = Some xs -> (forall l, l ∈ reaches h gs -> h' !! l = h !! l) ->
  reads h' gs = Some xs /\ reaches h' gs = reaches h gs.
Proof.
  unfold reads, reaches. revert xs. induction gs as [|g gs IH]; intros xs Hr Hl; [done|]. cbn in *.
  apply bind_Some in Hr as (x & Hx & Hr). apply bind_Some in Hr as (ys & Hys & Hr). simplify_eq.
  destruct (read_local h h' g x Hx) as [-> ->]; [intros; apply Hl; set_solver|].
  destruct (IH ys Hys) as [-> ->]; [intros; apply Hl; set_solver|]. done.
Qed.

Lemma reaches_dom {G A} `{ReprLaws G A} h (gs : list G) (xs : list A) : reads h gs = Some xs -> reaches h gs ⊆ dom h.
Proof.
  unfold reads, reaches. revert xs. induction gs as [|g gs IH]; intros xs Hr; [set_solver|]. cbn in *.
  apply bind_Some in Hr as (x & Hx & Hr). apply bind_Some in Hr as (ys & Hys & Hr).
  apply reach_dom in Hx. specialize (IH ys Hys). set_solver.
Qed.

#[export] Instance slice_laws {G A} `{Stored G, ReprLaws G A} : ReprLaws (slice G) (list A).
Proof.
  split.
  - intros h h' s a Hr Hl. cbn in *.
    assert (He : elements_of h' s = (elements_of h s : option (list G))).
    { destruct s as [|l off len]; [done|]. cbn. rewrite (deref_same h h' l) by (apply Hl; set_solver). done. }
    rewrite He. destruct (elements_of h s) as [gs|]; [|done].
    destruct (reads_local h h' gs a Hr) as [-> ->]; [intros; apply Hl; set_solver|done].
  - intros h s a Hr. cbn in *. destruct (elements_of h s) as [gs|] eqn:He; [|done]. apply reaches_dom in Hr.
    destruct s as [|l off len]; [set_solver|]. cbn in He. destruct (deref h l) eqn:Hd; [|done]. apply deref_dom in Hd. set_solver.
Qed.

(** ** Deep copies *)

(** The contract of a copy function: from where the original stands for [a], the
    copy succeeds, only allocates, stands for [a], and reaches new cells only. *)
Class Copies {G A} `{Repr G A} (copy : G -> M G) : Prop :=
  copies : forall h (g : G) (a : A), read h g = Some a -> exists g' h',
    copy g h = Some (g', h') /\ h ⊆ h' /\ read h' g' = Some a /\ reach h' g' ## dom h.

(** A representation made since [h0]. *)
Definition made {G A} `{Repr G A} (h0 h : heap) (g : G) (a : A) : Prop := read h g = Some a /\ reach h g ## dom h0.

Lemma made_extends {G A} `{ReprLaws G A} h0 h h' (g : G) (a : A) : h ⊆ h' -> made h0 h g a -> made h0 h' g a.
Proof. intros Hs [Hr Hd]. destruct (read_extends h h' g a Hs Hr) as [Hr' He]. split; [done|]. by rewrite He. Qed.

Definition wp {X} (m : M X) (h : heap) (Q : X -> heap -> Prop) : Prop :=
  match m h with Some (x, h') => Q x h' | None => False end.

Lemma wp_ret {X} (x : X) h (Q : X -> heap -> Prop) : Q x h -> wp (ret x) h Q.
Proof. done. Qed.

Lemma wp_bind {X Y} (m : M X) (k : X -> M Y) h Q : wp m h (fun x h' => wp (k x) h' Q) -> wp (mbind_ m k) h Q.
Proof. unfold wp, mbind_. by destruct (m h) as [[x h']|]. Qed.

Lemma wp_copy {G A} `{ReprLaws G A} (copy : G -> M G) `{!Copies copy} h0 h (g : G) (a : A) (Q : G -> heap -> Prop) :
  h0 ⊆ h -> read h0 g = Some a -> (forall g' h', h ⊆ h' -> made h0 h' g' a -> Q g' h') -> wp (copy g) h Q.
Proof.
  intros Hs Hr HQ. destruct (read_extends h0 h g a Hs Hr) as [Hr' _].
  destruct (copies h g a Hr') as (g' & h' & Hc & Hs' & Hr'' & Hd). unfold wp. rewrite Hc. apply HQ; [done|].
  split; [done|]. apply subseteq_dom in Hs. set_solver.
Qed.

Lemma wp_alloc {G} `{Stored G} (gs : list G) h (Q : loc -> heap -> Prop) :
  (forall a, a ∉ dom h -> h ⊆ <[a := pack gs]> h -> deref (<[a := pack gs]> h) a = Some gs -> Q a (<[a := pack gs]> h)) ->
  wp (alloc gs) h Q.
Proof.
  intros HQ. unfold wp, alloc. pose proof (is_fresh (dom h)) as Hf. apply HQ; [done| |].
  - apply insert_subseteq. by apply not_elem_of_dom.
  - unfold deref. rewrite lookup_insert_eq. cbn. apply unpack_pack.
Qed.

Lemma copies_intro {G A} `{Repr G A} (copy : G -> M G) :
  (forall h (g : G) (a : A), read h g = Some a -> wp (copy g) h (fun g' h' => h ⊆ h' /\ made h h' g' a)) -> Copies copy.
Proof.
  intros Hw h g a Hr. specialize (Hw h g a Hr). unfold wp in Hw. destruct (copy g h) as [[g' h']|]; [|done].
  destruct Hw as (? & ? & ?). by exists g', h'.
Qed.

Lemma ret_copies {A} : @Copies A A (plain_repr A) ret.
Proof. intros h g a Hr. exists g, h. split_and!; [done..|]. apply disjoint_empty_l. Qed.

Lemma map_copies {G A} `{ReprLaws G A} (copy : G -> M G) `{!Copies copy} h0 h (gs : list G) (xs : list A) (Q : list G -> heap -> Prop) :
  h0 ⊆ h -> reads h0 gs = Some xs ->
  (forall gs' h', h ⊆ h' -> reads h' gs' = Some xs -> reaches h' gs' ## dom h0 -> length gs' = length gs -> Q gs' h') ->
  wp (map_copy copy gs) h Q.
Proof.
  revert h xs Q. induction gs as [|g gs IH]; intros h xs Q Hs Hr HQ; cbn in *.
  { apply wp_ret, HQ; [done|done| |done]. apply disjoint_empty_l. }
  unfold reads in Hr. cbn in Hr. apply bind_Some in Hr as (x & Hx & Hr). apply bind_Some in Hr as (ys & Hys & Hr). injection Hr as <-.
  apply wp_bind. apply (wp_copy copy h0 h g x); [done..|]. intros g' h1 Hs1 Hm.
  apply wp_bind. apply (IH h1 ys); [by etrans|exact Hys|]. intros gs' h2 Hs2 Hr2 Hd2 Hl.
  apply wp_ret. destruct (made_extends _ _ _ _ _ Hs2 Hm) as [Hm1 Hm2]. apply HQ; [by etrans| | |cbn; lia].
  - unfold reads in *. cbn. rewrite Hm1. cbn. by rewrite Hr2.
  - unfold reaches in *. cbn. set_solver.
Qed.

#[export] Instance ptr_copies {G A} `{Stored G, ReprLaws G A} (copy : G -> M G) `{!Copies copy} : Copies (ptr_copy copy).
Proof.
  apply copies_intro. intros h [|l] a Hr; [cbn in Hr; simplify_eq; apply wp_ret; split; [done|split; [done|apply disjoint_empty_l]]|].
  cbn in Hr |- *. unfold wp. destruct (deref h l) as [[|g [|]]|] eqn:Hd; try done. apply fmap_Some in Hr as (x & Hx & ->).
  change (wp (do g' <- copy g; do a <- alloc [g']; ret (At a : ptr G)) h (fun p h' => h ⊆ h' /\ made h h' p (Some x))).
  apply wp_bind. apply (wp_copy copy h h g x); [done..|]. intros g' h1 Hs1 Hm. apply wp_bind. apply wp_alloc. intros b Hb Hs2 Hdr.
  apply wp_ret. split; [by etrans|]. destruct (made_extends _ _ _ _ _ Hs2 Hm) as [Hm1 Hm2].
  split; cbn; rewrite Hdr; [by rewrite Hm1|]. apply subseteq_dom in Hs1. set_solver.
Qed.

Lemma window_length {G} off len (arr gs : list G) : window off len arr = Some gs -> length gs = len.
Proof.
  unfold window. destruct (Nat.leb_spec (off + len) (length arr)); [|done]. intros [= <-].
  rewrite length_take, length_drop. lia.
Qed.

#[export] Instance slice_copies {G A} `{Stored G, ReprLaws G A} (copy : G -> M G) `{!Copies copy} : Copies (slice_copy copy).
Proof.
  apply copies_intro. intros h [|l off len] a Hr.
  { cbn in Hr. simplify_eq. apply wp_ret. split; [done|]. split; [done|]. cbn. set_solver. }
  unfold slice_copy. unfold read, slice_repr in Hr. unfold wp. destruct (elements_of h _) as [gs|] eqn:He; [|done].
  assert (Hlen : length gs = len). { cbn in He. destruct (deref h l); [|done]. by apply window_length in He. }
  change (wp (do gs' <- map_copy copy gs; do b <- alloc gs'; ret (Window b 0 len : slice G)) h
            (fun s h' => h ⊆ h' /\ made h h' s a)).
  apply wp_bind. apply (map_copies copy h h gs a); [done..|]. intros gs' h1 Hs1 Hr1 Hd1 Hl. apply wp_bind. apply wp_alloc.
  intros b Hb Hs2 Hdr. apply wp_ret. split; [by etrans|].
  assert (Hel : elements_of (<[b:=pack gs']> h1) (Window b 0 len) = Some gs').
  { cbn. rewrite Hdr. unfold window. rewrite (proj2 (Nat.leb_le _ _)) by lia. rewrite drop_0, take_ge by lia. done. }
  destruct (reads_local h1 (<[b:=pack gs']> h1) gs' a Hr1) as [Hr2 Hre].
  { intros l' Hl'. apply lookup_insert_ne. intros ->. apply reaches_dom in Hr1. set_solver. }
  split; unfold read, reach, slice_repr; rewrite Hel; [done|]. rewrite Hre. apply subseteq_dom in Hs1. set_solver.
Qed.

(** ** The library types *)

Class LibCopies := {
  ListMeta : Type;
  meta_repr :: Repr gObjectMeta ObjectMeta; meta_laws :: ReprLaws gObjectMeta ObjectMeta;
  listmeta_repr :: Repr gListMeta ListMeta; listmeta_laws :: ReprLaws gListMeta ListMeta;
  raw_repr :: Repr gRawExtension string; raw_laws :: ReprLaws gRawExtension string;
  secret_selector_repr :: Repr gSecretSelector KeySelector; secret_selector_laws :: ReprLaws gSecretSelector KeySelector;
  configmap_selector_repr :: Repr gConfigMapSelector KeySelector;
  configmap_selector_laws :: ReprLaws gConfigMapSelector KeySelector;
  condition_repr :: Repr gCondition Condition; condition_laws :: ReprLaws gCondition Condition;
  time_repr :: Repr gTime Time; time_laws :: ReprLaws gTime Time;
  ObjectMeta_DeepCopyInto : gObjectMeta -> M gObjectMeta; meta_copies :: Copies ObjectMeta_DeepCopyInto;
  ListMeta_DeepCopyInto : gListMeta -> M gListMeta; listmeta_copies :: Copies ListMeta_DeepCopyInto;
  RawExtension_DeepCopyInto : gRawExtension -> M gRawExtension; raw_copies :: Copies RawExtension_DeepCopyInto;
  SecretKeySelector_DeepCopyInto : gSecretSelector -> M gSecretSelector;
  secret_selector_copies :: Copies SecretKeySelector_DeepCopyInto;
  ConfigMapKeySelector_DeepCopyInto : gConfigMapSelector -> M gConfigMapSelector;
  configmap_selector_copies :: Copies ConfigMapKeySelector_DeepCopyInto;
  Condition_DeepCopyInto : gCondition -> M gCondition; condition_copies :: Copies Condition_DeepCopyInto;
  Time_DeepCopyInto : gTime -> M gTime; time_copies :: Copies Time_DeepCopyInto }.

Context `{!LibCopies}.

#[export] Instance string_repr : Repr string string := plain_repr string.
#[export] Instance Z_repr : Repr Z Z := plain_repr Z.
#[export] Instance AgentInputMount_repr : Repr AgentInputMount AgentInputMount := plain_repr AgentInputMount.
#[export] Instance FieldMapping_repr : Repr FieldMapping FieldMapping := plain_repr FieldMapping.
#[export] Instance ResultLink_repr : Repr ResultLink ResultLink := plain_repr ResultLink.
#[export] Instance WebhookFilter_repr : Repr WebhookFilter WebhookFilter := plain_repr WebhookFilter.
#[export] Instance TaskResources_repr : Repr TaskResources TaskResources := plain_repr TaskResources.
#[export] Instance string_laws : ReprLaws string string := plain_laws string.
#[export] Instance Z_laws : ReprLaws Z Z := plain_laws Z.
#[export] Instance AgentInputMount_laws : ReprLaws AgentInputMount AgentInputMount := plain_laws AgentInputMount.
#[export] Instance FieldMapping_laws : ReprLaws FieldMapping FieldMapping := plain_laws FieldMapping.
#[export] Instance ResultLink_laws : ReprLaws ResultLink ResultLink := plain_laws ResultLink.
#[export] Instance WebhookFilter_laws : ReprLaws WebhookFilter WebhookFilter := plain_laws WebhookFilter.
#[export] Instance TaskResources_laws : ReprLaws TaskResources TaskResources := plain_laws TaskResources.
#[export] Instance string_copies : Copies (ret : string -> M string) := ret_copies.
#[export] Instance Z_copies : Copies (ret : Z -> M Z) := ret_copies.
#[export] Instance mount_assigned : Copies (ret : AgentInputMount -> M AgentInputMount) := ret_copies.
#[export] Instance mapping_assigned : Copies (ret : FieldMapping -> M FieldMapping) := ret_copies.
#[export] Instance link_assigned : Copies (ret : ResultLink -> M ResultLink) := ret_copies.
#[export] Instance filter_assigned : Copies (ret : WebhookFilter -> M WebhookFilter) := ret_copies.

(** ** The generated functions *)

(** [DeepCopy]: nil for nil, otherwise a new object and [DeepCopyInto] into it. *)
Definition DeepCopy_of {G} `{Stored G} (DeepCopyInto : G -> M G) (p : ptr G) : M (ptr G) := ptr_copy DeepCopyInto p.

(** Structs without pointers are assigned. *)
Definition AgentInputMount_DeepCopyInto (g : AgentInputMount) : M AgentInputMount := ret g.
Definition FieldMapping_DeepCopyInto (g : FieldMapping) : M FieldMapping := ret g.
Definition ResultLink_DeepCopyInto (g : ResultLink) : M ResultLink := ret g.
Definition WebhookFilter_DeepCopyInto (g : WebhookFilter) : M WebhookFilter := ret g.
Definition TaskResources_DeepCopyInto (g : TaskResources) : M TaskResources :=
  ret (mkTaskResources (res_CPU g) (res_Memory g) (res_Timeout g)).

#[export] Instance AgentInputMount_copies : Copies AgentInputMount_DeepCopyInto := ret_copies.
#[export] Instance FieldMapping_copies : Copies FieldMapping_DeepCopyInto := ret_copies.
#[export] Instance ResultLink_copies : Copies ResultLink_DeepCopyInto := ret_copies.
#[export] Instance WebhookFilter_copies : Copies WebhookFilter_DeepCopyInto := ret_copies.
#[export] Instance TaskResources_copies : Copies TaskResources_DeepCopyInto.
Proof. intros h g a Hr. destruct g. by apply ret_copies. Qed.

(** Reduces the fields of a struct that was just built. *)
Ltac fields := cbn [read reach
    g_Ref g_Config g_Inline g_SecretRef g_ConfigMapRef g_APIGroups g_Resources g_Verbs g_ResourceNames
    g_Secrets g_Egress g_EgressPorts g_RBAC g_Agent g_Prompt g_Permissions g_SpecResources g_TTL
    g_Summary g_Links g_Phase g_ObservedGeneration g_JobName g_StartTime g_CompletionTime g_Result g_Conditions
    g_TaskType g_TaskMeta g_TaskSpec g_TaskStatus g_InputPrompt g_InputConfig g_ReqEgress g_ReqSecrets g_Image
    g_ImagePullPolicy g_Command g_Args g_Inputs g_Requires g_ClassType g_ClassMeta g_ClassSpec g_Header
    g_Algorithm g_Prefix g_SigSecretRef g_TmplNamespace g_GenerateNamePrefix g_TmplAgent g_TmplPermissions g_TmplResources g_TmplTTL
    g_Mappings g_UniqueBy g_Path g_Signature g_Filters g_Task g_Dedupe g_TriggerType g_TriggerMeta
    g_TriggerSpec g_ListType g_ListMeta g_Items].

(** Proves the laws of a struct from those of its fields. *)
Ltac split_reads := repeat match goal with H : _ ≫= _ = Some _ |- _ => apply bind_Some in H as (? & ? & H) end.

Ltac struct_laws :=
  split;
  [ intros h h' g a Hr Hl; cbn [read reach] in *; split_reads;
    repeat match goal with
    | H : read h ?x = Some _ |- _ => destruct (read_local h h' x _ H) as [-> ->]; [intros ? ?; apply Hl; rewrite ?elem_of_union; tauto|clear H]
    end; done
  | intros h g a Hr; cbn [read reach] in *; split_reads;
    repeat match goal with H : read h _ = Some _ |- _ => apply reach_dom in H end; rewrite ?union_subseteq; tauto ].

(** Runs the copies of the fields one after the other. *)
Ltac struct_copies :=
  apply copies_intro; intros h g a Hr; cbn [read] in Hr; split_reads;
  let Hs := fresh "Hs" in assert (Hs : h ⊆ h) by done;
  repeat lazymatch goal with
  | Hs : h ⊆ ?hc |- wp (mbind_ _ _) ?hc _ =>
      let g' := fresh "g" in let h' := fresh "h" in let Hs' := fresh "Hs" in let Hm := fresh "Hm" in
      apply wp_bind; eapply (wp_copy _ h hc); [exact Hs|eassumption|]; intros g' h' Hs' Hm;
      repeat match goal with Hx : made h hc _ _ |- _ => apply (made_extends _ _ _ _ _ Hs') in Hx end;
      apply (transitivity Hs) in Hs'; clear Hs
  end;
  apply wp_ret; split; [assumption|];
  repeat match goal with Hx : made h _ _ _ |- _ => destruct Hx as [? ?] end;
  split; fields;
  [ repeat match goal with Hx : read ?hc ?x = Some _ |- context [read ?hc ?x] => rewrite Hx; clear Hx; cbn [mbind option_bind] end; simplify_eq; done
  | rewrite ?disjoint_union_l; tauto ].

#[export] Instance AgentRef_repr : Repr gAgentRef AgentRef := {|
  read := fun h g => config ← read h (g_Config g); Some (mkAgentRef (g_Ref g) config);
  reach := fun h g => reach h (g_Config g) |}.
#[export] Instance AgentRef_laws : ReprLaws gAgentRef AgentRef.
Proof. unfold AgentRef_repr. struct_laws. Qed.
Definition AgentRef_DeepCopyInto (g : gAgentRef) : M gAgentRef :=
  do config <- ptr_copy RawExtension_DeepCopyInto (g_Config g);
  ret (mkGAgentRef (g_Ref g) config).
#[export] Instance AgentRef_copies : Copies AgentRef_DeepCopyInto.
Proof. unfold AgentRef_repr, AgentRef_DeepCopyInto. struct_copies. Qed.

#[export] Instance PromptSource_repr : Repr gPromptSource PromptSource := {|
  read := fun h g =>
    x1 ← read h (g_SecretRef g);
    x2 ← read h (g_ConfigMapRef g);
    Some (mkPromptSource (g_Inline g) x1 x2);
  reach := fun h g => reach h (g_SecretRef g) ∪ reach h (g_ConfigMapRef g) |}.
#[export] Instance PromptSource_laws : ReprLaws gPromptSource PromptSource.
Proof. unfold PromptSource_repr. struct_laws. Qed.
Definition PromptSource_DeepCopyInto (g : gPromptSource) : M gPromptSource :=
  do x1 <- ptr_copy SecretKeySelector_DeepCopyInto (g_SecretRef g);
  do x2 <- ptr_copy ConfigMapKeySelector_DeepCopyInto (g_ConfigMapRef g);
  ret (mkGPromptSource (g_Inline g) x1 x2).
#[export] Instance PromptSource_copies : Copies PromptSource_DeepCopyInto.
Proof. unfold PromptSource_repr, PromptSource_DeepCopyInto. struct_copies. Qed.

#[export] Instance RBACRule_repr : Repr gRBACRule RBACRule := {|
  read := fun h g =>
    x1 ← read h (g_APIGroups g);
    x2 ← read h (g_Resources g);
    x3 ← read h (g_Verbs g);
    x4 ← read h (g_ResourceNames g);
    Some (mkRBACRule x1 x2 x3 x4);
  reach := fun h g => reach h (g_APIGroups g) ∪ reach h (g_Resources g) ∪ reach h (g_Verbs g) ∪ reach h (g_ResourceNames g) |}.
#[export] Instance RBACRule_laws : ReprLaws gRBACRule RBACRule.
Proof. unfold RBACRule_repr. struct_laws. Qed.
Definition RBACRule_DeepCopyInto (g : gRBACRule) : M gRBACRule :=
  do x1 <- slice_copy ret (g_APIGroups g);
  do x2 <- slice_copy ret (g_Resources g);
  do x3 <- slice_copy ret (g_Verbs g);
  do x4 <- slice_copy ret (g_ResourceNames g);
  ret (mkGRBACRule x1 x2 x3 x4).
#[export] Instance RBACRule_copies : Copies RBACRule_DeepCopyInto.
Proof. unfold RBACRule_repr, RBACRule_DeepCopyInto. struct_copies. Qed.

#[export] Instance Permissions_repr : Repr gPermissions Permissions := {|
  read := fun h g =>
    x1 ← read h (g_Secrets g);
    x2 ← read h (g_Egress g);
    x3 ← read h (g_EgressPorts g);
    x4 ← read h (g_RBAC g);
    Some (mkPermissions x1 x2 x3 x4);
  reach := fun h g => reach h (g_Secrets g) ∪ reach h (g_Egress g) ∪ reach h (g_EgressPorts g) ∪ reach h (g_RBAC g) |}.
#[export] Instance Permissions_laws : ReprLaws gPermissions Permissions.
Proof. unfold Permissions_repr. struct_laws. Qed.
Definition Permissions_DeepCopyInto (g : gPermissions) : M gPermissions :=
  do x1 <- slice_copy ret (g_Secrets g);
  do x2 <- slice_copy ret (g_Egress g);
  do x3 <- slice_copy ret (g_EgressPorts g);
  do x4 <- slice_copy RBACRule_DeepCopyInto (g_RBAC g);
  ret (mkGPermissions x1 x2 x3 x4).
#[export] Instance Permissions_copies : Copies Permissions_DeepCopyInto.
Proof. unfold Permissions_repr, Permissions_DeepCopyInto. struct_copies. Qed.

#[export] Instance TaskSpec_repr : Repr gTaskSpec TaskSpec := {|
  read := fun h g =>
    x1 ← read h (g_Agent g);
    x2 ← read h (g_Prompt g);
    x3 ← read h (g_Permissions g);
    x4 ← read h (g_TTL g);
    Some (mkTaskSpec x1 x2 x3 (g_SpecResources g) x4);
  reach := fun h g => reach h (g_Agent g) ∪ reach h (g_Prompt g) ∪ reach h (g_Permissions g) ∪ reach h (g_TTL g) |}.
#[export] Instance TaskSpec_laws : ReprLaws gTaskSpec TaskSpec.
Proof. unfold TaskSpec_repr. struct_laws. Qed.
Definition TaskSpec_DeepCopyInto (g : gTaskSpec) : M gTaskSpec :=
  do x1 <- AgentRef_DeepCopyInto (g_Agent g);
  do x2 <- PromptSource_DeepCopyInto (g_Prompt g);
  do x3 <- Permissions_DeepCopyInto (g_Permissions g);
  do x4 <- ptr_copy ret (g_TTL g);
  ret (mkGTaskSpec x1 x2 x3 (g_SpecResources g) x4).
#[export] Instance TaskSpec_copies : Copies TaskSpec_DeepCopyInto.
Proof. unfold TaskSpec_repr, TaskSpec_DeepCopyInto. struct_copies. Qed.

#[export] Instance TaskResult_repr : Repr gTaskResult TaskResult := {|
  read := fun h g =>
    x1 ← read h (g_Links g);
    Some (mkTaskResult (g_Summary g) x1);
  reach := fun h g => reach h (g_Links g) |}.
#[export] Instance TaskResult_laws : ReprLaws gTaskResult TaskResult.
Proof. unfold TaskResult_repr. struct_laws. Qed.
Definition TaskResult_DeepCopyInto (g : gTaskResult) : M gTaskResult :=
  do x1 <- slice_copy ret (g_Links g);
  ret (mkGTaskResult (g_Summary g) x1).
#[export] Instance TaskResult_copies : Copies TaskResult_DeepCopyInto.
Proof. unfold TaskResult_repr, TaskResult_DeepCopyInto. struct_copies. Qed.

#[export] Instance TaskStatus_repr : Repr gTaskStatus TaskStatus := {|
  read := fun h g =>
    x1 ← read h (g_StartTime g);
    x2 ← read h (g_CompletionTime g);
    x3 ← read h (g_Result g);
    x4 ← read h (g_Conditions g);
    Some (mkTaskStatus (g_Phase g) (g_ObservedGeneration g) (g_JobName g) x1 x2 x3 x4);
  reach := fun h g => reach h (g_StartTime g) ∪ reach h (g_CompletionTime g) ∪ reach h (g_Result g) ∪ reach h (g_Conditions g) |}.
#[export] Instance TaskStatus_laws : ReprLaws gTaskStatus TaskStatus.
Proof. unfold TaskStatus_repr. struct_laws. Qed.
Definition TaskStatus_DeepCopyInto (g : gTaskStatus) : M gTaskStatus :=
  do x1 <- ptr_copy Time_DeepCopyInto (g_StartTime g);
  do x2 <- ptr_copy Time_DeepCopyInto (g_CompletionTime g);
  do x3 <- ptr_copy TaskResult_DeepCopyInto (g_Result g);
  do x4 <- slice_copy Condition_DeepCopyInto (g_Conditions g);
  ret (mkGTaskStatus (g_Phase g) (g_ObservedGeneration g) (g_JobName g) x1 x2 x3 x4).
#[export] Instance TaskStatus_copies : Copies TaskStatus_DeepCopyInto.
Proof. unfold TaskStatus_repr, TaskStatus_DeepCopyInto. struct_copies. Qed.

#[export] Instance Task_repr : Repr gTask (TypeMeta * Task) := {|
  read := fun h g =>
    x1 ← read h (g_TaskMeta g);
    x2 ← read h (g_TaskSpec g);
    x3 ← read h (g_TaskStatus g);
    Some (g_TaskType g, mkTask x1 x2 x3);
  reach := fun h g => reach h (g_TaskMeta g) ∪ reach h (g_TaskSpec g) ∪ reach h (g_TaskStatus g) |}.
#[export] Instance Task_laws : ReprLaws gTask (TypeMeta * Task).
Proof. unfold Task_repr. struct_laws. Qed.
Definition Task_DeepCopyInto (g : gTask) : M gTask :=
  do x1 <- ObjectMeta_DeepCopyInto (g_TaskMeta g);
  do x2 <- TaskSpec_DeepCopyInto (g_TaskSpec g);
  do x3 <- TaskStatus_DeepCopyInto (g_TaskStatus g);
  ret (mkGTask (g_TaskType g) x1 x2 x3).
#[export] Instance Task_copies : Copies Task_DeepCopyInto.
Proof. unfold Task_repr, Task_DeepCopyInto. struct_copies. Qed.

#[export] Instance AgentInputs_repr : Repr gAgentInputs AgentInputs := {|
  read := fun h g =>
    x1 ← read h (g_InputPrompt g);
    x2 ← read h (g_InputConfig g);
    Some (mkAgentInputs x1 x2);
  reach := fun h g => reach h (g_InputPrompt g) ∪ reach h (g_InputConfig g) |}.
#[export] Instance AgentInputs_laws : ReprLaws gAgentInputs AgentInputs.
Proof. unfold AgentInputs_repr. struct_laws. Qed.
Definition AgentInputs_DeepCopyInto (g : gAgentInputs) : M gAgentInputs :=
  do x1 <- ptr_copy ret (g_InputPrompt g);
  do x2 <- ptr_copy ret (g_InputConfig g);
  ret (mkGAgentInputs x1 x2).
#[export] Instance AgentInputs_copies : Copies AgentInputs_DeepCopyInto.
Proof. unfold AgentInputs_repr, AgentInputs_DeepCopyInto. struct_copies. Qed.

#[export] Instance AgentRequirements_repr : Repr gAgentRequirements AgentRequirements := {|
  read := fun h g =>
    x1 ← read h (g_ReqEgress g);
    x2 ← read h (g_ReqSecrets g);
    Some (mkAgentRequirements x1 x2);
  reach := fun h g => reach h (g_ReqEgress g) ∪ reach h (g_ReqSecrets g) |}.
#[export] Instance AgentRequirements_laws : ReprLaws gAgentRequirements AgentRequirements.
Proof. unfold AgentRequirements_repr. struct_laws. Qed.
Definition AgentRequirements_DeepCopyInto (g : gAgentRequirements) : M gAgentRequirements :=
  do x1 <- slice_copy ret (g_ReqEgress g);
  do x2 <- slice_copy ret (g_ReqSecrets g);
  ret (mkGAgentRequirements x1 x2).
#[export] Instance AgentRequirements_copies : Copies AgentRequirements_DeepCopyInto.
Proof. unfold AgentRequirements_repr, AgentRequirements_DeepCopyInto. struct_copies. Qed.

#[export] Instance ClusterAgentClassSpec_repr : Repr gClusterAgentClassSpec ClusterAgentClassSpec := {|
  read := fun h g =>
    x1 ← read h (g_Command g);
    x2 ← read h (g_Args g);
    x3 ← read h (g_Inputs g);
    x4 ← read h (g_Requires g);
    Some (mkClusterAgentClassSpec (g_Image g) (g_ImagePullPolicy g) x1 x2 x3 x4);
  reach := fun h g => reach h (g_Command g) ∪ reach h (g_Args g) ∪ reach h (g_Inputs g) ∪ reach h (g_Requires g) |}.
#[export] Instance ClusterAgentClassSpec_laws : ReprLaws gClusterAgentClassSpec ClusterAgentClassSpec.
Proof. unfold ClusterAgentClassSpec_repr. struct_laws. Qed.
Definition ClusterAgentClassSpec_DeepCopyInto (g : gClusterAgentClassSpec) : M gClusterAgentClassSpec :=
  do x1 <- slice_copy ret (g_Command g);
  do x2 <- slice_copy ret (g_Args g);
  do x3 <- AgentInputs_DeepCopyInto (g_Inputs g);
  do x4 <- AgentRequirements_DeepCopyInto (g_Requires g);
  ret (mkGClusterAgentClassSpec (g_Image g) (g_ImagePullPolicy g) x1 x2 x3 x4).
#[export] Instance ClusterAgentClassSpec_copies : Copies ClusterAgentClassSpec_DeepCopyInto.
Proof. unfold ClusterAgentClassSpec_repr, ClusterAgentClassSpec_DeepCopyInto. struct_copies. Qed.

#[export] Instance ClusterAgentClass_repr : Repr gClusterAgentClass (TypeMeta * ClusterAgentClass) := {|
  read := fun h g =>
    x1 ← read h (g_ClassMeta g);
    x2 ← read h (g_ClassSpec g);
    Some (g_ClassType g, mkClusterAgentClass x1 x2);
  reach := fun h g => reach h (g_ClassMeta g) ∪ reach h (g_ClassSpec g) |}.
#[export] Instance ClusterAgentClass_laws : ReprLaws gClusterAgentClass (TypeMeta * ClusterAgentClass).
Proof. unfold ClusterAgentClass_repr. struct_laws. Qed.
Definition ClusterAgentClass_DeepCopyInto (g : gClusterAgentClass) : M gClusterAgentClass :=
  do x1 <- ObjectMeta_DeepCopyInto (g_ClassMeta g);
  do x2 <- ClusterAgentClassSpec_DeepCopyInto (g_ClassSpec g);
  ret (mkGClusterAgentClass (g_ClassType g) x1 x2).
#[export] Instance ClusterAgentClass_copies : Copies ClusterAgentClass_DeepCopyInto.
Proof. unfold ClusterAgentClass_repr, ClusterAgentClass_DeepCopyInto. struct_copies. Qed.

#[export] Instance WebhookSignature_repr : Repr gWebhookSignature WebhookSignature := {|
  read := fun h g =>
    x1 ← read h (g_SigSecretRef g);
    Some (mkWebhookSignature (g_Header g) (g_Algorithm g) (g_Prefix g) x1);
  reach := fun h g => reach h (g_SigSecretRef g) |}.
#[export] Instance WebhookSignature_laws : ReprLaws gWebhookSignature WebhookSignature.
Proof. unfold WebhookSignature_repr. struct_laws. Qed.
Definition WebhookSignature_DeepCopyInto (g : gWebhookSignature) : M gWebhookSignature :=
  do x1 <- SecretKeySelector_DeepCopyInto (g_SigSecretRef g);
  ret (mkGWebhookSignature (g_Header g) (g_Algorithm g) (g_Prefix g) x1).
#[export] Instance WebhookSignature_copies : Copies WebhookSignature_DeepCopyInto.
Proof. unfold WebhookSignature_repr, WebhookSignature_DeepCopyInto. struct_copies. Qed.

#[export] Instance TaskTemplate_repr : Repr gTaskTemplate TaskTemplate := {|
  read := fun h g =>
    x1 ← read h (g_TmplAgent g);
    x2 ← read h (g_TmplPermissions g);
    x3 ← read h (g_TmplTTL g);
    x4 ← read h (g_Mappings g);
    Some (mkTaskTemplate (g_TmplNamespace g) (g_GenerateNamePrefix g) x1 x2 (g_TmplResources g) x3 x4);
  reach := fun h g => reach h (g_TmplAgent g) ∪ reach h (g_TmplPermissions g) ∪ reach h (g_TmplTTL g) ∪ reach h (g_Mappings g) |}.
#[export] Instance TaskTemplate_laws : ReprLaws gTaskTemplate TaskTemplate.
Proof. unfold TaskTemplate_repr. struct_laws. Qed.
Definition TaskTemplate_DeepCopyInto (g : gTaskTemplate) : M gTaskTemplate :=
  do x1 <- AgentRef_DeepCopyInto (g_TmplAgent g);
  do x2 <- Permissions_DeepCopyInto (g_TmplPermissions g);
  do x3 <- ptr_copy ret (g_TmplTTL g);
  do x4 <- slice_copy ret (g_Mappings g);
  ret (mkGTaskTemplate (g_TmplNamespace g) (g_GenerateNamePrefix g) x1 x2 (g_TmplResources g) x3 x4).
#[export] Instance TaskTemplate_copies : Copies TaskTemplate_DeepCopyInto.
Proof. unfold TaskTemplate_repr, TaskTemplate_DeepCopyInto. struct_copies. Qed.

#[export] Instance TriggerDedupe_repr : Repr gTriggerDedupe TriggerDedupe := {|
  read := fun h g =>
    x1 ← read h (g_UniqueBy g);
    Some (mkTriggerDedupe x1);
  reach := fun h g => reach h (g_UniqueBy g) |}.
#[export] Instance TriggerDedupe_laws : ReprLaws gTriggerDedupe TriggerDedupe.
Proof. unfold TriggerDedupe_repr. struct_laws. Qed.
Definition TriggerDedupe_DeepCopyInto (g : gTriggerDedupe) : M gTriggerDedupe :=
  do x1 <- slice_copy ret (g_UniqueBy g);
  ret (mkGTriggerDedupe x1).
#[export] Instance TriggerDedupe_copies : Copies TriggerDedupe_DeepCopyInto.
Proof. unfold TriggerDedupe_repr, TriggerDedupe_DeepCopyInto. struct_copies. Qed.

#[export] Instance ClusterTriggerClassSpec_repr : Repr gClusterTriggerClassSpec ClusterTriggerClassSpec := {|
  read := fun h g =>
    x1 ← read h (g_Signature g);
    x2 ← read h (g_Filters g);
    x3 ← read h (g_Task g);
    x4 ← read h (g_Dedupe g);
    Some (mkClusterTriggerClassSpec (g_Path g) x1 x2 x3 x4);
  reach := fun h g => reach h (g_Signature g) ∪ reach h (g_Filters g) ∪ reach h (g_Task g) ∪ reach h (g_Dedupe g) |}.
#[export] Instance ClusterTriggerClassSpec_laws : ReprLaws gClusterTriggerClassSpec ClusterTriggerClassSpec.
Proof. unfold ClusterTriggerClassSpec_repr. struct_laws. Qed.
Definition ClusterTriggerClassSpec_DeepCopyInto (g : gClusterTriggerClassSpec) : M gClusterTriggerClassSpec :=
  do x1 <- WebhookSignature_DeepCopyInto (g_Signature g);
  do x2 <- slice_copy ret (g_Filters g);
  do x3 <- TaskTemplate_DeepCopyInto (g_Task g);
  do x4 <- ptr_copy TriggerDedupe_DeepCopyInto (g_Dedupe g);
  ret (mkGClusterTriggerClassSpec (g_Path g) x1 x2 x3 x4).
#[export] Instance ClusterTriggerClassSpec_copies : Copies ClusterTriggerClassSpec_DeepCopyInto.
Proof. unfold ClusterTriggerClassSpec_repr, ClusterTriggerClassSpec_DeepCopyInto. struct_copies. Qed.

#[export] Instance ClusterTriggerClass_repr : Repr gClusterTriggerClass (TypeMeta * ClusterTriggerClass) := {|
  read := fun h g =>
    x1 ← read h (g_TriggerMeta g);
    x2 ← read h (g_TriggerSpec g);
    Some (g_TriggerType g, mkClusterTriggerClass x1 x2);
  reach := fun h g => reach h (g_TriggerMeta g) ∪ reach h (g_TriggerSpec g) |}.
#[export] Instance ClusterTriggerClass_laws : ReprLaws gClusterTriggerClass (TypeMeta * ClusterTriggerClass).
Proof. unfold ClusterTriggerClass_repr. struct_laws. Qed.
Definition ClusterTriggerClass_DeepCopyInto (g : gClusterTriggerClass) : M gClusterTriggerClass :=
  do x1 <- ObjectMeta_DeepCopyInto (g_TriggerMeta g);
  do x2 <- ClusterTriggerClassSpec_DeepCopyInto (g_TriggerSpec g);
  ret (mkGClusterTriggerClass (g_TriggerType g) x1 x2).
#[export] Instance ClusterTriggerClass_copies : Copies ClusterTriggerClass_DeepCopyInto.
Proof. unfold ClusterTriggerClass_repr, ClusterTriggerClass_DeepCopyInto. struct_copies. Qed.

(** [TaskList], [ClusterAgentClassList] and [ClusterTriggerClassList]. *)
#[export] Instance List_repr {G A} `{Stored G, Repr G A} : Repr (gList G) (TypeMeta * ListMeta * list A) := {|
  read := fun h g => x1 ← read h (g_ListMeta g); x2 ← read h (g_Items g); Some (g_ListType g, x1, x2);
  reach := fun h g => reach h (g_ListMeta g) ∪ reach h (g_Items g) |}.
#[export] Instance List_laws {G A} `{Stored G, ReprLaws G A} : ReprLaws (gList G) (TypeMeta * ListMeta * list A).
Proof. unfold List_repr. struct_laws. Qed.
Definition List_DeepCopyInto {G} `{Stored G} (DeepCopyInto : G -> M G) (g : gList G) : M (gList G) :=
  do x1 <- ListMeta_DeepCopyInto (g_ListMeta g);
  do x2 <- slice_copy DeepCopyInto (g_Items g);
  ret (mkGList (g_ListType g) x1 x2).
#[export] Instance List_copies {G A} `{Stored G, ReprLaws G A} (copy : G -> M G) `{!Copies copy} : Copies (List_DeepCopyInto copy).
Proof. unfold List_repr, List_DeepCopyInto. struct_copies. Qed.

Definition TaskList_DeepCopyInto : gList gTask -> M (gList gTask) := List_DeepCopyInto Task_DeepCopyInto.
Definition ClusterAgentClassList_DeepCopyInto : gList gClusterAgentClass -> M (gList gClusterAgentClass) :=
  List_DeepCopyInto ClusterAgentClass_DeepCopyInto.
Definition ClusterTriggerClassList_DeepCopyInto : gList gClusterTriggerClass -> M (gList gClusterTriggerClass) :=
  List_DeepCopyInto ClusterTriggerClass_DeepCopyInto.

(** ** [DeepCopy] *)

Definition AgentInputMount_DeepCopy : ptr AgentInputMount -> M (ptr AgentInputMount) := DeepCopy_of AgentInputMount_DeepCopyInto.
Definition AgentInputs_DeepCopy : ptr gAgentInputs -> M (ptr gAgentInputs) := DeepCopy_of AgentInputs_DeepCopyInto.
Definition AgentRef_DeepCopy : ptr gAgentRef -> M (ptr gAgentRef) := DeepCopy_of AgentRef_DeepCopyInto.
Definition AgentRequirements_DeepCopy : ptr gAgentRequirements -> M (ptr gAgentRequirements) := DeepCopy_of AgentRequirements_DeepCopyInto.
Definition ClusterAgentClass_DeepCopy : ptr gClusterAgentClass -> M (ptr gClusterAgentClass) := DeepCopy_of ClusterAgentClass_DeepCopyInto.
Definition ClusterAgentClassList_DeepCopy : ptr (gList gClusterAgentClass) -> M (ptr (gList gClusterAgentClass)) := DeepCopy_of ClusterAgentClassList_DeepCopyInto.
Definition ClusterAgentClassSpec_DeepCopy : ptr gClusterAgentClassSpec -> M (ptr gClusterAgentClassSpec) := DeepCopy_of ClusterAgentClassSpec_DeepCopyInto.
Definition ClusterTriggerClass_DeepCopy : ptr gClusterTriggerClass -> M (ptr gClusterTriggerClass) := DeepCopy_of ClusterTriggerClass_DeepCopyInto.
Definition ClusterTriggerClassList_DeepCopy : ptr (gList gClusterTriggerClass) -> M (ptr (gList gClusterTriggerClass)) := DeepCopy_of ClusterTriggerClassList_DeepCopyInto.
Definition ClusterTriggerClassSpec_DeepCopy : ptr gClusterTriggerClassSpec -> M (ptr gClusterTriggerClassSpec) := DeepCopy_of ClusterTriggerClassSpec_DeepCopyInto.
Definition FieldMapping_DeepCopy : ptr FieldMapping -> M (ptr FieldMapping) := DeepCopy_of FieldMapping_DeepCopyInto.
Definition Permissions_DeepCopy : ptr gPermissions -> M (ptr gPermissions) := DeepCopy_of Permissions_DeepCopyInto.
Definition PromptSource_DeepCopy : ptr gPromptSource -> M (ptr gPromptSource) := DeepCopy_of PromptSource_DeepCopyInto.
Definition RBACRule_DeepCopy : ptr gRBACRule -> M (ptr gRBACRule) := DeepCopy_of RBACRule_DeepCopyInto.
Definition ResultLink_DeepCopy : ptr ResultLink -> M (ptr ResultLink) := DeepCopy_of ResultLink_DeepCopyInto.
Definition Task_DeepCopy : ptr gTask -> M (ptr gTask) := DeepCopy_of Task_DeepCopyInto.
Definition TaskList_DeepCopy : ptr (gList gTask) -> M (ptr (gList gTask)) := DeepCopy_of TaskList_DeepCopyInto.
Definition TaskResources_DeepCopy : ptr TaskResources -> M (ptr TaskResources) := DeepCopy_of TaskResources_DeepCopyInto.
Definition TaskResult_DeepCopy : ptr gTaskResult -> M (ptr gTaskResult) := DeepCopy_of TaskResult_DeepCopyInto.
Definition TaskSpec_DeepCopy : ptr gTaskSpec -> M (ptr gTaskSpec) := DeepCopy_of TaskSpec_DeepCopyInto.
Definition TaskStatus_DeepCopy : ptr gTaskStatus -> M (ptr gTaskStatus) := DeepCopy_of TaskStatus_DeepCopyInto.
Definition TaskTemplate_DeepCopy : ptr gTaskTemplate -> M (ptr gTaskTemplate) := DeepCopy_of TaskTemplate_DeepCopyInto.
Definition TriggerDedupe_DeepCopy : ptr gTriggerDedupe -> M (ptr gTriggerDedupe) := DeepCopy_of TriggerDedupe_DeepCopyInto.
Definition WebhookFilter_DeepCopy : ptr WebhookFilter -> M (ptr WebhookFilter) := DeepCopy_of WebhookFilter_DeepCopyInto.
Definition WebhookSignature_DeepCopy : ptr gWebhookSignature -> M (ptr gWebhookSignature) := DeepCopy_of WebhookSignature_DeepCopyInto.

(** A [runtime.Object] is nil or a pointer with its type; the pointer in it could
    itself be nil. *)
Inductive Object :=
| ObjTask (p : ptr gTask)
| ObjTaskList (p : ptr (gList gTask))
| ObjClusterAgentClass (p : ptr gClusterAgentClass)
| ObjClusterAgentClassList (p : ptr (gList gClusterAgentClass))
| ObjClusterTriggerClass (p : ptr gClusterTriggerClass)
| ObjClusterTriggerClassList (p : ptr (gList gClusterTriggerClass)).

Definition kind_of (o : Object) : string :=
  match o with
  | ObjTask _ => "Task"
  | ObjTaskList _ => "TaskList"
  | ObjClusterAgentClass _ => "ClusterAgentClass"
  | ObjClusterAgentClassList _ => "ClusterAgentClassList"
  | ObjClusterTriggerClass _ => "ClusterTriggerClass"
  | ObjClusterTriggerClassList _ => "ClusterTriggerClassList"
  end.

(** [if c := in.DeepCopy(); c != nil { return c }; return nil]. *)
Definition DeepCopyObject_of {G} (obj : ptr G -> Object) (DeepCopy : ptr G -> M (ptr G)) (p : ptr G) : M (option Object) :=
  do c <- DeepCopy p; ret (match c with At _ => Some (obj c) | Nil => None end).

Definition ClusterAgentClass_DeepCopyObject : ptr gClusterAgentClass -> M (option Object) := DeepCopyObject_of ObjClusterAgentClass ClusterAgentClass_DeepCopy.
Definition ClusterAgentClassList_DeepCopyObject : ptr (gList gClusterAgentClass) -> M (option Object) := DeepCopyObject_of ObjClusterAgentClassList ClusterAgentClassList_DeepCopy.
Definition ClusterTriggerClass_DeepCopyObject : ptr gClusterTriggerClass -> M (option Object) := DeepCopyObject_of ObjClusterTriggerClass ClusterTriggerClass_DeepCopy.
Definition ClusterTriggerClassList_DeepCopyObject : ptr (gList gClusterTriggerClass) -> M (option Object) := DeepCopyObject_of ObjClusterTriggerClassList ClusterTriggerClassList_DeepCopy.
Definition Task_DeepCopyObject : ptr gTask -> M (option Object) := DeepCopyObject_of ObjTask Task_DeepCopy.
Definition TaskList_DeepCopyObject : ptr (gList gTask) -> M (option Object) := DeepCopyObject_of ObjTaskList TaskList_DeepCopy.

(** ** Isolation *)

(** [h'] comes from [h] by allocating, and by writing to cells of [s] only. *)
Definition differs_in (s : gset loc) (h h' : heap) : Prop := forall l c, l ∉ s -> h !! l = Some c -> h' !! l = Some c.

Lemma disjoint_shrink (s t d : gset loc) : s ## d -> t ⊆ d -> t ## s.
Proof. set_solver. Qed.

Lemma differs_off {G A} `{ReprLaws G A} s h h' (g : G) (a : A) :
  differs_in s h h' -> read h g = Some a -> reach h g ## s -> read h' g = Some a.
Proof.
  intros Hw Hr Hd. apply (read_local h h' g a Hr). intros l Hl. pose proof (reach_dom h g a Hr l Hl) as [c Hc]%elem_of_dom.
  rewrite Hc. apply Hw; [set_solver|done].
Qed.

(** The copy succeeds and stands for what the original stands for; afterwards,
    whatever is written through one of the two leaves the value of the other. *)
Definition Isolates {G A} `{Repr G A} (copy : G -> M G) : Prop :=
  forall h (g : G) (a : A), read h g = Some a -> exists g' h',
    copy g h = Some (g', h') /\ read h' g' = Some a /\ read h' g = Some a /\
    (forall h'', differs_in (reach h' g') h' h'' -> read h'' g = Some a) /\
    (forall h'', differs_in (reach h' g) h' h'' -> read h'' g' = Some a).

Lemma copies_isolate {G A} `{ReprLaws G A} (copy : G -> M G) `{!Copies copy} : Isolates copy.
Proof.
  intros h g a Hr. destruct (copies h g a Hr) as (g' & h' & Hc & Hs & Hr' & Hd). exists g', h'.
  destruct (read_extends h h' g a Hs Hr) as [Hrg Hre]. pose proof (reach_dom h g a Hr) as Hdom.
  split_and!; [done..| |]; intros h'' Hw; (eapply differs_off; [exact Hw|done|]); rewrite Hre; set_solver.
Qed.

(** What [DeepCopyObject] returns: nil for nil, and otherwise the interface of a
    pointer that is not nil and that [DeepCopy] returned. *)
Definition ObjectOf {G} (obj : ptr G -> Object) (DeepCopy : ptr G -> M (ptr G)) (DeepCopyObject : ptr G -> M (option Object)) : Prop :=
  (forall h, DeepCopyObject Nil h = Some (None, h)) /\
  forall h l p h', DeepCopy (At l) h = Some (p, h') ->
    exists l', p = At l' /\ DeepCopyObject (At l) h = Some (Some (obj (At l')), h').

Lemma deepCopyObject_of {G} `{Stored G} (obj : ptr G -> Object) (copy : G -> M G) :
  ObjectOf obj (DeepCopy_of copy) (DeepCopyObject_of obj (DeepCopy_of copy)).
Proof.
  split; [done|]. intros h l p h' Hc. unfold DeepCopyObject_of, mbind_. rewrite Hc.
  unfold DeepCopy_of, ptr_copy, mbind_, alloc, ret in Hc. repeat case_match; simplify_eq. eauto.
Qed.

(** C20. A deep copy shares nothing with its original.  For each of the six kinds
    of the API, copying any well-formed object succeeds and gives an object with
    the same value; writing afterwards to any memory the copy reaches does not
    change the original, and writing to any memory the original reaches does not
    change the copy.  [DeepCopyObject] returns the nil interface for nil only, and
    every object it can return is of a kind that the scheme of the program knows. *)
Theorem deep_copies_isolate :
  (Isolates Task_DeepCopy /\ Isolates ClusterAgentClass_DeepCopy /\ Isolates ClusterTriggerClass_DeepCopy /\
   Isolates TaskList_DeepCopy /\ Isolates ClusterAgentClassList_DeepCopy /\ Isolates ClusterTriggerClassList_DeepCopy) /\
  (ObjectOf ObjTask Task_DeepCopy Task_DeepCopyObject /\
   ObjectOf ObjClusterAgentClass ClusterAgentClass_DeepCopy ClusterAgentClass_DeepCopyObject /\
   ObjectOf ObjClusterTriggerClass ClusterTriggerClass_DeepCopy ClusterTriggerClass_DeepCopyObject /\
   ObjectOf ObjTaskList TaskList_DeepCopy TaskList_DeepCopyObject /\
   ObjectOf ObjClusterAgentClassList ClusterAgentClassList_DeepCopy ClusterAgentClassList_DeepCopyObject /\
   ObjectOf ObjClusterTriggerClassList ClusterTriggerClassList_DeepCopy ClusterTriggerClassList_DeepCopyObject) /\
  (forall o meta s, (SchemeGroupVersion, kind_of o) ∈ AddToScheme meta s).
Proof.
  split_and!; try first [exact (copies_isolate _) | apply deepCopyObject_of].
  intros o meta s. unfold AddToScheme, SchemeBuilder, AddKnownTypes. destruct o; set_solver.
Qed.

End Memory.
(** ** A concrete memory *)

(** The bytes of a [RawExtension] lie in a cell of their own; the other library
    types are taken as plain values. *)
Module Sample.

Definition layout : LibTypes := {|
  LibCell := string; gObjectMeta := ObjectMeta; gListMeta := string; gRawExtension := nat; gSecretSelector := KeySelector;
  gConfigMapSelector := KeySelector; gCondition := Condition; gTime := Time |}.
#[local] Existing Instance layout.

Definition bytes_at (h : gmap nat cell) (l : nat) : option string :=
  match h !! l with Some (CLib b) => Some b | _ => None end.
#[local] Instance bytes_repr : Repr nat string := {| read := bytes_at; reach := fun _ l => {[ l ]} |}.
Definition bytes_copy (l : nat) : M nat :=
  fun h => match bytes_at h l with Some b => let a := fresh (dom h) in Some (a, <[a := CLib b]> h) | None => None end.

#[local] Instance bytes_laws : ReprLaws nat string.
Proof.
  split; cbn; unfold bytes_at.
  - intros h h' l a Hr Hl. by rewrite Hl by set_solver.
  - intros h l a Hr l' ->%elem_of_singleton. apply elem_of_dom. destruct (h !! l); [eauto|done].
Qed.
#[local] Instance bytes_copies : Copies bytes_copy.
Proof.
  intros h l a Hr. cbn in *. unfold bytes_copy. rewrite Hr. eexists _, _. split; [done|]. pose proof (is_fresh (dom h)) as Hf.
  split_and!; [apply insert_subseteq; by apply not_elem_of_dom| |set_solver]. unfold bytes_at. by rewrite lookup_insert_eq.
Qed.

#[local] Instance library : LibCopies := {|
  ListMeta := string; meta_repr := plain_repr _; meta_laws := plain_laws _; listmeta_repr := plain_repr _; listmeta_laws := plain_laws _;
  raw_repr := bytes_repr; raw_laws := bytes_laws; secret_selector_repr := plain_repr _; secret_selector_laws := plain_laws _;
  configmap_selector_repr := plain_repr _; configmap_selector_laws := plain_laws _; condition_repr := plain_repr _;
  condition_laws := plain_laws _; time_repr := plain_repr _; time_laws := plain_laws _;
  ObjectMeta_DeepCopyInto := ret; meta_copies := ret_copies; ListMeta_DeepCopyInto := ret; listmeta_copies := ret_copies;
  RawExtension_DeepCopyInto := bytes_copy; raw_copies := bytes_copies; SecretKeySelector_DeepCopyInto := ret;
  secret_selector_copies := ret_copies; ConfigMapKeySelector_DeepCopyInto := ret; configmap_selector_copies := ret_copies;
  Condition_DeepCopyInto := ret; condition_copies := ret_copies; Time_DeepCopyInto := ret; time_copies := ret_copies |}.

(** A Task at address 0, with its config, its secrets and a prompt Secret. *)
Definition task : gTask :=
  mkGTask (mkTypeMeta "Task" "openconveyor.ai/v1alpha1") (mkMeta "t" "" "ns" "u" 1 None None None [])
    (mkGTaskSpec (mkGAgentRef "agent" (At 1)) (mkGPromptSource "" (At 3) Nil)
       (mkGPermissions (Window 4 1 2) NilSlice NilSlice NilSlice) (mkTaskResources "" "" 0) Nil)
    (mkGTaskStatus PhaseNone 0 "" Nil Nil Nil NilSlice).
Definition memory : gmap nat cell :=
  {[ 0%nat := CTasks [task]; 1%nat := CRaws [2%nat : gRawExtension]; 2%nat := CLib "{}"%string;
     3%nat := CSecretSelectors [mkKeySelector "s" "k"]; 4%nat := CStrings ["x"; "a"; "b"; "y"]%string ]}.

(** The copy of the sample reads as the sample, also after the config of the sample
    has been overwritten. *)
Lemma deep_copies_isolate_witness : exists p h' a,
  read memory (At 0 : ptr gTask) = Some (Some a) /\ Task_DeepCopy (At 0) memory = Some (p, h') /\
  read h' p = Some (Some a) /\ read (<[2%nat := CLib "{1}"%string]> h') p = Some (Some a).
Proof.
  destruct (deep_copies_isolate (H := library)) as [[Ht _] _].
  destruct (Ht memory (At 0) _ eq_refl) as (p & h' & Hc & Hr & Hrm & _ & Hw). eexists p, h', _.
  split_and!; [reflexivity|exact Hc|exact Hr|]. apply Hw. intros l c Hl Hlc. rewrite lookup_insert_ne; [done|]. intros <-.
  apply Hl. injection Hc as _ <-. vm_compute. reflexivity.
Defined.

End Sample.
End DeepCopy.
