(* ===== verification/Effects.v ===== *)
(** * Effects

    The program talks to the API server, a DNS resolver, the clock, the metrics
    registry, the event recorder and an HTTP client.  Each of these calls is a
    [Call]; the answer it gets has type [resp].  A function of the source with
    effects is a tree [Prog] of calls, each followed by a continuation that
    takes the answer.

    [exec p tr a] says that [p] can perform the calls of [tr], get the answers
    recorded there, and return [a].  The answers are arbitrary: a theorem about
    every execution holds whatever the API server, other clients, faults or the
    clock do between two calls.  [run] executes a program against a handler. *)

From S2P Require Import Prelude GoString GoTime Kube Api.

(** ** Objects behind the typed client *)

Inductive Kind :=
| KTask | KClusterAgentClass | KJob | KServiceAccount | KConfigMap
| KRole | KRoleBinding | KNetworkPolicy | KSecret.
#[export] Instance Kind_eq_dec : EqDecision Kind.
Proof. solve_decision. Defined.

Definition obj (k : Kind) : Type :=
  match k with
  | KTask => Task
  | KClusterAgentClass => ClusterAgentClass
  | KJob => Job
  | KServiceAccount => ServiceAccount
  | KConfigMap => ConfigMap
  | KRole => Role
  | KRoleBinding => RoleBinding
  | KNetworkPolicy => NetworkPolicy
  | KSecret => Secret
  end.

#[export] Instance obj_eq_dec (k : Kind) : EqDecision (obj k).
Proof. destruct k; simpl; apply _. Defined.

Definition obj_meta (k : Kind) : obj k -> ObjectMeta :=
  match k with
  | KTask => task_Meta
  | KClusterAgentClass => class_Meta
  | KJob => job_Meta
  | KServiceAccount => sa_Meta
  | KConfigMap => cm_Meta
  | KRole => role_Meta
  | KRoleBinding => rb_Meta
  | KNetworkPolicy => np_Meta
  | KSecret => secret_Meta
  end.

Definition set_meta (k : Kind) (m : ObjectMeta) : obj k -> obj k :=
  match k with
  | KTask => fun o => mkTask m (task_Spec o) (task_Status o)
  | KClusterAgentClass => fun o => mkClusterAgentClass m (class_Spec o)
  | KJob => fun o => mkJob m (job_Spec o) (job_Status o)
  | KServiceAccount => fun o => mkServiceAccount m (sa_AutomountServiceAccountToken o)
  | KConfigMap => fun o => mkConfigMap m (cm_Data o)
  | KRole => fun o => mkRole m (role_Rules o)
  | KRoleBinding => fun o => mkRoleBinding m (rb_Subjects o) (rb_RoleRef o)
  | KNetworkPolicy => fun o => mkNetworkPolicy m (np_Spec o)
  | KSecret => fun o => mkSecret m (secret_Data o)
  end.

(** ** Calls *)

(** What [internal/metrics] records; a duration is in nanoseconds. *)
Inductive Metric :=
| PhaseTransition (phase reason : string)
| ReconcileError (step : string)
| TaskDuration (phase : string) (d : Duration)
| Webhook (triggerClass result : string).

Inductive EventType := EventTypeNormal | EventTypeWarning.
#[export] Instance EventType_eq_dec : EqDecision EventType.
Proof. solve_decision. Defined.

Record Event := mkEvent {
  ev_Regarding : NamespacedName;
  ev_Type : EventType;
  ev_Reason : string;
  ev_Action : string;
  ev_Message : string }.

(** An HTTP response of the webhook handler: the status code, the [Allow]
    header, and the JSON payload as its fields. *)
Inductive PayloadValue := PBool (b : bool) | PString (s : string).
Record Response := mkResponse {
  rsp_Code : Z; rsp_Allow : option string; rsp_Payload : list (string * PayloadValue) }.

Inductive Call :=
| CGet (k : Kind) (key : NamespacedName)
| CCreate (k : Kind) (o : obj k)
| CUpdate (k : Kind) (o : obj k)
| CDelete (k : Kind) (key : NamespacedName) (uid : option string)
| CStatusUpdate (t : Task)
| CListPods (ns : string) (sel : gmap string string)
| CListTasks (live : bool) (ns : string) (sel : gmap string string)
| CListTasksByAgent (ref : string)
| CListTriggerClasses
| CLookupHost (host : string)
| CNow
| CMetric (m : Metric)
| CEvent (e : Event)
| CRespond (r : Response).

(** The answer to a call.  A client call fails with an API error; a lookup
    fails with an error of the resolver, of which the program only asks whether
    it is a [*net.DNSError] with [IsNotFound]. *)
Definition resp (c : Call) : Type :=
  match c with
  | CGet k _ => res ApiError (obj k)
  | CCreate k _ => res ApiError (obj k)
  | CUpdate k _ => res ApiError (obj k)
  | CDelete _ _ _ => res ApiError unit
  | CStatusUpdate _ => res ApiError Task
  | CListPods _ _ => res ApiError (list Pod)
  | CListTasks _ _ _ => res ApiError (list Task)
  | CListTasksByAgent _ => res ApiError (list Task)
  | CListTriggerClasses => res ApiError (list ClusterTriggerClass)
  | CLookupHost _ => res (bool * string) (list string)
  | CNow => Time
  | CMetric _ | CEvent _ | CRespond _ => unit
  end.

(** ** Programs *)

Inductive Prog (A : Type) : Type :=
| Ret (a : A)
| Vis (c : Call) (k : resp c -> Prog A).
Arguments Ret {A} a.
Arguments Vis {A} c k.

Fixpoint bind {A B} (p : Prog A) (f : A -> Prog B) : Prog B :=
  match p with
  | Ret a => f a
  | Vis c k => Vis c (fun x => bind (k x) f)
  end.

Definition call (c : Call) : Prog (resp c) := Vis c Ret.

Notation "'let!' x := p 'in' k" := (bind p (fun x => k))
  (at level 10, x pattern, p at level 100, k at level 200) : conveyor_scope.
Notation "p ;; k" := (bind p (fun _ => k))
  (at level 100, k at level 200, right associativity) : conveyor_scope.
Open Scope conveyor_scope.

(** A client call whose error becomes a Go error. *)
Definition api {A} (r : res ApiError A) : result A :=
  match r with Ok a => Ok a | Err e => Err (ErrApi e) end.

(** ** Executions *)

Definition Ev : Type := { c : Call & resp c }.
Definition ev (c : Call) (r : resp c) : Ev := existT c r.
Definition Trace := list Ev.

Fixpoint exec {A} (p : Prog A) (tr : Trace) (a : A) : Prop :=
  match p with
  | Ret a' => tr = [] /\ a = a'
  | Vis c k => exists r tr', tr = ev c r :: tr' /\ exec (k r) tr' a
  end.

Lemma exec_bind {A B} (p : Prog A) (f : A -> Prog B) tr b :
  exec (bind p f) tr b <->
  exists tr1 tr2 a, tr = tr1 ++ tr2 /\ exec p tr1 a /\ exec (f a) tr2 b.
Proof.
  revert tr. induction p as [a|c k IH]; intros tr; simpl.
  - split; [intros H; exists [], tr, a; done|].
    intros (tr1 & tr2 & a' & -> & [-> ->] & H). done.
  - split.
    + intros (r & tr' & -> & H). apply IH in H as (t1 & t2 & a & -> & H1 & H2).
      exists (ev c r :: t1), t2, a. split; [done|]. split; [|done]. by exists r, t1.
    + intros (t1 & t2 & a & -> & (r & tr' & -> & H1) & H2).
      exists r, (tr' ++ t2). split; [done|]. apply IH. by exists tr', t2, a.
Qed.

Lemma exec_ret {A} (a b : A) tr : exec (Ret a) tr b <-> tr = [] /\ b = a.
Proof. done. Qed.

Lemma exec_call c tr r : exec (call c) tr r <-> tr = [ev c r].
Proof.
  simpl. split.
  - by intros (r' & tr' & -> & -> & ->).
  - intros ->. by exists r, [].
Qed.

Lemma exec_call_bind {A} c (f : resp c -> Prog A) tr a :
  exec (bind (call c) f) tr a <-> exists r tr', tr = ev c r :: tr' /\ exec (f r) tr' a.
Proof. done. Qed.

(** The same, as an elimination that leaves the continuation applied. *)
Lemma exec_call_inv {A} c (f : resp c -> Prog A) tr a :
  exec (bind (call c) f) tr a -> exists r tr', tr = ev c r :: tr' /\ exec (f r) tr' a.
Proof. done. Qed.

(** Every program has an execution, whatever the answers are. *)
Lemma exec_exists {A} (p : Prog A) (answer : forall c, resp c) : exists tr a, exec p tr a.
Proof.
  induction p as [a|c k IH]; [by exists [], a|].
  destruct (IH (answer c)) as (tr & a & H).
  exists (ev c (answer c) :: tr), a. simpl. by exists (answer c), tr.
Qed.

(** Takes a hypothesis [exec p tr a] apart along binds and calls. *)
Ltac exec_step :=
  match goal with
  | H : exec (bind (bind _ _) _) _ _ |- _ =>
      apply exec_bind in H as (? & ? & ? & -> & ? & ?)
  | H : exec (bind (call _) _) _ _ |- _ =>
      apply exec_call_inv in H as (? & ? & -> & ?)
  | H : exec (bind (Ret _) _) _ _ |- _ => cbn [bind] in H
  | H : exec (Ret _) _ _ |- _ => apply exec_ret in H as [-> H]; simplify_eq
  | H : exec (call _) _ _ |- _ => apply exec_call in H as ->
  | H : exec (bind _ _) _ _ |- _ =>
      apply exec_bind in H as (? & ? & ? & -> & ? & ?)
  end.

(** ** Handlers *)

Section Run.
Context {W : Type} (handle : forall c, W -> resp c * W).

Fixpoint run {A} (p : Prog A) (w : W) : A * W :=
  match p with
  | Ret a => (a, w)
  | Vis c k => let '(r, w') := handle c w in run (k r) w'
  end.

(** The trace of a run. *)
Fixpoint trace_of {A} (p : Prog A) (w : W) : Trace :=
  match p with
  | Ret _ => []
  | Vis c k => let '(r, w') := handle c w in ev c r :: trace_of (k r) w'
  end.

Lemma run_bind {A B} (p : Prog A) (f : A -> Prog B) w :
  run (bind p f) w = let '(a, w') := run p w in run (f a) w'.
Proof.
  revert w. induction p as [a|c k IH]; intros w; [done|].
  cbn. destruct (handle c w) as [r w']. apply IH.
Qed.

(** A run against a handler is one of the executions. *)
Lemma run_exec {A} (p : Prog A) w : exec p (trace_of p w) (run p w).1.
Proof.
  revert w. induction p as [a|c k IH]; intros w; [done|].
  cbn. destruct (handle c w) as [r w']. exists r, (trace_of (k r) w'). split; [done|]. apply IH.
Qed.
End Run.

(** ** Properties of traces *)

Definition ev_call (e : Ev) : Call := projT1 e.

(** The writes the API server can observe. *)
Definition is_write (c : Call) : bool :=
  match c with
  | CCreate _ _ | CUpdate _ _ | CDelete _ _ _ | CStatusUpdate _ => true
  | _ => false
  end.

(** Queries: calls that change nothing and report nothing. *)
Definition is_query (c : Call) : bool :=
  match c with
  | CGet _ _ | CListPods _ _ | CListTasks _ _ _ | CListTasksByAgent _ | CListTriggerClasses
  | CLookupHost _ | CNow => true
  | _ => false
  end.

(** Samples and Events. *)
Definition is_report (c : Call) : bool :=
  match c with CMetric _ | CEvent _ => true | _ => false end.

Definition calls (tr : Trace) : list Call := ev_call <$> tr.

Lemma calls_app t1 t2 : calls (t1 ++ t2) = calls t1 ++ calls t2.
Proof. apply fmap_app. Qed.

Lemma elem_of_calls_cons c e tr : c ∈ calls (e :: tr) <-> c = ev_call e \/ c ∈ calls tr.
Proof. apply elem_of_cons. Qed.

Lemma elem_of_calls_app c t1 t2 : c ∈ calls (t1 ++ t2) <-> c ∈ calls t1 \/ c ∈ calls t2.
Proof. rewrite calls_app. apply elem_of_app. Qed.

Lemma elem_of_calls_nil c : c ∉ calls [].
Proof. apply not_elem_of_nil. Qed.

(** All calls of every execution of [p] satisfy [P]. *)
Definition only {A} (P : Call -> Prop) (p : Prog A) : Prop :=
  forall tr a, exec p tr a -> Forall P (calls tr).

Lemma only_ret {A} P (a : A) : only P (Ret a).
Proof. intros tr b [-> ->]. constructor. Qed.

Lemma only_call {A} (P : Call -> Prop) c (k : resp c -> Prog A) :
  P c -> (forall r, only P (k r)) -> only P (Vis c k).
Proof.
  intros Hc Hk tr a (r & tr' & -> & H). constructor; [done|]. by apply (Hk r tr' a).
Qed.

Lemma only_bind {A B} P (p : Prog A) (f : A -> Prog B) :
  only P p -> (forall a, only P (f a)) -> only P (bind p f).
Proof.
  intros Hp Hf tr b (t1 & t2 & a & -> & H1 & H2)%exec_bind.
  rewrite calls_app. apply Forall_app. split; [by eapply Hp|by eapply Hf].
Qed.

Lemma only_exec {A} P (p : Prog A) tr a c : only P p -> exec p tr a -> c ∈ calls tr -> P c.
Proof. intros Hp Hx Hc. specialize (Hp tr a Hx). rewrite Forall_forall in Hp. by apply Hp. Qed.

Lemma only_impl {A} (P Q : Call -> Prop) (p : Prog A) :
  (forall c, P c -> Q c) -> only P p -> only Q p.
Proof. intros HPQ Hp tr a H. eapply Forall_impl; [by eapply Hp|done]. Qed.

(** Any program can be run to its end by refusing its calls. *)
Definition refusal (c : Call) : resp c :=
  match c with
  | CGet _ _ | CCreate _ _ | CUpdate _ _ | CDelete _ _ _ | CStatusUpdate _ | CListPods _ _ | CListTasks _ _ _
  | CListTasksByAgent _ | CListTriggerClasses => Err (mkApiError OtherReason "")
  | CLookupHost _ => Err (false, ""%string)
  | CNow => 0
  | CMetric _ | CEvent _ | CRespond _ => tt
  end.

Lemma only_head {A} P c (k : resp c -> Prog A) : only P (Vis c k) -> P c /\ forall x, only P (k x).
Proof.
  intros Ho. split.
  - destruct (exec_exists (k (refusal c)) refusal) as (tr & a & Hx).
    assert (Hf : Forall P (calls (ev c (refusal c) :: tr))) by (apply (Ho _ a); by exists (refusal c), tr).
    by apply Forall_cons in Hf as [? _].
  - intros x tr a Hx. assert (Hf : Forall P (calls (ev c x :: tr))) by (apply (Ho _ a); by exists x, tr).
    by apply Forall_cons in Hf as [_ ?].
Qed.

(** A property of traces that holds of a trace when it holds of its parts. *)
Class Additive (Q : Trace -> Prop) : Prop := {
  additive_nil : Q [];
  additive_app : forall t1 t2, Q t1 -> Q t2 -> Q (t1 ++ t2) }.

(** The trace of every execution of [p] satisfies [Q]; [only] is the case of a
    property of single calls. *)
Definition every {A} (Q : Trace -> Prop) (p : Prog A) : Prop := forall tr a, exec p tr a -> Q tr.

#[export] Instance only_additive P : Additive (fun tr => Forall P (calls tr)).
Proof. split; [constructor|]. intros t1 t2 H1 H2. rewrite calls_app. by apply Forall_app. Qed.

Lemma every_ret {A} Q `{!Additive Q} (a : A) : every Q (Ret a).
Proof. intros tr b [-> _]. apply additive_nil. Qed.

Lemma every_call {A} Q `{!Additive Q} c (k : resp c -> Prog A) :
  (forall r, Q [ev c r]) -> (forall r, every Q (k r)) -> every Q (Vis c k).
Proof. intros Hc Hk tr a (r & tr' & -> & H). apply (additive_app [ev c r]); [done|]. by apply (Hk r tr' a). Qed.

Lemma every_bind {A B} Q `{!Additive Q} (p : Prog A) (f : A -> Prog B) :
  every Q p -> (forall a, every Q (f a)) -> every Q (bind p f).
Proof. intros Hp Hf tr b (t1 & t2 & a & -> & H1 & H2)%exec_bind. apply additive_app; [by eapply Hp|by eapply Hf]. Qed.

(** *** Partial executions *)

(** [p] has made the calls of the trace and is about to continue as the last
    program. *)
Inductive after {A} (p : Prog A) : Trace -> Prog A -> Prop :=
| after_start : after p [] p
| after_call tr c k r : after p tr (Vis c k) -> after p (tr ++ [ev c r]) (k r).

Lemma after_exec {A} (p q : Prog A) tr tr' a : after p tr q -> exec q tr' a -> exec p (tr ++ tr') a.
Proof.
  intros Ha. revert tr'. induction Ha as [|tr c k r _ IH]; intros tr' Hx; [done|].
  rewrite <- app_assoc. apply IH. by exists r, tr'.
Qed.

#[export] Hint Resolve only_ret only_bind only_call : conveyor.
