(* ===== verification/KubeLib.v ===== *)
(** * The Kubernetes libraries

    The functions of [apimachinery] and [controller-runtime] that the program
    calls, as a class of operations, and what their documentation promises, as
    a class of laws.  Theorems about the controller are proved for every
    instance; [KubeRef] holds an evaluable instance that satisfies the laws. *)

From S2P Require Import Prelude GoString GoTime Kube Api Effects.

(** The labels of an object, a nil map read as the empty one. *)
Definition label_map (m : ObjectMeta) : gmap string string := default ∅ (om_Labels m).

(** Agreement of two objects on the fields their [mutate] functions copy. *)
Definition body_eq (k : Kind) : obj k -> obj k -> Prop :=
  match k with
  | KServiceAccount => fun a b => sa_AutomountServiceAccountToken a = sa_AutomountServiceAccountToken b
  | KConfigMap => fun a b => default ∅ (cm_Data a) = default ∅ (cm_Data b)
  | KRole => fun a b => role_Rules a = role_Rules b
  | KRoleBinding => fun a b => rb_Subjects a = rb_Subjects b
  | KNetworkPolicy => fun a b => np_Spec a = np_Spec b
  | _ => fun _ _ => True
  end.

Class KubeLib := {
  (** [controllerutil.SetControllerReference(owner, controlled, scheme)] on the
      metadata of the two objects. *)
  SetControllerReference : ObjectMeta -> ObjectMeta -> result ObjectMeta;
  (** [metav1.GetControllerOf]. *)
  GetControllerOf : ObjectMeta -> option OwnerReference;
  (** [meta.FindStatusCondition]. *)
  FindStatusCondition : list Condition -> string -> option Condition;
  (** [meta.SetStatusCondition], with the clock it reads. *)
  SetStatusCondition : Time -> list Condition -> Condition -> list Condition;
  (** [resource.ParseQuantity]. *)
  ParseQuantity : string -> result Quantity;
  (** [validation.IsValidLabelValue]: the list of complaints. *)
  IsValidLabelValue : string -> list string;
  (** [equality.Semantic.DeepEqual] on objects and on Results. *)
  DeepEqual : forall k, obj k -> obj k -> bool;
  DeepEqual_Result : option TaskResult -> option TaskResult -> bool;
}.

Class KubeLaws `{KubeLib} := {
  (** Only the owner references change, and the owner becomes the controller. *)
  set_controller_meta : forall o m m', SetControllerReference o m = Ok m' ->
    exists refs, m' = mkMeta (om_Name m) (om_GenerateName m) (om_Namespace m) (om_UID m)
      (om_Generation m) (om_DeletionTimestamp m) (om_Labels m) (om_Annotations m) refs;
  set_controller_owner : forall o m m', SetControllerReference o m = Ok m' ->
    exists r, GetControllerOf m' = Some r /\ owner_UID r = om_UID o;
  (** The reference names the owner and its kind; the program's owners are Tasks. *)
  set_controller_ref : forall o m m' r, SetControllerReference o m = Ok m' -> GetControllerOf m' = Some r ->
    owner_Name r = om_Name o /\ owner_Kind r = "Task"%string;
  (** It succeeds on an object of the owner's namespace that nobody owns yet. *)
  set_controller_fresh : forall o m, om_OwnerReferences m = [] -> om_Namespace m = om_Namespace o ->
    exists m', SetControllerReference o m = Ok m';
  (** The library does not build errors of the program's own types. *)
  set_controller_err : forall o m e, SetControllerReference o m = Err e -> IsPermanent e = false;
  get_controller_in : forall m r, GetControllerOf m = Some r ->
    r ∈ om_OwnerReferences m /\ owner_Controller r = true;
  (** It reads nothing but the owner references. *)
  get_controller_refs : forall m m', om_OwnerReferences m = om_OwnerReferences m' -> GetControllerOf m = GetControllerOf m';
  (** The condition of the type, when there is one. *)
  find_condition_some : forall l t c, FindStatusCondition l t = Some c ->
    c ∈ l /\ cond_Type c = t;
  find_condition_none : forall l t, FindStatusCondition l t = None ->
    forall c, c ∈ l -> cond_Type c <> t;
  (** Setting replaces the fields of the condition with that type; the
      transition time moves to now when the status differs from the old one or
      there was none, for a condition given without a time. *)
  set_condition_same : forall now l c, cond_LastTransitionTime c = 0 ->
    FindStatusCondition (SetStatusCondition now l c) (cond_Type c) =
    Some (mkCondition (cond_Type c) (cond_Status c) (cond_Reason c) (cond_Message c)
            (cond_ObservedGeneration c)
            (match FindStatusCondition l (cond_Type c) with
             | Some old => if bool_decide (cond_Status old = cond_Status c)
                           then cond_LastTransitionTime old else now
             | None => now
             end));
  set_condition_other : forall now l c t, t <> cond_Type c ->
    FindStatusCondition (SetStatusCondition now l c) t = FindStatusCondition l t;
  set_condition_types : forall now l c,
    cond_Type <$> SetStatusCondition now l c =
    if bool_decide (cond_Type c ∈ cond_Type <$> l) then cond_Type <$> l
    else (cond_Type <$> l) ++ [cond_Type c];
  (** Semantic equality is reflexive, and semantically equal objects agree on
      their labels and bodies; it does not tell a nil map from an empty one. *)
  deep_equal_refl : forall k a, DeepEqual k a a = true;
  deep_equal_body : forall k a b, DeepEqual k a b = true ->
    body_eq k a b /\ label_map (obj_meta k a) = label_map (obj_meta k b);
  deep_equal_result_spec : forall a b, DeepEqual_Result a b = true <-> a = b;
}.

(** ** An evaluable instance *)

Module KubeRef.

Definition find_condition (l : list Condition) (t : string) : option Condition :=
  snd <$> list_find (fun c => cond_Type c = t) l.

Fixpoint set_condition (now : Time) (l : list Condition) (c : Condition) : list Condition :=
  match l with
  | [] => [mkCondition (cond_Type c) (cond_Status c) (cond_Reason c) (cond_Message c)
             (cond_ObservedGeneration c)
             (if IsZero (cond_LastTransitionTime c) then now else cond_LastTransitionTime c)]
  | old :: l' =>
    if decide (cond_Type old = cond_Type c) then
      mkCondition (cond_Type c) (cond_Status c) (cond_Reason c) (cond_Message c)
        (cond_ObservedGeneration c)
        (if bool_decide (cond_Status old = cond_Status c) then cond_LastTransitionTime old
         else if IsZero (cond_LastTransitionTime c) then now else cond_LastTransitionTime c) :: l'
    else old :: set_condition now l' c
  end.

Definition set_controller (o m : ObjectMeta) : result ObjectMeta :=
  if existsb owner_Controller (om_OwnerReferences m) then
    Err (ErrNew "object is already owned by another controller")
  else
    Ok (mkMeta (om_Name m) (om_GenerateName m) (om_Namespace m) (om_UID m)
          (om_Generation m) (om_DeletionTimestamp m) (om_Labels m) (om_Annotations m)
          (om_OwnerReferences m ++ [mkOwner "Task" (om_Name o) (om_UID o) true])).

Definition controller_of (m : ObjectMeta) : option OwnerReference :=
  snd <$> list_find (fun r => owner_Controller r = true) (om_OwnerReferences m).

(** Accepts the digits with an optional unit suffix. *)
Definition quantity (s : string) : result Quantity :=
  match String.list_ascii_of_string s with
  | c :: _ => if in_range 48 57 (byte_val c) then Ok s else Err (ErrNew "quantities must match the regular expression")
  | [] => Err (ErrNew "quantities must match the regular expression")
  end.

Definition label_value_problems (s : string) : list string :=
  if (63 <? String.length s)%nat then ["must be no more than 63 characters"%string] else [].

#[export] Instance lib : KubeLib := {|
  SetControllerReference := set_controller;
  GetControllerOf := controller_of;
  FindStatusCondition := find_condition;
  SetStatusCondition := set_condition;
  ParseQuantity := quantity;
  IsValidLabelValue := label_value_problems;
  DeepEqual := fun k a b => bool_decide (a = b);
  DeepEqual_Result := fun a b => bool_decide (a = b);
|}.

Lemma find_some l t c : find_condition l t = Some c -> c ∈ l /\ cond_Type c = t.
Proof.
  unfold find_condition. intros ([i c'] & H & ->)%fmap_Some.
  apply list_find_Some in H as (Hl & Ht & _). split; [by eapply list_elem_of_lookup_2|done].
Qed.

Lemma find_none l t : find_condition l t = None -> forall c, c ∈ l -> cond_Type c <> t.
Proof.
  unfold find_condition. intros H c Hc. apply fmap_None, list_find_None in H.
  rewrite Forall_forall in H. by apply H.
Qed.

Lemma find_cons old l t :
  find_condition (old :: l) t =
  if decide (cond_Type old = t) then Some old else find_condition l t.
Proof.
  unfold find_condition. simpl. case_decide; [done|].
  by destruct (list_find _ l) as [[]|].
Qed.

Lemma find_set_same now l c :
  cond_LastTransitionTime c = 0 ->
  find_condition (set_condition now l c) (cond_Type c) =
  Some (mkCondition (cond_Type c) (cond_Status c) (cond_Reason c) (cond_Message c)
          (cond_ObservedGeneration c)
          (match find_condition l (cond_Type c) with
           | Some old => if bool_decide (cond_Status old = cond_Status c)
                         then cond_LastTransitionTime old else now
           | None => now
           end)).
Proof.
  intros Hz. induction l as [|old l IH]; simpl set_condition.
  - rewrite find_cons. simpl. rewrite decide_True by done. by rewrite Hz.
  - rewrite (find_cons old l). case_decide as Ht.
    + rewrite find_cons. simpl. rewrite decide_True by done. by rewrite Hz.
    + rewrite find_cons, decide_False by done. apply IH.
Qed.

Lemma find_set_other now l c t :
  t <> cond_Type c -> find_condition (set_condition now l c) t = find_condition l t.
Proof.
  intros Ht. induction l as [|old l IH]; simpl set_condition.
  - rewrite find_cons. simpl. by rewrite decide_False.
  - case_decide as Ho.
    + rewrite !find_cons. simpl. by rewrite !decide_False by congruence.
    + rewrite !find_cons. case_decide; [done|]. apply IH.
Qed.

Lemma set_types now l c :
  cond_Type <$> set_condition now l c =
  if bool_decide (cond_Type c ∈ cond_Type <$> l) then cond_Type <$> l
  else (cond_Type <$> l) ++ [cond_Type c].
Proof.
  induction l as [|old l IH]; simpl set_condition.
  - by rewrite bool_decide_eq_false_2 by set_solver.
  - destruct (decide (cond_Type old = cond_Type c)) as [Ho|Ho].
    + rewrite !fmap_cons, Ho. simpl. by rewrite bool_decide_eq_true_2 by apply elem_of_cons, or_introl, eq_refl.
    + rewrite !fmap_cons, IH. destruct (decide (cond_Type c ∈ cond_Type <$> l)) as [Hin|Hin].
      * by rewrite !bool_decide_eq_true_2 by (rewrite ?elem_of_cons; auto).
      * by rewrite !bool_decide_eq_false_2 by (rewrite ?elem_of_cons; intuition congruence).
Qed.

Lemma no_controller l : existsb owner_Controller l = false -> list_find (fun r => owner_Controller r = true) l = None.
Proof.
  intros Hex. apply list_find_None, Forall_forall. intros r Hr Hc. apply not_true_iff_false in Hex.
  apply Hex, existsb_exists. exists r. split; [by apply list_elem_of_In|done].
Qed.

#[export] Instance laws : KubeLaws.
Proof.
  split; cbn.
  - intros o m m' H. unfold set_controller in H. case_match; simplify_eq. eauto.
  - intros o m m' H. unfold set_controller in H. case_match eqn:Hex; simplify_eq.
    unfold controller_of. cbn [om_OwnerReferences].
    rewrite list_find_app_r.
    + simpl. eexists. split; [done|]. done.
    + by apply no_controller.
  - intros o m m' r H. unfold set_controller in H. case_match eqn:Hex; simplify_eq.
    unfold controller_of. cbn [om_OwnerReferences]. rewrite list_find_app_r by by apply no_controller.
    simpl. by intros [= <-].
  - intros o m Ho _. unfold set_controller. rewrite Ho. cbn. eauto.
  - intros o m e H. unfold set_controller in H. by case_match; simplify_eq.
  - intros m r H. unfold controller_of in H. apply fmap_Some in H as ([i r'] & H & ->).
    apply list_find_Some in H as (Hl & Ht & _). split; [by eapply list_elem_of_lookup_2|done].
  - intros m m' H. unfold controller_of. by rewrite H.
  - apply find_some.
  - apply find_none.
  - apply find_set_same.
  - apply find_set_other.
  - apply set_types.
  - intros k a. by apply bool_decide_eq_true.
  - intros k a b ->%bool_decide_eq_true. split; [|done]. by destruct k.
  - intros a b. apply bool_decide_eq_true.
Qed.

End KubeRef.

(** ** Consequences of the laws *)

Section Laws.
Context `{KubeLaws}.

Lemma set_controller_key o m m' :
  SetControllerReference o m = Ok m' ->
  key_of m' = key_of m /\ om_Labels m' = om_Labels m.
Proof. intros (refs & ->)%set_controller_meta. done. Qed.

Lemma find_condition_none_iff l t :
  FindStatusCondition l t = None <-> t ∉ cond_Type <$> l.
Proof.
  split.
  - intros Hn (c & -> & Hc)%list_elem_of_fmap. by eapply find_condition_none.
  - intros Ht. destruct (FindStatusCondition l t) as [c|] eqn:Hf; [|done].
    apply find_condition_some in Hf as [Hc <-]. destruct Ht. by apply list_elem_of_fmap_2.
Qed.

(** With distinct types, a condition of the list is the one found. *)
Lemma find_condition_NoDup l c :
  NoDup (cond_Type <$> l) -> c ∈ l -> FindStatusCondition l (cond_Type c) = Some c.
Proof.
  intros Hnd Hc. destruct (FindStatusCondition l (cond_Type c)) as [c'|] eqn:Hf.
  - apply find_condition_some in Hf as [Hc' Ht]. f_equal.
    clear -Hnd Hc Hc' Ht. induction l as [|x l IH]; [set_solver|].
    rewrite fmap_cons in Hnd. apply NoDup_cons in Hnd as [Hx Hnd].
    apply elem_of_cons in Hc as [->|Hc], Hc' as [->|Hc']; [done| | |by apply IH].
    + destruct Hx. apply list_elem_of_fmap. eauto.
    + destruct Hx. apply list_elem_of_fmap. eauto.
  - exfalso. by eapply find_condition_none.
Qed.

Lemma set_condition_NoDup now l c :
  NoDup (cond_Type <$> l) -> NoDup (cond_Type <$> SetStatusCondition now l c).
Proof.
  intros Hnd. rewrite set_condition_types. case_bool_decide; [done|].
  apply NoDup_app. split_and!; [done| |apply NoDup_singleton]. set_solver.
Qed.
End Laws.
