(* ===== verification/Metrics.v ===== *)
(** * Metrics

    [internal/metrics]: the label values and the typed helpers.  A sample is a
    call; the registry behind it is the Prometheus client's. *)

From S2P Require Import Prelude GoString GoTime Kube Api Effects.

(** ** Results of a webhook request *)

Definition ResultAccepted : string := "accepted".
Definition ResultDuplicate : string := "duplicate".
Definition ResultFiltered : string := "filtered".
Definition ResultRejectedSignature : string := "rejected_signature".
Definition ResultRejectedMethod : string := "rejected_method".
Definition ResultRejectedBodyTooLarge : string := "rejected_body_too_large".
Definition ResultRejectedBadBody : string := "rejected_bad_body".
Definition MetricNotFound : string := "not_found".
Definition ResultBuildFailed : string := "build_failed".
Definition ResultError : string := "error".

(** ** Steps of a reconcile *)

Definition StepValidate : string := "validate".
Definition StepAgentClassLookup : string := "agent_class_lookup".
Definition StepServiceAccount : string := "service_account".
Definition StepRole : string := "role".
Definition StepRoleBinding : string := "role_binding".
Definition StepNetworkPolicy : string := "network_policy".
Definition StepPromptConfigMap : string := "prompt_configmap".
Definition StepAgentConfigMap : string := "config_configmap".
Definition StepJob : string := "job".
Definition StepStatus : string := "status".

(** ** Helpers *)

Definition ObservePhaseTransition (phase reason : string) : Prog unit :=
  call (CMetric (PhaseTransition phase reason)).
Definition ObserveReconcileError (step : string) : Prog unit :=
  call (CMetric (ReconcileError step)).
Definition ObserveTaskDuration (phase : string) (d : Duration) : Prog unit :=
  call (CMetric (TaskDuration phase d)).
Definition ObserveWebhook (triggerClass result : string) : Prog unit :=
  call (CMetric (Webhook triggerClass result)).

(** ** Counting samples of a trace *)

Definition phase_transitions (tr : Trace) : list (string * string) :=
  omap (fun c => match c with CMetric (PhaseTransition p r) => Some (p, r) | _ => None end) (calls tr).

Lemma phase_transitions_app t1 t2 :
  phase_transitions (t1 ++ t2) = phase_transitions t1 ++ phase_transitions t2.
Proof. unfold phase_transitions. by rewrite calls_app, omap_app. Qed.
