(* ===== verification/PolicyObjects.v ===== *)
(** * Labels, Secrets, RBAC and the prompt

    The pure builders of [internal/policy]: [labels.go], [secrets.go],
    [rbac.go] and [prompt.go]. *)

From S2P Require Import Prelude GoString GoTime Kube Api.

(** ** labels.go *)

Module Labels.

Definition LabelManagedBy : string := "app.kubernetes.io/managed-by".
Definition LabelComponent : string := "app.kubernetes.io/component".
Definition LabelTaskName : string := "openconveyor.ai/task".
Definition ManagedByValue : string := "conveyor".
Definition ComponentTask : string := "task".
Definition LabelTriggerClass : string := "openconveyor.ai/trigger-class".

Definition PodSelectorLabels (taskName : string) : gmap string string :=
  {[ LabelTaskName := taskName ]}.

Definition OwnershipLabels (taskName : string) : gmap string string :=
  {[ LabelManagedBy := ManagedByValue; LabelTaskName := taskName ]}.

Definition ownedMeta (name namespace taskName : string) : ObjectMeta :=
  new_meta name namespace (Some (OwnershipLabels taskName)).

(** One entry of the loop: [seen] is the set, [out] the slice. *)
Definition merge_entry (st : gset string * list string) (v : string) : gset string * list string :=
  let '(seen, out) := st in
  if (v =? "")%string then (seen, out)
  else if bool_decide (v ∈ seen) then (seen, out)
  else ({[v]} ∪ seen, out ++ [v]).

Definition MergeStringSets (lists : list (list string)) : list string :=
  (foldl (fun st l => foldl merge_entry st l) (∅, []) lists).2.

(** Reference: the first occurrence of each value. *)
Fixpoint nub (l : list string) : list string :=
  match l with
  | [] => []
  | x :: l' => x :: filter (fun y => y <> x) (nub l')
  end.

Lemma foldl_merge_concat lists st :
  foldl (fun st l => foldl merge_entry st l) st lists = foldl merge_entry st (concat lists).
Proof. revert st. induction lists as [|l ls IH]; intros st; [done|]. simpl. by rewrite IH, foldl_app. Qed.

Lemma elem_of_nub x l : x ∈ nub l <-> x ∈ l.
Proof.
  induction l as [|y l IH]; [done|]. simpl. rewrite !elem_of_cons, list_elem_of_filter, IH.
  destruct (decide (x = y)); naive_solver.
Qed.

Lemma NoDup_nub l : NoDup (nub l).
Proof.
  induction l as [|y l IH]; [constructor|]. simpl. apply NoDup_cons. split.
  - rewrite list_elem_of_filter. naive_solver.
  - by apply NoDup_filter.
Qed.

Lemma nub_prefix l l' : nub l `prefix_of` nub (l ++ l').
Proof.
  induction l as [|x l IH]; [apply prefix_nil|]. simpl. apply prefix_cons.
  destruct IH as [k ->]. rewrite filter_app. by eexists.
Qed.

(** The loop from a reached state appends the new values in order. *)
Lemma merge_entries_nub l (seen : gset string) out :
  "" ∉ seen ->
  foldl merge_entry (seen, out) l =
  (list_to_set (filter (fun x => x <> ""%string) l) ∪ seen,
   out ++ filter (fun x => x ∉ seen) (nub (filter (fun x => x <> ""%string) l))).
Proof.
  revert seen out. induction l as [|v l IH]; intros seen out Hs.
  { simpl. rewrite app_nil_r. f_equal. set_solver. }
  simpl. destruct (String.eqb_spec v "") as [->|Hv].
  { rewrite filter_cons_False by naive_solver. by apply IH. }
  rewrite filter_cons_True by done. case_bool_decide as Hin.
  - rewrite IH by done. f_equal; [set_solver|]. f_equal. simpl.
    rewrite filter_cons_False by naive_solver. rewrite list_filter_filter.
    apply list_filter_iff. intros x. set_solver.
  - rewrite IH by set_solver. f_equal; [set_solver|]. rewrite <- app_assoc. f_equal. simpl.
    rewrite filter_cons_True by done. f_equal. rewrite list_filter_filter.
    apply list_filter_iff. intros x. set_solver.
Qed.

Lemma MergeStringSets_nub lists :
  MergeStringSets lists = nub (filter (fun x => x <> ""%string) (concat lists)).
Proof.
  unfold MergeStringSets. rewrite foldl_merge_concat, merge_entries_nub by set_solver. simpl.
  apply filter_all. set_solver.
Qed.

Lemma elem_of_MergeStringSets x lists :
  x ∈ MergeStringSets lists <-> x <> ""%string /\ exists l, l ∈ lists /\ x ∈ l.
Proof.
  rewrite MergeStringSets_nub, elem_of_nub, list_elem_of_filter, elem_of_concat. naive_solver.
Qed.

Lemma NoDup_MergeStringSets lists : NoDup (MergeStringSets lists).
Proof. rewrite MergeStringSets_nub. apply NoDup_nub. Qed.

(** The one-pass merge of allowlists computes the reference: the first
    occurrence of each non-empty value, in order; so it has no duplicates and no
    empty entry, it holds exactly the declared values, and adding a list (the
    class's) never removes or reorders what the others declared. *)
Theorem MergeStringSets_reference lists more :
  MergeStringSets lists = nub (filter (fun x => x <> ""%string) (concat lists)) /\
  NoDup (MergeStringSets lists) /\
  (forall x, x ∈ MergeStringSets lists <-> x <> ""%string /\ exists l, l ∈ lists /\ x ∈ l) /\
  MergeStringSets lists `prefix_of` MergeStringSets (lists ++ more).
Proof.
  split_and!; [apply MergeStringSets_nub|apply NoDup_MergeStringSets|intros; apply elem_of_MergeStringSets|].
  rewrite !MergeStringSets_nub, concat_app, filter_app. apply nub_prefix.
Qed.

End Labels.

(** ** secrets.go *)

Module Secrets.

Definition SecretMountRoot : string := "/run/secrets".

Definition secretVolumeName (secretName : string) : string := "secret-" +:+ secretName.

Definition secret_volume (name : string) : Volume :=
  mkVolume (secretVolumeName name) (SecretVolume name).

Definition secret_mount (name : string) : VolumeMount :=
  mkMount (secretVolumeName name) true (path_Join SecretMountRoot name) "".

Definition BuildSecretVolumes (secrets : list string) : list Volume * list VolumeMount :=
  match secrets with
  | [] => ([], [])
  | _ =>
    let names := sort_strings secrets in
    (secret_volume <$> names, secret_mount <$> names)
  end.

Lemma BuildSecretVolumes_eq secrets :
  BuildSecretVolumes secrets =
  (secret_volume <$> sort_strings secrets, secret_mount <$> sort_strings secrets).
Proof. by destruct secrets. Qed.

#[local] Instance string_le_antisymm : AntiSymm (=) String.le.
Proof. apply _. Qed.

(** The Secret volumes do not depend on the order of the declarations, so a
    reordered spec never changes the pod template; volume and mount of the same
    rank belong together, and distinct Secrets get distinct volume names and the
    mount path of their own name. *)
Theorem BuildSecretVolumes_order_free secrets secrets' :
  secrets ≡ₚ secrets' ->
  BuildSecretVolumes secrets = BuildSecretVolumes secrets' /\
  let '(vols, mounts) := BuildSecretVolumes secrets in
  length vols = length secrets /\ (vol_Name <$> vols) = (vm_Name <$> mounts) /\
  (NoDup secrets -> NoDup (vol_Name <$> vols)) /\
  (forall m, m ∈ mounts -> vm_ReadOnly m = true /\ exists s, s ∈ secrets /\ vm_MountPath m = path_Join SecretMountRoot s).
Proof.
  intros Hp. rewrite !BuildSecretVolumes_eq. split.
  - assert (Hs : sort_strings secrets = sort_strings secrets').
    { apply (StronglySorted_unique String.le); [apply sort_strings_sorted..|]. by rewrite !sort_strings_perm. }
    by rewrite Hs.
  - split_and!.
    + by rewrite length_fmap, length_sort_strings.
    + by rewrite <- !list_fmap_compose.
    + intros Hnd. rewrite <- list_fmap_compose. apply NoDup_fmap_inj_on; [|by apply NoDup_sort_strings].
      intros x y _ _ Heq. unfold compose, secret_volume, secretVolumeName in Heq. simpl in Heq. by simplify_eq.
    + intros m (s & -> & Hs)%list_elem_of_fmap. rewrite elem_of_sort_strings in Hs. split; [done|]. by exists s.
Qed.

Lemma BuildSecretVolumes_order_free_witness :
  BuildSecretVolumes ["b"%string; "a"%string] = BuildSecretVolumes ["a"%string; "b"%string].
Proof. apply (BuildSecretVolumes_order_free ["b"%string; "a"%string] ["a"%string; "b"%string]). apply Permutation_swap. Defined.

End Secrets.

(** ** rbac.go *)

Module Rbac.
Import Labels.

Definition policy_rule (r : RBACRule) : PolicyRule :=
  mkPolicyRule (rbac_APIGroups r) (rbac_Resources r) (rbac_Verbs r) (rbac_ResourceNames r).

Definition BuildRole (taskName namespace : string) (rules : list RBACRule) : option Role :=
  match rules with
  | [] => None
  | _ => Some (mkRole (ownedMeta taskName namespace taskName) (policy_rule <$> rules))
  end.

Definition ServiceAccountKind : string := "ServiceAccount".
Definition rbac_GroupName : string := "rbac.authorization.k8s.io".

Definition BuildRoleBinding (taskName namespace : string) (rules : list RBACRule)
  : option RoleBinding :=
  match rules with
  | [] => None
  | _ => Some (mkRoleBinding (ownedMeta taskName namespace taskName)
                 [mkSubject ServiceAccountKind taskName namespace]
                 (mkRoleRef rbac_GroupName "Role" taskName))
  end.

Definition NeedsServiceAccountToken (rules : list RBACRule) : bool :=
  (0 <? length rules)%nat.

(** What a Role grants: every verb, group, resource and name of its rules. *)
Definition grants (rules : list PolicyRule) (verb group resource name : string) : Prop :=
  exists r, r ∈ rules /\ verb ∈ pr_Verbs r /\ group ∈ pr_APIGroups r /\ resource ∈ pr_Resources r /\
    (pr_ResourceNames r = [] \/ name ∈ pr_ResourceNames r).

Definition declares (rules : list RBACRule) (verb group resource name : string) : Prop :=
  exists r, r ∈ rules /\ verb ∈ rbac_Verbs r /\ group ∈ rbac_APIGroups r /\
    resource ∈ rbac_Resources r /\ (rbac_ResourceNames r = [] \/ name ∈ rbac_ResourceNames r).

Lemma grants_policy_rules rules verb group resource name :
  grants (policy_rule <$> rules) verb group resource name <->
  declares rules verb group resource name.
Proof.
  split.
  - intros (r & (d & -> & Hd)%list_elem_of_fmap & H). by exists d.
  - intros (d & Hd & H). exists (policy_rule d). split; [|done]. by apply list_elem_of_fmap_2.
Qed.

End Rbac.

(** ** prompt.go *)

Module Prompt.
Import Labels.

Record PromptProjection := mkPromptProjection {
  pp_Volume : option Volume; pp_Mount : option VolumeMount }.

Definition PromptKey : string := "prompt".
Definition PromptVolumeName : string := "prompt".
Definition promptSuffix : string := "-prompt".

Definition InlinePromptConfigMapName (taskName : string) : string := taskName +:+ promptSuffix.

Definition empty_projection : PromptProjection := mkPromptProjection None None.

(** The source that the prompt names, in the order of the switch: the volume
    source and the key mounted from it. *)
Definition prompt_source (taskName : string) (prompt : PromptSource) : option (VolumeSource * string) :=
  if negb (prompt_Inline prompt =? "")%string then
    Some (ConfigMapVolume (InlinePromptConfigMapName taskName), PromptKey)
  else
    match prompt_ConfigMapRef prompt with
    | Some ref => Some (ConfigMapVolume (sel_Name ref), sel_Key ref)
    | None =>
      match prompt_SecretRef prompt with
      | Some ref => Some (SecretVolume (sel_Name ref), sel_Key ref)
      | None => None
      end
    end.

Definition BuildPromptProjection (taskName : string) (prompt : PromptSource) (inputs : AgentInputs)
  : result PromptProjection :=
  match inputs_Prompt inputs with
  | None => Ok empty_projection
  | Some input =>
    if (input_Mount input =? "")%string then Ok empty_projection
    else
      match prompt_source taskName prompt with
      | None => Err (ErrNew "prompt has no source (inline/secretRef/configMapRef)")
      | Some (src, subPath) =>
        Ok (mkPromptProjection
              (Some (mkVolume PromptVolumeName src))
              (Some (mkMount PromptVolumeName true (input_Mount input) subPath)))
      end
  end.

Definition BuildInlinePromptConfigMap (taskName namespace : string) (prompt : PromptSource)
  : option ConfigMap :=
  if (prompt_Inline prompt =? "")%string then None
  else Some (mkConfigMap (ownedMeta (InlinePromptConfigMapName taskName) namespace taskName)
               (Some {[ PromptKey := prompt_Inline prompt ]})).

(** The prompt reaches the container.  For a class with a prompt mount the
    file at that path is the key of the source that the Task names; for an
    inline prompt that source is the ConfigMap the controller builds, under the
    same name and key, with the prompt as its content. *)
Theorem prompt_delivered taskName namespace prompt inputs input :
  inputs_Prompt inputs = Some input -> input_Mount input <> ""%string ->
  prompt_source taskName prompt <> None ->
  exists src sub proj, prompt_source taskName prompt = Some (src, sub) /\
    BuildPromptProjection taskName prompt inputs = Ok proj /\
    (exists v m, pp_Volume proj = Some v /\ pp_Mount proj = Some m /\ vm_Name m = vol_Name v /\
       vol_Source v = src /\ vm_SubPath m = sub /\ vm_MountPath m = input_Mount input /\ vm_ReadOnly m = true) /\
    match BuildInlinePromptConfigMap taskName namespace prompt with
    | Some cm => src = ConfigMapVolume (om_Name (cm_Meta cm)) /\ map_get (cm_Data cm) sub = prompt_Inline prompt
    | None => (exists ref, prompt_ConfigMapRef prompt = Some ref /\ src = ConfigMapVolume (sel_Name ref) /\ sub = sel_Key ref) \/
              (exists ref, prompt_SecretRef prompt = Some ref /\ src = SecretVolume (sel_Name ref) /\ sub = sel_Key ref)
    end.
Proof.
  intros Hi Hm Hs. destruct (prompt_source taskName prompt) as [[src sub]|] eqn:Hp; [|done].
  exists src, sub. unfold BuildPromptProjection. rewrite Hi, Hp. destruct (String.eqb_spec (input_Mount input) ""); [done|].
  eexists. split_and!; [done..|by do 2 eexists|].
  unfold prompt_source, BuildInlinePromptConfigMap in *. destruct (String.eqb_spec (prompt_Inline prompt) "") as [He|He]; simpl in Hp.
  - destruct (prompt_ConfigMapRef prompt) as [ref|]; [left; simplify_eq; by exists ref|].
    destruct (prompt_SecretRef prompt) as [ref|]; [right; simplify_eq; by exists ref|done].
  - simplify_eq. split; [done|]. unfold map_get. cbn [cm_Data]. by rewrite lookup_singleton_eq.
Qed.

Lemma prompt_delivered_witness : exists proj,
  BuildPromptProjection "demo" (mkPromptSource "hi" None None) (mkAgentInputs (Some (mkAgentInputMount "/p" "")) None) = Ok proj.
Proof.
  destruct (prompt_delivered "demo" "ns" (mkPromptSource "hi" None None)
    (mkAgentInputs (Some (mkAgentInputMount "/p" "")) None) (mkAgentInputMount "/p" "")) as (src & sub & proj & _ & Hp & _);
    [reflexivity|discriminate|discriminate|]. exists proj. exact Hp.
Defined.

End Prompt.
