(* ===== verification/PolicyConfig.v ===== *)
(** * The agent config

    [internal/policy/config.go]: how [spec.agent.config] reaches the container
    as environment variables, as one file and as one variable with the whole
    JSON. *)

From S2P Require Import Prelude GoString GoTime GoJson Kube Api PolicyObjects.

(** The text of a decoding error of [encoding/json], for the bytes it rejects. *)
Class JsonErrors := { json_error : string -> string }.

Module Config.
Import Labels.

Definition ConfigKey : string := "config.json".
Definition ConfigVolumeName : string := "config".
Definition configSuffix : string := "-config".

Definition AgentConfigMapName (taskName : string) : string := taskName +:+ configSuffix.

(** [envNameRe], a letter or underscore and then letters, digits and underscores. *)
Definition env_start (c : ascii) : bool :=
  let b := byte_val c in in_range 65 90 b || in_range 97 122 b || (b =? 95).
Definition env_char (c : ascii) : bool := env_start c || in_range 48 57 (byte_val c).
Fixpoint all_bytes (p : ascii -> bool) (s : string) : bool :=
  match s with EmptyString => true | String c s' => p c && all_bytes p s' end.
Definition envNameRe (s : string) : bool :=
  match s with EmptyString => false | String c s' => env_start c && all_bytes env_char s' end.

Record ConfigProjection := mkConfigProjection {
  cp_Env : list EnvVar; cp_Volume : option Volume; cp_Mount : option VolumeMount }.

Definition empty_config : ConfigProjection := mkConfigProjection [] None None.

(** [decodeConfigObject]: the first value of the stream must be an object, or
    null, which leaves the map nil. *)
Definition decodeConfigObject `{JsonErrors} (raw : string) : result (gmap string json) :=
  match decode_first raw with
  | Some (JObject l, _) => Ok (members_map l)
  | Some (JNull, _) => Ok ∅
  | _ => Err (ErrWrap "must be a JSON object: " (ErrNew (json_error raw)) "")
  end.

Definition scalarString (v : json) : option string :=
  match v with
  | JString s => Some s
  | JNumber n => Some n
  | JBool b => Some (FormatBool b)
  | _ => None
  end.

(** The config bytes, when there are any. *)
Definition config_bytes (config : option string) : option string :=
  match config with
  | Some raw => if (raw =? "")%string then None else Some raw
  | None => None
  end.

Definition config_mount (inputs : AgentInputs) : string :=
  match inputs_Config inputs with Some i => input_Mount i | None => "" end.
Definition config_env (inputs : AgentInputs) : string :=
  match inputs_Config inputs with Some i => input_Env i | None => "" end.

Definition cannot_project (k : string) : GoError :=
  ErrPermanent (ErrNew ("spec.agent.config." +:+ k +:+
    " cannot be projected as an env var and the AgentClass declares no config mount/env")).

(** The loop over the sorted keys. *)
Fixpoint project_fields (fields : gmap string json) (reachable : bool) (keys : list string)
  : result (list EnvVar) :=
  match keys with
  | [] => Ok []
  | k :: ks =>
    match scalarString (default JNull (fields !! k)), envNameRe k with
    | Some val, true =>
      try envs := project_fields fields reachable ks in Ok (mkEnv k val :: envs)
    | _, _ =>
      if reachable then project_fields fields reachable ks
      else Err (cannot_project k)
    end
  end.

Definition BuildConfigProjection `{JsonErrors, UnicodeTables} (taskName : string)
    (config : option string) (inputs : AgentInputs) : result ConfigProjection :=
  match config_bytes config with
  | None => Ok empty_config
  | Some raw =>
    match decodeConfigObject raw with
    | Err e => Err (ErrPermanent (ErrWrap "spec.agent.config: " e ""))
    | Ok fields =>
      let hasMount := negb (config_mount inputs =? "")%string in
      let hasWholeEnv := negb (config_env inputs =? "")%string in
      let keys := sort_strings (map_to_list fields).*1 in
      match project_fields fields (hasMount || hasWholeEnv) keys with
      | Err e => Err e
      | Ok envs =>
        if hasWholeEnv && negb (envNameRe (config_env inputs)) then
          Err (ErrPermanent (ErrNew ("agentclass inputs.config.env " +:+ Quote (config_env inputs)
                 +:+ " is not a valid env var name")))
        else
          let envs := if hasWholeEnv then envs ++ [mkEnv (config_env inputs) raw] else envs in
          if hasMount then
            Ok (mkConfigProjection envs
                  (Some (mkVolume ConfigVolumeName (ConfigMapVolume (AgentConfigMapName taskName))))
                  (Some (mkMount ConfigVolumeName true (config_mount inputs) ConfigKey)))
          else Ok (mkConfigProjection envs None None)
      end
    end
  end.

Definition BuildAgentConfigMap (taskName namespace : string) (config : option string)
    (inputs : AgentInputs) : option ConfigMap :=
  match config_bytes config with
  | None => None
  | Some raw =>
    if (config_mount inputs =? "")%string then None
    else Some (mkConfigMap (ownedMeta (AgentConfigMapName taskName) namespace taskName)
                 (Some {[ ConfigKey := raw ]}))
  end.

(** ** The loop *)

(** A field that can become an environment variable, with its text. *)
Definition env_field (fields : gmap string json) (k val : string) : Prop :=
  exists v, fields !! k = Some v /\ scalarString v = Some val /\ envNameRe k = true.

Lemma project_fields_ok fields reachable keys envs :
  project_fields fields reachable keys = Ok envs ->
  (forall e, e ∈ envs <->
     env_ValueFrom e = None /\ env_Name e ∈ keys /\ env_field fields (env_Name e) (env_Value e)) /\
  (env_Name <$> envs) `sublist_of` keys /\
  (reachable = false -> env_Name <$> envs = keys).
Proof.
  revert envs. induction keys as [|k ks IH]; intros envs Hp; simpl in Hp.
  { simplify_eq. split_and!; [|constructor|done]. intros e. set_solver. }
  destruct (scalarString (default JNull (fields !! k))) as [val|] eqn:Hs;
    [destruct (envNameRe k) eqn:Hn|].
  - destruct (project_fields fields reachable ks) as [es|] eqn:Hr; simplify_eq.
    destruct (IH es eq_refl) as (IH1 & IH2 & IH3). split_and!.
    + intros [n v from]. rewrite !elem_of_cons, IH1. unfold mkEnv. simpl. split.
      * intros [[= -> -> ->]|(? & ? & ?)]; [|by eauto]. split; [done|]. split; [by left|].
        destruct (fields !! k) as [j|] eqn:Hk; [|done]. by exists j.
      * intros (-> & [->|Hin] & Hf); [|by eauto]. left. f_equal.
        destruct Hf as (j & Hj & Hv & _). rewrite Hj in Hs. simpl in Hs. congruence.
    + rewrite fmap_cons. by apply sublist_skip.
    + intros Hrf. rewrite fmap_cons. simpl. by rewrite IH3.
  - destruct reachable; [|done]. destruct (IH envs Hp) as (IH1 & IH2 & _). split_and!; [|by apply sublist_cons|done].
    intros e. rewrite IH1, elem_of_cons. split; [naive_solver|].
    intros (? & [->|?] & Hf); [|done]. destruct Hf as (j & _ & _ & Hb). congruence.
  - destruct reachable; [|done]. destruct (IH envs Hp) as (IH1 & IH2 & _). split_and!; [|by apply sublist_cons|done].
    intros e. rewrite IH1, elem_of_cons. split; [naive_solver|].
    intros (? & [Heq|?] & (j & Hj & Hv & Hb)); [|split_and!; [done..|by exists j]].
    subst k. rewrite Hj in Hs. simpl in Hs. congruence.
Qed.

Lemma project_fields_err fields reachable keys e :
  (forall k, k ∈ keys -> is_Some (fields !! k)) ->
  project_fields fields reachable keys = Err e ->
  IsPermanent e = true /\ reachable = false /\
  exists k v, k ∈ keys /\ fields !! k = Some v /\ (scalarString v = None \/ envNameRe k = false) /\
    e = cannot_project k.
Proof.
  induction keys as [|k ks IH]; intros Hdom Hp; simpl in Hp; [done|].
  assert (Hks : forall k, k ∈ ks -> is_Some (fields !! k)) by (intros; apply Hdom; by right).
  destruct (Hdom k) as [v Hv]; [left|]. rewrite Hv in Hp. simpl in Hp.
  assert (Hrec : project_fields fields reachable ks = Err e ->
    IsPermanent e = true /\ reachable = false /\
    exists k0 v, k0 ∈ k :: ks /\ fields !! k0 = Some v /\ (scalarString v = None \/ envNameRe k0 = false) /\
      e = cannot_project k0).
  { intros Hr. destruct (IH Hks Hr) as (? & ? & k' & v' & ? & ? & ?).
    split_and!; [done..|]. exists k', v'. split; [by right|done]. }
  destruct (scalarString v) eqn:Hs; [destruct (envNameRe k) eqn:Hn|].
  - destruct (project_fields fields reachable ks) eqn:Hr; simplify_eq. by apply Hrec.
  - destruct reachable; [by apply Hrec|]. simplify_eq. split_and!; [done..|].
    exists k, v. split_and!; [left|done|by right|done].
  - destruct reachable; [by apply Hrec|]. simplify_eq. split_and!; [done..|].
    exists k, v. split_and!; [left|done|by left|done].
Qed.

Lemma elem_of_field_keys (fields : gmap string json) k :
  k ∈ sort_strings (map_to_list fields).*1 <-> is_Some (fields !! k).
Proof.
  rewrite elem_of_sort_strings, list_elem_of_fmap. split.
  - intros ([k' v] & -> & H%elem_of_map_to_list). by exists v.
  - intros [v Hv]. exists (k, v). split; [done|]. by apply elem_of_map_to_list.
Qed.

(** ** Theorems *)

Section Theorems.
Context `{JsonErrors, UnicodeTables}.

(** Every variable has its own text: none takes it from a Secret, a ConfigMap or the pod. *)
Lemma projection_literal taskName config inputs proj e :
  BuildConfigProjection taskName config inputs = Ok proj -> e ∈ cp_Env proj -> env_ValueFrom e = None.
Proof.
  unfold BuildConfigProjection. intros Hb. destruct (config_bytes config) as [raw|]; [|simplify_eq; by intros []%elem_of_nil].
  destruct (decodeConfigObject raw) as [fields|]; [|done]. destruct (project_fields _ _ _) as [envs|] eqn:Hp; [|done].
  apply project_fields_ok in Hp as [He _]. repeat (case_match; simplify_eq); cbn [cp_Env];
    rewrite ?elem_of_app, ?list_elem_of_singleton; naive_solver.
Qed.

(** Nothing of the config is lost.  When the projection succeeds for a config
    with fields, every scalar field with a name fit for a variable becomes that
    variable, with its text; every other field is reachable through the mounted
    file or the variable that holds the whole JSON; no other variable is set; and
    the mounted ConfigMap is the one the controller builds, with the raw bytes. *)
Theorem config_delivered taskName namespace config inputs raw fields proj :
  config_bytes config = Some raw -> decodeConfigObject raw = Ok fields ->
  BuildConfigProjection taskName config inputs = Ok proj ->
  (forall e, e ∈ cp_Env proj <->
     (env_ValueFrom e = None /\ env_field fields (env_Name e) (env_Value e)) \/
     (config_env inputs <> ""%string /\ e = mkEnv (config_env inputs) raw)) /\
  (forall k v, fields !! k = Some v -> scalarString v = None \/ envNameRe k = false ->
     config_mount inputs <> ""%string \/ config_env inputs <> ""%string) /\
  match BuildAgentConfigMap taskName namespace config inputs with
  | Some cm => config_mount inputs <> ""%string /\ map_get (cm_Data cm) ConfigKey = raw /\
      cp_Volume proj = Some (mkVolume ConfigVolumeName (ConfigMapVolume (om_Name (cm_Meta cm)))) /\
      cp_Mount proj = Some (mkMount ConfigVolumeName true (config_mount inputs) ConfigKey)
  | None => config_mount inputs = ""%string /\ cp_Volume proj = None /\ cp_Mount proj = None
  end.
Proof.
  intros Hraw Hdec. unfold BuildConfigProjection, BuildAgentConfigMap. rewrite Hraw, Hdec.
  set (keys := sort_strings _). set (reach := _ || _).
  destruct (project_fields fields reach keys) as [envs|e] eqn:Hp; [|done].
  destruct (_ && negb _); [done|]. intros Hb.
  destruct (project_fields_ok _ _ _ _ Hp) as (Henv & _ & Hall).
  assert (Henv' : forall e, e ∈ envs <-> env_ValueFrom e = None /\ env_field fields (env_Name e) (env_Value e)).
  { intros e. rewrite Henv. split; [tauto|]. intros [Hfrom Hf]. split_and!; [done| |done]. apply elem_of_field_keys.
    destruct Hf as (v & Hv & _). by exists v. }
  assert (He : cp_Env proj = envs ++ if negb (config_env inputs =? "")%string then [mkEnv (config_env inputs) raw] else []).
  { destruct (negb (config_env inputs =? "")%string), (negb (config_mount inputs =? "")%string); simplify_eq/=; by rewrite ?app_nil_r. }
  split; [|split].
  - intros e. rewrite He, elem_of_app, Henv'. destruct (String.eqb_spec (config_env inputs) "") as [|Hne]; simpl.
    + rewrite elem_of_nil. tauto.
    + rewrite list_elem_of_singleton. tauto.
  - intros k v Hk Hbad. destruct (String.eqb_spec (config_mount inputs) "") as [Hm|]; [|by left].
    destruct (String.eqb_spec (config_env inputs) "") as [Hw|]; [|by right]. exfalso.
    assert (Hin : k ∈ env_Name <$> envs).
    { rewrite Hall; [|done]. apply elem_of_field_keys. by exists v. }
    apply list_elem_of_fmap in Hin as (e & -> & (_ & v' & Hv' & Hs & Hn)%Henv'). destruct Hbad; congruence.
  - destruct (String.eqb_spec (config_mount inputs) "") as [Hm|Hm]; simpl in Hb; simplify_eq/=; by split_and!.
Qed.

(** A config that cannot be delivered is a permanent error, and for a reason
    in the spec: the bytes are not a JSON object, a field fits no variable while
    the class has neither a mount nor a whole-config variable, or the class
    names an invalid variable. *)
Theorem config_errors_permanent taskName config inputs e :
  BuildConfigProjection taskName config inputs = Err e ->
  IsPermanent e = true /\ exists raw, config_bytes config = Some raw /\
  ((exists e', decodeConfigObject raw = Err e') \/
   (exists fields k v, decodeConfigObject raw = Ok fields /\ fields !! k = Some v /\
      (scalarString v = None \/ envNameRe k = false) /\
      config_mount inputs = ""%string /\ config_env inputs = ""%string) \/
   (config_env inputs <> ""%string /\ envNameRe (config_env inputs) = false)).
Proof.
  unfold BuildConfigProjection. destruct (config_bytes config) as [raw|]; [|done].
  destruct (decodeConfigObject raw) as [fields|e'] eqn:Hdec.
  2: { intros [= <-]. split; [done|]. exists raw. split; [done|]. left. by exists e'. }
  set (keys := sort_strings _).
  destruct (project_fields _ _ _) as [envs|e'] eqn:Hp.
  - destruct (String.eqb_spec (config_env inputs) "") as [|Hne]; simpl.
    { by destruct (negb _). }
    destruct (envNameRe (config_env inputs)) eqn:Hn; simpl; [by destruct (negb _)|].
    intros [= <-]. split; [done|]. exists raw. split; [done|]. by right; right.
  - intros [= <-]. apply project_fields_err in Hp as (Hperm & Hr & k & v & _ & Hk & Hbad & _);
      [|intros k; unfold keys; by rewrite elem_of_field_keys].
    split; [done|]. exists raw. split; [done|]. right. left. exists fields, k, v.
    apply orb_false_iff in Hr as [Hr1 Hr2]. apply negb_false_iff, String.eqb_eq in Hr1, Hr2. done.
Qed.

End Theorems.

(** The ConfigMaps of Tasks never collide: the names for prompts and for
    configs are injective in the Task name, and no prompt name is a config
    name, whatever the Tasks are called. *)
Theorem configmap_names_disjoint t1 t2 :
  (Prompt.InlinePromptConfigMapName t1 = Prompt.InlinePromptConfigMapName t2 -> t1 = t2) /\
  (AgentConfigMapName t1 = AgentConfigMapName t2 -> t1 = t2) /\
  Prompt.InlinePromptConfigMapName t1 <> AgentConfigMapName t2.
Proof.
  split_and!; [apply append_inj_l..|]. unfold Prompt.InlinePromptConfigMapName, AgentConfigMapName.
  intros Heq. apply (f_equal (fun s => String.list_ascii_of_string s)) in Heq.
  rewrite !list_ascii_append in Heq. apply (f_equal reverse) in Heq. rewrite !reverse_app in Heq. done.
Qed.

(** ** The theorems at samples *)

#[local] Instance sample_errors : JsonErrors := {| json_error := fun _ => "bad"%string |}.
#[local] Instance sample_tables : UnicodeTables := plain_tables.

Definition sample_quote : string := str1 dquote.
Definition sample_config : string := let q := sample_quote in
  "{" +:+ q +:+ "MODEL" +:+ q +:+ ":" +:+ q +:+ "x" +:+ q +:+ "," +:+ q +:+ "n-1" +:+ q +:+ ":2}".
Definition sample_inputs : AgentInputs := mkAgentInputs None (Some (mkAgentInputMount "/cfg.json" "")).
Definition sample_fields : gmap string json :=
  match decodeConfigObject sample_config with Ok f => f | Err _ => ∅ end.
Definition sample_projection : ConfigProjection :=
  match BuildConfigProjection "demo" (Some sample_config) sample_inputs with Ok p => p | Err _ => empty_config end.

Lemma config_delivered_witness : mkEnv "MODEL" "x" ∈ cp_Env sample_projection.
Proof.
  apply (config_delivered "demo" "ns" (Some sample_config) sample_inputs sample_config sample_fields);
    [vm_compute; reflexivity|vm_compute; reflexivity|vm_compute; reflexivity|].
  left. split; [reflexivity|]. exists (JString "x"). split; [vm_compute; reflexivity|split; vm_compute; reflexivity].
Defined.

Lemma config_errors_permanent_witness : exists e,
  BuildConfigProjection "demo" (Some sample_config) (mkAgentInputs None None) = Err e /\ IsPermanent e = true.
Proof.
  eexists. split; [vm_compute; reflexivity|].
  apply (config_errors_permanent "demo" (Some sample_config) (mkAgentInputs None None)). vm_compute. reflexivity.
Defined.

End Config.
