(* ===== verification/PolicyNetwork.v ===== *)
(** * The NetworkPolicy

    [internal/policy/networkpolicy.go]: from an egress allowlist to the
    default-deny NetworkPolicy of a Task, with the DNS lookups as calls. *)

From S2P Require Import Prelude GoString GoTime GoNet Kube Api Effects PolicyObjects.

Module Network.
Import Labels.

(** ** Resolvers *)

Inductive Resolver :=
| DefaultResolver
| StaticResolver (Hosts : gmap string (list string)) (SErr : option GoError).

Definition lookup_error (e : bool * string) : GoError := ErrDNS e.2 e.1.

Definition LookupHost (r : Resolver) (host : string) : Prog (result (list string)) :=
  match r with
  | DefaultResolver =>
    let! ans := call (CLookupHost host) in
    Ret (match ans with Ok addrs => Ok addrs | Err e => Err (lookup_error e) end)
  | StaticResolver hosts err =>
    Ret (match err with
         | Some e => Err e
         | None => Ok (default [] (hosts !! host))
         end)
  end.

(** A lookup that runs into [lookupTimeout] is one that the resolver answers
    with an error that is not [IsNotFound]. *)
Definition lookupWithTimeout (r : Resolver) (host : string) : Prog (result (list string)) :=
  LookupHost r host.

(** ** Constants *)

Definition DefaultEgressPort : Z := 443.
Definition dnsPort : Z := 53.
Definition kubeSystemNamespace : string := "kube-system".
Definition namespaceNameLabel : string := "kubernetes.io/metadata.name".
Definition kubeDNSSelectorKey : string := "k8s-app".
Definition kubeDNSSelectorValue : string := "kube-dns".

(** ** Egress entries *)

Definition ipToCIDR (ip : list Z) : string :=
  match To4 ip with
  | Some _ => IP_String ip +:+ "/32"
  | None => IP_String ip +:+ "/128"
  end.

Definition is_hostname (entry : string) : bool :=
  let entry := TrimSpace entry in
  negb ((entry =? "")%string || ContainsByte entry "/" ||
        match ParseIP entry with Some _ => true | None => false end).

Definition HasHostnames (egress : list string) : bool := existsb is_hostname egress.

Definition addr_cidrs (addrs : list string) : list string :=
  omap (fun a => ipToCIDR <$> ParseIP a) addrs.

Definition invalid_cidr `{UnicodeTables} (entry : string) : GoError :=
  ErrPermanent (ErrWrap ("egress entry " +:+ Quote entry +:+ ": invalid CIDR: ")
    (ErrNew ("invalid CIDR address: " +:+ entry)) "").

Definition lookup_failed `{UnicodeTables} (entry : string) (err : GoError) : GoError :=
  let wrapped := ErrWrap ("egress entry " +:+ Quote entry +:+ ": lookup failed: ") err "" in
  if IsDNSNotFound err then ErrPermanent wrapped else wrapped.

(** The loop of [resolveEgress]; [set] is the set of CIDRs so far. *)
Fixpoint resolve_entries `{UnicodeTables} (r : Resolver) (egress : list string) (set : gset string)
  : Prog (result (gset string)) :=
  match egress with
  | [] => Ret (Ok set)
  | entry0 :: rest =>
    let entry := TrimSpace entry0 in
    if (entry =? "")%string then resolve_entries r rest set
    else if ContainsByte entry "/" then
      match ParseCIDR entry with
      | None => Ret (Err (invalid_cidr entry))
      | Some _ => resolve_entries r rest ({[entry]} ∪ set)
      end
    else
      match ParseIP entry with
      | Some ip => resolve_entries r rest ({[ipToCIDR ip]} ∪ set)
      | None =>
        let! ans := lookupWithTimeout r entry in
        match ans with
        | Err err => Ret (Err (lookup_failed entry err))
        | Ok addrs => resolve_entries r rest (list_to_set (addr_cidrs addrs) ∪ set)
        end
      end
  end.

Definition resolveEgress `{UnicodeTables} (r : Resolver) (egress : list string)
  : Prog (result (list string)) :=
  let! set := resolve_entries r egress ∅ in
  Ret (match set with Ok s => Ok (sort_strings (elements s)) | Err e => Err e end).

(** ** Rules *)

Definition toIPBlocks (cidrs : list string) : list NetworkPolicyPeer :=
  (fun c => mkPeer (Some c) None None) <$> cidrs.

(** [slices.Compact]: adjacent duplicates go. *)
Fixpoint Compact (l : list Z) : list Z :=
  match l with
  | x :: l' =>
    match l' with
    | y :: _ => if x =? y then Compact l' else x :: Compact l'
    | [] => [x]
    end
  | [] => []
  end.

Definition sort_ports (l : list Z) : list Z := merge_sort Z.le l.

Definition both_protocols (p : Z) : list NetworkPolicyPort :=
  [mkPort ProtocolTCP p; mkPort ProtocolUDP p].

Definition egressPorts (ports : list Z) : list NetworkPolicyPort :=
  let ports := match ports with [] => [DefaultEgressPort] | _ => ports end in
  flat_map both_protocols (Compact (sort_ports ports)).

Definition dnsEgressRule : NetworkPolicyEgressRule :=
  mkEgressRule
    [mkPeer None (Some {[ namespaceNameLabel := kubeSystemNamespace ]})
       (Some {[ kubeDNSSelectorKey := kubeDNSSelectorValue ]})]
    [mkPort ProtocolUDP dnsPort; mkPort ProtocolTCP dnsPort].

Definition egress_rules (egress cidrs : list string) (ports : list Z) : list NetworkPolicyEgressRule :=
  match egress with
  | [] => []
  | _ =>
    dnsEgressRule ::
    match cidrs with
    | [] => []
    | _ => [mkEgressRule (toIPBlocks cidrs) (egressPorts ports)]
    end
  end.

Definition network_policy (taskName namespace : string) (egress cidrs : list string) (ports : list Z)
  : NetworkPolicy :=
  mkNetworkPolicy (ownedMeta taskName namespace taskName)
    (mkNetworkPolicySpec (PodSelectorLabels taskName) [PolicyTypeIngress; PolicyTypeEgress]
       [] (egress_rules egress cidrs ports)).

Definition BuildNetworkPolicy `{UnicodeTables} (r : Resolver) (taskName namespace : string)
    (egress : list string) (ports : list Z) : Prog (result NetworkPolicy) :=
  let! cidrs := resolveEgress r egress in
  Ret (match cidrs with
       | Err e => Err e
       | Ok cidrs => Ok (network_policy taskName namespace egress cidrs ports)
       end).

(** ** Lemmas on the ports *)

Lemma sort_ports_sorted l : StronglySorted Z.le (sort_ports l).
Proof.
  apply StronglySorted_merge_sort; [intros x y z; lia|intros x y; lia].
Qed.

Lemma elem_of_Compact x l : x ∈ Compact l <-> x ∈ l.
Proof.
  induction l as [|a l IH]; [done|]. destruct l as [|b l]; [done|].
  change (Compact (a :: b :: l)) with (if a =? b then Compact (b :: l) else a :: Compact (b :: l)).
  destruct (Z.eqb_spec a b) as [->|Hne].
  - rewrite IH, (elem_of_cons (b :: l)). set_solver.
  - by rewrite !(elem_of_cons (_ :: _)), elem_of_cons, IH.
Qed.

Lemma Compact_sorted l :
  StronglySorted Z.le l -> StronglySorted Z.lt (Compact l).
Proof.
  induction l as [|a l IH]; intros Hs; [constructor|].
  apply StronglySorted_cons in Hs as [Ha Hs]. destruct l as [|b l]; [repeat constructor|].
  change (Compact (a :: b :: l)) with (if a =? b then Compact (b :: l) else a :: Compact (b :: l)).
  destruct (Z.eqb_spec a b) as [->|Hne]; [by apply IH|].
  apply StronglySorted_cons. split; [|by apply IH].
  apply Forall_forall. intros x Hx. rewrite elem_of_Compact in Hx.
  apply StronglySorted_cons in Hs as [Hb _]. rewrite Forall_forall in Ha, Hb.
  apply elem_of_cons in Hx as [->|Hx].
  - assert (a <= b) by (apply Ha; left). lia.
  - assert (a <= b) by (apply Ha; left). specialize (Hb x Hx). lia.
Qed.

Definition effective_ports (ports : list Z) : list Z :=
  match ports with [] => [DefaultEgressPort] | _ => ports end.

Lemma elem_of_egressPorts ports pr p :
  mkPort pr p ∈ egressPorts ports <-> p ∈ effective_ports ports.
Proof.
  unfold egressPorts. fold (effective_ports ports).
  rewrite list_elem_of_In, in_flat_map. setoid_rewrite <- list_elem_of_In. split.
  - intros (x & Hx & Hp). rewrite elem_of_Compact in Hx. unfold sort_ports in Hx.
    rewrite merge_sort_Permutation in Hx. unfold both_protocols in Hp.
    destruct pr; set_solver.
  - intros Hp. exists p. rewrite elem_of_Compact. unfold sort_ports.
    rewrite merge_sort_Permutation. split; [done|]. unfold both_protocols. destruct pr; set_solver.
Qed.

(** ** Lemmas on the resolution *)

(** The addresses the resolver gave for a host. *)
Definition answered (r : Resolver) (tr : Trace) (host : string) (addrs : list string) : Prop :=
  match r with
  | DefaultResolver => ev (CLookupHost host) (Ok addrs) ∈ tr
  | StaticResolver hosts _ => addrs = default [] (hosts !! host)
  end.

(** What one entry of the allowlist stands for. *)
Definition entry_cidr (r : Resolver) (tr : Trace) (entry0 c : string) : Prop :=
  let entry := TrimSpace entry0 in
  entry <> ""%string /\
  if ContainsByte entry "/" then c = entry /\ is_Some (ParseCIDR entry)
  else
    match ParseIP entry with
    | Some ip => c = ipToCIDR ip
    | None => exists addrs a ip, answered r tr entry addrs /\ a ∈ addrs /\
                ParseIP a = Some ip /\ c = ipToCIDR ip
    end.

Definition lookup_answer (e : Ev) : option (string * res (bool * string) (list string)) :=
  match e with existT (CLookupHost h) x => Some (h, x) | _ => None end.

Lemma ev_lookup_inj h x h' (x' : res (bool * string) (list string)) :
  ev (CLookupHost h) x = ev (CLookupHost h') x' -> h = h' /\ x = x'.
Proof. intros He%(f_equal lookup_answer). simpl in He. by simplify_eq. Qed.

Lemma elem_of_addr_cidrs c addrs :
  c ∈ addr_cidrs addrs <-> exists a ip, a ∈ addrs /\ ParseIP a = Some ip /\ c = ipToCIDR ip.
Proof.
  unfold addr_cidrs. rewrite list_elem_of_omap. split.
  - intros (a & Ha & (ip & Hip & ->)%fmap_Some). eauto.
  - intros (a & ip & Ha & Hip & ->). exists a. split; [done|]. by rewrite Hip.
Qed.

Lemma exec_lookup r host tr ans :
  exec (lookupWithTimeout r host) tr ans ->
  match ans with
  | Ok addrs =>
      match r with
      | DefaultResolver => tr = [ev (CLookupHost host) (Ok addrs)]
      | StaticResolver hosts _ => tr = [] /\ addrs = default [] (hosts !! host)
      end
  | Err e =>
      match r with
      | DefaultResolver => exists nf m, tr = [ev (CLookupHost host) (Err (nf, m))] /\ e = ErrDNS m nf
      | StaticResolver _ err => tr = [] /\ err = Some e
      end
  end.
Proof.
  unfold lookupWithTimeout, LookupHost. destruct r as [|hosts err]; intros H.
  - apply exec_call_bind in H as (a & tr' & -> & [-> ->]%exec_ret).
    destruct a as [addrs|[nf m]]; [done|]. by exists nf, m.
  - apply exec_ret in H as [-> ->]. by destruct err.
Qed.

Lemma answered_app r t1 t2 host addrs :
  answered r (t1 ++ t2) host addrs <-> answered r t1 host addrs \/ answered r t2 host addrs.
Proof. destruct r; simpl; [apply elem_of_app|tauto]. Qed.

Section Resolve.
Context `{UnicodeTables}.

(** One step of the loop, case by case: nothing, one CIDR, or a lookup. *)
Lemma exec_resolve_cons r entry0 rest set tr out :
  exec (resolve_entries r (entry0 :: rest) set) tr (Ok out) ->
  exists t1 t2 add, tr = t1 ++ t2 /\ exec (resolve_entries r rest (add ∪ set)) t2 (Ok out) /\
    (forall c, c ∈ add <-> entry_cidr r t1 entry0 c) /\
    (forall c, entry_cidr r tr entry0 c -> entry_cidr r t1 entry0 c \/ entry_cidr r t2 entry0 c) /\
    (forall h x, ev (CLookupHost h) x ∈ t1 -> TrimSpace entry0 = h /\ r = DefaultResolver).
Proof.
  simpl. unfold entry_cidr. destruct (String.eqb_spec (TrimSpace entry0) "") as [He|He].
  { intros Hx. exists [], tr, ∅. rewrite union_empty_l_L. split_and!; set_solver. }
  destruct (ContainsByte (TrimSpace entry0) "/") eqn:Hc.
  { destruct (ParseCIDR (TrimSpace entry0)) eqn:Hp; intros Hx; [|by apply exec_ret in Hx as [_ ?]].
    exists [], tr, {[TrimSpace entry0]}. split_and!; [done|done| |tauto|set_solver].
    intros c. rewrite elem_of_singleton. split; [|tauto]. intros ->. split_and!; [done..|]. by eexists. }
  destruct (ParseIP (TrimSpace entry0)) as [ip|] eqn:Hp.
  { intros Hx. exists [], tr, {[ipToCIDR ip]}. split_and!; [done|done| |tauto|set_solver].
    intros c. rewrite elem_of_singleton. naive_solver. }
  intros Hx. apply exec_bind in Hx as (t1 & t2 & ans & -> & Hl & Hx).
  destruct ans as [addrs|e]; [|by apply exec_ret in Hx as [_ ?]].
  exists t1, t2, (list_to_set (addr_cidrs addrs)).
  apply exec_lookup in Hl. split_and!; [done|done| | |].
  - intros c. rewrite elem_of_list_to_set, elem_of_addr_cidrs. split.
    + intros (a & ip & ? & ? & ->). split; [done|]. exists addrs, a, ip. split_and!; [|done..].
      destruct r; simpl; [|naive_solver]. subst t1. set_solver.
    + intros (_ & addrs' & a & ip & Ha & Hin & Hip & ->). exists a, ip. split_and!; [|done..].
      destruct r; simpl in Ha; [|naive_solver]. subst t1.
      apply list_elem_of_singleton, ev_lookup_inj in Ha as [_ [= ->]]. done.
  - intros c (_ & addrs' & a & ip & Ha & Hin). rewrite answered_app in Ha.
    destruct Ha; [left|right]; (split; [done|]); by exists addrs', a, ip.
  - intros h x Hin. destruct r; [|destruct Hl as [-> _]; set_solver].
    subst t1. by apply list_elem_of_singleton, ev_lookup_inj in Hin as [-> _].
Qed.

(** Each lookup of the loop is for an entry of the allowlist. *)
Lemma resolve_entries_lookups r egress set tr out h x :
  exec (resolve_entries r egress set) tr (Ok out) -> ev (CLookupHost h) x ∈ tr ->
  exists e, e ∈ egress /\ TrimSpace e = h.
Proof.
  revert set tr. induction egress as [|e es IH]; intros set tr Hx Hin.
  { apply exec_ret in Hx as [-> _]. set_solver. }
  apply exec_resolve_cons in Hx as (t1 & t2 & add & -> & Hx & _ & _ & Hl).
  apply elem_of_app in Hin as [Hin|Hin].
  - exists e. split; [left|]. by eapply Hl.
  - destruct (IH _ _ Hx Hin) as (e' & ? & ?). exists e'. split; [by right|done].
Qed.

(** The meaning of an entry only depends on its trimmed text. *)
Lemma entry_cidr_trim r tr e1 e2 c :
  TrimSpace e1 = TrimSpace e2 -> entry_cidr r tr e1 c -> entry_cidr r tr e2 c.
Proof. unfold entry_cidr. by intros ->. Qed.

(** An entry that means a CIDR through answers of a trace that holds none for
    its host means it without answers. *)
Lemma entry_cidr_weaken r t1 t2 e c :
  entry_cidr r (t1 ++ t2) e c ->
  entry_cidr r t2 e c \/
  exists addrs, r = DefaultResolver /\ ev (CLookupHost (TrimSpace e)) (Ok addrs) ∈ t1 /\
    entry_cidr r t1 e c.
Proof.
  unfold entry_cidr. intros [Hne Hc]. destruct (ContainsByte _ _); [by left|].
  destruct (ParseIP _); [by left|]. destruct Hc as (addrs & a & ip & Ha & Hin).
  destruct r as [|hosts err]; [|left; split; [done|]; by exists addrs, a, ip].
  apply elem_of_app in Ha as [Ha|Ha].
  - right. exists addrs. split_and!; [done..|]. by exists addrs, a, ip.
  - left. split; [done|]. by exists addrs, a, ip.
Qed.

Lemma entry_cidr_mono r t1 t2 e c : entry_cidr r t2 e c -> entry_cidr r (t1 ++ t2) e c.
Proof.
  unfold entry_cidr. intros [Hne Hc]. split; [done|]. destruct (ContainsByte _ _); [done|].
  destruct (ParseIP _); [done|]. destruct Hc as (addrs & a & ip & Ha & Hin).
  exists addrs, a, ip. rewrite answered_app. tauto.
Qed.

Lemma entry_cidr_mono_l r t1 t2 e c : entry_cidr r t1 e c -> entry_cidr r (t1 ++ t2) e c.
Proof.
  unfold entry_cidr. intros [Hne Hc]. split; [done|]. destruct (ContainsByte _ _); [done|].
  destruct (ParseIP _); [done|]. destruct Hc as (addrs & a & ip & Ha & Hin).
  exists addrs, a, ip. rewrite answered_app. tauto.
Qed.

Lemma resolve_entries_ok r egress set tr out :
  exec (resolve_entries r egress set) tr (Ok out) ->
  forall c, c ∈ out <-> c ∈ set \/ exists e, e ∈ egress /\ entry_cidr r tr e c.
Proof.
  revert set tr. induction egress as [|e es IH]; intros set tr Hx c.
  { apply exec_ret in Hx as [-> [= ->]]. set_solver. }
  apply exec_resolve_cons in Hx as (t1 & t2 & add & -> & Hx & Hadd & Hsplit & Hl).
  rewrite (IH _ _ Hx c), elem_of_union, Hadd. split.
  - intros [[He|Hs]|(e' & Hin & He')]; [right; exists e|by left|right; exists e'].
    + split; [left|]. by apply entry_cidr_mono_l.
    + split; [by right|]. by apply entry_cidr_mono.
  - intros [Hs|(e' & [->|Hin]%elem_of_cons & He')]; [by auto| |].
    + destruct (Hsplit c He') as [|Ht2]; [by auto|].
      destruct (entry_cidr_weaken r t2 [] e c) as [|(addrs & Hr & Ha & _)];
        [by rewrite app_nil_r| |].
      * left. left. rewrite <- (app_nil_r t1). by apply entry_cidr_mono.
      * right. destruct (resolve_entries_lookups _ _ _ _ _ _ _ Hx Ha) as (e' & ? & ?).
        exists e'. split; [done|]. by eapply entry_cidr_trim.
    + destruct (entry_cidr_weaken _ _ _ _ _ He') as [|(addrs & Hr & Ha & He1)];
        [right; by exists e'|].
      left. left. destruct (Hl _ _ Ha) as [Heq _]. by eapply entry_cidr_trim.
Qed.

Lemma resolveEgress_exec r egress tr ans :
  exec (resolveEgress r egress) tr ans ->
  exists s, exec (resolve_entries r egress ∅) tr s /\
    ans = match s with Ok s => Ok (sort_strings (elements s)) | Err e => Err e end.
Proof.
  intros Hx. apply exec_bind in Hx as (t1 & t2 & s & -> & Hx & [-> ->]%exec_ret).
  exists s. by rewrite app_nil_r.
Qed.

(** A failed resolution names its cause: a malformed CIDR or a name that does
    not exist, which are permanent, or any other lookup error, which is not. *)
Lemma resolve_entries_err egress set tr e :
  exec (resolve_entries DefaultResolver egress set) tr (Err e) ->
  (exists entry, entry ∈ egress /\ ContainsByte (TrimSpace entry) "/" = true /\
     ParseCIDR (TrimSpace entry) = None /\ e = invalid_cidr (TrimSpace entry)) \/
  (exists entry nf m, entry ∈ egress /\
     ev (CLookupHost (TrimSpace entry)) (Err (nf, m)) ∈ tr /\
     e = lookup_failed (TrimSpace entry) (ErrDNS m nf) /\ IsPermanent e = nf).
Proof.
  revert set tr. induction egress as [|e0 es IH]; intros set tr Hx.
  { by apply exec_ret in Hx as [_ ?]. }
  assert (Hrec : forall set tr' t, exec (resolve_entries DefaultResolver es set) tr' (Err e) ->
    (exists entry, entry ∈ e0 :: es /\ ContainsByte (TrimSpace entry) "/" = true /\
     ParseCIDR (TrimSpace entry) = None /\ e = invalid_cidr (TrimSpace entry)) \/
    (exists entry nf m, entry ∈ e0 :: es /\
       ev (CLookupHost (TrimSpace entry)) (Err (nf, m)) ∈ t ++ tr' /\
       e = lookup_failed (TrimSpace entry) (ErrDNS m nf) /\ IsPermanent e = nf)).
  { intros set' tr' t Hr. destruct (IH _ _ Hr) as [(en & ? & ? & ? & ?)|(en & nf & m & ? & ? & ? & ?)].
    - left. exists en. split; [by right|done].
    - right. exists en, nf, m. split_and!; [by right| |done..]. rewrite elem_of_app. auto. }
  cbn [resolve_entries] in Hx. destruct (TrimSpace e0 =? "")%string; [by apply (Hrec _ _ [] Hx)|].
  destruct (ContainsByte (TrimSpace e0) "/") eqn:Hc.
  { destruct (ParseCIDR (TrimSpace e0)) eqn:Hp; [by apply (Hrec _ _ [] Hx)|].
    apply exec_ret in Hx as [-> [= ->]]. left. exists e0. split_and!; [left|done..]. }
  destruct (ParseIP (TrimSpace e0)); [by apply (Hrec _ _ [] Hx)|].
  apply exec_bind in Hx as (t1 & t2 & ans & -> & Hl & Hx). apply exec_lookup in Hl.
  destruct ans as [addrs|err]; [by apply (Hrec _ _ t1 Hx)|].
  destruct Hl as (nf & m & -> & ->). apply exec_ret in Hx as [-> [= ->]].
  right. exists e0, nf, m. split_and!; [left|left|done|]. unfold lookup_failed. simpl. by destruct nf.
Qed.

End Resolve.

(** ** Theorems *)

Section Theorems.
Context `{UnicodeTables}.

(** The resolution of an allowlist is sound and complete: the CIDRs are, in
    order and without duplicates, exactly what the entries stand for: a CIDR
    for itself, an address for its host route, a name for the host routes of the
    addresses that the resolver gave for it in this very resolution. *)
Theorem resolveEgress_exact r egress tr cidrs :
  exec (resolveEgress r egress) tr (Ok cidrs) ->
  (forall c, c ∈ cidrs <-> exists e, e ∈ egress /\ entry_cidr r tr e c) /\
  NoDup cidrs /\ StronglySorted String.le cidrs.
Proof.
  intros ([s|] & Hx & [= ->])%resolveEgress_exec. split_and!.
  - intros c. rewrite elem_of_sort_strings, elem_of_elements, (resolve_entries_ok _ _ _ _ _ Hx c). set_solver.
  - apply NoDup_sort_strings, NoDup_elements.
  - apply sort_strings_sorted.
Qed.

(** A failed resolution is classified by its cause: it is permanent exactly
    for a malformed CIDR or a name that the resolver reports as not existing;
    every other lookup error stays transient. *)
Theorem resolveEgress_error egress tr e :
  exec (resolveEgress DefaultResolver egress) tr (Err e) ->
  exists entry, entry ∈ egress /\
  ((ContainsByte (TrimSpace entry) "/" = true /\ ParseCIDR (TrimSpace entry) = None /\ IsPermanent e = true) \/
   exists nf m, ev (CLookupHost (TrimSpace entry)) (Err (nf, m)) ∈ tr /\ IsPermanent e = nf).
Proof.
  intros ([s|e'] & Hx & [= ->])%resolveEgress_exec.
  apply resolve_entries_err in Hx as [(en & Hin & Hs & Hn & ->)|(en & nf & m & Hin & Hl & -> & Hnf)].
  - exists en. split; [done|]. by left.
  - exists en. split; [done|]. right. by exists nf, m.
Qed.

End Theorems.

(** What a list of egress rules lets through to the addresses of a CIDR. *)
Definition permits (rules : list NetworkPolicyEgressRule) (cidr : string) (pr : Protocol) (port : Z) : Prop :=
  exists r peer, r ∈ rules /\ peer ∈ ner_To r /\ npe_IPBlock peer = Some cidr /\ mkPort pr port ∈ ner_Ports r.

(** A rule without peers or without ports is open to all of them. *)
Definition closed_rule (r : NetworkPolicyEgressRule) : Prop := ner_To r <> [] /\ ner_Ports r <> [].

Lemma egressPorts_nonempty ports : egressPorts ports <> [].
Proof.
  intros He. assert (Hin : exists p, mkPort ProtocolTCP p ∈ egressPorts ports).
  { destruct ports as [|p ps]; [exists DefaultEgressPort|exists p]; apply elem_of_egressPorts; left. }
  destruct Hin as [p Hp]. rewrite He in Hp. by apply elem_of_nil in Hp.
Qed.

(** C29. The policy of a Task is deny by default.  Without an allowlist there is no
    egress rule at all; otherwise traffic to addresses is let through exactly for
    the resolved CIDRs on the declared ports (443 when none is declared), the
    only other peer is the cluster DNS on port 53, no rule is open, and there is
    never an ingress rule. *)
Theorem network_policy_exact taskName namespace egress cidrs ports :
  let spec := np_Spec (network_policy taskName namespace egress cidrs ports) in
  nps_PolicyTypes spec = [PolicyTypeIngress; PolicyTypeEgress] /\ nps_Ingress spec = [] /\
  (egress = [] -> nps_Egress spec = []) /\
  (forall c pr p, permits (nps_Egress spec) c pr p <->
     egress <> [] /\ c ∈ cidrs /\ p ∈ effective_ports ports) /\
  (forall r peer, r ∈ nps_Egress spec -> peer ∈ ner_To r -> npe_IPBlock peer = None ->
     r = dnsEgressRule /\ npe_NamespaceSelector peer = Some {[ namespaceNameLabel := kubeSystemNamespace ]} /\
     npe_PodSelector peer = Some {[ kubeDNSSelectorKey := kubeDNSSelectorValue ]}) /\
  (forall r, r ∈ nps_Egress spec -> closed_rule r).
Proof.
  cbn [network_policy np_Spec nps_PolicyTypes nps_Ingress nps_Egress]. split_and!; [done|done|by intros ->|..].
  - intros c pr p. unfold egress_rules, permits. destruct egress as [|e es].
    { split; [intros (r & peer & Hr & _); by apply elem_of_nil in Hr|tauto]. }
    split.
    + intros (r & peer & [->|Hr]%elem_of_cons & Hpeer & Hip & Hport).
      { unfold dnsEgressRule in Hpeer. cbn in Hpeer. apply list_elem_of_singleton in Hpeer as ->. done. }
      destruct cidrs as [|c0 cs]; [by apply elem_of_nil in Hr|]. apply list_elem_of_singleton in Hr as ->.
      cbn [ner_To ner_Ports] in *. unfold toIPBlocks in Hpeer. apply list_elem_of_fmap in Hpeer as (c' & -> & Hc').
      cbn in Hip. simplify_eq. split_and!; [done..|]. by apply elem_of_egressPorts in Hport.
    + intros (_ & Hc & Hp). destruct cidrs as [|c0 cs]; [by apply elem_of_nil in Hc|].
      exists (mkEgressRule (toIPBlocks (c0 :: cs)) (egressPorts ports)), (mkPeer (Some c) None None).
      split_and!; [right; left| |done|by apply elem_of_egressPorts].
      unfold toIPBlocks. cbn [ner_To]. by apply (list_elem_of_fmap_2 (fun c => mkPeer (Some c) None None)).
  - intros r peer Hr Hpeer Hip. unfold egress_rules in Hr. destruct egress; [by apply elem_of_nil in Hr|].
    apply elem_of_cons in Hr as [->|Hr].
    { unfold dnsEgressRule in Hpeer. cbn in Hpeer. by apply list_elem_of_singleton in Hpeer as ->. }
    destruct cidrs; [by apply elem_of_nil in Hr|]. apply list_elem_of_singleton in Hr as ->.
    unfold toIPBlocks in Hpeer. cbn [ner_To] in Hpeer. by apply list_elem_of_fmap in Hpeer as (c' & -> & _).
  - intros r Hr. unfold egress_rules in Hr. destruct egress; [by apply elem_of_nil in Hr|].
    apply elem_of_cons in Hr as [->|Hr]; [done|]. destruct cidrs; [by apply elem_of_nil in Hr|].
    apply list_elem_of_singleton in Hr as ->. split; [done|]. apply egressPorts_nonempty.
Qed.

Lemma strictly_sorted_unique (l1 l2 : list Z) :
  StronglySorted Z.lt l1 -> StronglySorted Z.lt l2 -> (forall x, x ∈ l1 <-> x ∈ l2) -> l1 = l2.
Proof.
  assert (Hnd : forall l, StronglySorted Z.lt l -> NoDup l).
  { induction l as [|x l IH]; intros Hs; [constructor|]. apply StronglySorted_cons in Hs as [Hx Hs].
    constructor; [|by apply IH]. intros Hin. rewrite Forall_forall in Hx. specialize (Hx x Hin). lia. }
  intros H1 H2 Hin. apply (StronglySorted_unique_strong Z.lt); [intros; lia|done..|].
  apply NoDup_Permutation; auto.
Qed.

(** The ports of the allowlist rule are the declared ones, each once for TCP
    and once for UDP, in ascending order whatever the order and repetitions of
    the declaration, so that a reordered spec never changes the policy. *)
Theorem egressPorts_canonical ports ports' :
  (forall p, p ∈ effective_ports ports <-> p ∈ effective_ports ports') ->
  egressPorts ports = egressPorts ports' /\
  (forall pr p, mkPort pr p ∈ egressPorts ports <-> p ∈ effective_ports ports) /\
  exists sorted, StronglySorted Z.lt sorted /\ egressPorts ports = flat_map both_protocols sorted.
Proof.
  intros Heq. split_and!.
  - unfold egressPorts. fold (effective_ports ports) (effective_ports ports'). f_equal.
    apply strictly_sorted_unique; [apply Compact_sorted, sort_ports_sorted..|].
    intros p. rewrite !elem_of_Compact. unfold sort_ports. by rewrite !merge_sort_Permutation, Heq.
  - intros. apply elem_of_egressPorts.
  - eexists. split; [|reflexivity]. apply Compact_sorted, sort_ports_sorted.
Qed.

(** ** The theorems at samples *)

#[local] Instance sample_tables : UnicodeTables := plain_tables.

Definition sample_resolver : Resolver := StaticResolver {[ "api.example.com"%string := ["192.0.2.7"%string] ]} None.

Lemma resolveEgress_exact_witness : "192.0.2.7/32"%string ∈ ["10.0.0.0/8"%string; "192.0.2.7/32"%string] /\
  NoDup ["10.0.0.0/8"%string; "192.0.2.7/32"%string].
Proof.
  split; [right; left|].
  apply (resolveEgress_exact sample_resolver ["api.example.com"%string; "10.0.0.0/8"%string] []).
  vm_compute. split; reflexivity.
Defined.

Lemma resolveEgress_error_witness : exists entry,
  entry ∈ ["10.0.0.0/99"%string] /\ ParseCIDR (TrimSpace entry) = None.
Proof.
  destruct (resolveEgress_error ["10.0.0.0/99"%string] [] (invalid_cidr "10.0.0.0/99")) as
    (en & Hin & [(_ & Hn & _)|(nf & m & Hl & _)]); [vm_compute; split; reflexivity|exists en; split; assumption|].
  apply elem_of_nil in Hl. destruct Hl.
Defined.

Lemma egressPorts_canonical_witness : egressPorts [8443; 443; 443] = egressPorts [443; 8443].
Proof. apply (egressPorts_canonical [8443; 443; 443] [443; 8443]). intros p. cbn. set_solver. Defined.

End Network.
