(* ===== verification/Reconciler.v ===== *)
(** * The reconciler

    The configuration of [TaskReconciler] ([internal/controller/task_controller.go]). *)

From S2P Require Import Prelude GoString GoTime Kube Api Effects PolicyNetwork.

(** The fields of [TaskReconciler] besides the client and the scheme, which the
    calls stand for; [r_Recorder] says whether a recorder is present. *)
Record TaskReconciler := mkReconciler {
  r_Resolver : option Network.Resolver;
  r_Recorder : bool;
  r_EgressRefreshInterval : Duration;
  r_JobTTLSeconds : Z;
  r_DefaultTaskTTLSeconds : option Z;
  r_ResultWait : Duration }.
