(* ===== verification/Samples.v ===== *)
(** * Sample objects

    Concrete objects and library instances at which the theorems are applied. *)

From S2P Require Import Prelude GoString GoTime GoJson Kube Api Effects KubeLib.
From S2P Require Import PolicyObjects PolicyConfig PolicyNetwork Reconciler.

Module Samples.

#[export] Instance errors_text : JsonErrors := {| json_error := fun _ => "unexpected JSON value"%string |}.
#[export] Instance tables : UnicodeTables := plain_tables.

Definition meta (name ns uid : string) : ObjectMeta :=
  mkMeta name "" ns uid 1 None None None [].

Definition rule : RBACRule := mkRBACRule [""%string] ["pods"%string] ["get"%string; "list"%string] [].

Definition spec : TaskSpec :=
  mkTaskSpec
    (mkAgentRef "claude" None)
    (mkPromptSource "do it" None None)
    (mkPermissions ["token"%string] ["api.example.com"%string; "10.0.0.0/8"%string] [] [rule])
    (mkTaskResources "500m" "1Gi" (90 * Second))
    (Some 600).

Definition task : Task := mkTask (meta "demo" "agents" "uid-1") spec empty_status.

Definition with_status (s : TaskStatus) : Task := mkTask (task_Meta task) (task_Spec task) s.

Definition agent : ClusterAgentClass :=
  mkClusterAgentClass (meta "claude" "" "uid-2")
    (mkClusterAgentClassSpec "ghcr.io/openconveyor/agent" "" [] []
       (mkAgentInputs (Some (mkAgentInputMount "/inputs/prompt" "")) None)
       (mkAgentRequirements ["api.anthropic.com"%string] ["anthropic"%string])).

Definition job_meta : ObjectMeta :=
  mkMeta "demo" "" "agents" "uid-job" 1 None None None [mkOwner "Task" "demo" "uid-1" true].

(** ** A world

    The answers of the API server, the resolver and the clock; writes succeed
    and answer with the object they were given. *)

Record World := mkWorld {
  w_Now : Time;
  w_Task : res ApiError Task;
  w_Agent : res ApiError ClusterAgentClass;
  w_Job : res ApiError Job;
  w_Pods : list Pod;
  w_Tasks : list Task;
  w_Triggers : list ClusterTriggerClass;
  w_Secret : res ApiError Secret;
  w_Lookup : res (bool * string) (list string);
  w_StatusUpdate : option ApiError }.

Definition not_found : ApiError := mkApiError NotFound "not found".

Definition handle (c : Call) (w : World) : resp c * World :=
  (match c return resp c with
   | CGet KTask _ => w_Task w
   | CGet KClusterAgentClass _ => w_Agent w
   | CGet KJob _ => w_Job w
   | CGet KSecret _ => w_Secret w
   | CGet _ _ => Err not_found
   | CCreate _ o => Ok o
   | CUpdate _ o => Ok o
   | CDelete _ _ _ => Ok tt
   | CStatusUpdate t => match w_StatusUpdate w with None => Ok t | Some e => Err e end
   | CListPods _ _ => Ok (w_Pods w)
   | CListTasks _ _ _ => Ok (w_Tasks w)
   | CListTasksByAgent _ => Ok (w_Tasks w)
   | CListTriggerClasses => Ok (w_Triggers w)
   | CLookupHost _ => w_Lookup w
   | CNow => w_Now w
   | CMetric _ | CEvent _ | CRespond _ => tt
   end, w).

Definition pod : Pod :=
  mkPod (mkMeta "demo-x" "" "agents" "uid-pod" 1 None None None [mkOwner "Job" "demo" "uid-job" true])
    [mkContainerStatus "agent" (Some ("{" +:+ str1 dquote +:+ "summary" +:+ str1 dquote +:+ ":" +:+
       str1 dquote +:+ "done" +:+ str1 dquote +:+ "}"))].

Definition running_job : Job :=
  mkJob job_meta (mkJobSpec (Some 0) None None (mkPodTemplate None (mkPodSpec RestartPolicyNever "" None None [] [])))
    (mkJobStatus [] 1 (Some 5) None).

Definition finished_job : Job :=
  mkJob job_meta (mkJobSpec (Some 0) None None (mkPodTemplate None (mkPodSpec RestartPolicyNever "" None None [] [])))
    (mkJobStatus [mkJobCondition "Complete" ConditionTrue "" ""] 0 (Some 5) (Some (60 * Second))).

(** A first reconcile: the class exists and nothing else does. *)
Definition fresh : World :=
  mkWorld (1000 * Second) (Ok task) (Ok agent) (Err not_found) [] [] [] (Err not_found)
    (Ok ["192.0.2.7"%string]) None.

(** The Job finished and its pod is there. *)
Definition finished : World :=
  mkWorld (1000 * Second) (Ok task) (Ok agent) (Ok finished_job) [pod] [] [] (Err not_found)
    (Ok ["192.0.2.7"%string]) None.

Definition completed_status : TaskStatus :=
  mkTaskStatus TaskPhaseCompleted 1 "demo" (Some 5) (Some (60 * Second)) None
    [mkCondition "Ready" ConditionTrue "Completed" "Job completed" 1 (60 * Second)].

Definition reconciler : TaskReconciler := mkReconciler None true (30 * Second) 3600 None 0.

End Samples.
