(* ===== verification/PolicyResult.v ===== *)
(** * The Result parser

    [internal/policy/result.go]: the termination message of an agent container
    is untrusted text; [ParseResult] turns it into a bounded Result whose links
    stay inside the egress allowlist. *)

From S2P Require Import Prelude GoString GoTime GoNet GoJson GoUrl Kube Api.

Module Result.

Definition MaxResultBytes : Z := 2048.
Definition MaxResultSummaryChars : nat := 512.
Definition MaxResultLinks : nat := 8.
Definition MaxResultLinkNameChars : Z := 32.
Definition MaxResultLinkURLChars : Z := 2048.
Definition maxTerminationMessageBytes : Z := 4096.

Definition len (s : string) : Z := Z.of_nat (String.length s).

Inductive ResultOutcome := ResultRecorded | ResultNotProvided | ResultInvalid.
#[export] Instance ResultOutcome_eq_dec : EqDecision ResultOutcome.
Proof. solve_decision. Defined.

Record ParsedResult := mkParsed {
  pr_Result : option TaskResult;
  pr_Outcome : ResultOutcome;
  pr_DroppedLinks : nat;
  pr_Problem : string }.

(** ** Strict decoding *)

Record wireLink := mkWireLink { wl_Name : string; wl_URL : string }.

(** The slice [Links]: its length and the elements its array holds, which can
    be more after a shorter array was decoded into it. *)
Record wireResult := mkWireResult {
  wr_Summary : string; wr_LinkCount : nat; wr_LinkMem : list wireLink }.

Definition wire_links (w : wireResult) : list wireLink := take (wr_LinkCount w) (wr_LinkMem w).

(** The folding of [encoding/json] for field names, on the runes that can fold
    to ASCII. *)
Definition foldRune (r : Z) : Z :=
  if in_range 97 122 r then r - 32
  else if r =? 383 then 83
  else if r =? 8490 then 75
  else r.
Definition foldName (s : string) : list Z := foldRune <$> runes s.
Definition is_field (name key : string) : bool :=
  (key =? name)%string || bool_decide (foldName key = foldName name).

(** A JSON value into a string field: null leaves it, another type is an error. *)
Definition decode_string (v : json) (cur : string) : option string :=
  match v with JString s => Some s | JNull => Some cur | _ => None end.

Fixpoint decode_link_members (l : list (string * json)) (w : wireLink) : option wireLink :=
  match l with
  | [] => Some w
  | (k, v) :: l' =>
    if is_field "name" k then
      match decode_string v (wl_Name w) with
      | Some s => decode_link_members l' (mkWireLink s (wl_URL w))
      | None => None
      end
    else if is_field "url" k then
      match decode_string v (wl_URL w) with
      | Some s => decode_link_members l' (mkWireLink (wl_Name w) s)
      | None => None
      end
    else None
  end.

Definition decode_link (v : json) (w : wireLink) : option wireLink :=
  match v with
  | JObject l => decode_link_members l w
  | JNull => Some w
  | _ => None
  end.

Definition set_elem (i : nat) (w : wireLink) (mem : list wireLink) : list wireLink :=
  if (i <? length mem)%nat then <[i := w]> mem else mem ++ [w].

(** Elements decode into the memory of the slice, element by element. *)
Fixpoint decode_links (i : nat) (l : list json) (mem : list wireLink) : option (list wireLink) :=
  match l with
  | [] => Some mem
  | v :: l' =>
    match decode_link v (nth i mem (mkWireLink "" "")) with
    | Some w => decode_links (S i) l' (set_elem i w mem)
    | None => None
    end
  end.

Definition decode_links_field (v : json) (w : wireResult) : option wireResult :=
  match v with
  | JNull => Some (mkWireResult (wr_Summary w) 0 [])
  | JArray [] => Some (mkWireResult (wr_Summary w) 0 [])
  | JArray l =>
    match decode_links 0 l (wr_LinkMem w) with
    | Some mem => Some (mkWireResult (wr_Summary w) (length l) mem)
    | None => None
    end
  | _ => None
  end.

Fixpoint decode_members (l : list (string * json)) (w : wireResult) : option wireResult :=
  match l with
  | [] => Some w
  | (k, v) :: l' =>
    if is_field "summary" k then
      match decode_string v (wr_Summary w) with
      | Some s => decode_members l' (mkWireResult s (wr_LinkCount w) (wr_LinkMem w))
      | None => None
      end
    else if is_field "links" k then
      match decode_links_field v w with
      | Some w' => decode_members l' w'
      | None => None
      end
    else None
  end.

Definition zero_wire : wireResult := mkWireResult "" 0 [].

(** [decodeStrict] into a [wireResult]: one value, no unknown field, nothing
    but white space after it. *)
Definition decodeStrict (data : string) : option wireResult :=
  match decode_first data with
  | None => None
  | Some (v, rest) =>
    let w := match v with
             | JObject l => decode_members l zero_wire
             | JNull => Some zero_wire
             | _ => None
             end in
    if (skip_ws rest =? "")%string then w else None
  end.

(** ** The summary *)

(** [n] is how many more characters the loop writes. *)
Fixpoint sanitize_runes (rs : list Z) (n : nat) : list Z :=
  match n, rs with
  | O, _ | _, [] => []
  | S n', r :: rs' =>
    if (r =? 9) || (r =? 10) || (r =? 13) then 32 :: sanitize_runes rs' n'
    else if IsControl r || Cf r then sanitize_runes rs' n
    else r :: sanitize_runes rs' n'
  end.

Definition sanitizeSummary (s : string) : string :=
  TrimSpace (string_of_runes (sanitize_runes (runes (ToValidUTF8_drop s)) MaxResultSummaryChars)).

(** ** Links *)

(** [linkNamePattern]: lower-case alphanumeric words joined with dashes;
    [start] says that a word must begin here. *)
Fixpoint kebab (s : string) (start : bool) : bool :=
  match s with
  | EmptyString => negb start
  | String c s' =>
    let b := byte_val c in
    if in_range 97 122 b || in_range 48 57 b then kebab s' false
    else if b =? 45 then negb start && kebab s' true
    else false
  end.
Definition linkNamePattern (s : string) : bool := kebab s true.

Section Links.
Context `{UnicodeTables}.

Definition fold_host (h : string) : string := TrimSuffix (ToLower h) ".".

Definition entry_allows (host : string) (ip : option (list Z)) (entry0 : string) : bool :=
  let entry := TrimSpace entry0 in
  match ip with
  | Some ip =>
    match ParseCIDR entry with
    | Some (_, cidr) => Contains cidr ip
    | None => false
    end ||
    match ParseIP entry with
    | Some eip => IP_Equal eip ip
    | None => false
    end
  | None => (fold_host entry =? host)%string
  end.

Definition hostAllowed (host0 : string) (allowlist : list string) : bool :=
  let host := fold_host host0 in
  existsb (entry_allows host (ParseIP host)) allowlist.

Definition validateLink (l : wireLink) (allowlist : list string) : option ResultLink :=
  if (MaxResultLinkNameChars <? len (wl_Name l)) || negb (linkNamePattern (wl_Name l)) then None
  else if (wl_URL l =? "")%string || (MaxResultLinkURLChars <? len (wl_URL l)) then None
  else
    match url_Parse (wl_URL l) with
    | None => None
    | Some u =>
      if negb (url_Scheme u =? "https")%string || negb (url_Opaque u =? "")%string ||
         match url_User u with Some _ => true | None => false end || (Hostname u =? "")%string
      then None
      else if negb (hostAllowed (Hostname u) allowlist) then None
      else
        let normalized := URL_String u in
        if MaxResultLinkURLChars <? len normalized then None
        else Some (mkResultLink (wl_Name l) normalized)
    end.

(** The loop over the links: [kept] is [out.Links], whose names are [seen]. *)
Fixpoint keep_links (links : list wireLink) (allowlist : list string)
    (kept : list ResultLink) (dropped : nat) : list ResultLink * nat :=
  match links with
  | [] => (kept, dropped)
  | l :: ls =>
    match validateLink l allowlist with
    | Some link =>
      if bool_decide (link_Name link ∈ link_Name <$> kept) || (length kept =? MaxResultLinks)%nat
      then keep_links ls allowlist kept (S dropped)
      else keep_links ls allowlist (kept ++ [link]) dropped
    | None => keep_links ls allowlist kept (S dropped)
    end
  end.

Definition droppedProblem (dropped total : nat) : string :=
  "Dropped " +:+ Itoa (Z.of_nat dropped) +:+ " of " +:+ Itoa (Z.of_nat total) +:+
  " links that broke the contract".

Definition no_object_problem (message : string) : string :=
  if (TrimSpace message =? "")%string then "Termination message is empty"
  else "Termination message holds no JSON object".

Definition ParseResult (message0 : string) (allowlist : list string) : ParsedResult :=
  let message := if maxTerminationMessageBytes <? len message0
                 then take_str (Z.to_nat maxTerminationMessageBytes) message0 else message0 in
  match IndexByte message "{" with
  | None => mkParsed None ResultNotProvided 0 (no_object_problem message)
  | Some start =>
    let body := drop_str start message in
    if MaxResultBytes <? len body then
      mkParsed None ResultInvalid 0 ("Result is larger than " +:+ Itoa MaxResultBytes +:+ " bytes")
    else
      match decodeStrict body with
      | None => mkParsed None ResultInvalid 0 "Result is not strict JSON of the contract shape"
      | Some wire =>
        let summary := sanitizeSummary (wr_Summary wire) in
        let '(links, dropped) := keep_links (wire_links wire) allowlist [] 0 in
        let out := mkTaskResult summary links in
        let empty := (summary =? "")%string && (length links =? 0)%nat in
        let problem := droppedProblem dropped (length (wire_links wire)) in
        if (0 <? dropped)%nat then
          if empty then mkParsed None ResultInvalid dropped problem
          else mkParsed (Some out) ResultInvalid dropped problem
        else if empty then mkParsed None ResultNotProvided 0 "Result is empty"
        else mkParsed (Some out) ResultRecorded 0 ""
      end
  end.

(** ** Lemmas *)

Lemma sanitize_runes_spec rs n :
  Forall (fun r => valid_rune r = true) rs ->
  (length (sanitize_runes rs n) <= n)%nat /\
  Forall (fun r => valid_rune r = true /\ IsControl r = false /\ Cf r = false) (sanitize_runes rs n).
Proof.
  revert n. induction rs as [|r rs IH]; intros n Hv; [destruct n; (split; [simpl; lia|constructor])|].
  apply Forall_cons in Hv as [Hr Hv]. destruct n as [|n]; [split; [simpl; lia|constructor]|].
  cbn [sanitize_runes]. destruct ((r =? 9) || (r =? 10) || (r =? 13)) eqn:Hs.
  - destruct (IH n Hv) as [Hl Hf]. split; [simpl; lia|]. by constructor.
  - destruct (IsControl r) eqn:Hc; [by apply IH|]. destruct (Cf r) eqn:Hf; [by apply IH|].
    simpl. destruct (IH n Hv) as [Hl Hfs]. split; [simpl; lia|]. by constructor.
Qed.

(** A clean one-line text: bounded, without control or format characters. *)
Definition clean_summary (s : string) : Prop :=
  (length (runes s) <= MaxResultSummaryChars)%nat /\
  Forall (fun r => IsControl r = false /\ Cf r = false) (runes s).

Lemma sanitizeSummary_clean s : clean_summary (sanitizeSummary s).
Proof.
  unfold sanitizeSummary.
  destruct (sanitize_runes_spec (runes (ToValidUTF8_drop s)) MaxResultSummaryChars) as [Hl Hf];
    [apply runes_valid|].
  set (rs := sanitize_runes _ _) in *.
  assert (Hv : Forall (fun r => valid_rune r = true) rs) by (eapply Forall_impl; [exact Hf|naive_solver]).
  destruct (TrimSpace_runes rs Hv) as (pre & mid & post & Heq & ->).
  rewrite Heq in Hl, Hf, Hv. rewrite !Forall_app in Hf, Hv. rewrite !length_app in Hl.
  unfold clean_summary. rewrite runes_string_of_runes by apply Hv. split; [lia|].
  eapply Forall_impl; [apply Hf|]. naive_solver.
Qed.

(** What an accepted link is. *)
Definition good_link (allowlist : list string) (l : ResultLink) : Prop :=
  linkNamePattern (link_Name l) = true /\ len (link_Name l) <= MaxResultLinkNameChars /\
  len (link_URL l) <= MaxResultLinkURLChars /\
  exists raw u, url_Parse raw = Some u /\ link_URL l = URL_String u /\
    url_Scheme u = "https"%string /\ url_Opaque u = ""%string /\ url_User u = None /\
    Hostname u <> ""%string /\ hostAllowed (Hostname u) allowlist = true.

Lemma validateLink_good l allowlist link :
  validateLink l allowlist = Some link -> good_link allowlist link /\ link_Name link = wl_Name l.
Proof.
  unfold validateLink. intros Hv. repeat (case_match; simplify_eq);
  repeat match goal with
  | H : orb _ _ = false |- _ => apply orb_false_iff in H as [? ?]
  | H : negb _ = false |- _ => apply negb_false_iff in H
  | H : (_ <? _) = false |- _ => apply Z.ltb_ge in H
  end; [done|]. str_eqb. split; [|done]. split_and!; [done..|].
  eexists _, _. split_and!; try done.
Qed.

(** The names the contract accepts, in order. *)
Definition valid_names (links : list wireLink) (allowlist : list string) : list string :=
  omap (fun l => link_Name <$> validateLink l allowlist) links.

Lemma keep_links_good links allowlist kept dropped out n :
  keep_links links allowlist kept dropped = (out, n) ->
  Forall (good_link allowlist) kept -> NoDup (link_Name <$> kept) -> (length kept <= MaxResultLinks)%nat ->
  Forall (good_link allowlist) out /\ NoDup (link_Name <$> out) /\ (length out <= MaxResultLinks)%nat /\
  (n + length out = dropped + length kept + length links)%nat.
Proof.
  revert kept dropped. induction links as [|l ls IH]; intros kept dropped Hk Hg Hn Hlen;
    cbn [keep_links] in Hk; [simplify_eq; split_and!; [done..|simpl; lia]|].
  assert (Hdrop : keep_links ls allowlist kept (S dropped) = (out, n) ->
    Forall (good_link allowlist) out /\ NoDup (link_Name <$> out) /\ (length out <= MaxResultLinks)%nat /\
    (n + length out = dropped + length kept + length (l :: ls))%nat).
  { intros Hd. destruct (IH _ _ Hd Hg Hn Hlen) as (? & ? & ? & ?). split_and!; [done..|simpl; lia]. }
  destruct (validateLink l allowlist) as [link|] eqn:Hv; [|by apply Hdrop].
  case_bool_decide as Hin; [by apply Hdrop|].
  destruct (Nat.eqb_spec (length kept) MaxResultLinks); [by apply Hdrop|]. simpl in Hk.
  apply validateLink_good in Hv as [Hgl _].
  destruct (IH _ _ Hk) as (? & ? & ? & Hc).
  - apply Forall_app. split; [done|]. by constructor.
  - rewrite fmap_app. apply NoDup_app. split_and!; [done| |apply NoDup_singleton]. set_solver.
  - rewrite length_app. simpl. lia.
  - split_and!; [done..|]. rewrite length_app in Hc. simpl in *. lia.
Qed.

Lemma keep_links_run links allowlist out n :
  keep_links links allowlist [] 0 = (out, n) ->
  Forall (good_link allowlist) out /\ NoDup (link_Name <$> out) /\ (length out <= MaxResultLinks)%nat /\
  (n + length out = length links)%nat.
Proof. intros Hk. apply (keep_links_good _ _ _ _ _ _ Hk); [constructor|constructor|simpl; lia]. Qed.

(** How many links the loop keeps: the distinct accepted names, at most eight. *)
Lemma keep_links_length links allowlist kept dropped out n :
  keep_links links allowlist kept dropped = (out, n) ->
  NoDup (link_Name <$> kept) -> (length kept <= MaxResultLinks)%nat ->
  length out = Nat.min MaxResultLinks
    (size (list_to_set (link_Name <$> kept) ∪ list_to_set (valid_names links allowlist) : gset string)).
Proof.
  revert kept dropped. induction links as [|l ls IH]; intros kept dropped Hk Hn Hlen;
    cbn [keep_links] in Hk.
  { simplify_eq. unfold valid_names. cbn [omap list_omap list_to_set]. rewrite union_empty_r_L, size_list_to_set, length_fmap by done. lia. }
  unfold valid_names. cbn [omap list_omap]. fold (valid_names ls allowlist).
  destruct (validateLink l allowlist) as [link|] eqn:Hv; simpl fmap; cbv iota; [|by eapply IH].
  cbn [list_to_set]. case_bool_decide as Hin.
  { simpl in Hk. erewrite IH by done. do 2 f_equal. set_solver. }
  destruct (Nat.eqb_spec (length kept) MaxResultLinks) as [He|He]; simpl in Hk.
  - erewrite IH by done.
    assert (Hs : (MaxResultLinks <= size (list_to_set (link_Name <$> kept) : gset string))%nat)
      by (rewrite size_list_to_set, length_fmap; [lia|done]).
    assert (Hm : forall X : gset string, (MaxResultLinks <= size (list_to_set (link_Name <$> kept) ∪ X))%nat)
      by (intros X; etrans; [exact Hs|apply subseteq_size; set_solver]).
    rewrite !Nat.min_l by apply Hm. done.
  - erewrite IH; [|exact Hk| |].
    + do 2 f_equal. rewrite fmap_app, list_to_set_app_L. set_solver.
    + rewrite fmap_app. apply NoDup_app. split_and!; [done| |apply NoDup_singleton]. set_solver.
    + rewrite length_app. simpl. lia.
Qed.

Lemma hostAllowed_mono host l1 l2 :
  l1 ⊆ l2 -> hostAllowed host l1 = true -> hostAllowed host l2 = true.
Proof.
  unfold hostAllowed. rewrite !existsb_exists. setoid_rewrite <- list_elem_of_In.
  intros Hs (e & He & Ha). exists e. split; [by apply Hs|done].
Qed.

Lemma validateLink_mono l l1 l2 link :
  l1 ⊆ l2 -> validateLink l l1 = Some link -> validateLink l l2 = Some link.
Proof.
  intros Hs. unfold validateLink. intros Hv.
  repeat (case_match; simplify_eq); try done;
    match goal with H : negb (hostAllowed ?h l2) = true |- _ =>
      apply negb_true_iff in H; rewrite (hostAllowed_mono h l1 l2) in H; [done..|] end;
    by match goal with H : negb (hostAllowed ?h l1) = false |- _ => apply negb_false_iff in H end.
Qed.

(** ** Theorems *)

(** The sentences the parser can put into a condition: none of them carries a
    byte of the message. *)
Definition fixed_problem (s : string) : Prop :=
  s ∈ [""; "Termination message is empty"; "Termination message holds no JSON object";
       "Result is larger than 2048 bytes"; "Result is not strict JSON of the contract shape";
       "Result is empty"]%string \/
  exists dropped total, s = droppedProblem dropped total.

(** A Result of at most [MaxResultBytes] bytes names at most that many links. *)
Lemma decode_members_count n l w w' :
  (forall k a, (k, JArray a) ∈ l -> (length a <= n)%nat) -> decode_members l w = Some w' ->
  (wr_LinkCount w <= n)%nat -> (wr_LinkCount w' <= n)%nat.
Proof.
  revert w. induction l as [|[k v] l IH]; intros w Hl; cbn [decode_members]; [by intros [= <-]|]. intros Hd Hw.
  assert (Hl' : forall k a, (k, JArray a) ∈ l -> (length a <= n)%nat) by (intros k' a Hin; apply (Hl k'); by right).
  destruct (is_field "summary" k); [destruct (decode_string _ _); [by eapply (IH _ Hl' Hd)|done]|].
  destruct (is_field "links" k); [|done]. destruct (decode_links_field v w) as [w1|] eqn:Hf; [|done]. apply (IH _ Hl' Hd).
  destruct v as [| | | |[|x a]|]; cbn in Hf; simplify_eq; try (cbn; lia). destruct (decode_link _ _); [|done].
  destruct (decode_links _ _ _); simplify_eq. exact (Hl k (x :: a) (list_elem_of_here _ _)).
Qed.

Lemma decodeStrict_count data wire : decodeStrict data = Some wire -> (length (wire_links wire) <= String.length data)%nat.
Proof.
  unfold decodeStrict, wire_links. rewrite length_take. destruct (decode_first data) as [[v rest]|] eqn:Hd; [|done].
  destruct (_ =? "")%string; [|done]. destruct v as [| | | | |m]; intros Hm; simplify_eq; [cbn; lia|].
  apply (decode_members_count (String.length data)) in Hm; [lia| |cbn; lia]. intros k a Hin. by eapply decode_array_count.
Qed.

Lemma Itoa_short n : (n <= 2048)%nat -> (String.length (Itoa (Z.of_nat n)) <= 4)%nat.
Proof.
  intros Hn. assert (Hall : forallb (fun n => String.length (Itoa (Z.of_nat n)) <=? 4)%nat (seq 0 2049) = true) by (vm_compute; reflexivity).
  rewrite forallb_forall in Hall. apply Nat.leb_le, Hall, in_seq. lia.
Qed.

(** The text of a problem is short, whatever the agent wrote. *)
Lemma problem_short message allowlist : (String.length (pr_Problem (ParseResult message allowlist)) <= 100)%nat.
Proof.
  unfold ParseResult. cbn zeta. set (msg := if _ <? _ then _ else _). destruct (IndexByte msg "{") as [start|].
  2: { cbn. unfold no_object_problem. destruct (_ =? _)%string; cbn; lia. }
  destruct (Z.ltb_spec MaxResultBytes (len (drop_str start msg))) as [|Hlen]; [vm_compute; lia|].
  destruct (decodeStrict _) as [wire|] eqn:Hw; [|cbn; lia]. apply decodeStrict_count in Hw. unfold MaxResultBytes, len in Hlen.
  destruct (keep_links (wire_links wire) allowlist [] 0) as [links dropped] eqn:Hk. destruct (keep_links_run _ _ _ _ Hk) as (_ & _ & _ & Hn).
  assert (Hd : (String.length (droppedProblem dropped (length (wire_links wire))) <= 100)%nat).
  { unfold droppedProblem. rewrite !length_append. pose proof (Itoa_short dropped ltac:(lia)).
    pose proof (Itoa_short (length (wire_links wire)) ltac:(lia)). cbn [String.length]. lia. }
  destruct (0 <? dropped)%nat, (_ && _); cbn [pr_Problem]; (exact Hd || cbn; lia).
Qed.

(** What can enter the status. *)
Lemma ParseResult_clean message allowlist out :
  pr_Result (ParseResult message allowlist) = Some out ->
  clean_summary (result_Summary out) /\ (length (result_Links out) <= MaxResultLinks)%nat /\
  NoDup (link_Name <$> result_Links out) /\ Forall (good_link allowlist) (result_Links out) /\
  (result_Summary out <> ""%string \/ result_Links out <> []).
Proof.
  unfold ParseResult. cbn zeta. destruct (IndexByte _ "{") as [start|]; [|done]. destruct (MaxResultBytes <? _); [done|].
  destruct (decodeStrict _) as [wire|]; [|done]. destruct (keep_links (wire_links wire) allowlist [] 0) as [links dropped] eqn:Hk.
  destruct (keep_links_run _ _ _ _ Hk) as (Hg & Hnd & Hlen & _).
  destruct ((_ =? "")%string && _) eqn:Hempty; [by destruct (0 <? dropped)%nat|]. intros Ho.
  assert (out = mkTaskResult (sanitizeSummary (wr_Summary wire)) links) as ->.
  { by destruct (0 <? dropped)%nat; injection Ho as <-. }
  cbn. split_and!; [apply sanitizeSummary_clean|done..|].
  destruct (String.eqb_spec (sanitizeSummary (wr_Summary wire)) ""); [right|by left]. by destruct links.
Qed.

(** C30. Whatever an agent writes, a Result that enters the status is bounded and
    clean: at most 512 characters of summary without control or format
    characters, at most 8 links with distinct short names, each an https URL
    without user info whose host the egress allowlist allows; it is not empty;
    Recorded means that nothing was dropped; and the text of a problem is one of
    the parser's own sentences. *)
Theorem ParseResult_contract message allowlist :
  let p := ParseResult message allowlist in
  (forall out, pr_Result p = Some out ->
     clean_summary (result_Summary out) /\ (length (result_Links out) <= MaxResultLinks)%nat /\
     NoDup (link_Name <$> result_Links out) /\ Forall (good_link allowlist) (result_Links out) /\
     (result_Summary out <> ""%string \/ result_Links out <> [])) /\
  (pr_Outcome p = ResultRecorded <-> is_Some (pr_Result p) /\ pr_DroppedLinks p = 0%nat) /\
  (pr_Outcome p = ResultNotProvided -> pr_Result p = None) /\
  fixed_problem (pr_Problem p).
Proof.
  intros p. split; [intros out; apply ParseResult_clean|]. subst p.
  unfold ParseResult. cbn zeta. set (msg := if _ <? _ then _ else _).
  destruct (IndexByte msg "{") as [start|].
  2: { cbn. split_and!; [split; [done|by intros [[? ?] _]]|done|]. unfold no_object_problem.
       destruct (_ =? _)%string; left; set_solver. }
  destruct (MaxResultBytes <? _).
  { cbn. split_and!; [split; [done|by intros [[? ?] _]]|done|left; set_solver]. }
  destruct (decodeStrict _) as [wire|].
  2: { cbn. split_and!; [split; [done|by intros [[? ?] _]]|done|left; set_solver]. }
  destruct (keep_links (wire_links wire) allowlist [] 0) as [links dropped].
  destruct (_ && _).
  - destruct (Nat.ltb_spec 0 dropped); cbn; (split_and!; [split; [done|by intros [[? ?] _]]|done|]).
    + right. by do 2 eexists.
    + left. set_solver.
  - destruct (Nat.ltb_spec 0 dropped); cbn; (split_and!; [|done|]).
    + split; [done|]. intros [_ ?]. lia.
    + right. by do 2 eexists.
    + split; [|done]. intros _. split; [by eexists|done].
    + left. set_solver.
Qed.

(** The links of a parsed Result. *)
Definition parsed_links (p : ParsedResult) : list ResultLink :=
  match pr_Result p with Some r => result_Links r | None => [] end.

Lemma ParseResult_links message allowlist :
  parsed_links (ParseResult message allowlist) = [] \/
  exists wire, parsed_links (ParseResult message allowlist) = (keep_links (wire_links wire) allowlist [] 0).1 /\
    forall allowlist', length (parsed_links (ParseResult message allowlist')) =
      length (keep_links (wire_links wire) allowlist' [] 0).1.
Proof.
  unfold ParseResult. cbn zeta. set (msg := if _ <? _ then _ else _).
  destruct (IndexByte msg "{") as [start|]; [|by left]. destruct (MaxResultBytes <? _); [by left|].
  destruct (decodeStrict _) as [wire|]; [|by left]. right. exists wire.
  assert (Hl : forall al, parsed_links (let '(links, dropped) := keep_links (wire_links wire) al [] 0 in
    if (0 <? dropped)%nat then
      if (sanitizeSummary (wr_Summary wire) =? "")%string && (length links =? 0)%nat
      then mkParsed None ResultInvalid dropped (droppedProblem dropped (length (wire_links wire)))
      else mkParsed (Some (mkTaskResult (sanitizeSummary (wr_Summary wire)) links)) ResultInvalid dropped
             (droppedProblem dropped (length (wire_links wire)))
    else if (sanitizeSummary (wr_Summary wire) =? "")%string && (length links =? 0)%nat
      then mkParsed None ResultNotProvided 0 "Result is empty"
      else mkParsed (Some (mkTaskResult (sanitizeSummary (wr_Summary wire)) links)) ResultRecorded 0 "") =
    (keep_links (wire_links wire) al [] 0).1).
  { intros al. destruct (keep_links _ al [] 0) as [links dropped]. cbn [fst].
    destruct (0 <? dropped)%nat, (sanitizeSummary (wr_Summary wire) =? "")%string; cbn [andb]; try done;
      by destruct links. }
  split; [apply Hl|]. intros al. f_equal. apply Hl.
Qed.

(** A narrower allowlist never lets more through: with fewer entries every
    accepted link is still an accepted link for the wider list, and the Result
    keeps at most as many links.  So the fallback for a deleted class, which only
    has the Task's own entries, cannot widen what an agent may publish. *)
Theorem narrower_allowlist_keeps_less message narrow wide :
  narrow ⊆ wide ->
  Forall (good_link wide) (parsed_links (ParseResult message narrow)) /\
  (length (parsed_links (ParseResult message narrow)) <= length (parsed_links (ParseResult message wide)))%nat.
Proof.
  intros Hs. destruct (ParseResult_links message narrow) as [->|(wire & -> & Hw)]; [split; [constructor|simpl; lia]|].
  rewrite Hw. destruct (keep_links (wire_links wire) narrow [] 0) as [l1 n1] eqn:H1,
    (keep_links (wire_links wire) wide [] 0) as [l2 n2] eqn:H2. cbn [fst]. split.
  - destruct (keep_links_run _ _ _ _ H1) as (Hg & _). eapply Forall_impl; [exact Hg|].
    intros l (? & ? & ? & raw & u & ? & ? & ? & ? & ? & ? & Ha). split_and!; try done. exists raw, u.
    split_and!; try done. by eapply hostAllowed_mono.
  - rewrite (keep_links_length _ _ _ _ _ _ H1), (keep_links_length _ _ _ _ _ _ H2); [|constructor|simpl; lia|constructor|simpl; lia].
    apply Nat.min_le_compat_l, subseteq_size. cbn. rewrite !union_empty_l_L. intros x.
    rewrite !elem_of_list_to_set. unfold valid_names. rewrite !list_elem_of_omap.
    intros (l & Hl & (link & Hv & ->)%fmap_Some). exists l. split; [done|].
    by rewrite (validateLink_mono _ _ _ _ Hs Hv).
Qed.

End Links.

#[local] Instance sample_tables : UnicodeTables := plain_tables.

Lemma narrower_allowlist_keeps_less_witness :
  (length (parsed_links (ParseResult "{}" [])) <= length (parsed_links (ParseResult "{}" ["example.com"%string])))%nat.
Proof. apply (narrower_allowlist_keeps_less "{}" [] ["example.com"%string]). intros x []%elem_of_nil. Defined.

End Result.
