(* ===== verification/Build.v ===== *)
(** * Building and validating

    [internal/controller/build.go] and [validate.go]: the ServiceAccount and
    the hardened Job of a Task, and the check of its spec. *)

From S2P Require Import Prelude GoString GoTime GoJson Kube Api Effects KubeLib.
From S2P Require Import PolicyObjects PolicyConfig Samples.

Module Build.
Import Labels Secrets Rbac Prompt Config.

Definition nonRootUID : Z := 65532.
Definition DefaultJobTTLSeconds : Z := 3600.
Definition scratchVolumeName : string := "scratch".
Definition agentContainerName : string := "agent".
Definition terminationMessagePath : string := "/dev/termination-log".
Definition PullIfNotPresent : string := "IfNotPresent".
Definition ResourceCPU : string := "cpu".
Definition ResourceMemory : string := "memory".

Definition taskResourceName (task : Task) : string := task_Name task.

Definition ownershipLabels (task : Task) : gmap string string :=
  <[LabelComponent := ComponentTask]> (OwnershipLabels (task_Name task)).

(** [maps.Copy] overwrites the keys of the selector. *)
Definition podLabels (task : Task) : gmap string string :=
  PodSelectorLabels (task_Name task) ∪ ownershipLabels task.

Definition task_rbac (task : Task) : list RBACRule := perm_RBAC (spec_Permissions (task_Spec task)).

Definition buildServiceAccount (task : Task) : ServiceAccount :=
  mkServiceAccount
    (new_meta (taskResourceName task) (task_Namespace task) (Some (ownershipLabels task)))
    (Some (NeedsServiceAccountToken (task_rbac task))).

Section Build.
Context `{KubeLib, JsonErrors, UnicodeTables}.

(** One resource: the empty string is unset, a text that does not parse is
    permanent. *)
Definition parse_resource (field key text : string) (l : gmap string Quantity)
  : result (gmap string Quantity) :=
  if (text =? "")%string then Ok l
  else
    match ParseQuantity text with
    | Ok q => Ok (<[key := q]> l)
    | Err e => Err (ErrPermanent (ErrWrap (field +:+ " " +:+ Quote text +:+ ": ") e ""))
    end.

Definition buildResourceRequirements (r : TaskResources) : result ResourceRequirements :=
  if (res_CPU r =? "")%string && (res_Memory r =? "")%string then Ok (mkResources None None)
  else
    try l1 := parse_resource "spec.resources.cpu" ResourceCPU (res_CPU r) ∅ in
    try l2 := parse_resource "spec.resources.memory" ResourceMemory (res_Memory r) l1 in
    Ok (mkResources (Some l2) (Some l2)).

Definition container_security : SecurityContext :=
  mkSecurityContext (Some true) (Some nonRootUID) (Some nonRootUID) (Some true) (Some false)
    [] ["ALL"%string] (Some SeccompRuntimeDefault).

Definition pod_security : PodSecurityContext :=
  mkPodSecurityContext (Some true) (Some nonRootUID) (Some nonRootUID) (Some SeccompRuntimeDefault).

Definition opt_list {A} (o : option A) : list A :=
  match o with Some a => [a] | None => [] end.

Definition buildJob (task : Task) (agent : ClusterAgentClass) (effectiveSecrets : list string)
    (ttlSeconds : Z) : result Job :=
  let '(secretVolumes, secretMounts) := BuildSecretVolumes effectiveSecrets in
  let spec := task_Spec task in
  let aspec := class_Spec agent in
  try prompt := BuildPromptProjection (task_Name task) (spec_Prompt spec) (cac_Inputs aspec) in
  try config := BuildConfigProjection (task_Name task) (agent_Config (spec_Agent spec)) (cac_Inputs aspec) in
  let volumes := [mkVolume scratchVolumeName EmptyDir] ++ secretVolumes ++
                 opt_list (pp_Volume prompt) ++ opt_list (cp_Volume config) in
  let mounts := [mkMount scratchVolumeName false "/tmp" ""] ++ secretMounts ++
                opt_list (pp_Mount prompt) ++ opt_list (cp_Mount config) in
  try resourceReqs := buildResourceRequirements (spec_Resources spec) in
  let container :=
    mkContainer agentContainerName (cac_Image aspec)
      (if (cac_ImagePullPolicy aspec =? "")%string then PullIfNotPresent else cac_ImagePullPolicy aspec)
      (cac_Command aspec) (cac_Args aspec) [] (cp_Env config) resourceReqs (Some container_security)
      mounts terminationMessagePath TerminationMessageReadFile in
  let pod :=
    mkPodTemplate (Some (podLabels task))
      (mkPodSpec RestartPolicyNever (taskResourceName task)
         (Some (NeedsServiceAccountToken (task_rbac task))) (Some pod_security) [container] volumes) in
  Ok (mkJob (new_meta (taskResourceName task) (task_Namespace task) (Some (ownershipLabels task)))
        (mkJobSpec (Some 0) (Some (SecondsInt (res_Timeout (spec_Resources spec))))
           (Some ttlSeconds) pod)
        (mkJobStatus [] 0 None None)).

(** ** validate.go *)

Definition count_set (b : bool) : nat := if b then 1 else 0.
Definition is_set {A} (o : option A) : bool := match o with Some _ => true | None => false end.

Definition prompt_sources (p : PromptSource) : nat :=
  (count_set (negb (prompt_Inline p =? "")%string) + count_set (is_set (prompt_SecretRef p)) +
   count_set (is_set (prompt_ConfigMapRef p)))%nat.

Definition validate_quantity (field text : string) : result unit :=
  if (text =? "")%string then Ok tt
  else match ParseQuantity text with
       | Ok _ => Ok tt
       | Err e => Err (ErrWrap (field +:+ ": ") e "")
       end.

Definition validateTask (task : Task) : result unit :=
  let spec := task_Spec task in
  let r := spec_Resources spec in
  if res_Timeout r <=? 0 then Err (ErrNew "spec.resources.timeout must be > 0")
  else if (agent_Ref (spec_Agent spec) =? "")%string then Err (ErrNew "spec.agent.ref is required")
  else if negb (prompt_sources (spec_Prompt spec) =? 1)%nat then
    Err (ErrNew "spec.prompt requires exactly one of inline/secretRef/configMapRef")
  else
    try _ok := validate_quantity "spec.resources.cpu" (res_CPU r) in
    validate_quantity "spec.resources.memory" (res_Memory r).

(** ** Lemmas *)

(** What [buildJob] returns when it succeeds, from the projections. *)
Lemma buildJob_inv task agent secrets ttl job :
  buildJob task agent secrets ttl = Ok job ->
  exists prompt config reqs,
    BuildPromptProjection (task_Name task) (spec_Prompt (task_Spec task)) (cac_Inputs (class_Spec agent)) = Ok prompt /\
    BuildConfigProjection (task_Name task) (agent_Config (spec_Agent (task_Spec task)))
      (cac_Inputs (class_Spec agent)) = Ok config /\
    buildResourceRequirements (spec_Resources (task_Spec task)) = Ok reqs /\
    let spec := pt_Spec (js_Template (job_Spec job)) in
    ps_Volumes spec = mkVolume scratchVolumeName EmptyDir :: (BuildSecretVolumes secrets).1 ++
      opt_list (pp_Volume prompt) ++ opt_list (cp_Volume config) /\
    exists c, ps_Containers spec = [c] /\ ct_EnvFrom c = [] /\ ct_Env c = cp_Env config /\ ct_Resources c = reqs /\
      ct_VolumeMounts c = mkMount scratchVolumeName false "/tmp" "" :: (BuildSecretVolumes secrets).2 ++
        opt_list (pp_Mount prompt) ++ opt_list (cp_Mount config).
Proof.
  unfold buildJob. destruct (BuildSecretVolumes secrets) as [vs ms] eqn:Hs. intros Hb.
  repeat (case_match; simplify_eq); do 3 eexists; (split_and!; [done..|]); eexists; by split_and!.
Qed.

Lemma buildJob_key task agent secrets ttl job :
  buildJob task agent secrets ttl = Ok job ->
  key_of (job_Meta job) = mkNN (task_Namespace task) (task_Name task).
Proof.
  unfold buildJob. destruct (BuildSecretVolumes secrets). intros Hb. by repeat (case_match; simplify_eq).
Qed.

Lemma buildJob_ttl task agent secrets ttl job :
  buildJob task agent secrets ttl = Ok job -> js_TTLSecondsAfterFinished (job_Spec job) = Some ttl.
Proof. unfold buildJob. destruct (BuildSecretVolumes secrets). intros Hb. by repeat (case_match; simplify_eq). Qed.

Lemma buildJob_labels task agent secrets ttl job :
  buildJob task agent secrets ttl = Ok job -> pt_Labels (js_Template (job_Spec job)) = Some (podLabels task).
Proof. unfold buildJob. destruct (BuildSecretVolumes secrets). intros Hb. by repeat (case_match; simplify_eq). Qed.

Lemma prompt_projection_cases taskName prompt inputs proj :
  BuildPromptProjection taskName prompt inputs = Ok proj ->
  (pp_Volume proj = None /\ pp_Mount proj = None) \/
  exists src mp sub, pp_Volume proj = Some (mkVolume PromptVolumeName src) /\
    prompt_source taskName prompt = Some (src, sub) /\
    pp_Mount proj = Some (mkMount PromptVolumeName true mp sub).
Proof.
  unfold BuildPromptProjection. intros Hp. repeat (case_match; simplify_eq); eauto 10.
Qed.

Lemma config_projection_cases taskName config inputs proj :
  BuildConfigProjection taskName config inputs = Ok proj ->
  (cp_Volume proj = None /\ cp_Mount proj = None) \/
  exists mp, cp_Volume proj = Some (mkVolume ConfigVolumeName (ConfigMapVolume (AgentConfigMapName taskName))) /\
    cp_Mount proj = Some (mkMount ConfigVolumeName true mp ConfigKey).
Proof.
  unfold BuildConfigProjection. intros Hp. repeat (case_match; simplify_eq); eauto.
Qed.

Lemma validate_quantity_ok field text :
  validate_quantity field text = Ok tt <-> text = ""%string \/ exists q, ParseQuantity text = Ok q.
Proof.
  unfold validate_quantity. destruct (String.eqb_spec text ""); [tauto|].
  destruct (ParseQuantity text); naive_solver.
Qed.

Lemma buildResourceRequirements_valid r :
  validate_quantity "spec.resources.cpu" (res_CPU r) = Ok tt ->
  validate_quantity "spec.resources.memory" (res_Memory r) = Ok tt ->
  exists reqs, buildResourceRequirements r = Ok reqs.
Proof.
  unfold buildResourceRequirements, parse_resource, validate_quantity. intros Hc Hm.
  repeat (case_match; simplify_eq); eauto.
Qed.

Lemma parse_resource_err field key text l e :
  parse_resource field key text l = Err e -> IsPermanent e = true.
Proof. unfold parse_resource. intros. by repeat (case_match; simplify_eq). Qed.

Lemma buildResourceRequirements_err r e :
  buildResourceRequirements r = Err e -> IsPermanent e = true.
Proof.
  unfold buildResourceRequirements. intros Hb.
  repeat (case_match; simplify_eq); by eapply parse_resource_err.
Qed.

Lemma config_projection_err taskName config inputs e :
  BuildConfigProjection taskName config inputs = Err e -> IsPermanent e = true.
Proof.
  unfold BuildConfigProjection. intros Hb. repeat (case_match; simplify_eq); try done.
  eapply project_fields_err; [|done]. intros k. by rewrite elem_of_field_keys.
Qed.

Lemma prompt_source_secret taskName prompt s sub :
  prompt_source taskName prompt = Some (SecretVolume s, sub) ->
  exists ref, prompt_SecretRef prompt = Some ref /\ sel_Name ref = s /\
    prompt_Inline prompt = ""%string /\ prompt_ConfigMapRef prompt = None.
Proof.
  unfold prompt_source. destruct (String.eqb_spec (prompt_Inline prompt) ""); [|done].
  destruct (prompt_ConfigMapRef prompt); [done|]. destruct (prompt_SecretRef prompt) as [ref|]; [|done].
  intros [= <- <-]. by exists ref.
Qed.

(** No Secret volume has the name of a fixed volume. *)
Lemma volume_names_distinct names tail :
  NoDup names -> tail `sublist_of` [PromptVolumeName; ConfigVolumeName] ->
  NoDup (scratchVolumeName :: ((vol_Name ∘ secret_volume) <$> names) ++ tail).
Proof.
  intros Hnd Htail.
  assert (Hin : forall x, x ∈ tail -> x = PromptVolumeName \/ x = ConfigVolumeName).
  { intros x Hx. apply (elem_of_sublist _ _ _ Hx) in Htail. set_solver. }
  apply NoDup_cons. split; [|apply NoDup_app; split_and!].
  - intros [(n & Hn & _)%list_elem_of_fmap|[?|?]%Hin]%elem_of_app; done.
  - apply NoDup_fmap_inj_on; [|done]. intros x y _ _ Heq. unfold compose, secret_volume, secretVolumeName in Heq. simpl in Heq.
    by simplify_eq.
  - intros x (n & -> & _)%list_elem_of_fmap [?|?]%Hin; done.
  - eapply sublist_NoDup; [|exact Htail]. apply NoDup_cons. split; [set_solver|apply NoDup_singleton].
Qed.

(** ** Theorems *)

(** The "restricted" profile of the Pod Security Standards, read off a pod
    spec, strengthened with a read-only root and a fixed unprivileged user. *)
Definition restricted_container (c : Container) : Prop :=
  exists sc, ct_SecurityContext c = Some sc /\
    sc_RunAsNonRoot sc = Some true /\ (exists u, sc_RunAsUser sc = Some u /\ u <> 0) /\
    (exists g, sc_RunAsGroup sc = Some g /\ g <> 0) /\
    sc_ReadOnlyRootFilesystem sc = Some true /\ sc_AllowPrivilegeEscalation sc = Some false /\
    sc_CapabilitiesAdd sc = [] /\ sc_CapabilitiesDrop sc = ["ALL"%string] /\
    sc_SeccompProfile sc = Some SeccompRuntimeDefault.

Definition restricted_pod (spec : PodSpec) : Prop :=
  (exists sc, ps_SecurityContext spec = Some sc /\ psc_RunAsNonRoot sc = Some true /\
     (exists u, psc_RunAsUser sc = Some u /\ u <> 0) /\
     psc_SeccompProfile sc = Some SeccompRuntimeDefault) /\
  (ps_Containers spec <> [] /\ forall c, c ∈ ps_Containers spec -> restricted_container c).

(** The volumes a pod can write: those mounted without [ReadOnly]. *)
Definition writable (spec : PodSpec) (v : string) : Prop :=
  exists c m, c ∈ ps_Containers spec /\ m ∈ ct_VolumeMounts c /\ vm_Name m = v /\ vm_ReadOnly m = false.

Lemma buildJob_mounts task agent secrets ttl job c m :
  buildJob task agent secrets ttl = Ok job ->
  c ∈ ps_Containers (pt_Spec (js_Template (job_Spec job))) -> m ∈ ct_VolumeMounts c ->
  (vm_Name m = scratchVolumeName \/ vm_ReadOnly m = true) /\
  exists v, v ∈ ps_Volumes (pt_Spec (js_Template (job_Spec job))) /\ vol_Name v = vm_Name m.
Proof.
  intros (prompt & config & reqs & Hp & Hc & _ & Hv & c' & Hcs & _ & _ & _ & Hm)%buildJob_inv Hin Hmin.
  rewrite Hcs in Hin. apply list_elem_of_singleton in Hin as ->. rewrite Hm in Hmin.
  rewrite BuildSecretVolumes_eq in Hv, Hmin. rewrite Hv. simpl in *.
  rewrite elem_of_cons, !elem_of_app, list_elem_of_fmap in Hmin.
  destruct Hmin as [->|[(s & -> & Hs)|[Hmp|Hmc]]].
  - split; [by left|]. eexists. split; [left|done].
  - split; [by right|]. exists (secret_volume s). split; [|done].
    right. apply elem_of_app. left. by apply list_elem_of_fmap_2.
  - destruct (prompt_projection_cases _ _ _ _ Hp) as [[_ Hn]|(src & mp & sub & Hpv & _ & Hpm)];
      [rewrite Hn in Hmp; set_solver|]. rewrite Hpm in Hmp. apply list_elem_of_singleton in Hmp as ->.
    split; [by right|]. rewrite Hpv. exists (mkVolume PromptVolumeName src). split; [|done].
    right. rewrite !elem_of_app. right. left. left.
  - destruct (config_projection_cases _ _ _ _ Hc) as [[_ Hn]|(mp & Hcv & Hcm)];
      [rewrite Hn in Hmc; set_solver|]. rewrite Hcm in Hmc. apply list_elem_of_singleton in Hmc as ->.
    split; [by right|]. rewrite Hcv. eexists. split; [right; rewrite !elem_of_app; right; right; left|done].
Qed.

(** C6. Every Job the controller builds runs a pod of the restricted profile:
    unprivileged user and group, no escalation, no capability, RuntimeDefault
    seccomp, read-only root, and only the scratch volume writable; it never
    retries or restarts, bounds its time, and never copies log lines into its
    status. *)
Theorem buildJob_hardened task agent secrets ttl job :
  buildJob task agent secrets ttl = Ok job ->
  let spec := pt_Spec (js_Template (job_Spec job)) in
  restricted_pod spec /\
  (forall v, writable spec v -> v = scratchVolumeName) /\
  ps_RestartPolicy spec = RestartPolicyNever /\ js_BackoffLimit (job_Spec job) = Some 0 /\
  js_TTLSecondsAfterFinished (job_Spec job) = Some ttl /\ is_Some (js_ActiveDeadlineSeconds (job_Spec job)) /\
  (forall c, c ∈ ps_Containers spec -> ct_TerminationMessagePolicy c = TerminationMessageReadFile).
Proof.
  intros Hb spec. assert (Hw : forall v, writable spec v -> v = scratchVolumeName).
  { intros v (c & m & Hc & Hm & <- & Hro).
    destruct (buildJob_mounts _ _ _ _ _ _ _ Hb Hc Hm) as [[?|?] _]; congruence. }
  split; [|split; [done|]]; clear Hw; subst spec; revert Hb; unfold buildJob;
    destruct (BuildSecretVolumes secrets); intros Hb; repeat (case_match; simplify_eq); cbn.
  all: split_and!; try done; try (intros c ->%list_elem_of_singleton); try done.
  all: eexists; split_and!; try done; by exists nonRootUID.
Qed.

(** C33. A Secret reaches the pod of a Task only when the caller passes it (the
    union of what the Task and its class declare) or when the prompt names it
    as its source; each passed Secret is mounted, read-only, at
    [/run/secrets/<name>].  No environment variable takes its value from a Secret:
    the environment of every container is the projection of the Task's config, each
    variable with a literal text, and no container draws variables from a whole
    Secret or ConfigMap. *)
Theorem buildJob_secrets task agent secrets ttl job :
  buildJob task agent secrets ttl = Ok job ->
  let spec := pt_Spec (js_Template (job_Spec job)) in
  (forall v s, v ∈ ps_Volumes spec -> vol_Source v = SecretVolume s ->
     s ∈ secrets \/
     exists ref, prompt_SecretRef (spec_Prompt (task_Spec task)) = Some ref /\ sel_Name ref = s /\
       prompt_Inline (spec_Prompt (task_Spec task)) = ""%string /\
       prompt_ConfigMapRef (spec_Prompt (task_Spec task)) = None) /\
  (forall s, s ∈ secrets -> exists v c m, v ∈ ps_Volumes spec /\ vol_Source v = SecretVolume s /\
     c ∈ ps_Containers spec /\ m ∈ ct_VolumeMounts c /\ vm_Name m = vol_Name v /\
     vm_MountPath m = path_Join SecretMountRoot s /\ vm_ReadOnly m = true /\ vm_SubPath m = ""%string) /\
  (exists config,
     BuildConfigProjection (task_Name task) (agent_Config (spec_Agent (task_Spec task))) (cac_Inputs (class_Spec agent)) = Ok config /\
     forall c, c ∈ ps_Containers spec -> ct_EnvFrom c = [] /\ ct_Env c = cp_Env config /\
       forall e, e ∈ ct_Env c -> env_ValueFrom e = None).
Proof.
  intros (prompt & config & reqs & Hp & Hc & _ & Hv & c' & Hcs & Hef & Henv & _ & Hm)%buildJob_inv spec.
  subst spec. rewrite BuildSecretVolumes_eq in Hv, Hm. simpl in Hv, Hm. rewrite Hv, Hcs. split_and!.
  - intros v s [->|[(x & -> & Hx)%list_elem_of_fmap|[Hvp|Hvc]%elem_of_app]%elem_of_app]%elem_of_cons Hs; [done|..].
    + simpl in Hs. simplify_eq. left. by rewrite <- elem_of_sort_strings.
    + right. destruct (prompt_projection_cases _ _ _ _ Hp) as [[Hn _]|(src & mp & sub & Hpv & Hps & _)];
        [rewrite Hn in Hvp; set_solver|]. rewrite Hpv in Hvp. apply list_elem_of_singleton in Hvp as ->.
      simpl in Hs. subst src. by apply prompt_source_secret in Hps.
    + destruct (config_projection_cases _ _ _ _ Hc) as [[Hn _]|(mp & Hcv & _)];
        [rewrite Hn in Hvc; set_solver|]. rewrite Hcv in Hvc. by apply list_elem_of_singleton in Hvc as ->.
  - intros s Hs. rewrite <- elem_of_sort_strings in Hs. exists (secret_volume s), c', (secret_mount s).
    split_and!; [right; apply elem_of_app; left; by apply list_elem_of_fmap_2|done|left| |done..].
    rewrite Hm. right. apply elem_of_app. left. by apply list_elem_of_fmap_2.
  - exists config. split; [done|]. intros c ->%list_elem_of_singleton. split_and!; [done..|].
    intros e. rewrite Henv. by eapply projection_literal.
Qed.

(** The pod spec is well formed: with distinct Secrets the volume names are
    distinct (no Secret name can collide with the scratch, prompt or config
    volume), and every mount names a volume of the pod. *)
Theorem buildJob_volumes task agent secrets ttl job :
  NoDup secrets -> buildJob task agent secrets ttl = Ok job ->
  let spec := pt_Spec (js_Template (job_Spec job)) in
  NoDup (vol_Name <$> ps_Volumes spec) /\
  (forall c m, c ∈ ps_Containers spec -> m ∈ ct_VolumeMounts c -> vm_Name m ∈ vol_Name <$> ps_Volumes spec).
Proof.
  intros Hnd Hb spec. split.
  - destruct (buildJob_inv _ _ _ _ _ Hb) as (prompt & config & reqs & Hp & Hc & _ & Hv & _).
    subst spec. rewrite Hv, BuildSecretVolumes_eq. simpl fst.
    rewrite fmap_cons, fmap_app, <- list_fmap_compose. apply volume_names_distinct; [by apply NoDup_sort_strings|].
    destruct (prompt_projection_cases _ _ _ _ Hp) as [[-> _]|(src & mp & sub & -> & _ & _)];
      (destruct (config_projection_cases _ _ _ _ Hc) as [[-> _]|(mp' & -> & _)]); cbn;
      repeat constructor.
  - intros c m Hcs Hm. destruct (buildJob_mounts _ _ _ _ _ _ _ Hb Hcs Hm) as (_ & v & Hv & <-).
    by apply list_elem_of_fmap_2.
Qed.

(** The in-reconciler check accepts exactly the specs with a positive
    timeout, an agent reference, one prompt source and resource texts that
    parse. *)
Theorem validateTask_spec task :
  validateTask task = Ok tt <->
  0 < res_Timeout (spec_Resources (task_Spec task)) /\
  agent_Ref (spec_Agent (task_Spec task)) <> ""%string /\
  (let p := spec_Prompt (task_Spec task) in
   (prompt_Inline p <> ""%string /\ prompt_SecretRef p = None /\ prompt_ConfigMapRef p = None) \/
   (prompt_Inline p = ""%string /\ is_Some (prompt_SecretRef p) /\ prompt_ConfigMapRef p = None) \/
   (prompt_Inline p = ""%string /\ prompt_SecretRef p = None /\ is_Some (prompt_ConfigMapRef p))) /\
  (forall text, text = res_CPU (spec_Resources (task_Spec task)) \/
                text = res_Memory (spec_Resources (task_Spec task)) ->
     text = ""%string \/ exists q, ParseQuantity text = Ok q).
Proof.
  unfold validateTask, prompt_sources. destruct (task_Spec task) as [ag p pe r ttl]. cbn.
  destruct (Z.leb_spec (res_Timeout r) 0); [split; [done|intros [? _]; lia]|].
  destruct (String.eqb_spec (agent_Ref ag) ""); [split; [done|tauto]|].
  assert (Hq : (try _ok := validate_quantity "spec.resources.cpu" (res_CPU r) in
               validate_quantity "spec.resources.memory" (res_Memory r)) = Ok tt <->
    (forall text, text = res_CPU r \/ text = res_Memory r -> text = ""%string \/ exists q, ParseQuantity text = Ok q)).
  { transitivity (validate_quantity "spec.resources.cpu" (res_CPU r) = Ok tt /\
                  validate_quantity "spec.resources.memory" (res_Memory r) = Ok tt).
    - destruct (validate_quantity _ (res_CPU r)) as [[]|]; naive_solver.
    - rewrite !validate_quantity_ok. naive_solver. }
  destruct (String.eqb_spec (prompt_Inline p) ""), (prompt_SecretRef p), (prompt_ConfigMapRef p); cbn;
    try (rewrite Hq); naive_solver eauto.
Qed.

(** For a valid Task the Job can only fail to build because of its config,
    and then the error is permanent: it fails the Task, it is not retried. *)
Theorem buildJob_error task agent secrets ttl e :
  validateTask task = Ok tt -> buildJob task agent secrets ttl = Err e ->
  IsPermanent e = true /\
  BuildConfigProjection (task_Name task) (agent_Config (spec_Agent (task_Spec task)))
    (cac_Inputs (class_Spec agent)) = Err e.
Proof.
  intros Hv Hb. unfold validateTask in Hv. repeat (case_match; simplify_eq).
  destruct (buildResourceRequirements_valid (spec_Resources (task_Spec task))) as [reqs Hr];
    [by destruct a|done|].
  unfold buildJob in Hb. rewrite Hr in Hb. destruct (BuildSecretVolumes secrets).
  destruct (BuildPromptProjection _ _ _) as [pp|e'] eqn:Hpp.
  - destruct (BuildConfigProjection _ _ _) as [c|e'] eqn:Hc; [done|]. simplify_eq.
    split; [by eapply config_projection_err|done].
  - exfalso. revert Hpp H4. unfold BuildPromptProjection, prompt_source, prompt_sources.
    destruct (inputs_Prompt _) as [i|]; [|done]. destruct (input_Mount i =? "")%string; [done|].
    destruct (prompt_Inline _ =? "")%string; [|done]. cbn.
    by destruct (prompt_ConfigMapRef _), (prompt_SecretRef _).
Qed.

(** C39. The deadline of the Job never undercuts the whole seconds of the
    timeout and exceeds them by at most one; below 2^24 seconds (194 days) it is
    exactly the whole seconds, so a timeout under one second, which validation
    accepts, gives a deadline of zero. *)
Theorem buildJob_deadline task agent secrets ttl job :
  validateTask task = Ok tt -> res_Timeout (spec_Resources (task_Spec task)) <= MaxInt64 ->
  buildJob task agent secrets ttl = Ok job ->
  exists s, js_ActiveDeadlineSeconds (job_Spec job) = Some s /\
    let timeout := res_Timeout (spec_Resources (task_Spec task)) in
    timeout / Second <= s <= timeout / Second + 1 /\
    (timeout / Second < 2 ^ 24 -> s = timeout / Second) /\
    (timeout < Second -> s = 0).
Proof.
  intros Hv Hmax Hb.
  assert (Hpos : 0 < res_Timeout (spec_Resources (task_Spec task))).
  { unfold validateTask in Hv. case_match eqn:Hle; [done|]. by apply Z.leb_gt in Hle. }
  set (t := res_Timeout (spec_Resources (task_Spec task))) in *.
  destruct (seconds_nonneg_bounds t ltac:(lia)) as [Hbd Hex].
  exists (seconds_nonneg t). split.
  - unfold buildJob in Hb. destruct (BuildSecretVolumes secrets).
    repeat (case_match; simplify_eq); cbn; unfold SecondsInt; fold t; rewrite Z.sgn_pos, Z.abs_eq by lia; f_equal; lia.
  - split_and!; [lia|lia|done|]. intros Hlt. rewrite Hex; rewrite Z.div_small; unfold Second in *; lia.
Qed.

(** C37. The ServiceAccount, its Role, its RoleBinding and the token of the pod
    stand or fall together: with no declared rule there is no Role, no binding
    and no token, and otherwise the pod runs as the ServiceAccount that the
    binding gives the Role of exactly the declared rules. *)
Theorem rbac_consistent task agent secrets ttl job :
  buildJob task agent secrets ttl = Ok job ->
  let rules := task_rbac task in
  let spec := pt_Spec (js_Template (job_Spec job)) in
  ps_ServiceAccountName spec = om_Name (sa_Meta (buildServiceAccount task)) /\
  ps_AutomountServiceAccountToken spec = Some (NeedsServiceAccountToken rules) /\
  sa_AutomountServiceAccountToken (buildServiceAccount task) = Some (NeedsServiceAccountToken rules) /\
  match BuildRole (task_Name task) (task_Namespace task) rules,
        BuildRoleBinding (task_Name task) (task_Namespace task) rules with
  | None, None => rules = [] /\ NeedsServiceAccountToken rules = false
  | Some role, Some rb =>
      NeedsServiceAccountToken rules = true /\
      (forall v g r n, grants (role_Rules role) v g r n <-> declares rules v g r n) /\
      ref_Kind (rb_RoleRef rb) = "Role"%string /\ ref_Name (rb_RoleRef rb) = om_Name (role_Meta role) /\
      om_Namespace (rb_Meta rb) = om_Namespace (role_Meta role) /\
      rb_Subjects rb = [mkSubject ServiceAccountKind (ps_ServiceAccountName spec)
                          (om_Namespace (sa_Meta (buildServiceAccount task)))]
  | _, _ => False
  end.
Proof.
  intros Hb rules spec.
  assert (Hn : ps_ServiceAccountName spec = task_Name task /\
    ps_AutomountServiceAccountToken spec = Some (NeedsServiceAccountToken rules)).
  { unfold buildJob in Hb. destruct (BuildSecretVolumes secrets). by repeat (case_match; simplify_eq). }
  destruct Hn as [Hn Ht]. split_and!; [done..|]. rewrite Hn. clearbody rules.
  destruct rules as [|r rs]; [done|]. split_and!; [done| |done..].
  intros v g re n. apply (grants_policy_rules (r :: rs)).
Qed.

End Build.

(** ** The theorems at a sample Task *)

Section Witnesses.
Existing Instances KubeRef.lib Samples.errors_text Samples.tables.

Definition sample_secrets : list string := ["token"%string; "anthropic"%string].

Definition sample_job : Job :=
  match buildJob Samples.task Samples.agent sample_secrets 3600 with
  | Ok job => job
  | Err _ => mkJob Samples.job_meta (mkJobSpec None None None (mkPodTemplate None
               (mkPodSpec RestartPolicyAlways "" None None [] []))) (mkJobStatus [] 0 None None)
  end.

Lemma sample_job_built : buildJob Samples.task Samples.agent sample_secrets 3600 = Ok sample_job.
Proof. vm_compute. reflexivity. Qed.

Lemma buildJob_hardened_witness :
  restricted_pod (pt_Spec (js_Template (job_Spec sample_job))).
Proof. apply (buildJob_hardened _ _ _ _ _ sample_job_built). Defined.

Lemma buildJob_secrets_witness : exists v,
  v ∈ ps_Volumes (pt_Spec (js_Template (job_Spec sample_job))) /\ vol_Source v = SecretVolume "token".
Proof.
  destruct (proj1 (proj2 (buildJob_secrets _ _ _ _ _ sample_job_built)) "token"%string) as (v & c & m & Hv & Hs & _);
    [left|]. exists v. split; assumption.
Defined.

Lemma buildJob_volumes_witness :
  NoDup (vol_Name <$> ps_Volumes (pt_Spec (js_Template (job_Spec sample_job)))).
Proof.
  apply (buildJob_volumes Samples.task Samples.agent sample_secrets 3600); [|exact sample_job_built].
  apply (bool_decide_unpack _). vm_compute. exact I.
Defined.

Definition bad_config_task : Task :=
  mkTask (task_Meta Samples.task)
    (mkTaskSpec (mkAgentRef "claude" (Some "[1]"%string)) (spec_Prompt Samples.spec)
       (spec_Permissions Samples.spec) (spec_Resources Samples.spec) None) empty_status.

Lemma buildJob_error_witness : exists e,
  buildJob bad_config_task Samples.agent [] 3600 = Err e /\ IsPermanent e = true.
Proof.
  eexists. split; [vm_compute; reflexivity|].
  apply (buildJob_error bad_config_task Samples.agent [] 3600); vm_compute; reflexivity.
Defined.

Lemma buildJob_deadline_witness : exists s,
  js_ActiveDeadlineSeconds (job_Spec sample_job) = Some s /\ s = 90.
Proof.
  destruct (buildJob_deadline Samples.task Samples.agent sample_secrets 3600 sample_job) as (s & Hs & _ & He & _);
    [vm_compute; reflexivity|vm_compute; discriminate|exact sample_job_built|].
  exists s. split; [exact Hs|]. apply He. vm_compute. reflexivity.
Defined.

Lemma rbac_consistent_witness :
  ps_ServiceAccountName (pt_Spec (js_Template (job_Spec sample_job))) = "demo"%string.
Proof. apply (rbac_consistent _ _ _ _ _ sample_job_built). Defined.
End Witnesses.
End Build.
