(* ===== verification/Status.v ===== *)
(** * The status of a Task

    [internal/controller/status.go] (all but [syncStatus], which is in
    [Sync.v]): the phase of a Job, the comparison of statuses, the deletion
    deadline, and the writers that mark a Task invalid or waiting.

    A method that mutates its [*Task] returns the mutated Task.
    [meta.SetStatusCondition] may read the clock; the model reads it before
    each call. *)

From S2P Require Import Prelude GoString GoTime GoJson Kube Api Effects KubeLib Metrics.
From S2P Require Import PolicyObjects PolicyConfig PolicyNetwork Reconciler Samples.

Module Status.

Definition conditionReady : string := "Ready".
Definition reasonAgentClassMissing : string := "AgentClassMissing".
Definition reasonInvalidSpec : string := "InvalidSpec".
Definition reasonPending : string := "Pending".
Definition reasonSuspended : string := "Suspended".
Definition reasonRunning : string := "Running".
Definition reasonCompleted : string := "Completed".
Definition reasonFailed : string := "Failed".
Definition reasonTimedOut : string := "TimedOut".
Definition reasonEgressResolveFail : string := "EgressResolveFailed".

Definition JobComplete : string := "Complete".
Definition JobSuccessCriteriaMet : string := "SuccessCriteriaMet".
Definition JobFailed : string := "Failed".
Definition JobSuspended : string := "Suspended".
Definition JobReasonDeadlineExceeded : string := "DeadlineExceeded".

(** ** Pure functions *)

Definition messageOr (msg fallback : string) : string :=
  if (msg =? "")%string then fallback else msg.

Definition isTerminal (phase : TaskPhase) : bool :=
  match phase with
  | TaskPhaseCompleted | TaskPhaseFailed | TaskPhaseTimedOut => true
  | _ => false
  end.

Definition eventTypeFor (phase : TaskPhase) : EventType :=
  match phase with
  | TaskPhaseFailed | TaskPhaseTimedOut => EventTypeWarning
  | _ => EventTypeNormal
  end.

Definition conditionStatusFor (phase : TaskPhase) : ConditionStatus :=
  match phase with
  | TaskPhaseCompleted => ConditionTrue
  | TaskPhaseFailed | TaskPhaseTimedOut => ConditionFalse
  | _ => ConditionUnknown
  end.

(** The loop over the Job conditions: the verdict of the first true one that
    the switch knows. *)
Fixpoint conditions_phase (l : list JobCondition) : option (TaskPhase * string * string) :=
  match l with
  | [] => None
  | c :: l' =>
    if negb (bool_decide (jc_Status c = ConditionTrue)) then conditions_phase l'
    else if (jc_Type c =? JobComplete)%string || (jc_Type c =? JobSuccessCriteriaMet)%string then
      Some (TaskPhaseCompleted, reasonCompleted, messageOr (jc_Message c) "Job completed")
    else if (jc_Type c =? JobFailed)%string then
      if (jc_Reason c =? JobReasonDeadlineExceeded)%string then
        Some (TaskPhaseTimedOut, reasonTimedOut, messageOr (jc_Message c) "Job exceeded its deadline")
      else Some (TaskPhaseFailed, reasonFailed, messageOr (jc_Message c) "Job failed")
    else if (jc_Type c =? JobSuspended)%string then
      Some (TaskPhasePending, reasonSuspended, messageOr (jc_Message c) "Job is suspended")
    else conditions_phase l'
  end.

Definition derivePhase (job : Job) : TaskPhase * string * string :=
  match conditions_phase (jst_Conditions (job_Status job)) with
  | Some v => v
  | None =>
    if (0 <? jst_Active (job_Status job)) ||
       match jst_StartTime (job_Status job) with Some _ => true | None => false end
    then (TaskPhaseRunning, reasonRunning, "Job is running"%string)
    else (TaskPhasePending, reasonPending, "Waiting for pod to start"%string)
  end.

Definition invalidEventMessage (reason msg : string) : string :=
  (if (reason =? reasonEgressResolveFail)%string then "Egress allowlist could not be resolved"
   else "Task spec is invalid") +:+ ": " +:+ msg.

Definition timesEqual (a b : option Time) : bool :=
  match a, b with
  | None, None => true
  | Some x, Some y => x =? y
  | _, _ => false
  end.

Section Status.
Context `{KubeLib}.

Definition same_condition (ac : Condition) (bc : option Condition) : bool :=
  match bc with
  | None => false
  | Some bc =>
    bool_decide (cond_Status ac = cond_Status bc) && (cond_Reason ac =? cond_Reason bc)%string &&
    (cond_Message ac =? cond_Message bc)%string &&
    (cond_ObservedGeneration ac =? cond_ObservedGeneration bc)
  end.

Definition equalStatus (a b : TaskStatus) : bool :=
  if negb (bool_decide (st_Phase a = st_Phase b)) || negb (st_JobName a =? st_JobName b)%string then false
  else if negb (st_ObservedGeneration a =? st_ObservedGeneration b) then false
  else if negb (timesEqual (st_StartTime a) (st_StartTime b)) ||
          negb (timesEqual (st_CompletionTime a) (st_CompletionTime b)) then false
  else if negb (DeepEqual_Result (st_Result a) (st_Result b)) then false
  else if negb (length (st_Conditions a) =? length (st_Conditions b))%nat then false
  else forallb (fun ac => same_condition ac (FindStatusCondition (st_Conditions b) (cond_Type ac)))
         (st_Conditions a).

Definition deletionDeadline (task : Task) (defaultTTL : option Z) : option Time :=
  let ttl := match spec_TTLSecondsAfterFinished (task_Spec task) with
             | Some t => Some t
             | None => defaultTTL
             end in
  match ttl with
  | None => None
  | Some ttl =>
    let finished :=
      match st_CompletionTime (task_Status task) with
      | Some t => Some t
      | None =>
        match FindStatusCondition (st_Conditions (task_Status task)) conditionReady with
        | Some c => if IsZero (cond_LastTransitionTime c) then None else Some (cond_LastTransitionTime c)
        | None => None
        end
      end in
    match finished with
    | None => None
    | Some f => Some (Time_Add f (int64 (ttl * Second)))
    end
  end.

(** ** Writers *)

Definition eventActionReconcile : string := "Reconcile".

Definition recordEvent (r : TaskReconciler) (task : Task) (eventType : EventType) (reason msg : string)
  : Prog unit :=
  if r_Recorder r then
    call (CEvent (mkEvent (key_of (task_Meta task)) eventType reason eventActionReconcile msg))
  else Ret tt.

(** [meta.SetStatusCondition(&task.Status.Conditions, c)]. *)
Definition set_condition (task : Task) (c : Condition) : Prog Task :=
  let! now := call CNow in
  Ret (set_status (fun s => with_Conditions (SetStatusCondition now (st_Conditions s) c) s) task).

Definition ready (task : Task) (status : ConditionStatus) (reason msg : string) : Condition :=
  mkCondition conditionReady status reason msg (task_Generation task) 0.

Definition markInvalid (r : TaskReconciler) (task : Task) (reason msg : string) : Prog (result unit) :=
  let prevPhase := task_Phase task in
  let task := set_status (with_Phase TaskPhaseFailed) task in
  let task := set_status (with_ObservedGeneration (task_Generation task)) task in
  let! task := set_condition task (ready task ConditionFalse reason msg) in
  let! w := call (CStatusUpdate task) in
  match w with
  | Err e => Ret (Err (ErrApi e))
  | Ok task =>
    if negb (bool_decide (prevPhase = TaskPhaseFailed)) then
      (ObservePhaseTransition (phase_string TaskPhaseFailed) reason ;;
       recordEvent r task EventTypeWarning reason (invalidEventMessage reason msg) ;;
       Ret (Ok tt))
    else Ret (Ok tt)
  end.

Definition failTask (r : TaskReconciler) (task : Task) (reason : string) (cause : GoError)
  : Prog (result unit) :=
  let! m := markInvalid r task reason (Error cause) in
  Ret (match m with Ok _ => Ok tt | Err e => Err (ErrJoin cause e) end).

Definition waiting_message `{UnicodeTables} (task : Task) : string :=
  "Waiting for ClusterAgentClass " +:+ Quote (agent_Ref (spec_Agent (task_Spec task))) +:+
  " to be created".

Definition markWaitingForAgentClass `{UnicodeTables} (r : TaskReconciler) (task : Task)
  : Prog (result unit) :=
  let before := task_Status task in
  let msg := waiting_message task in
  let task := set_status (with_Phase TaskPhasePending) task in
  let task := set_status (with_ObservedGeneration (task_Generation task)) task in
  let! task := set_condition task (ready task ConditionUnknown reasonAgentClassMissing msg) in
  if equalStatus before (task_Status task) then Ret (Ok tt)
  else
    let! w := call (CStatusUpdate task) in
    match w with
    | Err e => Ret (Err (ErrApi e))
    | Ok task => recordEvent r task EventTypeWarning reasonAgentClassMissing msg ;; Ret (Ok tt)
    end.

End Status.
(** ** Lemmas *)

(** A condition the switch of [derivePhase] acts on. *)
Definition decisive (c : JobCondition) : Prop :=
  jc_Status c = ConditionTrue /\
  (jc_Type c = JobComplete \/ jc_Type c = JobSuccessCriteriaMet \/ jc_Type c = JobFailed \/
   jc_Type c = JobSuspended).

(** The phase a decisive condition stands for. *)
Definition verdict (c : JobCondition) : TaskPhase :=
  if decide (jc_Type c = JobFailed) then
    if decide (jc_Reason c = JobReasonDeadlineExceeded) then TaskPhaseTimedOut else TaskPhaseFailed
  else if decide (jc_Type c = JobSuspended) then TaskPhasePending else TaskPhaseCompleted.

Definition reason_of (phase : TaskPhase) (suspended : bool) : string :=
  match phase with
  | TaskPhaseCompleted => reasonCompleted
  | TaskPhaseFailed => reasonFailed
  | TaskPhaseTimedOut => reasonTimedOut
  | TaskPhaseRunning => reasonRunning
  | _ => if suspended then reasonSuspended else reasonPending
  end.

Lemma messageOr_nonempty msg fallback : fallback <> ""%string -> messageOr msg fallback <> ""%string.
Proof. intros Hf. unfold messageOr. by destruct (String.eqb_spec msg ""). Qed.

Lemma conditions_phase_cons c l :
  decisive c -> exists msg, conditions_phase (c :: l) = Some (verdict c, reason_of (verdict c) true, msg) /\
    msg <> ""%string.
Proof.
  intros [Ht Hty]. cbn [conditions_phase]. rewrite bool_decide_eq_true_2 by done. cbn [negb].
  unfold verdict.
  assert (Hm : forall m f, f <> ""%string -> messageOr m f <> ""%string) by apply messageOr_nonempty.
  destruct Hty as [-> | [-> | [-> | ->] ] ].
  1,2,4: by eexists; split; [reflexivity|apply Hm].
  destruct (String.eqb_spec (jc_Reason c) JobReasonDeadlineExceeded) as [Hr|Hr];
    [rewrite Hr|rewrite (decide_False (P := jc_Reason c = _)) by exact Hr];
    by eexists; split; [reflexivity|apply Hm].
Qed.

Lemma conditions_phase_skip c l : ~ decisive c -> conditions_phase (c :: l) = conditions_phase l.
Proof.
  intros Hd. cbn [conditions_phase]. case_bool_decide as Ht; [|done]. cbn [negb].
  destruct (String.eqb_spec (jc_Type c) JobComplete); [destruct Hd; unfold decisive; tauto|].
  destruct (String.eqb_spec (jc_Type c) JobSuccessCriteriaMet); [destruct Hd; unfold decisive; tauto|].
  destruct (String.eqb_spec (jc_Type c) JobFailed); [destruct Hd; unfold decisive; tauto|].
  destruct (String.eqb_spec (jc_Type c) JobSuspended); [destruct Hd; unfold decisive; tauto|]. done.
Qed.

#[export] Instance decisive_dec c : Decision (decisive c).
Proof. unfold decisive. apply _. Defined.

Lemma conditions_phase_none l : conditions_phase l = None <-> forall c, c ∈ l -> ~ decisive c.
Proof.
  induction l as [|c l IH]; [set_solver|]. destruct (decide (decisive c)) as [Hd|Hd].
  - destruct (conditions_phase_cons c l Hd) as (m & -> & _). split; [done|].
    intros Hn. destruct (Hn c); [left|done].
  - rewrite conditions_phase_skip, IH by done. split.
    + intros Hl c' [->|?]%elem_of_cons; auto.
    + intros Hl c' ?. apply Hl. by right.
Qed.

Lemma conditions_phase_some l phase reason msg :
  conditions_phase l = Some (phase, reason, msg) ->
  exists pre c post, l = pre ++ c :: post /\ (forall x, x ∈ pre -> ~ decisive x) /\ decisive c /\
    phase = verdict c /\ reason = reason_of phase true /\ msg <> ""%string.
Proof.
  induction l as [|c l IH]; intros Hc; [done|]. destruct (decide (decisive c)) as [Hd|Hd].
  - destruct (conditions_phase_cons c l Hd) as (m & Heq & Hm). rewrite Heq in Hc. simplify_eq.
    exists [], c, l. split_and!; [done|set_solver|done..].
  - rewrite conditions_phase_skip in Hc by done.
    destruct (IH Hc) as (pre & c' & post & -> & Hpre & ?). exists (c :: pre), c', post.
    split_and!; [done| |naive_solver..]. intros x [->|Hx]%elem_of_cons; auto.
Qed.

Lemma timesEqual_spec a b : timesEqual a b = true <-> a = b.
Proof. destruct a, b; cbn; rewrite ?Z.eqb_eq; naive_solver. Qed.

Section Lemmas.
Context `{KubeLaws}.

(** A condition without its transition time. *)
Definition cond_view (c : Condition) : string * ConditionStatus * string * string * Z :=
  (cond_Type c, cond_Status c, cond_Reason c, cond_Message c, cond_ObservedGeneration c).

Lemma same_condition_spec l c :
  same_condition c (FindStatusCondition l (cond_Type c)) = true <->
  (cond_view <$> FindStatusCondition l (cond_Type c)) = Some (cond_view c).
Proof.
  unfold same_condition. destruct (FindStatusCondition l (cond_Type c)) as [b|] eqn:Hf; [|done].
  apply find_condition_some in Hf as [_ Ht]. unfold cond_view. cbn. rewrite !andb_true_iff, bool_decide_eq_true,
    !String.eqb_eq, Z.eqb_eq, Ht. split; [intros [[[-> ->] ->] ->]; done|intros [= -> -> -> ->]; done].
Qed.

(** Lists with distinct types have the same view of each type exactly when each
    condition of one is found in the other and the lengths agree. *)
Lemma conditions_equal a b :
  NoDup (cond_Type <$> a) -> NoDup (cond_Type <$> b) ->
  (length a = length b /\ forall c, c ∈ a -> (cond_view <$> FindStatusCondition b (cond_Type c)) = Some (cond_view c)) <->
  (forall t, (cond_view <$> FindStatusCondition a t) = (cond_view <$> FindStatusCondition b t)).
Proof.
  intros Ha Hb. split.
  - intros [Hlen Hab] t. destruct (FindStatusCondition a t) as [c|] eqn:Hfa.
    + apply find_condition_some in Hfa as [Hc <-]. by rewrite Hab.
    + destruct (FindStatusCondition b t) as [c|] eqn:Hfb; [exfalso|done].
      apply find_condition_some in Hfb as [Hc <-].
      assert (Hperm : cond_Type <$> a ≡ₚ cond_Type <$> b).
      { apply submseteq_length_Permutation; [|by rewrite !length_fmap, Hlen].
        apply NoDup_submseteq; [done|]. intros t (x & -> & Hx)%list_elem_of_fmap.
        specialize (Hab x Hx). destruct (FindStatusCondition b (cond_Type x)) as [y|] eqn:Hy; [|done].
        apply find_condition_some in Hy as [Hy <-]. by apply list_elem_of_fmap_2. }
      apply find_condition_none_iff in Hfa. apply Hfa. rewrite Hperm. by apply list_elem_of_fmap_2.
  - intros Hv. assert (Hsub : forall l l', (forall t, (cond_view <$> FindStatusCondition l t) =
      (cond_view <$> FindStatusCondition l' t)) -> (cond_Type <$> l) ⊆ (cond_Type <$> l')).
    { clear Ha Hb Hv. intros l l' Hv t Ht. destruct (decide (t ∈ cond_Type <$> l')) as [|Hn]; [done|].
      apply find_condition_none_iff in Hn. specialize (Hv t). rewrite Hn in Hv. apply fmap_None in Hv.
      by apply find_condition_none_iff in Hv. }
    split.
    + rewrite <- (length_fmap cond_Type a), <- (length_fmap cond_Type b). apply Permutation_length.
      apply NoDup_Permutation; [done..|]. intros t. split; apply Hsub; [done|]. intros t'. symmetry. apply Hv.
    + intros c Hc. rewrite <- Hv. by rewrite find_condition_NoDup.
Qed.

Lemma exec_set_condition task c tr task' :
  exec (set_condition task c) tr task' ->
  exists now, tr = [ev CNow now] /\
    task' = set_status (fun s => with_Conditions (SetStatusCondition now (st_Conditions s) c) s) task.
Proof.
  intros (now & tr' & -> & [-> ->]%exec_ret)%exec_call_bind. by exists now.
Qed.

Lemma exec_recordEvent r task ty reason msg tr u :
  exec (recordEvent r task ty reason msg) tr u ->
  tr = if r_Recorder r then
         [ev (CEvent (mkEvent (key_of (task_Meta task)) ty reason eventActionReconcile msg)) tt]
       else [].
Proof. unfold recordEvent. destruct (r_Recorder r); [intros ->%exec_call; by destruct u|by intros [-> _]%exec_ret]. Qed.

(** ** Case analysis of the writers *)

Definition event_trace (r : TaskReconciler) (task : Task) (ty : EventType) (reason msg : string) : Trace :=
  if r_Recorder r then
    [ev (CEvent (mkEvent (key_of (task_Meta task)) ty reason eventActionReconcile msg)) tt]
  else [].

(** The Task as the writers send it: a phase, the generation and Ready. *)
Definition marked (now : Time) (phase : TaskPhase) (status : ConditionStatus) (reason msg : string) (task : Task)
  : Task :=
  set_status (fun s => with_Conditions
    (SetStatusCondition now (st_Conditions s) (mkCondition conditionReady status reason msg (task_Generation task) 0))
    (with_ObservedGeneration (task_Generation task) (with_Phase phase s))) task.

Lemma markInvalid_cases r task reason msg tr res :
  exec (markInvalid r task reason msg) tr res ->
  exists now, let t := marked now TaskPhaseFailed ConditionFalse reason msg task in
  (exists e, tr = [ev CNow now; ev (CStatusUpdate t) (Err e)] /\ res = Err (ErrApi e)) \/
  (exists t', res = Ok tt /\
    tr = ev CNow now :: ev (CStatusUpdate t) (Ok t') ::
      if bool_decide (task_Phase task = TaskPhaseFailed) then [] else
        ev (CMetric (PhaseTransition (phase_string TaskPhaseFailed) reason)) tt ::
        event_trace r t' EventTypeWarning reason (invalidEventMessage reason msg)).
Proof.
  unfold markInvalid. intros Hx. apply exec_bind in Hx as (t1 & t2 & t & -> & Hs & Hx).
  apply exec_set_condition in Hs as (now & -> & ->). exists now. cbn zeta.
  apply exec_call_inv in Hx as (w & t3 & -> & Hx). destruct w as [t'|e].
  2: { apply exec_ret in Hx as [-> ->]. left. by exists e. }
  right. exists t'. case_bool_decide; cbn [negb] in Hx.
  { by apply exec_ret in Hx as [-> ->]. }
  apply exec_call_inv in Hx as ([] & t4 & -> & Hx).
  apply exec_bind in Hx as (t5 & t6 & [] & -> & He & [-> ->]%exec_ret).
  apply exec_recordEvent in He as ->. split; [done|]. by rewrite app_nil_r.
Qed.

Lemma failTask_cases r task reason cause tr res :
  exec (failTask r task reason cause) tr res ->
  exists now, let t := marked now TaskPhaseFailed ConditionFalse reason (Error cause) task in
  (exists e, tr = [ev CNow now; ev (CStatusUpdate t) (Err e)] /\ res = Err (ErrJoin cause (ErrApi e))) \/
  (exists t', res = Ok tt /\
    tr = ev CNow now :: ev (CStatusUpdate t) (Ok t') ::
      if bool_decide (task_Phase task = TaskPhaseFailed) then [] else
        ev (CMetric (PhaseTransition (phase_string TaskPhaseFailed) reason)) tt ::
        event_trace r t' EventTypeWarning reason (invalidEventMessage reason (Error cause))).
Proof.
  unfold failTask. intros Hx. apply exec_bind in Hx as (t1 & t2 & m & -> & Hm & [-> ->]%exec_ret).
  rewrite app_nil_r. destruct (markInvalid_cases _ _ _ _ _ _ Hm) as (now & [(e & -> & ->)|(t' & -> & ->)]);
    exists now; cbn zeta; [left|right]; eauto.
Qed.

Lemma markWaiting_cases `{UnicodeTables} r task tr res :
  exec (markWaitingForAgentClass r task) tr res ->
  exists now, let t := marked now TaskPhasePending ConditionUnknown reasonAgentClassMissing (waiting_message task) task in
  (equalStatus (task_Status task) (task_Status t) = true /\ tr = [ev CNow now] /\ res = Ok tt) \/
  (equalStatus (task_Status task) (task_Status t) = false /\
   ((exists e, tr = [ev CNow now; ev (CStatusUpdate t) (Err e)] /\ res = Err (ErrApi e)) \/
    (exists t', res = Ok tt /\ tr = ev CNow now :: ev (CStatusUpdate t) (Ok t') ::
       event_trace r t' EventTypeWarning reasonAgentClassMissing (waiting_message task)))).
Proof.
  unfold markWaitingForAgentClass. intros Hx. apply exec_bind in Hx as (t1 & t2 & t & -> & Hs & Hx).
  apply exec_set_condition in Hs as (now & -> & ->). exists now. cbn zeta.
  match type of Hx with exec (if equalStatus ?b ?s then _ else _) _ _ =>
    change s with (task_Status (marked now TaskPhasePending ConditionUnknown reasonAgentClassMissing
      (waiting_message task) task)) in Hx end.
  destruct (equalStatus (task_Status task) _) eqn:He.
  { apply exec_ret in Hx as [-> ->]. by left. }
  right. split; [done|]. apply exec_call_inv in Hx as (w & t3 & -> & Hx). destruct w as [t'|e].
  2: { apply exec_ret in Hx as [-> ->]. left. by exists e. }
  apply exec_bind in Hx as (t5 & t6 & [] & -> & Hev & [-> ->]%exec_ret).
  apply exec_recordEvent in Hev as ->. right. exists t'. split; [done|]. by rewrite app_nil_r.
Qed.

(** The Ready condition of a marked Task; the other conditions stay. *)
Lemma marked_ready now phase status reason msg task :
  exists c, FindStatusCondition (st_Conditions (task_Status (marked now phase status reason msg task))) conditionReady = Some c /\
    cond_Status c = status /\ cond_Reason c = reason /\ cond_Message c = msg.
Proof.
  eexists. split; [exact (set_condition_same now _ (mkCondition conditionReady status reason msg _ 0) eq_refl)|done].
Qed.

(** The meaning of [equalStatus]. *)
Lemma equalStatus_iff a b :
  NoDup (cond_Type <$> st_Conditions a) -> NoDup (cond_Type <$> st_Conditions b) ->
  equalStatus a b = true <->
  st_Phase a = st_Phase b /\ st_JobName a = st_JobName b /\
  st_ObservedGeneration a = st_ObservedGeneration b /\ st_StartTime a = st_StartTime b /\
  st_CompletionTime a = st_CompletionTime b /\ st_Result a = st_Result b /\
  (forall t, (cond_view <$> FindStatusCondition (st_Conditions a) t) =
             (cond_view <$> FindStatusCondition (st_Conditions b) t)).
Proof.
  intros Ha Hb. rewrite <- (conditions_equal _ _ Ha Hb). unfold equalStatus.
  assert (Hall : forallb (fun ac => same_condition ac (FindStatusCondition (st_Conditions b) (cond_Type ac)))
    (st_Conditions a) = true <-> forall c, c ∈ st_Conditions a ->
      (cond_view <$> FindStatusCondition (st_Conditions b) (cond_Type c)) = Some (cond_view c)).
  { rewrite forallb_forall. setoid_rewrite <- list_elem_of_In. by setoid_rewrite same_condition_spec. }
  destruct (Nat.eqb_spec (length (st_Conditions a)) (length (st_Conditions b)));
    destruct (Z.eqb_spec (st_ObservedGeneration a) (st_ObservedGeneration b));
    destruct (String.eqb_spec (st_JobName a) (st_JobName b)); case_bool_decide;
    pose proof (timesEqual_spec (st_StartTime a) (st_StartTime b));
    pose proof (timesEqual_spec (st_CompletionTime a) (st_CompletionTime b));
    pose proof (deep_equal_result_spec (st_Result a) (st_Result b));
    destruct (timesEqual (st_StartTime a) _), (timesEqual (st_CompletionTime a) _), (DeepEqual_Result _ _);
    cbn; intuition congruence.
Qed.

(** Well-formed statuses: one condition per type, as the API requires of a list
    map. *)
Definition status_wf (s : TaskStatus) : Prop := NoDup (cond_Type <$> st_Conditions s).

Lemma marked_wf now phase status reason msg task :
  status_wf (task_Status task) -> status_wf (task_Status (marked now phase status reason msg task)).
Proof. apply set_condition_NoDup. Qed.

(** ** Theorems *)

(** The phase follows the first decisive Job condition (true, and of a type
    the mapping knows); without one the Task is Running once the Job has an
    active pod or a start time, and Pending before.  The reason is that of the
    phase and the message is never empty. *)
Theorem derivePhase_spec job phase reason msg :
  derivePhase job = (phase, reason, msg) ->
  let conds := jst_Conditions (job_Status job) in
  let started := 0 < jst_Active (job_Status job) \/ is_Some (jst_StartTime (job_Status job)) in
  ((exists pre c post, conds = pre ++ c :: post /\ (forall x, x ∈ pre -> ~ decisive x) /\ decisive c /\
      phase = verdict c /\ reason = reason_of phase true) \/
   ((forall x, x ∈ conds -> ~ decisive x) /\
    ((started /\ phase = TaskPhaseRunning) \/ (~ started /\ phase = TaskPhasePending)) /\
    reason = reason_of phase false)) /\
  msg <> ""%string.
Proof.
  intros Hd conds started. unfold derivePhase in Hd. fold conds in Hd.
  destruct (conditions_phase conds) as [v|] eqn:Hc.
  - subst v. destruct (conditions_phase_some _ _ _ _ Hc) as (pre & c & post & ? & ? & ? & ? & ? & ?).
    split; [left|done]. by exists pre, c, post.
  - rewrite conditions_phase_none in Hc. assert (Hs : (0 <? jst_Active (job_Status job)) ||
      match jst_StartTime (job_Status job) with Some _ => true | None => false end = true <-> started).
    { rewrite orb_true_iff, Z.ltb_lt. subst started. destruct (jst_StartTime (job_Status job)); [|].
      - split; [intros _; right; by eexists|by intros _; right].
      - split; [intros [?|?]; [by left|done]|intros [?|[? ?]]; [by left|done]]. }
    destruct (_ || _) eqn:Hb; simplify_eq; (split; [right|done]); split_and!; try done.
    + left. split; [by apply Hs|done].
    + right. split; [by rewrite <- Hs|done].
Qed.

(** C38. [equalStatus] decides semantic equality of statuses whose condition types
    are distinct: the same phase, Job, generation, times and Result, and the
    same condition of every type up to its transition time and the order. *)
Theorem equalStatus_spec a b :
  NoDup (cond_Type <$> st_Conditions a) -> NoDup (cond_Type <$> st_Conditions b) ->
  equalStatus a b = true <->
  st_Phase a = st_Phase b /\ st_JobName a = st_JobName b /\
  st_ObservedGeneration a = st_ObservedGeneration b /\ st_StartTime a = st_StartTime b /\
  st_CompletionTime a = st_CompletionTime b /\ st_Result a = st_Result b /\
  (forall t, (cond_view <$> FindStatusCondition (st_Conditions a) t) =
             (cond_view <$> FindStatusCondition (st_Conditions b) t)).
Proof. apply equalStatus_iff. Qed.

(** A terminal Task with a 32-bit TTL is due exactly TTL seconds after it
    finished, without overflow: at its completion time or, without one, at the
    last transition of Ready; there is no deadline without a TTL or a time. *)
Theorem deletionDeadline_spec task defaultTTL :
  (forall ttl, spec_TTLSecondsAfterFinished (task_Spec task) = Some ttl \/ defaultTTL = Some ttl ->
     0 <= ttl <= MaxInt32) ->
  forall d, deletionDeadline task defaultTTL = Some d <->
  exists ttl finished,
    (spec_TTLSecondsAfterFinished (task_Spec task) = Some ttl \/
     (spec_TTLSecondsAfterFinished (task_Spec task) = None /\ defaultTTL = Some ttl)) /\
    (st_CompletionTime (task_Status task) = Some finished \/
     (st_CompletionTime (task_Status task) = None /\ finished <> 0 /\
      exists c, FindStatusCondition (st_Conditions (task_Status task)) conditionReady = Some c /\
        cond_LastTransitionTime c = finished)) /\
    d = finished + ttl * Second.
Proof.
  intros Hr d.
  assert (Hov : forall ttl f, spec_TTLSecondsAfterFinished (task_Spec task) = Some ttl \/ defaultTTL = Some ttl ->
    Time_Add f (int64 (ttl * Second)) = f + ttl * Second).
  { intros ttl f Ht. specialize (Hr ttl Ht). unfold Time_Add. rewrite int64_id; [done|].
    unfold MinInt64, MaxInt64, MaxInt32, Second in *. lia. }
  unfold deletionDeadline, IsZero. destruct (spec_TTLSecondsAfterFinished (task_Spec task)) as [ttl|] eqn:Ht;
    [|destruct defaultTTL as [ttl|]; [|naive_solver]];
    (destruct (st_CompletionTime (task_Status task)) as [f|];
     [|destruct (FindStatusCondition _ _) as [c|]; [destruct (Z.eqb_spec (cond_LastTransitionTime c) 0)|]]);
    rewrite ?(Hov ttl) by auto; naive_solver.
Qed.

End Lemmas.

(** ** The theorems at samples *)

Section Witnesses.
Existing Instances KubeRef.lib KubeRef.laws.

Definition timed_out_job : Job :=
  mkJob Samples.job_meta (mkJobSpec None None None (mkPodTemplate None
      (mkPodSpec RestartPolicyNever "" None None [] [])))
    (mkJobStatus [mkJobCondition JobSuspended ConditionFalse "" "";
                  mkJobCondition JobFailed ConditionTrue JobReasonDeadlineExceeded ""] 0 (Some 5) None).

Lemma derivePhase_spec_witness : exists pre c post,
  jst_Conditions (job_Status timed_out_job) = pre ++ c :: post /\ TaskPhaseTimedOut = verdict c.
Proof.
  destruct (derivePhase_spec timed_out_job TaskPhaseTimedOut reasonTimedOut "Job exceeded its deadline" eq_refl)
    as [[(pre & c & post & Hc & _ & _ & Hv & _)|(_ & [[_ Hp]|[_ Hp]] & _)] _]; [|discriminate..].
  exists pre, c, post. split; assumption.
Defined.

Definition ready_at (now : Time) : Condition :=
  mkCondition conditionReady ConditionFalse reasonFailed "Job failed" 1 now.
Definition failed_status (now : Time) : TaskStatus :=
  mkTaskStatus TaskPhaseFailed 1 "demo" None None None [ready_at now].

Lemma equalStatus_spec_witness :
  equalStatus (failed_status 10) (failed_status 20) = true.
Proof.
  apply (equalStatus_spec (failed_status 10) (failed_status 20)).
  - apply NoDup_singleton.
  - apply NoDup_singleton.
  - repeat split. intros t. unfold FindStatusCondition. cbn. unfold KubeRef.find_condition, failed_status. cbn.
    destruct (decide (conditionReady = t)); reflexivity.
Defined.

Lemma deletionDeadline_spec_witness :
  deletionDeadline (Samples.with_status (failed_status 10)) None = Some (10 + 600 * Second).
Proof.
  apply (deletionDeadline_spec (Samples.with_status (failed_status 10)) None).
  - intros ttl [Ht|Ht]; [|discriminate]. injection Ht as <-. unfold MaxInt32. lia.
  - exists 600, 10. split; [left; reflexivity|]. split; [right|reflexivity].
    split; [reflexivity|]. split; [discriminate|]. exists (ready_at 10). split; reflexivity.
Defined.
End Witnesses.
End Status.
