(* ===== verification/TaskResult.v ===== *)
(** * The Result of a Task

    [internal/controller/result.go]: reading the termination message of the
    agent container once, and the requeue while its pod is still missing. *)

From S2P Require Import Prelude GoString GoTime GoNet GoJson GoUrl Kube Api Effects KubeLib Metrics.
From S2P Require Import PolicyObjects PolicyConfig PolicyNetwork Reconciler Samples PolicyResult Build Status.

Module TaskResult.
Import Labels Result Build Status.

Definition conditionResult : string := "Result".
Definition reasonResultRecorded : string := "Recorded".
Definition reasonResultNotProvided : string := "NotProvided".
Definition reasonResultUnavailable : string := "Unavailable".
Definition reasonResultInvalid : string := "Invalid".
Definition DefaultResultWait : Duration := 2 * Minute.
Definition resultRequeue : Duration := 5 * Second.

Definition pod_gone : string :=
  "The agent pod was gone before the controller read its termination message".
Definition pod_running : string :=
  "The agent container did not terminate before the controller stopped to wait".

(** [ctrl.Result]: the requeue delay. *)
Record CtrlResult := mkCtrl { RequeueAfter : Duration }.

Definition minRequeue (res : CtrlResult) (d : Duration) : CtrlResult :=
  if (0 <? d) && ((RequeueAfter res =? 0) || (d <? RequeueAfter res)) then mkCtrl d else res.

Definition resultWait (r : TaskReconciler) : Duration :=
  if 0 <? r_ResultWait r then r_ResultWait r else DefaultResultWait.

Fixpoint agentTerminationMessage (l : list ContainerStatus) : option string :=
  match l with
  | [] => None
  | cs :: l' =>
    match cs_Terminated cs with
    | Some msg => if (cs_Name cs =? agentContainerName)%string then Some msg else agentTerminationMessage l'
    | None => agentTerminationMessage l'
    end
  end.

(** [taskForPod] on the metadata of the pod. *)
Definition taskForPod (pod : ObjectMeta) : list NamespacedName :=
  let name := map_get (om_Labels pod) LabelTaskName in
  if (name =? "")%string || negb (map_get (om_Labels pod) LabelManagedBy =? ManagedByValue)%string then []
  else [mkNN (om_Namespace pod) name].

Section Result.
Context `{KubeLib, UnicodeTables}.

Definition resultDecided (task : Task) : bool :=
  match FindStatusCondition (st_Conditions (task_Status task)) conditionResult with
  | Some _ => true
  | None => false
  end.

Definition setResultCondition (task : Task) (reason msg : string) : Prog Task :=
  let status := if (reason =? reasonResultRecorded)%string then ConditionTrue else ConditionFalse in
  set_condition task (mkCondition conditionResult status reason msg (task_Generation task) 0).

Definition applyParsedResult (task : Task) (parsed : ParsedResult) : Prog Task :=
  let task := set_status (with_Result (pr_Result parsed)) task in
  match pr_Outcome parsed with
  | ResultRecorded => setResultCondition task reasonResultRecorded "The agent reported a Result"
  | ResultInvalid => setResultCondition task reasonResultInvalid (pr_Problem parsed)
  | ResultNotProvided => setResultCondition task reasonResultNotProvided (pr_Problem parsed)
  end.

(** [terminalSince] reads the clock when Ready has no time. *)
Definition terminalSince (task : Task) : Prog Time :=
  match FindStatusCondition (st_Conditions (task_Status task)) conditionReady with
  | Some c => if IsZero (cond_LastTransitionTime c) then call CNow else Ret (cond_LastTransitionTime c)
  | None => call CNow
  end.

(** A pod that the Job with [jobUID] controls. *)
Definition owned_by_job (jobUID : string) (pod : Pod) : bool :=
  match GetControllerOf (pod_Meta pod) with
  | Some owner => (owner_Kind owner =? "Job")%string && (owner_UID owner =? jobUID)%string
  | None => false
  end.

(** The loop over the pods: the first termination message of an owned pod, or
    whether an owned pod was seen. *)
Fixpoint scan_pods (jobUID : string) (pods : list Pod) (podSeen : bool) : string + bool :=
  match pods with
  | [] => inr podSeen
  | pod :: pods' =>
    if owned_by_job jobUID pod then
      match agentTerminationMessage (pod_ContainerStatuses pod) with
      | Some msg => inl msg
      | None => scan_pods jobUID pods' true
      end
    else scan_pods jobUID pods' podSeen
  end.

Definition observeResult (r : TaskReconciler) (task : Task) (jobUID : string) (egress : list string)
  : Prog (result (Task * Duration)) :=
  if resultDecided task then Ret (Ok (task, 0))
  else
    let! pods := call (CListPods (task_Namespace task) {[ LabelTaskName := task_Name task ]}) in
    match pods with
    | Err e => Ret (Err (ErrWrap "list task pods: " (ErrApi e) ""))
    | Ok pods =>
      match scan_pods jobUID pods false with
      | inl msg =>
        let! task := applyParsedResult task (ParseResult msg egress) in Ret (Ok (task, 0))
      | inr podSeen =>
        if negb (isTerminal (task_Phase task)) then Ret (Ok (task, 0))
        else
          let! since := terminalSince task in
          let! now := call CNow in
          if Time_Sub now since <? resultWait r then Ret (Ok (task, resultRequeue))
          else
            let! task := setResultCondition task reasonResultUnavailable
                           (if podSeen : bool then pod_running else pod_gone) in
            Ret (Ok (task, 0))
      end
    end.

(** [terminalEgress]: without the class, the Task's own entries. *)
Definition terminalEgress (task : Task) : Prog (list string) :=
  let! agent := call (CGet KClusterAgentClass (mkNN "" (agent_Ref (spec_Agent (task_Spec task))))) in
  Ret (match agent with
       | Err _ => MergeStringSets [perm_Egress (spec_Permissions (task_Spec task))]
       | Ok agent => MergeStringSets [perm_Egress (spec_Permissions (task_Spec task));
                                      req_Egress (cac_Requires (class_Spec agent))]
       end).

(** The write at the end of [recordTerminalResult], skipped when nothing
    changed. *)
Definition write_if_changed (before : TaskStatus) (task : Task) (requeue : Duration)
  : Prog (result (Task * Duration)) :=
  if equalStatus before (task_Status task) then Ret (Ok (task, requeue))
  else
    let! w := call (CStatusUpdate task) in
    Ret (match w with Ok task => Ok (task, requeue) | Err e => Err (ErrApi e) end).

Definition recordTerminalResult (r : TaskReconciler) (task : Task) : Prog (result (Task * Duration)) :=
  if resultDecided task || (st_JobName (task_Status task) =? "")%string then Ret (Ok (task, 0))
  else
    let before := task_Status task in
    let! job := call (CGet KJob (mkNN (task_Namespace task) (st_JobName (task_Status task)))) in
    match job with
    | Err e =>
      if IsNotFound e then
        let! task := setResultCondition task reasonResultUnavailable pod_gone in
        write_if_changed before task 0
      else Ret (Err (ErrWrap "get job: " (ErrApi e) ""))
    | Ok job =>
      let! egress := terminalEgress task in
      let! o := observeResult r task (om_UID (job_Meta job)) egress in
      match o with
      | Err e => Ret (Err e)
      | Ok (task, requeue) => write_if_changed before task requeue
      end
    end.

End Result.

(** ** Lemmas *)

Section Lemmas.
Context `{KubeLaws, UnicodeTables}.

Lemma scan_pods_spec uid pods seen :
  match scan_pods uid pods seen with
  | inl msg => exists pod, pod ∈ pods /\ owned_by_job uid pod = true /\
      agentTerminationMessage (pod_ContainerStatuses pod) = Some msg
  | inr seen' => (forall pod, pod ∈ pods -> owned_by_job uid pod = true ->
      agentTerminationMessage (pod_ContainerStatuses pod) = None) /\
      (seen' = true <-> seen = true \/ exists pod, pod ∈ pods /\ owned_by_job uid pod = true)
  end.
Proof.
  revert seen. induction pods as [|p pods IH]; intros seen; cbn [scan_pods].
  { split; [intros pod []%elem_of_nil|]. split; [by left|]. intros [?|(pod & []%elem_of_nil & _)]; done. }
  destruct (owned_by_job uid p) eqn:Ho.
  - destruct (agentTerminationMessage (pod_ContainerStatuses p)) as [m|] eqn:Hm.
    + exists p. split_and!; [left|done..].
    + specialize (IH true). destruct (scan_pods uid pods true).
      { destruct IH as (pod & ? & ?). exists pod. split; [by right|done]. }
      destruct IH as [IH1 IH2]. split.
      * intros pod [->|Hin]%elem_of_cons; [done|by apply IH1].
      * rewrite IH2. split; [|by auto]. intros _. right. exists p. split; [left|done].
  - specialize (IH seen). destruct (scan_pods uid pods seen).
    { destruct IH as (pod & ? & ?). exists pod. split; [by right|done]. }
    destruct IH as [IH1 IH2]. split.
    + intros pod [->|Hin]%elem_of_cons; [congruence|by apply IH1].
    + rewrite IH2. split; (intros [?|(pod & Hin & ?)]; [by left|right]).
      * exists pod. split; [by right|done].
      * exists pod. apply elem_of_cons in Hin as [->|Hin]; [congruence|done].
Qed.

(** What [setResultCondition] does: only the Result condition changes. *)
Definition result_set (task task' : Task) (reason msg : string) : Prop :=
  exists now, task' = set_status (fun s => with_Conditions
    (SetStatusCondition now (st_Conditions s)
       (mkCondition conditionResult
          (if (reason =? reasonResultRecorded)%string then ConditionTrue else ConditionFalse)
          reason msg (task_Generation task) 0)) s) task.

Lemma exec_setResultCondition task reason msg tr task' :
  exec (setResultCondition task reason msg) tr task' ->
  (exists now, tr = [ev CNow now]) /\ result_set task task' reason msg.
Proof. intros (now & -> & ->)%exec_set_condition. split; by exists now. Qed.

(** The Result condition after it was set. *)
Lemma result_set_spec task task' reason msg :
  result_set task task' reason msg ->
  (exists c, FindStatusCondition (st_Conditions (task_Status task')) conditionResult = Some c /\
     cond_Reason c = reason /\ cond_Message c = msg /\
     (cond_Status c = ConditionTrue <-> reason = reasonResultRecorded)) /\
  (forall t, t <> conditionResult ->
     FindStatusCondition (st_Conditions (task_Status task')) t =
     FindStatusCondition (st_Conditions (task_Status task)) t) /\
  task_Meta task' = task_Meta task /\ task_Spec task' = task_Spec task /\
  task_Status task' = with_Conditions (st_Conditions (task_Status task')) (task_Status task).
Proof.
  intros (now & ->). cbn [set_status task_Status task_Meta task_Spec with_Conditions st_Conditions].
  split_and!; try done.
  - eexists. split; [exact (set_condition_same now _ (mkCondition conditionResult _ reason msg _ 0) eq_refl)|].
    cbn. split_and!; [done..|]. destruct (String.eqb_spec reason reasonResultRecorded); split; done.
  - intros t Ht. by apply set_condition_other.
Qed.

Definition outcome_reason (o : ResultOutcome) : string :=
  match o with
  | ResultRecorded => reasonResultRecorded
  | ResultInvalid => reasonResultInvalid
  | ResultNotProvided => reasonResultNotProvided
  end.

Lemma exec_applyParsedResult task parsed tr task' :
  exec (applyParsedResult task parsed) tr task' ->
  (exists now, tr = [ev CNow now]) /\
  exists msg, result_set (set_status (with_Result (pr_Result parsed)) task) task'
    (outcome_reason (pr_Outcome parsed)) msg.
Proof.
  unfold applyParsedResult. destruct (pr_Outcome parsed); intros [? ?]%exec_setResultCondition; eauto.
Qed.

(** The pods the trace lists. *)
Definition list_answer (e : Ev) : option (res ApiError (list Pod)) :=
  match e with existT (CListPods _ _) x => Some x | _ => None end.

(** The clock readings with which a read measures its wait: the wait runs from the
    last transition of the Ready condition; without one that has a time, from a first
    reading of the clock. *)
Definition wait_measured (task : Task) (since now : Time) (readings : Trace) : Prop :=
  match FindStatusCondition (st_Conditions (task_Status task)) conditionReady with
  | Some c => if IsZero (cond_LastTransitionTime c) then readings = [ev CNow since; ev CNow now]
              else since = cond_LastTransitionTime c /\ readings = [ev CNow now]
  | None => readings = [ev CNow since; ev CNow now]
  end.

Lemma exec_wait_measured task tr since now rest :
  exec (terminalSince task) tr since -> exists readings, wait_measured task since now readings /\
    tr ++ ev CNow now :: rest = readings ++ rest /\ Forall (fun c => c = CNow) (calls readings).
Proof.
  unfold terminalSince, wait_measured. destruct (FindStatusCondition _ _) as [c|]; [destruct (IsZero (cond_LastTransitionTime c))|].
  - intros ->%exec_call. exists [ev CNow since; ev CNow now]. split_and!; [done..|by repeat constructor].
  - intros [-> ->]%exec_ret. exists [ev CNow now]. split_and!; [done..|by repeat constructor].
  - intros ->%exec_call. exists [ev CNow since; ev CNow now]. split_and!; [done..|by repeat constructor].
Qed.

(** The four ways a read of the Result ends. *)
Lemma observeResult_cases r task uid egress tr task' d :
  exec (observeResult r task uid egress) tr (Ok (task', d)) ->
  (resultDecided task = true /\ tr = [] /\ task' = task /\ d = 0) \/
  (resultDecided task = false /\ exists pods rest,
     tr = ev (CListPods (task_Namespace task) {[ LabelTaskName := task_Name task ]}) (Ok pods) :: rest /\
     Forall (fun c => c = CNow) (calls rest) /\
     ((exists pod msg m, pod ∈ pods /\ owned_by_job uid pod = true /\
         agentTerminationMessage (pod_ContainerStatuses pod) = Some msg /\ d = 0 /\
         result_set (set_status (with_Result (pr_Result (ParseResult msg egress))) task) task'
           (outcome_reason (pr_Outcome (ParseResult msg egress))) m) \/
      ((forall pod, pod ∈ pods -> owned_by_job uid pod = true ->
          agentTerminationMessage (pod_ContainerStatuses pod) = None) /\
       ((isTerminal (task_Phase task) = false /\ task' = task /\ d = 0) \/
        (isTerminal (task_Phase task) = true /\ exists since now,
           (exists readings tail, wait_measured task since now readings /\ rest = readings ++ tail) /\
           ((Time_Sub now since < resultWait r /\ task' = task /\ d = resultRequeue) \/
            (resultWait r <= Time_Sub now since /\ d = 0 /\
             exists m, result_set task task' reasonResultUnavailable m))))))).
Proof.
  unfold observeResult. destruct (resultDecided task) eqn:Hd.
  { intros [-> [= -> ->]]%exec_ret. by left. }
  intros (pods & rest & -> & Hx)%exec_call_inv. right. split; [done|].
  destruct pods as [pods|e]; [|by apply exec_ret in Hx as [_ ?]]. exists pods, rest. split; [done|].
  pose proof (scan_pods_spec uid pods false) as Hs. destruct (scan_pods uid pods false) as [msg|seen].
  - apply exec_bind in Hx as (t1 & t2 & task1 & -> & [(now & ->) (m & Hset)]%exec_applyParsedResult & [-> [= -> ->]]%exec_ret).
    split; [by repeat constructor|]. left. destruct Hs as (pod & ? & ? & ?). by exists pod, msg, m.
  - destruct Hs as [Hs _]. destruct (isTerminal (task_Phase task)) eqn:Ht; cbn [negb] in Hx.
    2: { apply exec_ret in Hx as [-> [= -> ->]]. split; [constructor|]. right. split; [done|]. by left. }
    apply exec_bind in Hx as (t1 & t2 & since & -> & Hsince & Hx).
    apply exec_call_inv in Hx as (now & t3 & -> & Hx).
    destruct (exec_wait_measured _ _ _ now t3 Hsince) as (readings & Hm & -> & Hr). rewrite calls_app, Forall_app.
    destruct (Z.ltb_spec (Time_Sub now since) (resultWait r)) as [Hlt|Hge].
    + apply exec_ret in Hx as [-> [= -> ->]]. split; [split; [done|constructor]|].
      right. split; [done|]. right. split; [done|]. exists since, now. split; [eauto|by left].
    + apply exec_bind in Hx as (t4 & t5 & task1 & -> & [(n & ->) Hset]%exec_setResultCondition & [-> [= -> ->]]%exec_ret).
      split; [split; [done|by repeat constructor]|].
      right. split; [done|]. right. split; [done|]. exists since, now. split; [eauto|right; split_and!; [done..|eauto]].
Qed.

(** A read only asks. *)
Lemma observeResult_queries r task uid egress :
  only (fun c => is_query c = true) (observeResult r task uid egress).
Proof.
  assert (Hset : forall t reason m, only (fun c => is_query c = true) (setResultCondition t reason m)).
  { intros t reason m. apply only_call; [done|intros; apply only_ret]. }
  unfold observeResult. destruct (resultDecided task); [apply only_ret|].
  apply only_call; [done|]. intros [pods|e]; [|apply only_ret]. cbn [bind].
  destruct (scan_pods uid pods false) as [msg|seen].
  - apply only_bind; [|intros; apply only_ret]. unfold applyParsedResult. destruct (pr_Outcome _); apply Hset.
  - destruct (negb _); [apply only_ret|]. apply only_bind.
    + unfold terminalSince. destruct (FindStatusCondition _ _) as [c|]; [destruct (IsZero _)|];
        (apply only_ret || (apply only_call; [done|intros; apply only_ret])).
    + intros since. apply only_call; [done|]. intros now. cbn [bind].
      destruct (_ <? _); [apply only_ret|]. apply only_bind; [apply Hset|intros; apply only_ret].
Qed.

(** What a read never changes. *)
Lemma observeResult_frame r task uid egress tr task' d :
  exec (observeResult r task uid egress) tr (Ok (task', d)) ->
  task_Spec task' = task_Spec task /\ task_Meta task' = task_Meta task /\
  task_Status task' = with_Conditions (st_Conditions (task_Status task'))
    (with_Result (st_Result (task_Status task')) (task_Status task)) /\
  (forall t, t <> conditionResult ->
     FindStatusCondition (st_Conditions (task_Status task')) t =
     FindStatusCondition (st_Conditions (task_Status task)) t).
Proof.
  intros Hx. destruct (observeResult_cases _ _ _ _ _ _ _ Hx) as
    [(_ & _ & -> & _)|(_ & pods & rest & -> & _ & [(pod & msg & m & _ & _ & _ & _ & Hset)|(_ & Hrest)])].
  - split_and!; try done. by destruct (task_Status task).
  - destruct (result_set_spec _ _ _ _ Hset) as (_ & Hoth & Hmeta & Hspec & Hst).
    split_and!; try done; by rewrite Hst.
  - assert (Hcases : task' = task \/ exists m, result_set task task' reasonResultUnavailable m) by naive_solver.
    destruct Hcases as [->|(m & Hset)].
    + split_and!; try done. by destruct (task_Status task).
    + destruct (result_set_spec _ _ _ _ Hset) as (_ & Hoth & Hmeta & Hspec & Hst).
      split_and!; try done. by rewrite Hst.
Qed.

Lemma result_set_wf task task' reason msg :
  result_set task task' reason msg -> status_wf (task_Status task) -> status_wf (task_Status task').
Proof. intros (now & ->). apply set_condition_NoDup. Qed.

Lemma observeResult_wf r task uid egress tr task' d :
  exec (observeResult r task uid egress) tr (Ok (task', d)) ->
  status_wf (task_Status task) -> status_wf (task_Status task').
Proof.
  intros Hx Hwf. destruct (observeResult_cases _ _ _ _ _ _ _ Hx) as
    [(_ & _ & -> & _)|(_ & pods & rest & -> & _ & [(pod & msg & m & _ & _ & _ & _ & Hset)|(_ & Hrest)])].
  - done.
  - by eapply result_set_wf.
  - assert (Hcases : task' = task \/ exists m, result_set task task' reasonResultUnavailable m) by naive_solver.
    destruct Hcases as [->|(m & Hset)]; [done|by eapply result_set_wf].
Qed.

(** The reason of the Result condition, when the Result is decided. *)
Definition result_reason (task : Task) : option string :=
  cond_Reason <$> FindStatusCondition (st_Conditions (task_Status task)) conditionResult.

Lemma result_set_reason task task' reason msg : result_set task task' reason msg -> result_reason task' = Some reason.
Proof. intros ((c & Hc & Hr & _) & _)%result_set_spec. unfold result_reason. by rewrite Hc, <- Hr. Qed.

(** ** Theorems *)

(** C31. A Result enters the status only through the agent container of a pod
    that the Job with the given UID controls: when a read changes
    [status.result], the new value is what the parser makes of the termination
    message of such a pod, out of the listed ones; the phase, the Job, the times
    and every condition but Result are never changed by the read. *)
Theorem observeResult_authentic r task uid egress tr task' d :
  exec (observeResult r task uid egress) tr (Ok (task', d)) ->
  (st_Result (task_Status task') <> st_Result (task_Status task) ->
   exists pods pod msg,
     ev (CListPods (task_Namespace task) {[ LabelTaskName := task_Name task ]}) (Ok pods) ∈ tr /\
     pod ∈ pods /\
     (exists owner, GetControllerOf (pod_Meta pod) = Some owner /\ owner_Kind owner = "Job"%string /\ owner_UID owner = uid) /\
     agentTerminationMessage (pod_ContainerStatuses pod) = Some msg /\
     st_Result (task_Status task') = pr_Result (ParseResult msg egress)) /\
  task_Spec task' = task_Spec task /\ task_Meta task' = task_Meta task /\
  task_Status task' = with_Conditions (st_Conditions (task_Status task'))
    (with_Result (st_Result (task_Status task')) (task_Status task)) /\
  (forall t, t <> conditionResult ->
     FindStatusCondition (st_Conditions (task_Status task')) t =
     FindStatusCondition (st_Conditions (task_Status task)) t).
Proof.
  intros Hx. split; [|by eapply observeResult_frame].
  destruct (observeResult_cases _ _ _ _ _ _ _ Hx) as
    [(_ & _ & -> & _)|(_ & pods & rest & -> & _ & [(pod & msg & m & Hp & Ho & Hm & _ & Hset)|(_ & Hrest)])]; [done| |].
  - destruct (result_set_spec _ _ _ _ Hset) as (_ & _ & _ & _ & Hst). intros _.
    exists pods, pod, msg. split_and!; [left|done| |done|by rewrite Hst]. revert Ho. unfold owned_by_job.
    destruct (GetControllerOf (pod_Meta pod)) as [o|]; [|done]. rewrite andb_true_iff, !String.eqb_eq. by exists o.
  - assert (Hcases : task' = task \/ exists m, result_set task task' reasonResultUnavailable m) by naive_solver.
    destruct Hcases as [->|(m & Hset)]; [done|].
    destruct (result_set_spec _ _ _ _ Hset) as (_ & _ & _ & _ & Hst). intros Hne. destruct Hne. by rewrite Hst.
Qed.

(** C35. The Result of a terminal Task gets decided, and at the right time.  A read
    that succeeds either finds the Result decided and asks nothing, or lists the pods
    and decides at once when a pod of the Job has a message of the agent: the reason of
    the Result condition is then the outcome of parsing it.  Without a message it
    measures the wait, from the last transition of the Ready condition (when Ready has
    no time, from a first reading of the clock) to a last reading of the clock: exactly
    while that time is below the wait of the controller it leaves the Task as it is and
    asks for another reconcile in five seconds, and from then on it gives up and decides
    the Result as unavailable.  A decided Result is final: every later read returns the
    Task as it is without a call. *)
Theorem observeResult_progress r task uid egress tr task' d :
  isTerminal (task_Phase task) = true ->
  exec (observeResult r task uid egress) tr (Ok (task', d)) ->
  ((resultDecided task = true /\ tr = [] /\ task' = task /\ d = 0) \/
   (resultDecided task = false /\ exists pods rest,
      tr = ev (CListPods (task_Namespace task) {[ LabelTaskName := task_Name task ]}) (Ok pods) :: rest /\
      ((exists pod msg, pod ∈ pods /\ owned_by_job uid pod = true /\
          agentTerminationMessage (pod_ContainerStatuses pod) = Some msg /\ d = 0 /\
          result_reason task' = Some (outcome_reason (pr_Outcome (ParseResult msg egress)))) \/
       ((forall pod, pod ∈ pods -> owned_by_job uid pod = true ->
           agentTerminationMessage (pod_ContainerStatuses pod) = None) /\
        exists since now readings tail, wait_measured task since now readings /\ rest = readings ++ tail /\
          (Time_Sub now since < resultWait r -> task' = task /\ d = resultRequeue) /\
          (resultWait r <= Time_Sub now since -> result_reason task' = Some reasonResultUnavailable /\ d = 0))))) /\
  (is_Some (result_reason task') -> forall r' uid' egress' tr' res,
     exec (observeResult r' task' uid' egress') tr' res -> tr' = [] /\ res = Ok (task', 0)).
Proof.
  intros Ht Hx. split.
  2: { intros [c Hc] r' uid' egress' tr' res. unfold observeResult, resultDecided. unfold result_reason in Hc.
       destruct (FindStatusCondition _ _); [apply exec_ret|done]. }
  destruct (observeResult_cases _ _ _ _ _ _ _ Hx) as [(Hd & -> & -> & ->)|(Hd & pods & rest & -> & _ & Hc)]; [by left|right].
  split; [done|]. exists pods, rest. split; [done|].
  destruct Hc as [(pod & msg & m & Hp & Ho & Hm & -> & Hs)|(Hn & [(Hf & _)|(_ & since & now & (readings & tail & Hw & Hr) & Hc)])]; [|congruence|].
  - left. exists pod, msg. split_and!; [done..|by eapply result_set_reason].
  - right. split; [done|]. exists since, now, readings, tail. split_and!; [done..| |]; intros Hle;
      destruct Hc as [(? & -> & ->)|(? & -> & m & Hs)]; [done|lia|lia|]. split; [by eapply result_set_reason|done].
Qed.

(** Merging requeue delays keeps the earliest wake-up that was asked for: the
    merged delay is positive exactly when one of the two is, and is then the
    smallest positive one. *)
Theorem minRequeue_spec res d :
  0 <= RequeueAfter res ->
  let m := RequeueAfter (minRequeue res d) in
  (0 < m <-> 0 < RequeueAfter res \/ 0 < d) /\
  (0 < m -> m = d \/ m = RequeueAfter res) /\
  (0 < d -> m <= d) /\ (0 < RequeueAfter res -> m <= RequeueAfter res).
Proof.
  intros Hr m. subst m. unfold minRequeue.
  destruct (Z.ltb_spec 0 d), (Z.eqb_spec (RequeueAfter res) 0), (Z.ltb_spec d (RequeueAfter res)); cbn; lia.
Qed.

(** The Pod watch closes the loop: the labels that the controller puts on the
    pod of a Task map a pod event back to that Task, and no pod without the
    managed-by label wakes a Task. *)
Theorem taskForPod_roundtrip task pod :
  task_Name task <> ""%string ->
  om_Namespace pod = task_Namespace task ->
  (om_Labels pod = Some (podLabels task) -> taskForPod pod = [key_of (task_Meta task)]) /\
  (forall key, key ∈ taskForPod pod ->
     map_get (om_Labels pod) LabelManagedBy = ManagedByValue /\
     map_get (om_Labels pod) LabelTaskName = nn_Name key /\ nn_Namespace key = om_Namespace pod).
Proof.
  intros Hn Hns. split.
  - intros Hl. unfold taskForPod, map_get. rewrite Hl, Hns.
    unfold podLabels, ownershipLabels, OwnershipLabels, PodSelectorLabels. rewrite lookup_union_l', lookup_singleton_eq by (by rewrite lookup_singleton_eq).
    rewrite lookup_union_r by by rewrite lookup_singleton_ne.
    rewrite lookup_insert_ne, lookup_insert_eq by done. cbn. by destruct (String.eqb_spec (task_Name task) "").
  - intros key. unfold taskForPod. destruct (_ || _) eqn:Hb; [intros []%elem_of_nil|].
    apply orb_false_iff in Hb as [_ Hb%negb_false_iff%String.eqb_eq]. by intros ->%list_elem_of_singleton.
Qed.

End Lemmas.

(** ** The theorems at samples *)

Section Witnesses.
Existing Instances KubeRef.lib KubeRef.laws Samples.tables.

Definition done_task : Task := Samples.with_status Samples.completed_status.

Definition sample_read : Prog (result (Task * Duration)) :=
  observeResult Samples.reconciler done_task "uid-job" [].

Definition sample_read_task : Task :=
  match (run Samples.handle sample_read Samples.finished).1 with Ok (t, _) => t | Err _ => done_task end.

Lemma sample_read_exec :
  exec sample_read (trace_of Samples.handle sample_read Samples.finished) (Ok (sample_read_task, 0)).
Proof. refine (eq_rect _ (exec _ _) (run_exec Samples.handle sample_read Samples.finished) _ _). vm_compute. reflexivity. Qed.

Lemma observeResult_authentic_witness : exists pod msg,
  owner_UID <$> GetControllerOf (pod_Meta pod) = Some "uid-job"%string /\
  st_Result (task_Status sample_read_task) = pr_Result (ParseResult msg []).
Proof.
  destruct (proj1 (observeResult_authentic _ _ _ _ _ _ _ sample_read_exec)) as
    (pods & pod & msg & _ & _ & (o & Ho & _ & Hu) & _ & Hr); [vm_compute; discriminate|].
  exists pod, msg. rewrite Ho. split; [exact (f_equal Some Hu)|exact Hr].
Defined.

(** The same read when the pod is gone, 940 seconds after Ready changed. *)
Definition no_pod : Samples.World :=
  Samples.mkWorld (1000 * Second) (Ok done_task) (Ok Samples.agent) (Ok Samples.finished_job) [] [] []
    (Err Samples.not_found) (Ok []) None.

Definition late_read_task : Task :=
  match (run Samples.handle sample_read no_pod).1 with Ok (t, _) => t | Err _ => done_task end.

Lemma late_read_exec : exec sample_read (trace_of Samples.handle sample_read no_pod) (Ok (late_read_task, 0)).
Proof. refine (eq_rect _ (exec _ _) (run_exec Samples.handle sample_read no_pod) _ _). vm_compute. reflexivity. Qed.

Lemma observeResult_progress_witness : result_reason late_read_task = Some reasonResultUnavailable.
Proof.
  destruct (proj1 (observeResult_progress _ done_task _ _ _ _ _ eq_refl late_read_exec)) as
    [[Hd _]|(_ & pods & rest & Htr & [(pod & msg & Hp & _)|(_ & since & now & readings & tail & _ & _ & Hlt & Hge)])].
  - discriminate Hd.
  - apply (f_equal (fun tr => head tr ≫= list_answer)) in Htr. injection Htr as <-. by apply elem_of_nil in Hp.
  - destruct (Z.lt_ge_cases (Time_Sub now since) (resultWait Samples.reconciler)) as [H|H];
      [destruct (Hlt H) as [_ [=]]|apply (Hge H)].
Defined.

Lemma minRequeue_spec_witness : RequeueAfter (minRequeue (mkCtrl 7) 5) <= 5.
Proof. apply (minRequeue_spec (mkCtrl 7) 5); cbn; lia. Defined.

Definition labelled_pod : ObjectMeta :=
  mkMeta "demo-x" "" "agents" "" 0 None (Some (podLabels Samples.task)) None [].

Lemma taskForPod_roundtrip_witness : taskForPod labelled_pod = [mkNN "agents" "demo"].
Proof. apply (taskForPod_roundtrip Samples.task labelled_pod); [discriminate|reflexivity|reflexivity]. Defined.
End Witnesses.
End TaskResult.
