(* ===== verification/Sync.v ===== *)
(** * Synchronising the status

    [syncStatus] of [internal/controller/status.go]: the Job state and the
    Result are copied onto the Task, and the status is written when it changed;
    metrics and Events follow a successful write. *)

From S2P Require Import Prelude GoString GoTime GoNet GoJson GoUrl Kube Api Effects KubeLib Metrics.
From S2P Require Import PolicyObjects PolicyConfig PolicyNetwork Reconciler Samples PolicyResult.
From S2P Require Import Build Status TaskResult.

Module Sync.
Import Status TaskResult.

Section Sync.
Context `{KubeLib, UnicodeTables}.

(** What follows a successful write. *)
Definition report_transition (r : TaskReconciler) (before : TaskPhase) (task : Task)
    (phase : TaskPhase) (reason msg : string) : Prog unit :=
  if negb (bool_decide (before = phase)) then
    (ObservePhaseTransition (phase_string phase) reason ;;
     recordEvent r task (eventTypeFor phase) reason msg ;;
     match isTerminal phase, st_StartTime (task_Status task), st_CompletionTime (task_Status task) with
     | true, Some start, Some completion =>
       ObserveTaskDuration (phase_string phase) (Time_Sub completion start)
     | _, _, _ => Ret tt
     end)
  else Ret tt.

(** The fields that [syncStatus] copies from the Job before it reads the Result. *)
Definition from_job (task : Task) (job : Job) : Task :=
  let '(phase, _, _) := derivePhase job in
  set_status (fun s =>
    with_Phase phase (with_ObservedGeneration (task_Generation task)
      (with_Times (jst_StartTime (job_Status job)) (jst_CompletionTime (job_Status job))
        (with_JobName (om_Name (job_Meta job)) s)))) task.

Definition syncStatus (r : TaskReconciler) (task : Task) (job : Job) (egress : list string)
  : Prog (result (Task * Duration)) :=
  let before := task_Status task in
  let '(phase, reason, msg) := derivePhase job in
  let task := from_job task job in
  let! task := set_condition task (ready task (conditionStatusFor phase) reason msg) in
  let! o := observeResult r task (om_UID (job_Meta job)) egress in
  match o with
  | Err e => Ret (Err e)
  | Ok (task, requeue) =>
    if equalStatus before (task_Status task) then Ret (Ok (task, requeue))
    else
      let! w := call (CStatusUpdate task) in
      match w with
      | Err e => Ret (Err (ErrApi e))
      | Ok task => report_transition r (st_Phase before) task phase reason msg ;; Ret (Ok (task, requeue))
      end
  end.

End Sync.

(** ** Case analysis *)

Section Cases.
Context `{KubeLaws, UnicodeTables}.

Definition transition_trace (r : TaskReconciler) (before : TaskPhase) (task : Task)
    (phase : TaskPhase) (reason msg : string) : Trace :=
  if bool_decide (before = phase) then []
  else ev (CMetric (PhaseTransition (phase_string phase) reason)) tt ::
    event_trace r task (eventTypeFor phase) reason msg ++
    match isTerminal phase, st_StartTime (task_Status task), st_CompletionTime (task_Status task) with
    | true, Some start, Some completion =>
      [ev (CMetric (TaskDuration (phase_string phase) (Time_Sub completion start))) tt]
    | _, _, _ => []
    end.

Lemma exec_report_transition r before task phase reason msg tr u :
  exec (report_transition r before task phase reason msg) tr u ->
  tr = transition_trace r before task phase reason msg.
Proof.
  unfold report_transition, transition_trace. case_bool_decide; cbn [negb]; [by intros [-> _]%exec_ret|].
  intros ([] & t1 & -> & Hx)%exec_call_inv. f_equal.
  apply exec_bind in Hx as (t2 & t3 & [] & -> & He%exec_recordEvent & Hx). fold (event_trace r task (eventTypeFor phase) reason msg) in He.
  rewrite He. f_equal. destruct (isTerminal phase); [|by apply exec_ret in Hx as [-> _]].
  destruct (st_StartTime (task_Status task)); [|by apply exec_ret in Hx as [-> _]].
  destruct (st_CompletionTime (task_Status task)); [|by apply exec_ret in Hx as [-> _]].
  destruct u. by apply exec_call in Hx.
Qed.

Lemma transition_reports r before task phase reason msg c :
  c ∈ calls (transition_trace r before task phase reason msg) -> is_report c = true.
Proof.
  unfold transition_trace, event_trace. case_bool_decide; [intros []%elem_of_nil|].
  revert c. apply (Forall_forall (fun c => is_report c = true)).
  destruct (r_Recorder r), (isTerminal phase), (st_StartTime (task_Status task)), (st_CompletionTime (task_Status task));
    by repeat constructor.
Qed.

(** The Task before the Result is read. *)
Definition synced (now : Time) (task : Task) (job : Job) : Task :=
  let '(phase, reason, msg) := derivePhase job in
  set_status (fun s => with_Conditions (SetStatusCondition now (st_Conditions s)
    (mkCondition conditionReady (conditionStatusFor phase) reason msg (task_Generation task) 0)) s)
    (from_job task job).

Lemma synced_eq now task job phase reason msg :
  derivePhase job = (phase, reason, msg) ->
  synced now task job =
  mkTask (task_Meta task) (task_Spec task)
    (mkTaskStatus phase (task_Generation task) (om_Name (job_Meta job)) (jst_StartTime (job_Status job))
       (jst_CompletionTime (job_Status job)) (st_Result (task_Status task))
       (SetStatusCondition now (st_Conditions (task_Status task))
          (mkCondition conditionReady (conditionStatusFor phase) reason msg (task_Generation task) 0))).
Proof. intros Hd. unfold synced, from_job. by rewrite Hd. Qed.

Lemma syncStatus_cases r task job egress tr res phase reason msg :
  derivePhase job = (phase, reason, msg) ->
  exec (syncStatus r task job egress) tr res ->
  exists now to, 
    (exists e, exec (observeResult r (synced now task job) (om_UID (job_Meta job)) egress) to (Err e) /\
       tr = ev CNow now :: to /\ res = Err e) \/
    (exists t d, exec (observeResult r (synced now task job) (om_UID (job_Meta job)) egress) to (Ok (t, d)) /\
      ((equalStatus (task_Status task) (task_Status t) = true /\ tr = ev CNow now :: to /\ res = Ok (t, d)) \/
       (equalStatus (task_Status task) (task_Status t) = false /\
        ((exists e, tr = ev CNow now :: to ++ [ev (CStatusUpdate t) (Err e)] /\ res = Err (ErrApi e)) \/
         (exists t', tr = ev CNow now :: to ++ ev (CStatusUpdate t) (Ok t') ::
            transition_trace r (task_Phase task) t' phase reason msg /\ res = Ok (t', d)))))).
Proof.
  intros Hd. unfold syncStatus. rewrite Hd. intros Hx.
  apply exec_bind in Hx as (t1 & t2 & t & -> & Hs & Hx).
  apply exec_set_condition in Hs as (now & -> & ->). exists now.
  apply exec_bind in Hx as (to & t3 & o & -> & Ho & Hx). exists to.
  assert (Hsync : synced now task job = set_status (fun s => with_Conditions (SetStatusCondition now (st_Conditions s)
    (ready (from_job task job) (conditionStatusFor phase) reason msg)) s) (from_job task job)).
  { unfold synced, ready, from_job. by rewrite Hd. }
  rewrite Hsync. destruct o as [[t d]|e].
  2: { apply exec_ret in Hx as [-> ->]. left. exists e. by rewrite app_nil_r. }
  right. exists t, d. split; [done|]. destruct (equalStatus _ _) eqn:He.
  { apply exec_ret in Hx as [-> ->]. left. by rewrite app_nil_r. }
  right. split; [done|]. apply exec_call_inv in Hx as (w & t4 & -> & Hx). destruct w as [t'|e].
  2: { apply exec_ret in Hx as [-> ->]. left. by exists e. }
  right. exists t'. apply exec_bind in Hx as (t5 & t6 & u & -> & Hr%exec_report_transition & [-> ->]%exec_ret).
  rewrite Hr. split; [|done]. by rewrite app_nil_r.
Qed.

(** The read keeps what [synced] set. *)
Lemma synced_kept now r task job egress to t d :
  exec (observeResult r (synced now task job) (om_UID (job_Meta job)) egress) to (Ok (t, d)) ->
  task_Meta t = task_Meta task /\ task_Spec t = task_Spec task /\
  (let '(phase, reason, msg) := derivePhase job in
   st_Phase (task_Status t) = phase /\ st_ObservedGeneration (task_Status t) = task_Generation task /\
   st_JobName (task_Status t) = om_Name (job_Meta job) /\
   st_StartTime (task_Status t) = jst_StartTime (job_Status job) /\
   st_CompletionTime (task_Status t) = jst_CompletionTime (job_Status job) /\
   exists c, FindStatusCondition (st_Conditions (task_Status t)) conditionReady = Some c /\
     cond_Status c = conditionStatusFor phase /\ cond_Reason c = reason /\ cond_Message c = msg /\
     cond_ObservedGeneration c = task_Generation task).
Proof.
  intros Hx. apply observeResult_frame in Hx as (Hs & Hm & Hst & Hc).
  destruct (derivePhase job) as [[phase reason] msg] eqn:Hd. rewrite (synced_eq _ _ _ _ _ _ Hd) in *.
  split; [done|]. split; [done|]. rewrite Hst. split_and!; try done.
  cbn [st_Conditions with_Conditions]. rewrite Hc by done. cbn [task_Status st_Conditions].
  eexists. split; [exact (set_condition_same now _ (mkCondition conditionReady _ reason msg _ 0) eq_refl)|done].
Qed.

Lemma synced_wf now task job :
  status_wf (task_Status task) -> status_wf (task_Status (synced now task job)).
Proof.
  destruct (derivePhase job) as [[phase reason] msg] eqn:Hd. rewrite (synced_eq _ _ _ _ _ _ Hd).
  apply set_condition_NoDup.
Qed.

Lemma synced_decided now task job : resultDecided (synced now task job) = resultDecided task.
Proof.
  destruct (derivePhase job) as [[phase reason] msg] eqn:Hd. rewrite (synced_eq _ _ _ _ _ _ Hd).
  unfold resultDecided. cbn [task_Status st_Conditions]. by rewrite set_condition_other.
Qed.

(** A status that already mirrors the Job is not changed by another pass. *)
Lemma synced_fixpoint now task task' job :
  status_wf (task_Status task') -> task_Generation task' = task_Generation task ->
  (let '(phase, reason, msg) := derivePhase job in
   st_Phase (task_Status task') = phase /\ st_ObservedGeneration (task_Status task') = task_Generation task /\
   st_JobName (task_Status task') = om_Name (job_Meta job) /\
   st_StartTime (task_Status task') = jst_StartTime (job_Status job) /\
   st_CompletionTime (task_Status task') = jst_CompletionTime (job_Status job) /\
   exists c, FindStatusCondition (st_Conditions (task_Status task')) conditionReady = Some c /\
     cond_Status c = conditionStatusFor phase /\ cond_Reason c = reason /\ cond_Message c = msg /\
     cond_ObservedGeneration c = task_Generation task) ->
  equalStatus (task_Status task') (task_Status (synced now task' job)) = true.
Proof.
  intros Hwf Hg Hk. apply equalStatus_iff; [done|by apply synced_wf|].
  destruct (derivePhase job) as [[phase reason] msg] eqn:Hd. rewrite (synced_eq _ _ _ _ _ _ Hd).
  destruct Hk as (Hp & Ho & Hj & Hst & Hct & c & Hc & Hcs & Hcr & Hcm & Hcg).
  cbn [task_Status st_Phase st_JobName st_ObservedGeneration st_StartTime st_CompletionTime st_Result st_Conditions].
  split_and!; try congruence. intros t. destruct (decide (t = conditionReady)) as [->|Ht].
  - rewrite Hc. rewrite (set_condition_same now _ (mkCondition conditionReady _ reason msg _ 0) eq_refl).
    apply find_condition_some in Hc as [_ Hty]. unfold cond_view. cbn. congruence.
  - by rewrite set_condition_other.
Qed.

(** Each status a sync sends is the Task after the read, and differs. *)
Lemma sync_writes r task job egress tr res :
  exec (syncStatus r task job egress) tr res ->
  forall t, CStatusUpdate t ∈ calls tr -> exists now to d,
    exec (observeResult r (synced now task job) (om_UID (job_Meta job)) egress) to (Ok (t, d)) /\
    equalStatus (task_Status task) (task_Status t) = false.
Proof.
  destruct (derivePhase job) as [[phase reason] msg] eqn:Hd. intros Hx.
  assert (Hno : forall t0 uid to x t, exec (observeResult r t0 uid egress) to x -> CStatusUpdate t ∉ calls to).
  { intros t0 uid to x t Ho Hin. by apply (only_exec _ _ _ _ _ (observeResult_queries _ _ _ _) Ho) in Hin. }
  destruct (syncStatus_cases _ _ _ _ _ _ _ _ _ Hd Hx) as (now & to & [(e & Ho & -> & _)|(t & d & Ho & Hc)]).
  { intros t0 [?|Hin]%elem_of_calls_cons; [done|]. by destruct (Hno _ _ _ _ t0 Ho). }
  intros t0 Hin. assert (Ht : t0 = t /\ equalStatus (task_Status task) (task_Status t) = false).
  { destruct Hc as [(_ & -> & _)|(He & Hc)].
    - apply elem_of_calls_cons in Hin as [?|Hin]; [done|]. by destruct (Hno _ _ _ _ t0 Ho).
    - split; [|done]. destruct Hc as [(e & -> & _)|(t' & -> & _)];
        apply elem_of_calls_cons in Hin as [?|[Hin|Hin]%elem_of_calls_app]; try done;
        try (by destruct (Hno _ _ _ _ t0 Ho)); apply elem_of_calls_cons in Hin as [[= ->]|Hin]; try done;
        [by apply elem_of_calls_nil in Hin|by apply transition_reports in Hin]. }
  destruct Ht as [-> He]. by exists now, to, d.
Qed.

(** ** Theorems *)

(** Every status that a sync sends mirrors the Job it was given: the phase,
    the reason and the message of [derivePhase], its name and times, the
    generation of the Task, and a Ready condition that is true exactly when the
    phase is Completed and false exactly when it is Failed or TimedOut; spec and
    metadata are those of the Task, and types of conditions stay distinct. *)
Theorem syncStatus_mirrors r task job egress tr res t :
  status_wf (task_Status task) ->
  exec (syncStatus r task job egress) tr res -> CStatusUpdate t ∈ calls tr ->
  status_wf (task_Status t) /\ task_Meta t = task_Meta task /\ task_Spec t = task_Spec task /\
  equalStatus (task_Status task) (task_Status t) = false /\
  let '(phase, reason, msg) := derivePhase job in
  task_Phase t = phase /\ st_ObservedGeneration (task_Status t) = task_Generation task /\
  st_JobName (task_Status t) = om_Name (job_Meta job) /\
  st_StartTime (task_Status t) = jst_StartTime (job_Status job) /\
  st_CompletionTime (task_Status t) = jst_CompletionTime (job_Status job) /\
  exists c, FindStatusCondition (st_Conditions (task_Status t)) conditionReady = Some c /\
    (cond_Status c = ConditionTrue <-> phase = TaskPhaseCompleted) /\
    (cond_Status c = ConditionFalse <-> phase = TaskPhaseFailed \/ phase = TaskPhaseTimedOut) /\
    cond_Reason c = reason /\ cond_Message c = msg.
Proof.
  intros Hwf Hx Hin. destruct (sync_writes _ _ _ _ _ _ Hx t Hin) as (now & to & d & Ho & He).
  split; [eapply observeResult_wf; [exact Ho|by apply synced_wf]|].
  destruct (synced_kept _ _ _ _ _ _ _ _ Ho) as (Hm & Hs & Hk). split_and!; [done..|].
  destruct (derivePhase job) as [[phase reason] msg].
  destruct Hk as (Hp & Hg & Hj & Hst & Hct & c & Hc & Hcs & Hcr & Hcm & _).
  split_and!; [done..|]. exists c. rewrite Hcs. split_and!; [done| | |done|done]; destruct phase; cbn; naive_solver.
Qed.

(** Status writes converge: when the server stores what it was sent and the
    Result is decided, a second sync with the same Job writes nothing, reports
    nothing and asks for no requeue. *)
Theorem syncStatus_converges r task job egress tr task' d :
  status_wf (task_Status task) ->
  exec (syncStatus r task job egress) tr (Ok (task', d)) ->
  (forall t t', ev (CStatusUpdate t) (Ok t') ∈ tr -> t' = t) -> resultDecided task' = true ->
  forall r' egress' tr' res', exec (syncStatus r' task' job egress') tr' res' ->
    calls tr' = [CNow] /\ exists t, res' = Ok (t, 0).
Proof.
  intros Hwf Hx Hecho Hdec r' egress' tr' res' Hx'.
  destruct (derivePhase job) as [[phase reason] msg] eqn:Hd.
  assert (Hobs : exists now to d, exec (observeResult r (synced now task job) (om_UID (job_Meta job)) egress) to (Ok (task', d))).
  { destruct (syncStatus_cases _ _ _ _ _ _ _ _ _ Hd Hx) as (now & to & [(e & _ & _ & ?)|(t & d' & Ho & Hc)]); [done|].
    exists now, to, d'. destruct Hc as [(_ & _ & [= -> ->])|(_ & [(e & _ & ?)|(t' & Htr & [= -> ->])])]; [done..|].
    rewrite (Hecho t t'); [done|]. rewrite Htr. right. apply elem_of_app. right. left. }
  destruct Hobs as (now & to & d0 & Ho). destruct (synced_kept _ _ _ _ _ _ _ _ Ho) as (Hm & Hs & Hk).
  assert (Hwf' : status_wf (task_Status task')) by (eapply observeResult_wf; [exact Ho|by apply synced_wf]).
  destruct (syncStatus_cases _ _ _ _ _ _ _ _ _ Hd Hx') as (now2 & to2 & Hcases).
  assert (Hfin : forall res, exec (observeResult r' (synced now2 task' job) (om_UID (job_Meta job)) egress') to2 res ->
    to2 = [] /\ res = Ok (synced now2 task' job, 0)).
  { intros res. unfold observeResult. rewrite synced_decided, Hdec. apply exec_ret. }
  assert (Heq : equalStatus (task_Status task') (task_Status (synced now2 task' job)) = true).
  { apply (synced_fixpoint now2 task); [done| |done]. unfold task_Generation. by rewrite Hm. }
  destruct Hcases as [(e & Ho2 & _)|(t & d2 & Ho2 & Hc)]; [by apply Hfin in Ho2 as [_ ?]|].
  apply Hfin in Ho2 as [-> [= -> ->]].
  destruct Hc as [(_ & -> & ->)|(Hne & _)]; [|congruence]. split; [done|by eexists].
Qed.

End Cases.

(** ** The theorems at samples *)

Section Witnesses.
Existing Instances KubeRef.lib KubeRef.laws Samples.tables.

Definition sample_sync : Prog (result (Task * Duration)) :=
  syncStatus Samples.reconciler Samples.task Samples.finished_job [].
Definition sample_trace : Trace := trace_of Samples.handle sample_sync Samples.finished.
Definition sample_synced : Task :=
  match (run Samples.handle sample_sync Samples.finished).1 with Ok (t, _) => t | Err _ => Samples.task end.

Lemma sample_sync_exec : exec sample_sync sample_trace (Ok (sample_synced, 0)).
Proof. refine (eq_rect _ (exec _ _) (run_exec Samples.handle sample_sync Samples.finished) _ _). vm_compute. reflexivity. Qed.

Lemma syncStatus_mirrors_witness : task_Phase sample_synced = TaskPhaseCompleted.
Proof.
  assert (Hin : CStatusUpdate sample_synced ∈ calls sample_trace)
    by (apply (list_elem_of_lookup_2 _ 3); vm_compute; reflexivity).
  destruct (syncStatus_mirrors _ Samples.task Samples.finished_job _ _ _ sample_synced NoDup_nil_2
    sample_sync_exec Hin) as (_ & _ & _ & _ & Hp & _). exact Hp.
Defined.

Lemma syncStatus_converges_witness :
  calls (trace_of Samples.handle (syncStatus Samples.reconciler sample_synced Samples.finished_job []) Samples.finished)
  = [CNow].
Proof.
  assert (Hall : Forall (fun e : Ev => match e with existT (CStatusUpdate t) (Ok t') => t' = t | _ => True end)
    sample_trace) by (vm_compute; repeat constructor).
  rewrite Forall_forall in Hall.
  apply (syncStatus_converges _ Samples.task Samples.finished_job _ _ _ _ NoDup_nil_2 sample_sync_exec
    (fun t t' Hin => Hall _ Hin)) with (r' := Samples.reconciler) (egress' := [])
    (res' := (run Samples.handle (syncStatus Samples.reconciler sample_synced Samples.finished_job []) Samples.finished).1).
  - vm_compute. reflexivity.
  - apply run_exec.
Defined.
End Witnesses.
End Sync.
