(* ===== verification/Reconcile.v ===== *)
(** * The reconcile loop

    [internal/controller/task_controller.go]: [Reconcile] with its steps, the
    upsert of owned resources, and the garbage collection of terminal Tasks. *)

From S2P Require Import Prelude GoString GoTime GoNet GoJson GoUrl Kube Api Effects KubeLib Metrics.
From S2P Require Import PolicyObjects PolicyConfig PolicyNetwork Reconciler Samples PolicyResult.
From S2P Require Import Build Status TaskResult Sync.

Module Reconcile.
Import Labels Rbac Prompt Config Network Build Status TaskResult Sync.

Definition agentClassMissingRequeue : Duration := 30 * Second.

(** The mutate functions: the live object with the reconciled fields of the
    desired one. *)
Definition mutate_ServiceAccount (existing desired : ServiceAccount) : ServiceAccount :=
  mkServiceAccount (sa_Meta existing) (sa_AutomountServiceAccountToken desired).
Definition mutate_Role (existing desired : Role) : Role :=
  mkRole (role_Meta existing) (role_Rules desired).
Definition mutate_RoleBinding (existing desired : RoleBinding) : RoleBinding :=
  mkRoleBinding (rb_Meta existing) (rb_Subjects desired) (rb_RoleRef existing).
Definition mutate_NetworkPolicy (existing desired : NetworkPolicy) : NetworkPolicy :=
  mkNetworkPolicy (np_Meta existing) (np_Spec desired).
Definition mutate_ConfigMap (existing desired : ConfigMap) : ConfigMap :=
  mkConfigMap (cm_Meta existing) (cm_Data desired).

Section Reconcile.
Context `{KubeLib, JsonErrors, UnicodeTables}.

Definition api_unit {A} (r : res ApiError A) : result unit :=
  match r with Ok _ => Ok tt | Err e => Err (ErrApi e) end.

Definition ensureOwned (k : Kind) (task : Task) (desired : obj k) (mutate : obj k -> obj k -> obj k)
  : Prog (result unit) :=
  match SetControllerReference (task_Meta task) (obj_meta k desired) with
  | Err e => Ret (Err e)
  | Ok m =>
    let desired := set_meta k m desired in
    let! got := call (CGet k (key_of (obj_meta k desired))) in
    match got with
    | Err e =>
      if IsNotFound e then
        let! c := call (CCreate k desired) in Ret (api_unit c)
      else Ret (Err (ErrApi e))
    | Ok existing =>
      let before := existing in
      let existing := mutate existing desired in
      let existing := set_meta k (set_labels (om_Labels (obj_meta k desired)) (obj_meta k existing)) existing in
      if DeepEqual k before existing then Ret (Ok tt)
      else let! u := call (CUpdate k existing) in Ret (api_unit u)
    end
  end.

Definition deleteIfExists (k : Kind) (key : NamespacedName) : Prog (result unit) :=
  let! d := call (CDelete k key None) in
  Ret (match d with
       | Ok _ => Ok tt
       | Err e => if IsNotFound e then Ok tt else Err (ErrApi e)
       end).

Definition task_key (task : Task) : NamespacedName := mkNN (task_Namespace task) (taskResourceName task).

Definition ensureServiceAccount (task : Task) : Prog (result unit) :=
  ensureOwned KServiceAccount task (buildServiceAccount task) mutate_ServiceAccount.

Definition ensureRole (task : Task) : Prog (result unit) :=
  match BuildRole (task_Name task) (task_Namespace task) (task_rbac task) with
  | None => deleteIfExists KRole (task_key task)
  | Some desired => ensureOwned KRole task desired mutate_Role
  end.

Definition ensureRoleBinding (task : Task) : Prog (result unit) :=
  match BuildRoleBinding (task_Name task) (task_Namespace task) (task_rbac task) with
  | None => deleteIfExists KRoleBinding (task_key task)
  | Some desired => ensureOwned KRoleBinding task desired mutate_RoleBinding
  end.

Definition resolver (r : TaskReconciler) : Resolver := default DefaultResolver (r_Resolver r).

Definition ensureNetworkPolicy (r : TaskReconciler) (task : Task) (egress : list string)
  : Prog (result unit) :=
  let! desired := BuildNetworkPolicy (resolver r) (task_Name task) (task_Namespace task) egress
                    (perm_EgressPorts (spec_Permissions (task_Spec task))) in
  match desired with
  | Err e => Ret (Err e)
  | Ok desired => ensureOwned KNetworkPolicy task desired mutate_NetworkPolicy
  end.

Definition ensurePromptConfigMap (task : Task) : Prog (result unit) :=
  match BuildInlinePromptConfigMap (task_Name task) (task_Namespace task) (spec_Prompt (task_Spec task)) with
  | None => deleteIfExists KConfigMap (mkNN (task_Namespace task) (InlinePromptConfigMapName (task_Name task)))
  | Some desired => ensureOwned KConfigMap task desired mutate_ConfigMap
  end.

Definition ensureAgentConfigMap (task : Task) (agent : ClusterAgentClass) : Prog (result unit) :=
  match BuildAgentConfigMap (task_Name task) (task_Namespace task)
          (agent_Config (spec_Agent (task_Spec task))) (cac_Inputs (class_Spec agent)) with
  | None => deleteIfExists KConfigMap (mkNN (task_Namespace task) (AgentConfigMapName (task_Name task)))
  | Some desired => ensureOwned KConfigMap task desired mutate_ConfigMap
  end.

Definition ensureJob (r : TaskReconciler) (task : Task) (agent : ClusterAgentClass)
    (effectiveSecrets : list string) : Prog (result Job) :=
  match buildJob task agent effectiveSecrets (r_JobTTLSeconds r) with
  | Err e => Ret (Err e)
  | Ok desired =>
    match SetControllerReference (task_Meta task) (job_Meta desired) with
    | Err e => Ret (Err e)
    | Ok m =>
      let desired := set_meta KJob m desired in
      let! got := call (CGet KJob (key_of (job_Meta desired))) in
      match got with
      | Err e =>
        if IsNotFound e then let! c := call (CCreate KJob desired) in Ret (api c)
        else Ret (Err (ErrApi e))
      | Ok existing => Ret (Ok existing)
      end
    end
  end.

Definition collectTerminal (r : TaskReconciler) (task : Task) : Prog (CtrlResult * result unit) :=
  match deletionDeadline task (r_DefaultTaskTTLSeconds r) with
  | None => Ret (mkCtrl 0, Ok tt)
  | Some deadline =>
    let! now := call CNow in
    let remaining := Time_Sub deadline now in
    if 0 <? remaining then Ret (mkCtrl remaining, Ok tt)
    else
      let! d := call (CDelete KTask (key_of (task_Meta task)) (Some (task_UID task))) in
      Ret (mkCtrl 0,
           match d with
           | Ok _ => Ok tt
           | Err e => if IsNotFound e then Ok tt else Err (ErrApi e)
           end)
  end.

(** A row of the table of steps. *)
Record Step := mkStep {
  step_metric : string; step_wrap : string; step_invalidReason : string; step_run : Prog (result unit) }.

Definition steps (r : TaskReconciler) (task : Task) (agent : ClusterAgentClass) (egress : list string)
  : list Step :=
  [ mkStep StepServiceAccount "ensure service account" "" (ensureServiceAccount task);
    mkStep StepRole "ensure role" "" (ensureRole task);
    mkStep StepRoleBinding "ensure rolebinding" "" (ensureRoleBinding task);
    mkStep StepNetworkPolicy "ensure network policy" reasonEgressResolveFail
      (ensureNetworkPolicy r task egress);
    mkStep StepPromptConfigMap "ensure prompt configmap" "" (ensurePromptConfigMap task);
    mkStep StepAgentConfigMap "ensure config configmap" "" (ensureAgentConfigMap task agent) ].

(** The loop over the steps: [None] when all succeeded, or what [Reconcile]
    returns. *)
Fixpoint run_steps (r : TaskReconciler) (task : Task) (l : list Step) : Prog (option (result unit)) :=
  match l with
  | [] => Ret None
  | step :: l' =>
    let! x := step_run step in
    match x with
    | Ok _ => run_steps r task l'
    | Err e =>
      ObserveReconcileError (step_metric step) ;;
      if negb (step_invalidReason step =? "")%string && IsPermanent e then
        let! f := failTask r task (step_invalidReason step) e in Ret (Some f)
      else Ret (Some (Err (ErrWrap (step_wrap step +:+ ": ") e "")))
    end
  end.

Definition effective_egress (task : Task) (agent : ClusterAgentClass) : list string :=
  MergeStringSets [perm_Egress (spec_Permissions (task_Spec task)); req_Egress (cac_Requires (class_Spec agent))].
Definition effective_secrets (task : Task) (agent : ClusterAgentClass) : list string :=
  MergeStringSets [perm_Secrets (spec_Permissions (task_Spec task)); req_Secrets (cac_Requires (class_Spec agent))].

(** What follows the steps: the Job, the status and the requeue. *)
Definition reconcile_job (r : TaskReconciler) (task : Task) (agent : ClusterAgentClass)
  : Prog (CtrlResult * result unit) :=
  let egress := effective_egress task agent in
  let! job := ensureJob r task agent (effective_secrets task agent) in
  match job with
  | Err e =>
    ObserveReconcileError StepJob ;;
    if IsPermanent e then
      let! f := failTask r task reasonInvalidSpec e in Ret (mkCtrl 0, f)
    else Ret (mkCtrl 0, Err (ErrWrap "ensure job: " e ""))
  | Ok job =>
    let! s := syncStatus r task job egress in
    match s with
    | Err e => ObserveReconcileError StepStatus ;; Ret (mkCtrl 0, Err e)
    | Ok (task, resultRequeue) =>
      let res := minRequeue (mkCtrl 0) resultRequeue in
      let res :=
        if (0 <? r_EgressRefreshInterval r) && negb (isTerminal (task_Phase task)) && HasHostnames egress
        then minRequeue res (r_EgressRefreshInterval r) else res in
      Ret (res, Ok tt)
    end
  end.

(** A Task that is not terminal. *)
Definition reconcile_live (r : TaskReconciler) (task : Task) : Prog (CtrlResult * result unit) :=
  match validateTask task with
  | Err e =>
    ObserveReconcileError StepValidate ;;
    let! f := failTask r task reasonInvalidSpec e in Ret (mkCtrl 0, f)
  | Ok _ =>
    let! got := call (CGet KClusterAgentClass (mkNN "" (agent_Ref (spec_Agent (task_Spec task))))) in
    match got with
    | Err e =>
      if IsNotFound e then
        ObserveReconcileError StepAgentClassLookup ;;
        let! w := markWaitingForAgentClass r task in
        Ret (match w with
             | Err e => (mkCtrl 0, Err e)
             | Ok _ => (mkCtrl agentClassMissingRequeue, Ok tt)
             end)
      else ObserveReconcileError StepAgentClassLookup ;; Ret (mkCtrl 0, Err (ErrApi e))
    | Ok agent =>
      let! s := run_steps r task (steps r task agent (effective_egress task agent)) in
      match s with
      | Some f => Ret (mkCtrl 0, f)
      | None => reconcile_job r task agent
      end
    end
  end.

(** A terminal Task: its Result and its garbage collection. *)
Definition reconcile_terminal (r : TaskReconciler) (task : Task) : Prog (CtrlResult * result unit) :=
  let! o := recordTerminalResult r task in
  match o with
  | Err e => ObserveReconcileError StepStatus ;; Ret (mkCtrl 0, Err e)
  | Ok (task, requeue) =>
    let! c := collectTerminal r task in
    Ret (minRequeue c.1 requeue, c.2)
  end.

Definition Reconcile (r : TaskReconciler) (req : NamespacedName) : Prog (CtrlResult * result unit) :=
  let! got := call (CGet KTask req) in
  match got with
  | Err e => Ret (mkCtrl 0, if IsNotFound e then Ok tt else Err (ErrApi e))
  | Ok task =>
    if isTerminal (task_Phase task) then reconcile_terminal r task else reconcile_live r task
  end.

(** [tasksForAgentClass] on the name of the class. *)
Definition tasksForAgentClass (name : string) : Prog (list NamespacedName) :=
  let! tasks := call (CListTasksByAgent name) in
  Ret (match tasks with
       | Err _ => []
       | Ok tasks => (fun t => key_of (task_Meta t)) <$> filter (fun t => isTerminal (task_Phase t) = false) tasks
       end).

End Reconcile.

(** ** Mutators

    What [ensureOwned] relies on in a mutate function: it copies the body of the
    desired object and leaves the metadata of the live one. *)

Class Mutator (k : Kind) (mutate : obj k -> obj k -> obj k) := {
  mutate_meta : forall e d, obj_meta k (mutate e d) = obj_meta k e;
  mutate_body : forall e d, body_eq k (mutate e d) d;
  mutate_set_meta : forall m e d, mutate (set_meta k m e) d = set_meta k m (mutate e d);
  mutate_again : forall e d, mutate (mutate e d) d = mutate e d;
  mutate_self : forall d, mutate d d = d }.

#[export] Instance mutator_ServiceAccount : Mutator KServiceAccount mutate_ServiceAccount.
Proof. split; intros; cbn in *; by repeat match goal with x : ServiceAccount |- _ => destruct x end. Qed.
#[export] Instance mutator_Role : Mutator KRole mutate_Role.
Proof. split; intros; cbn in *; by repeat match goal with x : Role |- _ => destruct x end. Qed.
#[export] Instance mutator_RoleBinding : Mutator KRoleBinding mutate_RoleBinding.
Proof. split; intros; cbn in *; by repeat match goal with x : RoleBinding |- _ => destruct x end. Qed.
#[export] Instance mutator_NetworkPolicy : Mutator KNetworkPolicy mutate_NetworkPolicy.
Proof. split; intros; cbn in *; by repeat match goal with x : NetworkPolicy |- _ => destruct x end. Qed.
#[export] Instance mutator_ConfigMap : Mutator KConfigMap mutate_ConfigMap.
Proof. split; intros; cbn in *; by repeat match goal with x : ConfigMap |- _ => destruct x end. Qed.

Lemma obj_meta_set_meta k m (o : obj k) : obj_meta k (set_meta k m o) = m.
Proof. by destruct k. Qed.
Lemma set_meta_set_meta k m m' (o : obj k) : set_meta k m (set_meta k m' o) = set_meta k m o.
Proof. by destruct k. Qed.
Lemma set_meta_self k (o : obj k) : set_meta k (obj_meta k o) o = o.
Proof. by destruct k, o. Qed.
Lemma body_eq_set_meta k m (a b : obj k) : body_eq k a b -> body_eq k (set_meta k m a) b.
Proof. by destruct k. Qed.
Lemma body_eq_refl k (a : obj k) : body_eq k a a.
Proof. by destruct k. Qed.
Lemma body_eq_trans k (a b c : obj k) : body_eq k a b -> body_eq k b c -> body_eq k a c.
Proof. destruct k; cbn; congruence. Qed.

(** ** Case analysis of the operations *)

Section Cases.
Context `{KubeLaws, JsonErrors, UnicodeTables}.

(** The object that [ensureOwned] sends to [Update]. *)
Definition updated (k : Kind) (mutate : obj k -> obj k -> obj k) (existing desired : obj k) : obj k :=
  let e := mutate existing desired in
  set_meta k (set_labels (om_Labels (obj_meta k desired)) (obj_meta k e)) e.

Lemma ensureOwned_cases k task desired mutate tr res :
  exec (ensureOwned k task desired mutate) tr res ->
  (exists e, SetControllerReference (task_Meta task) (obj_meta k desired) = Err e /\ tr = [] /\ res = Err e) \/
  exists m, SetControllerReference (task_Meta task) (obj_meta k desired) = Ok m /\
    let d := set_meta k m desired in let get := CGet k (key_of (obj_meta k desired)) in
    (exists e, IsNotFound e = false /\ tr = [ev get (Err e)] /\ res = Err (ErrApi e)) \/
    (exists e x, IsNotFound e = true /\ tr = [ev get (Err e); ev (CCreate k d) x] /\ res = api_unit x) \/
    (exists o, DeepEqual k o (updated k mutate o d) = true /\ tr = [ev get (Ok o)] /\ res = Ok tt) \/
    (exists o x, DeepEqual k o (updated k mutate o d) = false /\
       tr = [ev get (Ok o); ev (CUpdate k (updated k mutate o d)) x] /\ res = api_unit x).
Proof.
  unfold ensureOwned. destruct (SetControllerReference _ _) as [m|e] eqn:Hm.
  2: { intros [-> ->]%exec_ret. left. by exists e. }
  intros (got & tr' & -> & Hx)%exec_call_inv. right. exists m. split; [done|]. cbn zeta.
  rewrite obj_meta_set_meta. apply set_controller_key in Hm as [<- _].
  destruct got as [o|e].
  - fold (updated k mutate o (set_meta k m desired)) in Hx. right. right.
    destruct (DeepEqual k o (updated k mutate o (set_meta k m desired))) eqn:He.
    + apply exec_ret in Hx as [-> ->]. left. by exists o.
    + apply exec_call_inv in Hx as (x & t & -> & [-> ->]%exec_ret). right. by exists o, x.
  - destruct (IsNotFound e) eqn:Hn.
    + apply exec_call_inv in Hx as (x & t & -> & [-> ->]%exec_ret). right. left. by exists e, x.
    + apply exec_ret in Hx as [-> ->]. left. by exists e.
Qed.

Lemma deleteIfExists_cases k key tr res :
  exec (deleteIfExists k key) tr res ->
  exists x, tr = [ev (CDelete k key None) x] /\
    res = match x with Ok _ => Ok tt | Err e => if IsNotFound e then Ok tt else Err (ErrApi e) end.
Proof. intros (x & t & -> & [-> ->]%exec_ret)%exec_call_inv. by exists x. Qed.

Lemma ensureJob_cases r task agent secrets tr res :
  exec (ensureJob r task agent secrets) tr res ->
  (exists e, buildJob task agent secrets (r_JobTTLSeconds r) = Err e /\ tr = [] /\ res = Err e) \/
  exists desired, buildJob task agent secrets (r_JobTTLSeconds r) = Ok desired /\
  ((exists e, SetControllerReference (task_Meta task) (job_Meta desired) = Err e /\ tr = [] /\ res = Err e) \/
  exists m, SetControllerReference (task_Meta task) (job_Meta desired) = Ok m /\
    let d := set_meta KJob m desired in let get := CGet KJob (mkNN (task_Namespace task) (task_Name task)) in
    (exists e, IsNotFound e = false /\ tr = [ev get (Err e)] /\ res = Err (ErrApi e)) \/
    (exists e x, IsNotFound e = true /\ tr = [ev get (Err e); ev (CCreate KJob d) x] /\ res = api x) \/
    (exists o, tr = [ev get (Ok o)] /\ res = Ok o)).
Proof.
  unfold ensureJob. destruct (buildJob _ _ _ _) as [desired|e] eqn:Hb.
  2: { intros [-> ->]%exec_ret. left. by exists e. }
  intros Hx. right. exists desired. split; [done|].
  destruct (SetControllerReference _ _) as [m|e] eqn:Hm.
  2: { apply exec_ret in Hx as [-> ->]. left. by exists e. }
  right. exists m. split; [done|]. cbn zeta.
  apply exec_call_inv in Hx as (got & tr' & -> & Hx).
  apply set_controller_key in Hm as [Hm _]. apply buildJob_key in Hb. rewrite Hb in Hm.
  change (job_Meta (set_meta KJob m desired)) with m in *. rewrite Hm in *.
  destruct got as [o|e].
  - apply exec_ret in Hx as [-> ->]. right. right. by exists o.
  - destruct (IsNotFound e) eqn:Hn.
    + apply exec_call_inv in Hx as (x & t & -> & [-> ->]%exec_ret). right. left. by exists e, x.
    + apply exec_ret in Hx as [-> ->]. left. by exists e.
Qed.

(** ** Steps *)

Definition owned_kind (k : Kind) : bool :=
  match k with
  | KServiceAccount | KRole | KRoleBinding | KNetworkPolicy | KConfigMap => true
  | _ => false
  end.

(** The calls of the steps: owned objects other than the Job, and lookups. *)
Definition step_call (c : Call) : bool :=
  match c with
  | CGet k _ | CCreate k _ | CUpdate k _ => owned_kind k
  | CDelete k _ uid => owned_kind k && match uid with None => true | Some _ => false end
  | CLookupHost _ => true
  | _ => false
  end.

Lemma ensureOwned_only k task desired mutate :
  owned_kind k = true -> only (fun c => step_call c = true) (ensureOwned k task desired mutate).
Proof.
  intros Hk tr res Hx.
  destruct (ensureOwned_cases _ _ _ _ _ _ Hx) as [(e & _ & -> & _)|(m & _ & [(e & _ & -> & _)|
    [(e & x & _ & -> & _)|[(o & _ & -> & _)|(o & x & _ & -> & _)]]])]; by repeat constructor.
Qed.

Lemma deleteIfExists_only k key :
  owned_kind k = true -> only (fun c => step_call c = true) (deleteIfExists k key).
Proof.
  intros Hk tr res (x & -> & _)%deleteIfExists_cases. repeat constructor. cbn. by rewrite Hk.
Qed.

Lemma resolve_entries_only rs egress set :
  only (fun c => exists h, c = CLookupHost h) (resolve_entries rs egress set).
Proof.
  revert set. induction egress as [|e es IH]; intros set; cbn [resolve_entries]; [apply only_ret|].
  destruct (_ =? _)%string; [apply IH|]. destruct (ContainsByte _ _).
  { destruct (ParseCIDR _); [apply IH|apply only_ret]. }
  destruct (ParseIP _); [apply IH|]. apply only_bind.
  - unfold lookupWithTimeout, LookupHost. destruct rs as [|h [er|]]; [|apply only_ret..].
    apply only_call; [by eexists|]. intros; apply only_ret.
  - intros [addrs|er]; [apply IH|apply only_ret].
Qed.

Lemma BuildNetworkPolicy_only rs name ns egress ports :
  only (fun c => exists h, c = CLookupHost h) (BuildNetworkPolicy rs name ns egress ports).
Proof.
  unfold BuildNetworkPolicy, resolveEgress.
  apply only_bind; [apply only_bind; [apply resolve_entries_only|]|]; intros; apply only_ret.
Qed.

Lemma ensureNetworkPolicy_only r task egress :
  only (fun c => step_call c = true) (ensureNetworkPolicy r task egress).
Proof.
  unfold ensureNetworkPolicy. apply only_bind.
  - eapply only_impl; [|apply BuildNetworkPolicy_only]. by intros c [h ->].
  - intros [np|e]; [by apply ensureOwned_only|apply only_ret].
Qed.

Lemma steps_only r task agent egress step :
  step ∈ steps r task agent egress -> only (fun c => step_call c = true) (step_run step).
Proof.
  intros Hin. unfold steps in Hin. rewrite !elem_of_cons in Hin.
  destruct Hin as [->|[->|[->|[->|[->|[->|Hin]]]]]]; cbn [step_run]; [| | | | | |by apply elem_of_nil in Hin].
  - by apply ensureOwned_only.
  - unfold ensureRole. destruct (BuildRole _ _ _); [by apply ensureOwned_only|by apply deleteIfExists_only].
  - unfold ensureRoleBinding. destruct (BuildRoleBinding _ _ _); [by apply ensureOwned_only|by apply deleteIfExists_only].
  - apply ensureNetworkPolicy_only.
  - unfold ensurePromptConfigMap. destruct (BuildInlinePromptConfigMap _ _ _);
      [by apply ensureOwned_only|by apply deleteIfExists_only].
  - unfold ensureAgentConfigMap. destruct (BuildAgentConfigMap _ _ _ _);
      [by apply ensureOwned_only|by apply deleteIfExists_only].
Qed.

(** All steps succeeded: the trace is theirs, in order. *)
Lemma run_steps_none r task l tr :
  exec (run_steps r task l) tr None ->
  exists trs, tr = concat trs /\ Forall2 (fun s t => exec (step_run s) t (Ok tt)) l trs.
Proof.
  revert tr. induction l as [|s l IH]; intros tr Hx; cbn [run_steps] in Hx.
  { apply exec_ret in Hx as [-> _]. by exists []. }
  apply exec_bind in Hx as (t1 & t2 & x & -> & Hs & Hx). destruct x as [[]|e].
  - destruct (IH _ Hx) as (trs & -> & Hf). exists (t1 :: trs). split; [done|by constructor].
  - apply exec_call_inv in Hx as ([] & t3 & -> & Hx). destruct (_ && _).
    + by apply exec_bind in Hx as (t4 & t5 & f & _ & _ & [_ ?]%exec_ret).
    + by apply exec_ret in Hx as [_ ?].
Qed.

(** A step failed: the ones before succeeded, and its error either fails the
    Task or is returned. *)
Lemma run_steps_some r task l tr f :
  exec (run_steps r task l) tr (Some f) ->
  exists pre step post trs t e tf, l = pre ++ step :: post /\
    tr = concat trs ++ t ++ ev (CMetric (ReconcileError (step_metric step))) tt :: tf /\
    Forall2 (fun s t => exec (step_run s) t (Ok tt)) pre trs /\ exec (step_run step) t (Err e) /\
    ((step_invalidReason step <> ""%string /\ IsPermanent e = true /\
      exec (failTask r task (step_invalidReason step) e) tf f) \/
     ((step_invalidReason step = ""%string \/ IsPermanent e = false) /\ tf = [] /\
      f = Err (ErrWrap (step_wrap step +:+ ": ") e ""))).
Proof.
  revert tr. induction l as [|s l IH]; intros tr Hx; cbn [run_steps] in Hx.
  { by apply exec_ret in Hx as [_ ?]. }
  apply exec_bind in Hx as (t1 & t2 & x & -> & Hs & Hx). destruct x as [[]|e].
  - destruct (IH _ Hx) as (pre & step & post & trs & t & e & tf & -> & -> & Hf & He & Hrest).
    exists (s :: pre), step, post, (t1 :: trs), t, e, tf. split_and!; [done| |by constructor|done..].
    cbn [concat]. by rewrite app_assoc.
  - apply exec_call_inv in Hx as ([] & t3 & -> & Hx).
    exists [], s, l, [], t1, e, t3. split_and!; [done|done|constructor|done|].
    destruct (String.eqb_spec (step_invalidReason s) "") as [Hr|Hr]; cbn [negb andb] in Hx.
    + apply exec_ret in Hx as [-> [= ->]]. right. split_and!; [by left|done..].
    + destruct (IsPermanent e) eqn:Hp.
      * apply exec_bind in Hx as (t4 & t5 & f' & -> & Hf & [-> [= ->]]%exec_ret). left.
        rewrite app_nil_r. done.
      * apply exec_ret in Hx as [-> [= ->]]. right. split_and!; [by right|done..].
Qed.

Lemma steps_trace_calls r task agent egress l trs c :
  (forall s, s ∈ l -> s ∈ steps r task agent egress) ->
  Forall2 (fun s t => exec (step_run s) t (Ok tt)) l trs -> c ∈ calls (concat trs) -> step_call c = true.
Proof.
  intros Hl Hf. induction Hf as [|s t l trs Hs Hf IH]; cbn [concat]; [intros []%elem_of_calls_nil|].
  intros [Hc|Hc]%elem_of_calls_app.
  - apply (only_exec _ _ _ _ _ (steps_only r task agent egress s (Hl s ltac:(left))) Hs Hc).
  - apply IH; [|done]. intros s' Hs'. apply Hl. by right.
Qed.

(** ** Owned objects *)

(** After a trace the server holds [o] under [key]: it accepted [o] in a create
    or an update, or it answered a read with it. *)
Definition holds (k : Kind) (key : NamespacedName) (tr : Trace) (o : obj k) : Prop :=
  (exists x, ev (CCreate k o) (Ok x) ∈ tr) \/ (exists x, ev (CUpdate k o) (Ok x) ∈ tr) \/
  ev (CGet k key) (Ok o) ∈ tr.

Lemma updated_spec k mutate `{!Mutator k mutate} o d :
  body_eq k (updated k mutate o d) d /\
  label_map (obj_meta k (updated k mutate o d)) = label_map (obj_meta k d).
Proof.
  unfold updated. split; [|by rewrite obj_meta_set_meta]. apply body_eq_set_meta, mutate_body.
Qed.

(** The desired object, or an updated one, needs no further update. *)
Lemma updated_stable k mutate `{!Mutator k mutate} d : updated k mutate d d = d.
Proof. unfold updated. rewrite mutate_self. destruct k, d as [m ?]; by destruct m. Qed.

Lemma updated_again k mutate `{!Mutator k mutate} o d :
  updated k mutate (updated k mutate o d) d = updated k mutate o d.
Proof.
  unfold updated. rewrite !mutate_set_meta, mutate_again, !obj_meta_set_meta, mutate_meta.
  by rewrite !set_meta_set_meta.
Qed.

Lemma ensureOwned_ok k mutate `{!Mutator k mutate} task desired tr :
  exec (ensureOwned k task desired mutate) tr (Ok tt) ->
  exists m o, SetControllerReference (task_Meta task) (obj_meta k desired) = Ok m /\
    holds k (key_of (obj_meta k desired)) tr o /\ body_eq k o desired /\
    label_map (obj_meta k o) = label_map (obj_meta k desired) /\
    DeepEqual k o (updated k mutate o (set_meta k m desired)) = true.
Proof.
  intros Hx. destruct (ensureOwned_cases _ _ _ _ _ _ Hx) as [(e & _ & _ & ?)|(m & Hm & Hc)]; [done|].
  exists m. pose proof Hm as Hm'. apply set_controller_key in Hm' as [_ Hl].
  assert (Hd : body_eq k (set_meta k m desired) desired) by apply body_eq_set_meta, body_eq_refl.
  assert (Hdl : label_map (obj_meta k (set_meta k m desired)) = label_map (obj_meta k desired)).
  { rewrite obj_meta_set_meta. unfold label_map. by rewrite Hl. }
  destruct Hc as [(e & _ & _ & ?)|[(e & [x|e'] & _ & -> & Hr)|[(o & He & -> & _)|(o & [x|e'] & He & -> & Hr)]]];
    try done.
  - exists (set_meta k m desired). rewrite updated_stable by done.
    split_and!; [done| |done..|apply deep_equal_refl]. left. exists x. right. left.
  - exists o. pose proof He as He0. apply deep_equal_body in He as [He1 He2].
    destruct (updated_spec k mutate o (set_meta k m desired)) as [Hb Hlb].
    split_and!; [done|right; right; left|by eapply body_eq_trans, body_eq_trans|congruence|done].
  - destruct (updated_spec k mutate o (set_meta k m desired)) as [Hb Hlb].
    exists (updated k mutate o (set_meta k m desired)). rewrite updated_again by done.
    split_and!; [done|right; left; exists x; right; left|by eapply body_eq_trans|congruence|apply deep_equal_refl].
Qed.

(** ** Theorems on owned objects *)

(** C34. The upsert establishes its contract and stays quiet afterwards.  When
    [ensureOwned] succeeds, the server holds an object with the labels and the
    reconciled fields of the desired one; and a second upsert that reads this
    object back performs no write. *)
Theorem ensureOwned_converges k mutate `{!Mutator k mutate} task desired tr :
  exec (ensureOwned k task desired mutate) tr (Ok tt) ->
  exists o, holds k (key_of (obj_meta k desired)) tr o /\ body_eq k o desired /\
    label_map (obj_meta k o) = label_map (obj_meta k desired) /\
    forall tr' res, exec (ensureOwned k task desired mutate) tr' res ->
      (forall key x, ev (CGet k key) x ∈ tr' -> x = Ok o) ->
      tr' = [ev (CGet k (key_of (obj_meta k desired))) (Ok o)] /\ res = Ok tt.
Proof.
  intros Hx. destruct (ensureOwned_ok _ _ _ _ _ Hx) as (m & o & Hm & Hh & Hb & Hl & He).
  exists o. split_and!; [done..|]. intros tr' res Hx' Hget.
  destruct (ensureOwned_cases _ _ _ _ _ _ Hx') as [(e & Hm' & _)|(m' & Hm' & Hc')]; [congruence|].
  assert (m' = m) as -> by congruence.
  assert (Hfirst : forall x t, tr' = ev (CGet k (key_of (obj_meta k desired))) x :: t -> x = Ok o).
  { intros x t ->. apply (Hget _ x). left. }
  destruct Hc' as [(e & _ & -> & _)|[(e & x & _ & -> & _)|[(o' & _ & -> & ->)|(o' & x & He' & -> & _)]]];
    specialize (Hfirst _ _ eq_refl); simplify_eq; [done|congruence].
Qed.

End Cases.

(** ** The theorems at samples *)

#[local] Existing Instances KubeRef.lib KubeRef.laws Samples.errors_text Samples.tables.

Definition sample_ensure : Prog (result unit) := ensureServiceAccount Samples.task.

Lemma sample_ensure_exec : exec sample_ensure (trace_of Samples.handle sample_ensure Samples.fresh) (Ok tt).
Proof.
  refine (eq_rect _ (exec _ _) (run_exec Samples.handle sample_ensure Samples.fresh) _ _). vm_compute. reflexivity.
Qed.

Lemma ensureOwned_converges_witness : exists o : ServiceAccount,
  holds KServiceAccount (mkNN "agents" "demo") (trace_of Samples.handle sample_ensure Samples.fresh) o /\
  sa_AutomountServiceAccountToken o = Some true.
Proof.
  destruct (ensureOwned_converges KServiceAccount mutate_ServiceAccount _ _ _ sample_ensure_exec) as (o & Hh & Hb & _).
  exists o. split; [exact Hh|exact Hb].
Defined.
End Reconcile.
