(* ===== verification/Lifecycle.v ===== *)
(** * The life of a Task

    What one [Reconcile] can do to a Task, as a relation with one rule per way a
    pass can go, and the theorems on passes and on sequences of passes. *)

From S2P Require Import Prelude GoString GoTime GoNet GoJson GoUrl Kube Api Effects KubeLib Metrics.
From S2P Require Import PolicyObjects PolicyConfig PolicyNetwork Reconciler Samples PolicyResult.
From S2P Require Import Build Status TaskResult Sync Reconcile.

Module Lifecycle.
Import Labels Secrets Rbac Prompt Config Network Build Status TaskResult Sync Reconcile.

Section Lifecycle.
Context `{KubeLaws, JsonErrors, UnicodeTables}.

Definition agent_key (task : Task) : NamespacedName := mkNN "" (agent_Ref (spec_Agent (task_Spec task))).

Definition step_error (s : string) : Ev := ev (CMetric (ReconcileError s)) tt.

(** The requeue of a pass that went through. *)
Definition final_requeue (r : TaskReconciler) (task : Task) (egress : list string) (d : Duration) : CtrlResult :=
  let res := minRequeue (mkCtrl 0) d in
  if (0 <? r_EgressRefreshInterval r) && negb (isTerminal (task_Phase task)) && HasHostnames egress
  then minRequeue res (r_EgressRefreshInterval r) else res.

Definition steps_done (r : TaskReconciler) (task : Task) (agent : ClusterAgentClass) (l : list Step)
    (trs : list Trace) : Prop :=
  Forall2 (fun s t => exec (step_run s) t (Ok tt)) l trs.

(** A pass over a Task that is not terminal. *)
Inductive live_run (r : TaskReconciler) (task : Task) : Trace -> CtrlResult * result unit -> Prop :=
| live_invalid e tf f :
    validateTask task = Err e -> exec (failTask r task reasonInvalidSpec e) tf f ->
    live_run r task (step_error StepValidate :: tf) (mkCtrl 0, f)
| live_waiting e tw w :
    validateTask task = Ok tt -> IsNotFound e = true -> exec (markWaitingForAgentClass r task) tw w ->
    live_run r task (ev (CGet KClusterAgentClass (agent_key task)) (Err e) :: step_error StepAgentClassLookup :: tw)
      (match w with Err e => (mkCtrl 0, Err e) | Ok _ => (mkCtrl agentClassMissingRequeue, Ok tt) end)
| live_lookup_failed e :
    validateTask task = Ok tt -> IsNotFound e = false ->
    live_run r task [ev (CGet KClusterAgentClass (agent_key task)) (Err e); step_error StepAgentClassLookup]
      (mkCtrl 0, Err (ErrApi e))
| live_step_failed agent pre step post trs t e tf f :
    validateTask task = Ok tt -> steps r task agent (effective_egress task agent) = pre ++ step :: post ->
    steps_done r task agent pre trs -> exec (step_run step) t (Err e) ->
    ((step_invalidReason step <> ""%string /\ IsPermanent e = true /\
      exec (failTask r task (step_invalidReason step) e) tf f) \/
     ((step_invalidReason step = ""%string \/ IsPermanent e = false) /\ tf = [] /\
      f = Err (ErrWrap (step_wrap step +:+ ": ") e ""))) ->
    live_run r task (ev (CGet KClusterAgentClass (agent_key task)) (Ok agent) :: concat trs ++ t ++ step_error (step_metric step) :: tf)
      (mkCtrl 0, f)
| live_job_failed agent trs tj e tf f :
    validateTask task = Ok tt ->
    steps_done r task agent (steps r task agent (effective_egress task agent)) trs ->
    exec (ensureJob r task agent (effective_secrets task agent)) tj (Err e) ->
    ((IsPermanent e = true /\ exec (failTask r task reasonInvalidSpec e) tf f) \/
     (IsPermanent e = false /\ tf = [] /\ f = Err (ErrWrap "ensure job: " e ""))) ->
    live_run r task (ev (CGet KClusterAgentClass (agent_key task)) (Ok agent) :: concat trs ++ tj ++ step_error StepJob :: tf)
      (mkCtrl 0, f)
| live_status_failed agent trs tj job ts e :
    validateTask task = Ok tt ->
    steps_done r task agent (steps r task agent (effective_egress task agent)) trs ->
    exec (ensureJob r task agent (effective_secrets task agent)) tj (Ok job) ->
    exec (syncStatus r task job (effective_egress task agent)) ts (Err e) ->
    live_run r task (ev (CGet KClusterAgentClass (agent_key task)) (Ok agent) :: concat trs ++ tj ++ ts ++ [step_error StepStatus])
      (mkCtrl 0, Err e)
| live_synced agent trs tj job ts task' d :
    validateTask task = Ok tt ->
    steps_done r task agent (steps r task agent (effective_egress task agent)) trs ->
    exec (ensureJob r task agent (effective_secrets task agent)) tj (Ok job) ->
    exec (syncStatus r task job (effective_egress task agent)) ts (Ok (task', d)) ->
    live_run r task (ev (CGet KClusterAgentClass (agent_key task)) (Ok agent) :: concat trs ++ tj ++ ts)
      (final_requeue r task' (effective_egress task agent) d, Ok tt).

Lemma exec_live_run r task tr res : exec (reconcile_live r task) tr res -> live_run r task tr res.
Proof.
  unfold reconcile_live. destruct (validateTask task) as [[]|e] eqn:Hv.
  2: { intros ([] & t1 & -> & Hx)%exec_call_inv.
       apply exec_bind in Hx as (t2 & t3 & f & -> & Hf & [-> ->]%exec_ret). rewrite app_nil_r.
       by eapply live_invalid. }
  intros (got & t1 & -> & Hx)%exec_call_inv. destruct got as [agent|e].
  2: { destruct (IsNotFound e) eqn:Hn; apply exec_call_inv in Hx as ([] & t2 & -> & Hx).
       - apply exec_bind in Hx as (t3 & t4 & w & -> & Hw & [-> ->]%exec_ret). rewrite app_nil_r.
         by apply live_waiting.
       - apply exec_ret in Hx as [-> ->]. by apply live_lookup_failed. }
  apply exec_bind in Hx as (t2 & t3 & s & -> & Hs & Hx). destruct s as [f|].
  { apply exec_ret in Hx as [-> ->]. rewrite app_nil_r.
    destruct (run_steps_some _ _ _ _ _ Hs) as (pre & step & post & trs & t & e & tf & Hl & -> & Hf & He & Hrest).
    by eapply live_step_failed. }
  destruct (run_steps_none _ _ _ _ Hs) as (trs & -> & Hf).
  unfold reconcile_job in Hx. apply exec_bind in Hx as (tj & t4 & j & -> & Hj & Hx). destruct j as [job|e].
  2: { apply exec_call_inv in Hx as ([] & tf & -> & Hx). destruct (IsPermanent e) eqn:Hp.
       - apply exec_bind in Hx as (t5 & t6 & f & -> & Hfail & [-> ->]%exec_ret). rewrite app_nil_r.
         eapply live_job_failed; [done..|]. by left.
       - apply exec_ret in Hx as [-> ->]. eapply live_job_failed; [done..|]. by right. }
  apply exec_bind in Hx as (ts & t5 & o & -> & Ho & Hx). destruct o as [[task' d]|e].
  - apply exec_ret in Hx as [-> ->]. rewrite app_nil_r. by eapply live_synced.
  - apply exec_call_inv in Hx as ([] & t6 & -> & [-> ->]%exec_ret). by eapply live_status_failed.
Qed.

(** A pass, by what the first read answers. *)
Inductive pass (r : TaskReconciler) (req : NamespacedName) : Trace -> CtrlResult * result unit -> Prop :=
| pass_gone e :
    pass r req [ev (CGet KTask req) (Err e)] (mkCtrl 0, if IsNotFound e then Ok tt else Err (ErrApi e))
| pass_terminal task tr res :
    isTerminal (task_Phase task) = true -> exec (reconcile_terminal r task) tr res ->
    pass r req (ev (CGet KTask req) (Ok task) :: tr) res
| pass_live task tr res :
    isTerminal (task_Phase task) = false -> live_run r task tr res ->
    pass r req (ev (CGet KTask req) (Ok task) :: tr) res.

Lemma exec_pass r req tr res : exec (Reconcile r req) tr res -> pass r req tr res.
Proof.
  intros (got & t & -> & Hx)%exec_call_inv. destruct got as [task|e].
  - destruct (isTerminal (task_Phase task)) eqn:Ht; [by apply pass_terminal|].
    apply pass_live; [done|by apply exec_live_run].
  - apply exec_ret in Hx as [-> ->]. apply pass_gone.
Qed.

(** ** Terminal Tasks *)

(** [t] differs from [task] at most in its Result and its Result condition. *)
Definition keeps (task t : Task) : Prop :=
  task_Spec t = task_Spec task /\ task_Meta t = task_Meta task /\
  task_Status t = with_Conditions (st_Conditions (task_Status t))
    (with_Result (st_Result (task_Status t)) (task_Status task)) /\
  (forall ty, ty <> conditionResult ->
     FindStatusCondition (st_Conditions (task_Status t)) ty =
     FindStatusCondition (st_Conditions (task_Status task)) ty).

Lemma result_set_keeps task t reason msg : result_set task t reason msg -> keeps task t.
Proof.
  intros Hs. destruct (result_set_spec _ _ _ _ Hs) as (_ & Hoth & Hm & Hsp & Hst).
  split_and!; try done. by rewrite Hst.
Qed.

Lemma keeps_phase task t : keeps task t -> task_Phase t = task_Phase task.
Proof. intros (_ & _ & Hst & _). unfold task_Phase. by rewrite Hst. Qed.

(** Queries, then at most one status write that keeps the phase. *)
Inductive terminal_write (task : Task) : Trace -> result (Task * Duration) -> Prop :=
| tw_quiet tr res :
    Forall (fun c => is_query c = true) (calls tr) ->
    (forall t d, res = Ok (t, d) -> keeps task t /\ 0 <= d) -> terminal_write task tr res
| tw_written tr t w res :
    Forall (fun c => is_query c = true) (calls tr) -> keeps task t -> (status_wf (task_Status task) -> status_wf (task_Status t)) ->
    (forall t' d, res = Ok (t', d) -> w = Ok t' /\ 0 <= d) -> (forall e, w = Err e -> res = Err (ErrApi e)) ->
    terminal_write task (tr ++ [ev (CStatusUpdate t) w]) res.

Lemma keeps_refl task : keeps task task.
Proof. split_and!; try done. by destruct (task_Status task). Qed.

Lemma write_if_changed_cases task t d tq tr res :
  Forall (fun c => is_query c = true) (calls tq) -> keeps task t ->
  (status_wf (task_Status task) -> status_wf (task_Status t)) -> 0 <= d ->
  exec (write_if_changed (task_Status task) t d) tr res -> terminal_write task (tq ++ tr) res.
Proof.
  intros Hq Hk Hwf Hd. unfold write_if_changed. destruct (equalStatus _ _).
  - intros [-> ->]%exec_ret. rewrite app_nil_r. apply tw_quiet; [done|]. by intros t' d' [= -> ->].
  - intros (w & t0 & -> & [-> ->]%exec_ret)%exec_call_inv. apply tw_written; [done..| |]; destruct w; naive_solver.
Qed.

Lemma recordTerminalResult_cases r task tr res :
  exec (recordTerminalResult r task) tr res -> terminal_write task tr res.
Proof.
  unfold recordTerminalResult. destruct (_ || _).
  { intros [-> ->]%exec_ret. apply tw_quiet; [constructor|]. intros t d [= -> ->]. split; [apply keeps_refl|done]. }
  intros (job & t1 & -> & Hx)%exec_call_inv. destruct job as [job|e].
  - apply exec_bind in Hx as (te & t2 & eg & -> & He & Hx).
    apply exec_bind in Hx as (to & t3 & o & -> & Ho & Hx).
    assert (Hqo : Forall (fun c => is_query c = true) (calls to)) by (by eapply observeResult_queries).
    assert (Hqe : Forall (fun c => is_query c = true) (calls te)).
    { unfold terminalEgress in He. apply exec_call_inv in He as (x & t4 & -> & [-> _]%exec_ret). by repeat constructor. }
    assert (Hq : forall e : Ev, is_query (ev_call e) = true -> Forall (fun c => is_query c = true) (calls (e :: te ++ to))).
    { intros e He'. constructor; [done|]. fold (calls (te ++ to)). rewrite calls_app. by apply Forall_app. }
    destruct o as [[t d]|e].
    + change (?a :: te ++ to ++ t3) with ((a :: te) ++ to ++ t3). rewrite app_assoc.
      eapply write_if_changed_cases; [by apply Hq|by eapply observeResult_frame|by eapply observeResult_wf| |done].
      destruct (observeResult_cases _ _ _ _ _ _ _ Ho) as [(_ & _ & _ & ->)|(_ & p & rr & _ & _ & Hc)]; [done|].
      destruct Hc as [(? & ? & ? & _ & _ & _ & -> & _)|(_ & [(_ & _ & ->)|(_ & ? & ? & _ & [(_ & _ & ->)|(_ & -> & _)])])]; done.
    + apply exec_ret in Hx as [-> ->]. rewrite app_nil_r. apply tw_quiet; [by apply Hq|done].
  - destruct (IsNotFound e).
    + apply exec_bind in Hx as (t2 & t3 & t & -> & [(now & ->) Hs]%exec_setResultCondition & Hx).
      rewrite app_comm_cons. eapply write_if_changed_cases; [by repeat constructor|by eapply result_set_keeps|by eapply result_set_wf|done|done].
    + apply exec_ret in Hx as [-> ->]. apply tw_quiet; [by repeat constructor|done].
Qed.

Lemma collectTerminal_cases r task tr res :
  exec (collectTerminal r task) tr res ->
  (deletionDeadline task (r_DefaultTaskTTLSeconds r) = None /\ tr = [] /\ res = (mkCtrl 0, Ok tt)) \/
  exists deadline now, deletionDeadline task (r_DefaultTaskTTLSeconds r) = Some deadline /\
    ((0 < Time_Sub deadline now /\ tr = [ev CNow now] /\ res = (mkCtrl (Time_Sub deadline now), Ok tt)) \/
     (Time_Sub deadline now <= 0 /\ exists x,
        tr = [ev CNow now; ev (CDelete KTask (key_of (task_Meta task)) (Some (task_UID task))) x] /\
        res = (mkCtrl 0, match x with Ok _ => Ok tt | Err e => if IsNotFound e then Ok tt else Err (ErrApi e) end))).
Proof.
  unfold collectTerminal. destruct (deletionDeadline task _) as [dl|]; [|intros [-> ->]%exec_ret; by left].
  intros (now & t1 & -> & Hx)%exec_call_inv. right. exists dl, now. split; [done|].
  destruct (Z.ltb_spec 0 (Time_Sub dl now)).
  - apply exec_ret in Hx as [-> ->]. by left.
  - apply exec_call_inv in Hx as (x & t2 & -> & [-> ->]%exec_ret). right. split; [done|]. by exists x.
Qed.

(** A terminal pass: the Result, then the collection of the Task that the write
    answered with. *)
Lemma terminal_cases r task tr res :
  exec (reconcile_terminal r task) tr res ->
  exists t1 t2 o, tr = t1 ++ t2 /\ terminal_write task t1 o /\
    match o with
    | Err e => t2 = [step_error StepStatus] /\ res = (mkCtrl 0, Err e)
    | Ok (t, d) => exists c, exec (collectTerminal r t) t2 c /\ res = (minRequeue c.1 d, c.2)
    end.
Proof.
  intros Hx. apply exec_bind in Hx as (t1 & t2 & o & -> & Ho%recordTerminalResult_cases & Hx).
  exists t1, t2, o. split; [done|]. split; [done|]. destruct o as [[t d]|e].
  - apply exec_bind in Hx as (t3 & t4 & c & -> & Hc & [-> ->]%exec_ret). exists c. by rewrite app_nil_r.
  - by apply exec_call_inv in Hx as ([] & t3 & -> & [-> ->]%exec_ret).
Qed.

(** The calls a terminal pass may make. *)
Definition terminal_call (task : Task) (c : Call) : Prop :=
  match c with
  | CCreate _ _ | CUpdate _ _ | CEvent _ | CRespond _ => False
  | CMetric m => exists s, m = ReconcileError s
  | CStatusUpdate t => keeps task t
  | CDelete k _ uid => k = KTask /\ is_Some uid
  | _ => True
  end.

Lemma query_terminal_call task c : is_query c = true -> terminal_call task c.
Proof. by destruct c. Qed.

Lemma terminal_write_calls task tr o c : terminal_write task tr o -> c ∈ calls tr -> terminal_call task c.
Proof.
  intros [tr' res Hq _|tr' t w res Hq Hk _ _ _] Hc.
  - apply query_terminal_call. rewrite Forall_forall in Hq. by apply Hq.
  - apply elem_of_calls_app in Hc as [Hc|Hc].
    + apply query_terminal_call. rewrite Forall_forall in Hq. by apply Hq.
    + by apply list_elem_of_singleton in Hc as ->.
Qed.

Lemma terminal_pass_calls r task tr res c :
  exec (reconcile_terminal r task) tr res -> c ∈ calls tr -> terminal_call task c.
Proof.
  intros (t1 & t2 & o & -> & Hw & Hrest)%terminal_cases [Hc|Hc]%elem_of_calls_app; [by eapply terminal_write_calls|].
  destruct o as [[t d]|e].
  - destruct Hrest as (x & Hx & _). destruct (collectTerminal_cases _ _ _ _ Hx) as [(_ & -> & _)|
      (dl & now & _ & [(_ & -> & _)|(_ & y & -> & _)])]; [by apply elem_of_calls_nil in Hc| |].
    + by apply list_elem_of_singleton in Hc as ->.
    + apply elem_of_calls_cons in Hc as [->|Hc]; [done|]. apply list_elem_of_singleton in Hc as ->.
      split; [done|by eexists].
  - destruct Hrest as [-> _]. apply list_elem_of_singleton in Hc as ->. by eexists.
Qed.

(** The answer to the first read of a pass. *)
Lemma pass_first_exec r req task tr res :
  exec (Reconcile r req) (ev (CGet KTask req) (Ok task) :: tr) res ->
  exec (if isTerminal (task_Phase task) then reconcile_terminal r task else reconcile_live r task) tr res.
Proof.
  intros (got & t & Heq & Hx)%exec_call_inv.
  assert (Hg : got = Ok task).
  { apply (f_equal (fun l : Trace => match l with existT (CGet KTask _) x :: _ => Some x | _ => None end)) in Heq.
    cbn in Heq. by simplify_eq. }
  assert (t = tr) as -> by (apply (f_equal tail) in Heq; cbn in Heq; congruence). by subst got.
Qed.

Lemma pass_first r req task tr res :
  exec (Reconcile r req) (ev (CGet KTask req) (Ok task) :: tr) res ->
  if isTerminal (task_Phase task) then exec (reconcile_terminal r task) tr res else live_run r task tr res.
Proof. intros Hx%pass_first_exec. destruct (isTerminal (task_Phase task)); [done|by apply exec_live_run]. Qed.

(** The status the server holds after a trace: that of the last accepted write. *)
Definition next_status (st : TaskStatus) (tr : Trace) : TaskStatus :=
  foldl (fun st (e : Ev) => match e with existT (CStatusUpdate t) (Ok _) => task_Status t | _ => st end) st tr.

(** Passes over one Task, one after the other.  Between two passes anything but
    the status may change: the spec, other objects, the clock. *)
Inductive history (r : TaskReconciler) (req : NamespacedName) : TaskStatus -> list Trace -> TaskStatus -> Prop :=
| history_nil st : history r req st [] st
| history_pass st task tr res trs st' :
    task_Status task = st -> exec (Reconcile r req) (ev (CGet KTask req) (Ok task) :: tr) res ->
    history r req (next_status st tr) trs st' -> history r req st (tr :: trs) st'.

Lemma next_status_invariant (P : TaskStatus -> Prop) st tr :
  P st -> (forall t x, ev (CStatusUpdate t) (Ok x) ∈ tr -> P (task_Status t)) -> P (next_status st tr).
Proof.
  revert st. induction tr as [|e tr IH]; intros st Hst Hw; [done|]. cbn. apply IH.
  - destruct e as [[] x]; try done. destruct x as [t'|]; [|done]. apply (Hw _ t'). left.
  - intros t x Hin. apply (Hw t x). by right.
Qed.

Lemma elem_of_trace_calls (e : Ev) tr : e ∈ tr -> ev_call e ∈ calls tr.
Proof. apply list_elem_of_fmap_2. Qed.

(** C1. A terminal Task never runs again.  Once a Task is Completed, Failed or
    TimedOut, whatever happens to its spec, its Job and its other resources, no
    later pass creates or updates any object, reports a transition or an Event,
    or leaves the phase: it only reads, completes the Result, and deletes the
    Task itself under a UID precondition. *)
Theorem terminal_is_final r req st trs st' :
  isTerminal (st_Phase st) = true -> history r req st trs st' ->
  st_Phase st' = st_Phase st /\
  forall tr c, tr ∈ trs -> c ∈ calls tr ->
    match c with
    | CCreate _ _ | CUpdate _ _ | CEvent _ => False
    | CMetric m => exists s, m = ReconcileError s
    | CStatusUpdate t => st_Phase (task_Status t) = st_Phase st
    | CDelete k _ uid => k = KTask /\ is_Some uid
    | _ => True
    end.
Proof.
  intros Ht Hh. induction Hh as [st|st task tr res trs st' Hs Hx Hh IH]; [split; [done|intros ? ? []%elem_of_nil]|].
  pose proof (pass_first _ _ _ _ _ Hx) as Hp. unfold task_Phase in Hp. rewrite Hs, Ht in Hp.
  assert (Hc : forall c, c ∈ calls tr -> terminal_call task c) by (intros; by eapply terminal_pass_calls).
  assert (Hph : st_Phase (next_status st tr) = st_Phase st).
  { apply (next_status_invariant (fun s => st_Phase s = st_Phase st)); [done|]. intros t x Hin.
    specialize (Hc _ (elem_of_trace_calls _ _ Hin)). cbn in Hc. apply keeps_phase in Hc. unfold task_Phase in Hc. congruence. }
  rewrite Hph in IH. destruct (IH Ht) as [IH1 IH2]. split; [done|].
  intros tr' c [->|Hin]%elem_of_cons Hcc; [|by apply (IH2 tr')].
  specialize (Hc c Hcc). destruct c; cbn in Hc; try done. apply keeps_phase in Hc. unfold task_Phase in Hc. congruence.
Qed.

Lemma Time_Sub_sign t u : (Time_Sub t u <= 0 <-> t <= u) /\ (0 < Time_Sub t u -> Time_Sub t u <= t - u).
Proof. unfold Time_Sub, MinInt64, MaxInt64. lia. Qed.

(** C10. Garbage collection respects the TTL.  A terminal pass deletes the Task
    only when the clock has reached its deletion deadline, and with the UID of
    the object it decided about; while the deadline lies ahead it deletes
    nothing and asks to be woken no later than then. *)
Theorem collection_after_deadline r req task tr res :
  isTerminal (task_Phase task) = true ->
  exec (Reconcile r req) (ev (CGet KTask req) (Ok task) :: tr) res ->
  (forall t x, ev (CStatusUpdate t) (Ok x) ∈ tr -> x = t) ->
  (forall key uid, CDelete KTask key uid ∈ calls tr ->
     key = key_of (task_Meta task) /\ uid = Some (task_UID task) /\
     exists deadline now, deletionDeadline task (r_DefaultTaskTTLSeconds r) = Some deadline /\
       ev CNow now ∈ tr /\ deadline <= now) /\
  (forall deadline, deletionDeadline task (r_DefaultTaskTTLSeconds r) = Some deadline -> res.2 = Ok tt ->
     (exists key uid, CDelete KTask key uid ∈ calls tr) \/
     exists now, ev CNow now ∈ tr /\ now < deadline /\ 0 < RequeueAfter res.1 <= deadline - now).
Proof.
  intros Ht Hx Hecho. apply pass_first in Hx. rewrite Ht in Hx.
  destruct (terminal_cases _ _ _ _ Hx) as (t1 & t2 & o & -> & Hw & Hrest).
  assert (Hno : forall key uid, CDelete KTask key uid ∉ calls t1).
  { intros key uid Hin. destruct Hw as [tr' res' Hq _|tr' t w res' Hq _ _ _ _].
    - rewrite Forall_forall in Hq. by apply Hq in Hin.
    - apply elem_of_calls_app in Hin as [Hin|Hin]; [rewrite Forall_forall in Hq; by apply Hq in Hin|].
      by apply list_elem_of_singleton in Hin. }
  destruct o as [[t d]|e].
  2: { destruct Hrest as [-> ->]. split; [|done]. intros key uid [Hin|Hin]%elem_of_calls_app; [by apply Hno in Hin|].
       by apply list_elem_of_singleton in Hin. }
  assert (Hk : keeps task t /\ 0 <= d).
  { clear Hno Hrest Hx. inversion Hw as [? ? _ Hres|tr' t0 w ? _ Hk _ Hres _]; subst; [by apply Hres|].
    destruct (Hres _ _ eq_refl) as [-> Hd]. rewrite (Hecho t0 t); [done|]. rewrite !elem_of_app. left. right. left. }
  destruct Hk as [(Hsp & Hm & Hst & Hcond) Hd].
  assert (Hdl : deletionDeadline t (r_DefaultTaskTTLSeconds r) = deletionDeadline task (r_DefaultTaskTTLSeconds r)).
  { unfold deletionDeadline. rewrite Hsp, (Hcond conditionReady) by done. by rewrite Hst. }
  destruct Hrest as (c & Hc & ->). destruct (collectTerminal_cases _ _ _ _ Hc) as
    [(Hn & -> & ->)|(dl & now & Hs & [(Hpos & -> & ->)|(Hneg & x & -> & ->)])]; rewrite Hdl in *.
  - split; [|by rewrite Hn]. intros key uid Hin. rewrite app_nil_r in Hin. by apply Hno in Hin.
  - split.
    + intros key uid [Hin|Hin]%elem_of_calls_app; [by apply Hno in Hin|]. by apply list_elem_of_singleton in Hin.
    + intros dl' Hdl' _. rewrite Hs in Hdl'. injection Hdl' as <-. right. exists now. rewrite elem_of_app. split; [right; left|].
      destruct (Time_Sub_sign dl now) as [Hs1 Hs2]. specialize (Hs2 Hpos). split; [lia|].
      unfold minRequeue. cbn. destruct (Z.ltb_spec 0 d), (Z.eqb_spec (Time_Sub dl now) 0), (Z.ltb_spec d (Time_Sub dl now)); cbn; lia.
  - split.
    + intros key uid [Hin|Hin]%elem_of_calls_app; [by apply Hno in Hin|].
      apply elem_of_calls_cons in Hin as [?|Hin]; [done|]. apply list_elem_of_singleton in Hin as [= -> ->].
      unfold task_UID. rewrite Hm. split_and!; [done..|]. exists dl, now. rewrite elem_of_app.
      split_and!; [done|right; left|]. by apply Time_Sub_sign.
    + intros dl' _ _. left. do 2 eexists. rewrite elem_of_calls_app. right. right. left.
Qed.

(** ** Writes and reports of a pass *)

(** Neither a status write nor a report of a transition. *)
Definition quiet (c : Call) : bool :=
  match c with
  | CStatusUpdate _ | CEvent _ | CMetric (PhaseTransition _ _) | CMetric (TaskDuration _ _) => false
  | _ => true
  end.

Definition ready_reason (t : Task) : string :=
  match FindStatusCondition (st_Conditions (task_Status t)) conditionReady with
  | Some c => cond_Reason c
  | None => ""
  end.

(** The transition that an accepted write of [t] over [task] counts: none when
    the phase stays or the Task waits for its class. *)
Definition transitions_of (task t : Task) : list (string * string) :=
  if bool_decide (task_Phase t = task_Phase task) || (ready_reason t =? reasonAgentClassMissing)%string then []
  else [(phase_string (task_Phase t), ready_reason t)].

Inductive one_write (task : Task) : Trace -> Prop :=
| no_write tr : Forall (fun c => quiet c = true) (calls tr) -> one_write task tr
| write_rejected A t e C :
    Forall (fun c => quiet c = true) (calls A) -> Forall (fun c => quiet c = true) (calls C) ->
    one_write task (A ++ ev (CStatusUpdate t) (Err e) :: C)
| write_accepted A t t' C :
    Forall (fun c => quiet c = true) (calls A) -> (forall t0, CStatusUpdate t0 ∉ calls C) ->
    phase_transitions C = transitions_of task t ->
    one_write task (A ++ ev (CStatusUpdate t) (Ok t') :: C).

Lemma one_write_prefix task A tr :
  Forall (fun c => quiet c = true) (calls A) -> one_write task tr -> one_write task (A ++ tr).
Proof.
  intros Ha [tr' Hq|B t e C Hb Hc|B t t' C Hb Hn Ht].
  - apply no_write. rewrite calls_app. by apply Forall_app.
  - rewrite app_assoc. apply write_rejected; [rewrite calls_app; by apply Forall_app|done].
  - rewrite app_assoc. apply write_accepted; [rewrite calls_app; by apply Forall_app|done..].
Qed.

Lemma quiet_phase_transitions tr : Forall (fun c => quiet c = true) (calls tr) -> phase_transitions tr = [].
Proof.
  unfold phase_transitions. induction (calls tr) as [|c l IH]; [done|]. intros [Hc Hl]%Forall_cons.
  cbn. rewrite (IH Hl). by destruct c as [| | | | | | | | | | |[]| |].
Qed.

Lemma one_write_suffix task tr C :
  Forall (fun c => quiet c = true) (calls C) -> one_write task tr -> one_write task (tr ++ C).
Proof.
  intros Hq [tr' Hq'|B t e D Hb Hd|B t t' D Hb Hn Ht].
  - apply no_write. rewrite calls_app. by apply Forall_app.
  - rewrite <- app_assoc. apply write_rejected; [done|rewrite calls_app; by apply Forall_app].
  - rewrite <- app_assoc. apply write_accepted; [done| |].
    + intros t0 [Hin|Hin]%elem_of_calls_app; [by eapply Hn|]. rewrite Forall_forall in Hq. by apply Hq in Hin.
    + by rewrite phase_transitions_app, (quiet_phase_transitions C), app_nil_r.
Qed.

Lemma event_trace_reports r task ty reason msg :
  (forall t, CStatusUpdate t ∉ calls (event_trace r task ty reason msg)) /\
  phase_transitions (event_trace r task ty reason msg) = [].
Proof.
  unfold event_trace. destruct (r_Recorder r); (split; [|done]); intros t Hin;
    [by apply list_elem_of_singleton in Hin|by apply elem_of_calls_nil in Hin].
Qed.

Lemma marked_ready_reason now phase status reason msg task :
  ready_reason (marked now phase status reason msg task) = reason.
Proof.
  destruct (marked_ready now phase status reason msg task) as (c & Hc & _ & Hr & _).
  unfold ready_reason. by rewrite Hc.
Qed.

Lemma failTask_one_write r task reason cause tr res :
  isTerminal (task_Phase task) = false -> reason <> reasonAgentClassMissing ->
  exec (failTask r task reason cause) tr res -> one_write task tr.
Proof.
  intros Ht Hr Hx. destruct (failTask_cases _ _ _ _ _ _ Hx) as (now & [(e & -> & _)|(t' & _ & ->)]).
  - apply (write_rejected _ [ev CNow now] _ e []); by repeat constructor.
  - apply (write_accepted _ [ev CNow now]); [by repeat constructor|..];
      (destruct (event_trace_reports r t' EventTypeWarning reason (invalidEventMessage reason (Error cause))) as [He1 He2]).
    + intros t0. rewrite bool_decide_eq_false_2 by (intros Hf; by rewrite Hf in Ht).
      intros [?|Hin]%elem_of_calls_cons; [done|by eapply He1].
    + unfold transitions_of. rewrite marked_ready_reason. cbn [task_Phase marked task_Status set_status st_Phase with_Conditions with_ObservedGeneration with_Phase].
      rewrite !bool_decide_eq_false_2 by (intros Hf; unfold task_Phase in *; rewrite <- Hf in Ht || rewrite Hf in Ht; done).
      rewrite (proj2 (String.eqb_neq _ _)) by done. cbn [orb].
      change (phase_transitions (?a :: ?l)) with (phase_transitions ([a] ++ l)). rewrite phase_transitions_app, He2. done.
Qed.

Lemma markWaiting_one_write r task tr res :
  exec (markWaitingForAgentClass r task) tr res -> one_write task tr.
Proof.
  intros Hx. destruct (markWaiting_cases _ _ _ _ Hx) as (now & [(_ & -> & _)|(_ & [(e & -> & _)|(t' & _ & ->)])]).
  - apply no_write. by repeat constructor.
  - apply (write_rejected _ [ev CNow now] _ e []); by repeat constructor.
  - apply (write_accepted _ [ev CNow now]); [by repeat constructor|..];
      (destruct (event_trace_reports r t' EventTypeWarning reasonAgentClassMissing (waiting_message task)) as [He1 He2]); [done|].
    rewrite He2. unfold transitions_of. rewrite marked_ready_reason. cbn [String.eqb].
    rewrite (proj2 (String.eqb_eq _ _)) by done. by rewrite orb_true_r.
Qed.

Lemma reason_of_not_missing phase b : reason_of phase b <> reasonAgentClassMissing.
Proof. by destruct phase, b. Qed.

Lemma derivePhase_reason job phase reason msg :
  derivePhase job = (phase, reason, msg) -> exists b, reason = reason_of phase b.
Proof.
  unfold derivePhase. destruct (conditions_phase _) as [[[p rs] m]|] eqn:Hc.
  - intros [= -> -> ->]. apply conditions_phase_some in Hc as (_ & _ & _ & _ & _ & _ & _ & -> & _). by exists true.
  - exists false. by destruct (_ || _); simplify_eq.
Qed.

Lemma queries_quiet tr :
  Forall (fun c => is_query c = true) (calls tr) -> Forall (fun c => quiet c = true) (calls tr).
Proof. intros Hq. eapply Forall_impl; [exact Hq|]. by intros []. Qed.

Lemma transition_trace_count r before task phase reason msg :
  phase_transitions (transition_trace r before task phase reason msg) =
  if bool_decide (before = phase) then [] else [(phase_string phase, reason)].
Proof.
  unfold transition_trace. case_bool_decide; [done|].
  change (phase_transitions (?a :: ?l)) with (phase_transitions ([a] ++ l)).
  rewrite !phase_transitions_app. destruct (event_trace_reports r task (eventTypeFor phase) reason msg) as [_ ->].
  by destruct (isTerminal phase), (st_StartTime (task_Status task)), (st_CompletionTime (task_Status task)).
Qed.

Lemma syncStatus_one_write r task job egress tr res :
  exec (syncStatus r task job egress) tr res -> one_write task tr.
Proof.
  intros Hx. destruct (derivePhase job) as [[phase reason] msg] eqn:Hd.
  destruct (syncStatus_cases _ _ _ _ _ _ _ _ _ Hd Hx) as (now & to & Hc).
  assert (Hq : forall o, exec (observeResult r (synced now task job) (om_UID (job_Meta job)) egress) to o ->
    Forall (fun c => quiet c = true) (calls (ev CNow now :: to))).
  { intros o Ho. constructor; [done|]. apply queries_quiet. by eapply observeResult_queries. }
  destruct Hc as [(e & Ho & -> & _)|(t & d & Ho & [(_ & -> & _)|(_ & [(e & -> & _)|(t' & -> & _)])])].
  - apply no_write. by eapply Hq.
  - apply no_write. by eapply Hq.
  - rewrite app_comm_cons. apply write_rejected; [by eapply Hq|constructor].
  - rewrite app_comm_cons. apply write_accepted; [by eapply Hq| |].
    + intros t0 Hin. by apply transition_reports in Hin.
    + destruct (synced_kept _ _ _ _ _ _ _ _ Ho) as (_ & _ & Hk). rewrite Hd in Hk.
      destruct Hk as (Hp & _ & _ & _ & _ & c & Hcf & _ & Hr & _).
      rewrite transition_trace_count. unfold transitions_of, ready_reason. rewrite Hcf, Hr.
      destruct (derivePhase_reason _ _ _ _ Hd) as [b ->].
      rewrite (proj2 (String.eqb_neq _ _)) by apply reason_of_not_missing. rewrite orb_false_r.
      change (task_Phase t) with (st_Phase (task_Status t)). rewrite Hp.
      repeat case_bool_decide; congruence.
Qed.

Lemma step_calls_quiet tr : (forall c, c ∈ calls tr -> step_call c = true) -> Forall (fun c => quiet c = true) (calls tr).
Proof. intros Hs. apply Forall_forall. intros c Hc. specialize (Hs c Hc). by destruct c. Qed.

Lemma steps_quiet r task agent egress l trs :
  (forall s, s ∈ l -> s ∈ steps r task agent egress) -> steps_done r task agent l trs ->
  Forall (fun c => quiet c = true) (calls (concat trs)).
Proof. intros Hl Hs. apply step_calls_quiet. intros c. by eapply steps_trace_calls. Qed.

Lemma ensureJob_quiet r task agent secrets tr res :
  exec (ensureJob r task agent secrets) tr res -> Forall (fun c => quiet c = true) (calls tr).
Proof.
  intros Hx. destruct (ensureJob_cases _ _ _ _ _ _ Hx) as [(e & _ & -> & _)|(d & _ & [(e & _ & -> & _)|(m & _ &
    [(e & _ & -> & _)|[(e & x & _ & -> & _)|(o & -> & _)]])])]; by repeat constructor.
Qed.

Lemma terminal_one_write r task tr res :
  exec (reconcile_terminal r task) tr res -> one_write task tr.
Proof.
  intros (t1 & t2 & o & -> & Hw & Hrest)%terminal_cases. apply one_write_suffix.
  - destruct o as [[t d]|e]; [|destruct Hrest as [-> _]; by repeat constructor].
    destruct Hrest as (c & Hc & _). destruct (collectTerminal_cases _ _ _ _ Hc) as
      [(_ & -> & _)|(dl & now & _ & [(_ & -> & _)|(_ & x & -> & _)])]; by repeat constructor.
  - destruct Hw as [tr' res' Hq _|tr' t w res' Hq Hk _ _ _]; [by apply no_write, queries_quiet|].
    destruct w as [t'|e]; [|apply write_rejected; [by apply queries_quiet|constructor]].
    apply write_accepted; [by apply queries_quiet|intros t0; apply elem_of_calls_nil|].
    unfold transitions_of. by rewrite (keeps_phase task t Hk), bool_decide_eq_true_2.
Qed.

Lemma Forall_quiet_app t1 t2 :
  Forall (fun c => quiet c = true) (calls t1) -> Forall (fun c => quiet c = true) (calls t2) ->
  Forall (fun c => quiet c = true) (calls (t1 ++ t2)).
Proof. rewrite calls_app. apply Forall_app_2. Qed.

Lemma step_reason_not_missing r task agent egress step :
  step ∈ steps r task agent egress -> step_invalidReason step <> reasonAgentClassMissing.
Proof.
  unfold steps. rewrite !elem_of_cons.
  intros [->|[->|[->|[->|[->|[->|Hin]]]]]]; [done..|by apply elem_of_nil in Hin].
Qed.

Lemma live_one_write r task tr res :
  isTerminal (task_Phase task) = false -> live_run r task tr res -> one_write task tr.
Proof.
  intros Ht Hl. destruct Hl as [e tf f _ Hf|e tw w _ _ Hw|e _ _|agent pre step post trs t e tf f _ Hl Hd He Hr
    |agent trs tj e tf f _ Hd Hj Hr|agent trs tj job ts e _ Hd Hj Hs|agent trs tj job ts task' d _ Hd Hj Hs].
  - apply (one_write_prefix _ [_]); [by repeat constructor|].
    by apply (failTask_one_write r _ reasonInvalidSpec e _ f).
  - apply (one_write_prefix _ [_; _]); [by repeat constructor|]. by eapply markWaiting_one_write.
  - apply no_write. by repeat constructor.
  - assert (Hin : step ∈ steps r task agent (effective_egress task agent)) by (rewrite Hl; set_solver).
    rewrite app_comm_cons, !app_assoc, (cons_middle (step_error _)), app_assoc. apply one_write_prefix.
    + repeat apply Forall_quiet_app; [constructor; [done|]| |by repeat constructor].
      * eapply steps_quiet; [|done]. intros s Hs. rewrite Hl. set_solver.
      * apply step_calls_quiet. intros c. apply (only_exec _ _ _ _ _ (steps_only _ _ _ _ _ Hin) He).
    + destruct Hr as [(_ & _ & Hf)|(_ & -> & _)]; [|apply no_write; constructor].
      eapply failTask_one_write; [done|by eapply step_reason_not_missing|done].
  - rewrite app_comm_cons, !app_assoc, (cons_middle (step_error _)), app_assoc. apply one_write_prefix.
    + repeat apply Forall_quiet_app; [constructor; [done|by eapply steps_quiet]|by eapply ensureJob_quiet|by repeat constructor].
    + destruct Hr as [(_ & Hf)|(_ & -> & _)]; [by apply (failTask_one_write r _ reasonInvalidSpec e _ f)|apply no_write; constructor].
  - rewrite app_comm_cons, !app_assoc. apply one_write_suffix; [by repeat constructor|].
    apply one_write_prefix; [|by eapply syncStatus_one_write].
    apply Forall_quiet_app; [constructor; [done|by eapply steps_quiet]|by eapply ensureJob_quiet].
  - rewrite app_comm_cons, !app_assoc. apply one_write_prefix; [|by eapply syncStatus_one_write].
    apply Forall_quiet_app; [constructor; [done|by eapply steps_quiet]|by eapply ensureJob_quiet].
Qed.

(** C8. Write first, then report.  A pass writes the status at most once; no
    Event, transition or duration is reported before that write or after a
    rejected one; and an accepted write counts exactly one transition, with the
    phase and the reason it wrote, when it changed the phase, except for the
    wait for a class, which is never counted. *)
Theorem reports_follow_writes r req task tr res :
  exec (Reconcile r req) (ev (CGet KTask req) (Ok task) :: tr) res ->
  Forall (fun c => quiet c = true) (calls tr) \/
  exists A t w C, tr = A ++ ev (CStatusUpdate t) w :: C /\
    Forall (fun c => quiet c = true) (calls A) /\ (forall t0, CStatusUpdate t0 ∉ calls C) /\
    match w with
    | Err _ => Forall (fun c => quiet c = true) (calls C)
    | Ok _ => phase_transitions C = transitions_of task t
    end.
Proof.
  intros Hx. apply pass_first in Hx. assert (Hw : one_write task tr).
  { destruct (isTerminal (task_Phase task)) eqn:Ht; [by eapply terminal_one_write|by eapply live_one_write]. }
  destruct Hw as [tr Hq|A t e C Ha Hc|A t t' C Ha Hn Hp]; [by left|right..].
  - exists A, t, (Err e), C. split_and!; try done. intros t0 Hin. rewrite Forall_forall in Hc. by apply Hc in Hin.
  - by exists A, t, (Ok t'), C.
Qed.

(** ** The creation of the Job *)

(** Calls that concern the status only. *)
Definition status_call (c : Call) : bool :=
  is_query c || is_report c || match c with CStatusUpdate _ => true | _ => false end.

Lemma event_trace_calls r task ty reason msg c :
  c ∈ calls (event_trace r task ty reason msg) -> is_report c = true.
Proof.
  unfold event_trace. destruct (r_Recorder r); intros Hin;
    [by apply list_elem_of_singleton in Hin as ->|by apply elem_of_calls_nil in Hin].
Qed.

Lemma failTask_only r task reason cause : only (fun c => status_call c = true) (failTask r task reason cause).
Proof.
  intros tr res Hx. apply Forall_forall. intros c Hc.
  destruct (failTask_cases _ _ _ _ _ _ Hx) as (now & [(e & -> & _)|(t' & _ & ->)]);
    apply elem_of_calls_cons in Hc as [->|[->|Hc]%elem_of_calls_cons]; try done; [by apply elem_of_calls_nil in Hc|].
  destruct (bool_decide _); [by apply elem_of_calls_nil in Hc|].
  apply elem_of_calls_cons in Hc as [->|Hc]; [done|]. apply event_trace_calls in Hc. by destruct c.
Qed.

Lemma markWaiting_only r task : only (fun c => status_call c = true) (markWaitingForAgentClass r task).
Proof.
  intros tr res Hx. apply Forall_forall. intros c Hc.
  destruct (markWaiting_cases _ _ _ _ Hx) as (now & [(_ & -> & _)|(_ & [(e & -> & _)|(t' & _ & ->)])]);
    apply elem_of_calls_cons in Hc as [->|Hc]; try done; [by apply elem_of_calls_nil in Hc|..];
    apply elem_of_calls_cons in Hc as [->|Hc]; try done; [by apply elem_of_calls_nil in Hc|].
  apply event_trace_calls in Hc. by destruct c.
Qed.

Lemma syncStatus_only r task job egress : only (fun c => status_call c = true) (syncStatus r task job egress).
Proof.
  intros tr res Hx. apply Forall_forall. intros c Hc.
  destruct (derivePhase job) as [[phase reason] msg] eqn:Hd.
  destruct (syncStatus_cases _ _ _ _ _ _ _ _ _ Hd Hx) as (now & to & Hcases).
  assert (Hq : forall o, exec (observeResult r (synced now task job) (om_UID (job_Meta job)) egress) to o ->
    c ∈ calls (ev CNow now :: to) -> status_call c = true).
  { intros o Ho [->|Hin]%elem_of_calls_cons; [done|].
    apply (only_exec _ _ _ _ _ (observeResult_queries _ _ _ _) Ho) in Hin. unfold status_call. by rewrite Hin. }
  destruct Hcases as [(e & Ho & -> & _)|(t & d & Ho & [(_ & -> & _)|(_ & [(e & -> & _)|(t' & -> & _)])])];
    [by eapply Hq|by eapply Hq|..]; rewrite app_comm_cons in Hc;
    apply elem_of_calls_app in Hc as [Hc|Hc]; try (by eapply Hq); apply elem_of_calls_cons in Hc as [->|Hc]; try done.
  - by apply elem_of_calls_nil in Hc.
  - apply transition_reports in Hc. by destruct c.
Qed.

Definition job_call (c : Call) : bool :=
  match c with CGet KJob _ | CCreate KJob _ => true | _ => false end.

Lemma ensureJob_only r task agent secrets : only (fun c => job_call c = true) (ensureJob r task agent secrets).
Proof.
  unfold ensureJob. destruct (buildJob _ _ _ _) as [d|]; [|apply only_ret]. destruct (SetControllerReference _ _) as [m|]; [|apply only_ret].
  apply only_call; [done|]. intros [j|e]; [apply only_ret|]. destruct (IsNotFound e); [|apply only_ret].
  apply only_call; [done|]. intros; apply only_ret.
Qed.

(** The reasons with which a pass fails a Task. *)
Definition fail_reason (reason : string) : Prop := reason = reasonInvalidSpec \/ reason = reasonEgressResolveFail.

(** A step that can fail the Task does it with one of them. *)
Definition step_reason_ok (step : Step) : Prop :=
  negb (step_invalidReason step =? "")%string = true -> fail_reason (step_invalidReason step).

Lemma steps_reasons r task agent egress step : step ∈ steps r task agent egress -> step_reason_ok step.
Proof.
  intros Hin Hne. unfold steps in Hin. repeat (apply elem_of_cons in Hin as [->|Hin]; [first [by right|done]|]). by apply elem_of_nil in Hin.
Qed.

(** A property of the trace of a live pass, from its parts. *)
Section Lift.
Context (Q : Trace -> Prop) `{!Additive Q} (r : TaskReconciler) (task : Task).
Hypothesis lift_metric : forall s, Q [step_error s].
Hypothesis lift_class : forall key x, Q [ev (CGet KClusterAgentClass key) x].
Hypothesis lift_fail : forall reason cause, fail_reason reason -> every Q (failTask r task reason cause).
Hypothesis lift_wait : every Q (markWaitingForAgentClass r task).
Hypothesis lift_step : forall agent egress step, step ∈ steps r task agent egress -> every Q (step_run step).
Hypothesis lift_job : forall agent secrets, every Q (ensureJob r task agent secrets).
Hypothesis lift_sync : forall job egress, every Q (syncStatus r task job egress).

Lemma lift_observe s : every Q (ObserveReconcileError s).
Proof. apply every_call; [done|intros []; apply lift_metric|]. intros; by apply every_ret. Qed.

Lemma lift_failed {A} reason cause (k : result unit -> A) :
  fail_reason reason -> every Q (let! f := failTask r task reason cause in Ret (k f)).
Proof. intros Hr. apply every_bind; [done|by apply lift_fail|]. intros; by apply every_ret. Qed.

Lemma run_steps_lift l :
  (forall step, step ∈ l -> step_reason_ok step /\ every Q (step_run step)) -> every Q (run_steps r task l).
Proof.
  induction l as [|step l IH]; intros Hl; cbn [run_steps]; [by apply every_ret|]. apply every_bind; [done|apply Hl; left|].
  intros [[]|e]; [apply IH; intros; apply Hl; by right|]. apply every_bind; [done|apply lift_observe|]. intros _.
  destruct (negb _) eqn:Hne; [|by apply every_ret]. destruct (Hl step) as [Hr _]; [left|].
  destruct (IsPermanent e); [by apply lift_failed, Hr|by apply every_ret].
Qed.

Lemma reconcile_job_lift agent : every Q (reconcile_job r task agent).
Proof.
  unfold reconcile_job. apply every_bind; [done|apply lift_job|]. intros [job|e].
  - apply every_bind; [done|apply lift_sync|]. intros [[t d]|e]; [by apply every_ret|].
    apply every_bind; [done|apply lift_observe|]. intros; by apply every_ret.
  - apply every_bind; [done|apply lift_observe|]. intros _. destruct (IsPermanent e); [apply lift_failed; by left|by apply every_ret].
Qed.

Lemma reconcile_live_every : every Q (reconcile_live r task).
Proof.
  unfold reconcile_live. destruct (validateTask task) as [[]|e].
  2: { apply every_bind; [done|apply lift_observe|]. intros _. apply lift_failed. by left. }
  apply every_call; [done|apply lift_class|]. intros [agent|e].
  - apply every_bind; [done|apply run_steps_lift; intros; split; [by eapply steps_reasons|by eapply lift_step]|].
    intros [f|]; [by apply every_ret|apply reconcile_job_lift].
  - destruct (IsNotFound e); (apply every_bind; [done|apply lift_observe|]); intros _; [|by apply every_ret].
    apply every_bind; [done|apply lift_wait|]. intros; by apply every_ret.
Qed.
End Lift.

Definition creates_job (c : Call) : bool :=
  match c with CCreate KJob _ => true | _ => false end.

Lemma status_call_no_job c : status_call c = true -> creates_job c = false.
Proof. by destruct c as [|[]| | | | | | | | | | | |]. Qed.
Lemma step_call_no_job c : step_call c = true -> creates_job c = false.
Proof. by destruct c as [|[]| | | | | | | | | | | |]. Qed.

Definition no_job (tr : Trace) : Prop := Forall (fun c => creates_job c = false) (calls tr).

Lemma no_job_app t1 t2 : no_job t1 -> no_job t2 -> no_job (t1 ++ t2).
Proof. unfold no_job. rewrite calls_app. apply Forall_app_2. Qed.
Lemma no_job_cons e tr : creates_job (ev_call e) = false -> no_job tr -> no_job (e :: tr).
Proof. by constructor. Qed.
Lemma no_job_nil : no_job [].
Proof. constructor. Qed.
Lemma status_no_job {A} (p : Prog A) tr a :
  only (fun c => status_call c = true) p -> exec p tr a -> no_job tr.
Proof. intros Hp Hx. eapply Forall_impl; [by eapply Hp|apply status_call_no_job]. Qed.
Lemma steps_no_job r task agent egress l trs :
  (forall s, s ∈ l -> s ∈ steps r task agent egress) -> steps_done r task agent l trs -> no_job (concat trs).
Proof. intros Hl Hs. apply Forall_forall. intros c Hc. by eapply step_call_no_job, steps_trace_calls. Qed.
Lemma step_no_job r task agent egress s t x :
  s ∈ steps r task agent egress -> exec (step_run s) t x -> no_job t.
Proof. intros Hs Hx. eapply Forall_impl; [by eapply steps_only|apply step_call_no_job]. Qed.
#[local] Hint Resolve no_job_app no_job_cons no_job_nil status_no_job failTask_only markWaiting_only
  syncStatus_only : conveyor.

(** A live pass creates the Job at most once, after all steps succeeded and the
    read of the Job answered that there is none. *)
Definition creates (r : TaskReconciler) (task : Task) (tr : Trace) : Prop :=
  exists agent trs e desired m x post,
    tr = ev (CGet KClusterAgentClass (agent_key task)) (Ok agent) :: concat trs ++
         ev (CGet KJob (mkNN (task_Namespace task) (task_Name task))) (Err e) ::
         ev (CCreate KJob (set_meta KJob m desired)) x :: post /\
    validateTask task = Ok tt /\ IsNotFound e = true /\
    steps_done r task agent (steps r task agent (effective_egress task agent)) trs /\
    buildJob task agent (effective_secrets task agent) (r_JobTTLSeconds r) = Ok desired /\
    SetControllerReference (task_Meta task) (job_Meta desired) = Ok m /\ no_job post.

Lemma ensureJob_creates r task agent trs tj post o :
  validateTask task = Ok tt ->
  steps_done r task agent (steps r task agent (effective_egress task agent)) trs ->
  exec (ensureJob r task agent (effective_secrets task agent)) tj o -> no_job post ->
  let tr := ev (CGet KClusterAgentClass (agent_key task)) (Ok agent) :: concat trs ++ tj ++ post in
  no_job tr \/ creates r task tr.
Proof.
  intros Hv Hd Hj Hp tr. subst tr. assert (Hs : no_job (concat trs)) by (by eapply steps_no_job).
  destruct (ensureJob_cases _ _ _ _ _ _ Hj) as [(e & _ & -> & _)|(d & Hb & [(e & _ & -> & _)|(m & Hm &
    [(e & _ & -> & _)|[(e & x & Hn & -> & _)|(o' & -> & _)]])])].
  4: right; exists agent, trs, e, d, m, x, post; split_and!; try done.
  all: left; auto 10 with conveyor.
Qed.

Lemma live_creates r task tr res : live_run r task tr res -> no_job tr \/ creates r task tr.
Proof.
  intros Hl. destruct Hl as [e tf f _ Hf|e tw w _ _ Hw|e _ _|agent pre step post trs t e tf f _ Hl Hd He Hr
    |agent trs tj e tf f Hv Hd Hj Hr|agent trs tj job ts e Hv Hd Hj Hs|agent trs tj job ts task' d Hv Hd Hj Hs].
  - left. eauto with conveyor.
  - left. eauto with conveyor.
  - left. eauto with conveyor.
  - left. assert (Hin : step ∈ steps r task agent (effective_egress task agent)) by (rewrite Hl; set_solver).
    assert (no_job (concat trs)) by (eapply steps_no_job; [|done]; intros s Hs; rewrite Hl; set_solver).
    assert (no_job t) by (by eapply step_no_job).
    destruct Hr as [(_ & _ & Hf)|(_ & -> & _)]; eauto 8 with conveyor.
  - eapply ensureJob_creates; [done..|]. destruct Hr as [(_ & Hf)|(_ & -> & _)]; eauto with conveyor.
  - eapply ensureJob_creates; [done..|]. eauto with conveyor.
  - eapply ensureJob_creates; [done..|]. eauto with conveyor.
Qed.

(** The one element with a property splits a list in one way. *)
Lemma split_unique {A} (P : A -> Prop) (l1 l2 r1 r2 : list A) a b :
  l1 ++ a :: l2 = r1 ++ b :: r2 -> Forall (fun x => ~ P x) l1 -> Forall (fun x => ~ P x) l2 -> P b ->
  r1 = l1 /\ b = a /\ r2 = l2.
Proof.
  revert r1. induction l1 as [|x l1 IH]; intros [|y r1] Heq HL HR Hb; cbn in Heq; injection Heq as Hxy Heq.
  - by subst.
  - exfalso. subst l2. rewrite Forall_forall in HR. apply (HR b); [|done]. apply elem_of_app. right. left.
  - exfalso. subst x. by apply Forall_cons in HL as [? _].
  - apply Forall_cons in HL as [_ HL]. destruct (IH r1 Heq HL HR Hb) as (-> & -> & ->). by subst.
Qed.

Lemma job_created r req tr1 j x tr2 res :
  exec (Reconcile r req) (tr1 ++ ev (CCreate KJob j) x :: tr2) res ->
  exists task agent trs e desired m,
    tr1 = ev (CGet KTask req) (Ok task) :: ev (CGet KClusterAgentClass (agent_key task)) (Ok agent) ::
          concat trs ++ [ev (CGet KJob (mkNN (task_Namespace task) (task_Name task))) (Err e)] /\
    isTerminal (task_Phase task) = false /\ validateTask task = Ok tt /\ IsNotFound e = true /\
    steps_done r task agent (steps r task agent (effective_egress task agent)) trs /\
    buildJob task agent (effective_secrets task agent) (r_JobTTLSeconds r) = Ok desired /\
    SetControllerReference (task_Meta task) (job_Meta desired) = Ok m /\ j = set_meta KJob m desired /\ no_job tr2.
Proof.
  intros Hx. apply exec_pass in Hx.
  assert (Hno : forall tr, no_job tr -> tr = tr1 ++ ev (CCreate KJob j) x :: tr2 -> False).
  { intros tr Hn ->. unfold no_job in Hn. rewrite calls_app in Hn. apply Forall_app in Hn as [_ Hn]. by inversion Hn. }
  remember (tr1 ++ ev (CCreate KJob j) x :: tr2) as tr eqn:Htr.
  destruct Hx as [e|task tr res Ht Hx|task tr res Ht Hl].
  - exfalso. eapply Hno; [|reflexivity]. apply no_job_cons; [done|apply no_job_nil].
  - exfalso. eapply Hno; [|reflexivity]. apply no_job_cons; [done|]. apply Forall_forall. intros c Hc.
    apply (terminal_pass_calls _ _ _ _ _ Hx) in Hc. by destruct c.
  - destruct (live_creates _ _ _ _ Hl) as [Hn|(agent & trs & e & d & m & x' & post & -> & Hv & He & Hs & Hb & Hm & Hp)].
    { exfalso. eapply Hno; [|reflexivity]. by apply no_job_cons. }
    assert (Hj : no_job (concat trs)) by (by eapply steps_no_job).
    rewrite 2!app_comm_cons, (cons_middle (ev (CGet KJob _) _)), app_assoc in Htr.
    destruct (split_unique (fun e : Ev => creates_job (ev_call e) = true) _ _ _ _ _ _ Htr) as (-> & Heq & ->).
    + unfold no_job, calls in Hj. rewrite Forall_fmap in Hj. cbn.
      repeat (constructor; [done|]). apply Forall_app_2; [|by repeat constructor].
      eapply Forall_impl; [exact Hj|]. intros ev0 Hf. cbn in Hf. by rewrite Hf.
    + unfold no_job, calls in Hp. rewrite Forall_fmap in Hp. eapply Forall_impl; [exact Hp|].
      intros ev0 Hf. cbn in Hf. by rewrite Hf.
    + done.
    + apply (f_equal ev_call) in Heq. cbn in Heq. exists task, agent, trs, e, d, m. split_and!; try done.
      apply (f_equal (fun c => match c with CCreate KJob o => Some o | _ => None end)) in Heq. by injection Heq.
Qed.

Lemma holds_mono k key t1 t2 (o : obj k) : t1 ⊆ t2 -> holds k key t1 o -> holds k key t2 o.
Proof. intros Hs [(x & Hx)|[(x & Hx)|Hx]]; [left; exists x|right; left; exists x|right; right]; by apply Hs. Qed.

(** The policy of the Task, from its CIDRs. *)
Definition desired_policy (task : Task) (agent : ClusterAgentClass) (cidrs : list string) : NetworkPolicy :=
  network_policy (task_Name task) (task_Namespace task) (effective_egress task agent) cidrs
    (perm_EgressPorts (spec_Permissions (task_Spec task))).

Lemma ensureNetworkPolicy_ok r task agent t :
  exec (ensureNetworkPolicy r task (effective_egress task agent)) t (Ok tt) ->
  exists te cidrs np, te ⊆ t /\ exec (resolveEgress (resolver r) (effective_egress task agent)) te (Ok cidrs) /\
    holds KNetworkPolicy (mkNN (task_Namespace task) (task_Name task)) t np /\
    np_Spec np = np_Spec (desired_policy task agent cidrs).
Proof.
  unfold ensureNetworkPolicy. intros Hx. apply exec_bind in Hx as (t1 & t2 & d & -> & Hb & Hx).
  unfold BuildNetworkPolicy in Hb. apply exec_bind in Hb as (te & t3 & c & -> & Hc & [-> ->]%exec_ret).
  destruct c as [cidrs|e]; [|by apply exec_ret in Hx as [_ ?]].
  destruct (ensureOwned_ok KNetworkPolicy mutate_NetworkPolicy _ _ _ Hx) as (m & np & _ & Hh & Hbody & _).
  exists te, cidrs, np. rewrite app_nil_r. split_and!; [|done| |done].
  - intros e He. apply elem_of_app. by left.
  - eapply holds_mono; [|exact Hh]. intros e He. apply elem_of_app. by right.
Qed.

Lemma steps_policy r task agent trs :
  steps_done r task agent (steps r task agent (effective_egress task agent)) trs ->
  exists t, t ∈ trs /\ exec (ensureNetworkPolicy r task (effective_egress task agent)) t (Ok tt).
Proof.
  unfold steps_done, steps. intros Hs.
  do 4 apply Forall2_cons_inv_l in Hs as (? & ? & ? & Hs & ->).
  eexists. split; [|done]. do 3 right. left.
Qed.

Lemma pod_selected task : selects (PodSelectorLabels (task_Name task)) (Some (podLabels task)) = true.
Proof. apply bool_decide_eq_true. cbn. apply map_union_subseteq_l. Qed.

(** C2. Egress is closed before the agent can start.  When a pass creates the Job
    of a Task, the server already holds the NetworkPolicy of that Task, in the
    same namespace: it selects the pod of the Job, denies all ingress, and
    allows exactly the egress rules of the CIDRs that the declared allowlist
    (of the Task and of its class) stood for in this pass. *)
Theorem policy_precedes_job r req tr1 j x tr2 res :
  exec (Reconcile r req) (tr1 ++ ev (CCreate KJob j) x :: tr2) res ->
  exists task agent np cidrs te,
    ev (CGet KTask req) (Ok task) ∈ tr1 /\ ev (CGet KClusterAgentClass (agent_key task)) (Ok agent) ∈ tr1 /\
    key_of (job_Meta j) = mkNN (task_Namespace task) (task_Name task) /\
    holds KNetworkPolicy (mkNN (task_Namespace task) (task_Name task)) tr1 np /\
    selects (nps_PodSelector (np_Spec np)) (pt_Labels (js_Template (job_Spec j))) = true /\
    nps_PolicyTypes (np_Spec np) = [PolicyTypeIngress; PolicyTypeEgress] /\ nps_Ingress (np_Spec np) = [] /\
    nps_Egress (np_Spec np) = egress_rules (effective_egress task agent) cidrs
      (perm_EgressPorts (spec_Permissions (task_Spec task))) /\
    te ⊆ tr1 /\ (forall c, c ∈ cidrs <->
      exists e, e ∈ effective_egress task agent /\ entry_cidr (resolver r) te e c).
Proof.
  intros Hx. destruct (job_created _ _ _ _ _ _ _ Hx) as
    (task & agent & trs & e & d & m & -> & _ & _ & _ & Hs & Hb & Hm & -> & _).
  destruct (steps_policy _ _ _ _ Hs) as (t & Ht & Hp).
  destruct (ensureNetworkPolicy_ok _ _ _ _ Hp) as (te & cidrs & np & Hte & Hr & Hh & Hspec).
  assert (Hsub : t ⊆ ev (CGet KTask req) (Ok task) :: ev (CGet KClusterAgentClass (agent_key task)) (Ok agent) ::
    concat trs ++ [ev (CGet KJob (mkNN (task_Namespace task) (task_Name task))) (Err e)]).
  { intros e0 He0. right. right. apply elem_of_app. left. apply elem_of_concat. by exists t. }
  exists task, agent, np, cidrs, te. rewrite Hspec. split_and!; try done.
  - left.
  - right. left.
  - apply set_controller_key in Hm as [Hm _]. cbn. rewrite Hm. by eapply buildJob_key.
  - by eapply holds_mono.
  - cbn [set_meta job_Spec]. rewrite (buildJob_labels _ _ _ _ _ Hb). apply pod_selected.
  - by etrans.
  - intros c. apply resolveEgress_exec in Hr as ([s|] & Hre & [= ->]).
    rewrite elem_of_sort_strings, elem_of_elements, (resolve_entries_ok _ _ _ _ _ Hre c). set_solver.
Qed.

(** C5. What runs is what was declared.  The Job that a pass creates is the one
    built from the Task it read and the class that Task names, with the union
    of their declared Secrets; the Task is valid and not terminal and becomes
    the controller of the Job; the server had just answered that there is no
    such Job; and the pass creates no other. *)
Theorem job_as_declared r req tr1 j x tr2 res :
  exec (Reconcile r req) (tr1 ++ ev (CCreate KJob j) x :: tr2) res ->
  exists task agent desired e owner,
    ev (CGet KTask req) (Ok task) ∈ tr1 /\ ev (CGet KClusterAgentClass (agent_key task)) (Ok agent) ∈ tr1 /\
    isTerminal (task_Phase task) = false /\ validateTask task = Ok tt /\
    buildJob task agent (effective_secrets task agent) (r_JobTTLSeconds r) = Ok desired /\
    job_Spec j = job_Spec desired /\ om_Labels (job_Meta j) = om_Labels (job_Meta desired) /\
    (forall s, s ∈ effective_secrets task agent <-> s <> ""%string /\
       (s ∈ perm_Secrets (spec_Permissions (task_Spec task)) \/ s ∈ req_Secrets (cac_Requires (class_Spec agent)))) /\
    GetControllerOf (job_Meta j) = Some owner /\ owner_UID owner = task_UID task /\
    ev (CGet KJob (key_of (job_Meta j))) (Err e) ∈ tr1 /\ api_reason e = NotFound /\
    (forall o, CCreate KJob o ∉ calls (tr1 ++ tr2)).
Proof.
  intros Hx. destruct (job_created _ _ _ _ _ _ _ Hx) as
    (task & agent & trs & e & d & m & -> & Ht & Hv & He & Hs & Hb & Hm & -> & Hn).
  destruct (set_controller_owner _ _ _ Hm) as (owner & Ho & Hu).
  pose proof (set_controller_key _ _ _ Hm) as [Hk Hl]. rewrite (buildJob_key _ _ _ _ _ Hb) in Hk.
  exists task, agent, d, e, owner. cbn [set_meta job_Meta job_Spec]. rewrite Hk.
  split_and!; try done; [left|right; left|..].
  - intros s. unfold effective_secrets. rewrite elem_of_MergeStringSets. set_solver.
  - do 2 right. apply elem_of_app. right. left.
  - revert He. unfold IsNotFound. by destruct (api_reason e).
  - assert (Hall : no_job (concat trs)) by (by eapply steps_no_job).
    intros o [Hin|Hin]%elem_of_calls_app; [|by eapply Forall_forall in Hn; [|exact Hin]].
    assert (Hno : no_job (ev (CGet KTask req) (Ok task) :: ev (CGet KClusterAgentClass (agent_key task)) (Ok agent) ::
      concat trs ++ [ev (CGet KJob (mkNN (task_Namespace task) (task_Name task))) (Err e)])) by auto 10 with conveyor.
    by eapply Forall_forall in Hno; [|exact Hin].
Qed.

(** ** Failures *)

Lemma ensureOwned_err k mutate task desired tr e :
  exec (ensureOwned k task desired mutate) tr (Err e) -> IsPermanent e = false.
Proof.
  intros Hx. destruct (ensureOwned_cases _ _ _ _ _ _ Hx) as [(e' & Hm & _ & [= ->])|(m & _ & [(e' & _ & _ & [= ->])|
    [(e' & [x|e''] & _ & _ & [= Hr])|[(o & _ & _ & ?)|(o & [x|e''] & _ & _ & [= Hr])]]])]; try done; subst; try done.
  by eapply set_controller_err.
Qed.

(** The permanent errors of the egress allowlist: an entry that is not a CIDR
    though it has a slash, or a name that the resolver says does not exist. *)
Definition bad_entry (egress : list string) (tr : Trace) : Prop :=
  exists entry, entry ∈ egress /\
    ((ContainsByte (TrimSpace entry) "/" = true /\ ParseCIDR (TrimSpace entry) = None) \/
     exists m, ev (CLookupHost (TrimSpace entry)) (Err (true, m)) ∈ tr).

Lemma ensureNetworkPolicy_permanent r task egress t e :
  resolver r = DefaultResolver -> exec (ensureNetworkPolicy r task egress) t (Err e) ->
  IsPermanent e = true -> bad_entry egress t.
Proof.
  intros Hd. unfold ensureNetworkPolicy, BuildNetworkPolicy. rewrite Hd. intros Hx Hp.
  apply exec_bind in Hx as (t1 & t2 & d & -> & Hb & Hx).
  apply exec_bind in Hb as (te & t3 & c & -> & Hc & [-> ->]%exec_ret). destruct c as [cidrs|e'].
  { apply ensureOwned_err in Hx. congruence. }
  apply exec_ret in Hx as [-> [= ->]]. apply resolveEgress_exec in Hc as ([s|e0] & Hre & [= ->]).
  apply resolve_entries_err in Hre as [(en & Hin & Hs & Hn & ->)|(en & nf & m & Hin & Hl & -> & Hnf)].
  - exists en. split; [done|]. by left.
  - exists en. split; [done|]. right. exists m. rewrite !app_nil_r. rewrite Hp in Hnf. by subst nf.
Qed.

Lemma steps_invalid_reason r task agent egress step :
  step ∈ steps r task agent egress -> step_invalidReason step <> ""%string ->
  step_run step = ensureNetworkPolicy r task egress /\ step_invalidReason step = reasonEgressResolveFail.
Proof.
  unfold steps. rewrite !elem_of_cons.
  intros [->|[->|[->|[->|[->|[->|Hin]]]]]] Hr; [done..|by apply elem_of_nil in Hin].
Qed.

Lemma failTask_write r task reason cause tr res t :
  exec (failTask r task reason cause) tr res -> CStatusUpdate t ∈ calls tr -> ready_reason t = reason.
Proof.
  intros Hx Hin. destruct (failTask_cases _ _ _ _ _ _ Hx) as (now & [(e & -> & _)|(t' & _ & ->)]);
    apply elem_of_calls_cons in Hin as [?|[[= ->]|Hin]%elem_of_calls_cons]; try done; try apply marked_ready_reason.
  - by apply elem_of_calls_nil in Hin.
  - destruct (bool_decide _); [by apply elem_of_calls_nil in Hin|].
    apply elem_of_calls_cons in Hin as [?|Hin]; [done|]. by apply event_trace_calls in Hin.
Qed.

Lemma no_status_in {A} (p : Prog A) tr a t :
  only (fun c => step_call c = true) p -> exec p tr a -> CStatusUpdate t ∉ calls tr.
Proof. intros Hp Hx Hin. by apply (only_exec _ _ _ _ _ Hp Hx) in Hin. Qed.

Lemma steps_no_status r task agent egress l trs t :
  (forall s, s ∈ l -> s ∈ steps r task agent egress) -> steps_done r task agent l trs ->
  CStatusUpdate t ∉ calls (concat trs).
Proof. intros Hl Hd Hin. by apply (steps_trace_calls _ _ _ _ _ _ _ Hl Hd) in Hin. Qed.

Lemma ensureJob_no_status r task agent secrets tj o t :
  exec (ensureJob r task agent secrets) tj o -> CStatusUpdate t ∉ calls tj.
Proof. intros Hj Hin. apply ensureJob_quiet in Hj. rewrite Forall_forall in Hj. by apply Hj in Hin. Qed.

Lemma ensureJob_permanent r task agent secrets tj e :
  exec (ensureJob r task agent secrets) tj (Err e) -> IsPermanent e = true ->
  buildJob task agent secrets (r_JobTTLSeconds r) = Err e.
Proof.
  intros Hj Hp. destruct (ensureJob_cases _ _ _ _ _ _ Hj) as [(e' & Hb & _ & [= ->])|(d & _ & [(e' & Hm & _ & [= ->])|(m & _ &
    [(e' & _ & _ & [= ->])|[(e' & [x|e''] & _ & _ & [= ->])|(o' & _ & ?)]])])]; try done.
  apply set_controller_err in Hm. congruence.
Qed.

(** The Job that a pass worked with: found, or created. *)
Definition job_seen (tr : Trace) (job : Job) : Prop :=
  (exists key, ev (CGet KJob key) (Ok job) ∈ tr) \/ exists o, ev (CCreate KJob o) (Ok job) ∈ tr.

Lemma ensureJob_seen r task agent secrets tj job :
  exec (ensureJob r task agent secrets) tj (Ok job) -> job_seen tj job.
Proof.
  intros Hj. destruct (ensureJob_cases _ _ _ _ _ _ Hj) as [(e' & _ & _ & ?)|(d & _ & [(e' & _ & _ & ?)|(m & _ &
    [(e' & _ & _ & ?)|[(e' & [x|e''] & _ & -> & [= ->])|(o' & -> & [= ->])]])])]; try done.
  - right. eexists. right. left.
  - left. eexists. left.
Qed.

Lemma job_seen_mono t1 t2 job : t1 ⊆ t2 -> job_seen t1 job -> job_seen t2 job.
Proof. intros Hs [(k & Hk)|(o & Ho)]; [left; exists k|right; exists o]; by apply Hs. Qed.

Lemma sync_failed r task job egress ts res t tr :
  exec (syncStatus r task job egress) ts res -> CStatusUpdate t ∈ calls ts -> task_Phase t = TaskPhaseFailed ->
  job_seen tr job ->
  ready_reason t = reasonFailed /\ exists job msg, job_seen tr job /\
    derivePhase job = (TaskPhaseFailed, reasonFailed, msg).
Proof.
  intros Hx Hin Hph Hseen. destruct (sync_writes _ _ _ _ _ _ Hx t Hin) as (now & to & d & Ho & _).
  destruct (synced_kept _ _ _ _ _ _ _ _ Ho) as (_ & _ & Hk).
  destruct (derivePhase job) as [[phase reason] msg] eqn:Hd.
  destruct Hk as (Hp & _ & _ & _ & _ & c & Hc & _ & Hr & _). unfold task_Phase in Hph. rewrite Hph in Hp. subst phase.
  destruct (derivePhase_reason _ _ _ _ Hd) as [b ->].
  unfold ready_reason. rewrite Hc, Hr. split; [done|]. by exists job, msg.
Qed.

(** C4. A Task fails only for cause.  When a pass over a Task that was not
    terminal writes the phase Failed, then its spec is invalid, or its config or
    resources can never be projected (InvalidSpec), or an entry of its egress
    allowlist is malformed or names a host that does not exist
    (EgressResolveFailed), or its Job reports a failure.  No API error, timeout
    or other lookup failure fails a Task. *)
Theorem failed_only_for_cause r req task tr res t :
  resolver r = DefaultResolver -> isTerminal (task_Phase task) = false ->
  exec (Reconcile r req) (ev (CGet KTask req) (Ok task) :: tr) res ->
  CStatusUpdate t ∈ calls tr -> task_Phase t = TaskPhaseFailed ->
  (ready_reason t = reasonInvalidSpec /\ exists e, validateTask task = Err e) \/
  (exists agent, ev (CGet KClusterAgentClass (agent_key task)) (Ok agent) ∈ tr /\ validateTask task = Ok tt /\
    ((ready_reason t = reasonEgressResolveFail /\ bad_entry (effective_egress task agent) tr) \/
     (ready_reason t = reasonInvalidSpec /\ exists e, IsPermanent e = true /\
        buildJob task agent (effective_secrets task agent) (r_JobTTLSeconds r) = Err e) \/
     (ready_reason t = reasonFailed /\ exists job msg, job_seen tr job /\
        derivePhase job = (TaskPhaseFailed, reasonFailed, msg)))).
Proof.
  intros Hres Ht Hx Hin Hph. apply pass_first in Hx. rewrite Ht in Hx.
  destruct Hx as [e tf f Hv Hf|e tw w _ _ Hw|e _ _|agent pre step post trs tt e tf f Hv Hl Hd He Hr
    |agent trs tj e tf f Hv Hd Hj Hr|agent trs tj job ts e Hv Hd Hj Hs|agent trs tj job ts task' d Hv Hd Hj Hs].
  - left. apply elem_of_calls_cons in Hin as [?|Hin]; [done|]. split; [by eapply failTask_write|by exists e].
  - exfalso. do 2 (apply elem_of_calls_cons in Hin as [?|Hin]; [done|]).
    destruct (markWaiting_cases _ _ _ _ Hw) as (now & [(_ & -> & _)|(_ & [(e' & -> & _)|(t' & _ & ->)])]);
      apply elem_of_calls_cons in Hin as [?|Hin]; try done; [by apply elem_of_calls_nil in Hin|..];
      apply elem_of_calls_cons in Hin as [[= ->]|Hin]; try done; [by apply elem_of_calls_nil in Hin|].
    by apply event_trace_calls in Hin.
  - exfalso. by do 2 (apply elem_of_calls_cons in Hin as [?|Hin]; [done|]); apply elem_of_calls_nil in Hin.
  - assert (Hstep : step ∈ steps r task agent (effective_egress task agent)) by (rewrite Hl; set_solver).
    right. exists agent. split; [left|]. split; [done|]. left.
    apply elem_of_calls_cons in Hin as [?|[Hin|[Hin|Hin]%elem_of_calls_app]%elem_of_calls_app]; [done|exfalso..|].
    + eapply steps_no_status; [|exact Hd|exact Hin]. intros s Hs. rewrite Hl. set_solver.
    + eapply no_status_in; [by eapply steps_only|exact He|exact Hin].
    + apply elem_of_calls_cons in Hin as [?|Hin]; [done|].
      destruct Hr as [(Hne & Hp & Hf)|(_ & -> & _)]; [|by apply elem_of_calls_nil in Hin].
      destruct (steps_invalid_reason _ _ _ _ _ Hstep Hne) as [Hrun Hreason]. rewrite Hrun in He.
      split; [rewrite <- Hreason; by eapply failTask_write|].
      destruct (ensureNetworkPolicy_permanent _ _ _ _ _ Hres He Hp) as (en & Hen & Hcase).
      exists en. split; [done|]. destruct Hcase as [?|(m & Hm)]; [by left|right]. exists m.
      right. rewrite !elem_of_app. tauto.
  - right. exists agent. split; [left|]. split; [done|]. right. left.
    apply elem_of_calls_cons in Hin as [?|[Hin|[Hin|Hin]%elem_of_calls_app]%elem_of_calls_app]; [done|exfalso..|].
    + by eapply steps_no_status.
    + by eapply ensureJob_no_status.
    + apply elem_of_calls_cons in Hin as [?|Hin]; [done|].
      destruct Hr as [(Hp & Hf)|(_ & -> & _)]; [|by apply elem_of_calls_nil in Hin].
      split; [by eapply failTask_write|]. exists e. split; [done|]. by eapply ensureJob_permanent.
  - right. exists agent. split; [left|]. split; [done|]. right. right.
    apply elem_of_calls_cons in Hin as [?|[Hin|[Hin|[Hin|Hin]%elem_of_calls_app]%elem_of_calls_app]%elem_of_calls_app];
      [done|exfalso; by eapply steps_no_status|exfalso; by eapply ensureJob_no_status| |].
    + eapply sync_failed; [exact Hs|exact Hin|exact Hph|].
      eapply job_seen_mono; [|by eapply ensureJob_seen]. intros x Hx. right. rewrite !elem_of_app. tauto.
    + by apply list_elem_of_singleton in Hin.
  - right. exists agent. split; [left|]. split; [done|]. right. right.
    apply elem_of_calls_cons in Hin as [?|[Hin|[Hin|Hin]%elem_of_calls_app]%elem_of_calls_app];
      [done|exfalso; by eapply steps_no_status|exfalso; by eapply ensureJob_no_status|].
    eapply sync_failed; [exact Hs|exact Hin|exact Hph|].
    eapply job_seen_mono; [|by eapply ensureJob_seen]. intros x Hx. right. rewrite !elem_of_app. tauto.
Qed.


(** ** Errors surface *)

(** A write that the server rejected; deleting what is not there is no failure. *)
Definition failed_write (e : Ev) : bool :=
  match e with
  | existT (CCreate _ _) (Err _) | existT (CUpdate _ _) (Err _) | existT (CStatusUpdate _) (Err _) => true
  | existT (CDelete _ _ _) (Err e) => negb (IsNotFound e)
  | _ => false
  end.

Definition all_accepted (tr : Trace) : Prop := Forall (fun e => failed_write e = false) tr.

Lemma queries_accepted tr : Forall (fun c => is_query c = true) (calls tr) -> all_accepted tr.
Proof.
  unfold calls. rewrite Forall_fmap. intros Hq. eapply Forall_impl; [exact Hq|]. by intros [[] x].
Qed.

Lemma reports_accepted tr : (forall c, c ∈ calls tr -> is_report c = true) -> all_accepted tr.
Proof.
  intros Hr. apply Forall_forall. intros e He. specialize (Hr _ (elem_of_trace_calls _ _ He)). by destruct e as [[] x].
Qed.

Lemma ensureOwned_accepted k mutate task desired tr :
  exec (ensureOwned k task desired mutate) tr (Ok tt) -> all_accepted tr.
Proof.
  intros Hx. destruct (ensureOwned_cases _ _ _ _ _ _ Hx) as [(e & _ & _ & ?)|(m & _ & [(e & _ & _ & ?)|
    [(e & [x|e'] & _ & -> & ?)|[(o & _ & -> & _)|(o & [x|e'] & _ & -> & ?)]]])]; try done; by repeat constructor.
Qed.

Lemma deleteIfExists_accepted k key tr : exec (deleteIfExists k key) tr (Ok tt) -> all_accepted tr.
Proof.
  intros (x & -> & Hr)%deleteIfExists_cases. destruct x as [|e]; [by repeat constructor|].
  destruct (IsNotFound e) eqn:He; [|done]. constructor; [|constructor]. cbn. by rewrite He.
Qed.

Lemma build_policy_accepted rs name ns egress ports t x :
  exec (BuildNetworkPolicy rs name ns egress ports) t x -> all_accepted t.
Proof.
  intros Hb. apply queries_accepted. eapply Forall_impl; [by eapply BuildNetworkPolicy_only|]. by intros c [h ->].
Qed.

(** A permanent error of the policy step comes from the allowlist, before any write. *)
Lemma ensureNetworkPolicy_failed_accepted r task egress t e :
  exec (ensureNetworkPolicy r task egress) t (Err e) -> IsPermanent e = true -> all_accepted t.
Proof.
  unfold ensureNetworkPolicy. intros Hx Hp. apply exec_bind in Hx as (t1 & t2 & d & -> & Hb & Hx).
  destruct d as [np|e']; [apply ensureOwned_err in Hx; congruence|].
  apply exec_ret in Hx as [-> _]. rewrite app_nil_r. by eapply build_policy_accepted.
Qed.

Lemma step_accepted r task agent egress step t :
  step ∈ steps r task agent egress -> exec (step_run step) t (Ok tt) -> all_accepted t.
Proof.
  unfold steps. rewrite !elem_of_cons.
  intros [->|[->|[->|[->|[->|[->|Hin]]]]]]; cbn [step_run]; [| | | | | |by apply elem_of_nil in Hin].
  - apply ensureOwned_accepted.
  - unfold ensureRole. destruct (BuildRole _ _ _); [apply ensureOwned_accepted|apply deleteIfExists_accepted].
  - unfold ensureRoleBinding. destruct (BuildRoleBinding _ _ _); [apply ensureOwned_accepted|apply deleteIfExists_accepted].
  - unfold ensureNetworkPolicy. intros Hx. apply exec_bind in Hx as (t1 & t2 & d & -> & Hb & Hx).
    destruct d as [np|e]; [|by apply exec_ret in Hx as [_ ?]]. apply Forall_app_2; [|by eapply ensureOwned_accepted].
    by eapply build_policy_accepted.
  - unfold ensurePromptConfigMap. destruct (BuildInlinePromptConfigMap _ _ _);
      [apply ensureOwned_accepted|apply deleteIfExists_accepted].
  - unfold ensureAgentConfigMap. destruct (BuildAgentConfigMap _ _ _ _);
      [apply ensureOwned_accepted|apply deleteIfExists_accepted].
Qed.

Lemma steps_accepted r task agent egress l trs :
  (forall s, s ∈ l -> s ∈ steps r task agent egress) -> steps_done r task agent l trs -> all_accepted (concat trs).
Proof.
  intros Hl Hs. induction Hs as [|s t l trs He Hs IH]; cbn [concat]; [constructor|].
  apply Forall_app_2; [|apply IH; intros s' Hs'; apply Hl; by right].
  eapply step_accepted; [apply Hl; left|done].
Qed.

Lemma ensureJob_accepted r task agent secrets tj job :
  exec (ensureJob r task agent secrets) tj (Ok job) -> all_accepted tj.
Proof.
  intros Hj. destruct (ensureJob_cases _ _ _ _ _ _ Hj) as [(e' & _ & _ & ?)|(d & _ & [(e' & _ & _ & ?)|(m & _ &
    [(e' & _ & _ & ?)|[(e' & [x|e''] & _ & -> & [= ->])|(o' & -> & [= ->])]])])]; try done; by repeat constructor.
Qed.

Lemma failTask_accepted r task reason cause tr :
  exec (failTask r task reason cause) tr (Ok tt) -> all_accepted tr.
Proof.
  intros Hx. destruct (failTask_cases _ _ _ _ _ _ Hx) as (now & [(e & _ & ?)|(t' & _ & ->)]); [done|].
  do 2 (constructor; [done|]). destruct (bool_decide _); [constructor|]. constructor; [done|].
  apply reports_accepted. intros c. apply event_trace_calls.
Qed.

Lemma syncStatus_accepted r task job egress ts x :
  exec (syncStatus r task job egress) ts (Ok x) -> all_accepted ts.
Proof.
  intros Hx. destruct (derivePhase job) as [[phase reason] msg] eqn:Hd.
  destruct (syncStatus_cases _ _ _ _ _ _ _ _ _ Hd Hx) as (now & to & [(e & _ & _ & ?)|(t & d & Ho & Hc)]); [done|].
  assert (Hq : all_accepted (ev CNow now :: to)).
  { apply queries_accepted. constructor; [done|]. by eapply observeResult_queries. }
  destruct Hc as [(_ & -> & _)|(_ & [(e & _ & ?)|(t' & -> & _)])]; [done..|].
  rewrite app_comm_cons. apply Forall_app_2; [done|]. constructor; [done|].
  apply reports_accepted. intros c. apply transition_reports.
Qed.

Lemma pass_accepted r req tr ctrl : exec (Reconcile r req) tr (ctrl, Ok tt) -> all_accepted tr.
Proof.
  intros Hx. apply exec_pass in Hx. inversion Hx as [e Htr Hres|task tr' res Ht Hr Htr Hres|task tr' res Ht Hl Htr Hres]; subst.
  - by repeat constructor.
  - constructor; [done|]. apply terminal_cases in Hr as (t1 & t2 & o & -> & Hw & Hrest).
    destruct o as [[t d]|e]; [|by destruct Hrest as [_ ?]]. destruct Hrest as (c & Hc & Heq).
    apply Forall_app_2.
    + inversion Hw as [? ? Hq _|tr0 t0 w ? Hq _ _ Hok _]; subst; [by apply queries_accepted|].
      destruct (Hok _ _ eq_refl) as [-> _]. apply Forall_app_2; [by apply queries_accepted|by repeat constructor].
    + destruct (collectTerminal_cases _ _ _ _ Hc) as [(_ & -> & _)|(dl & now & _ & [(_ & -> & _)|(_ & x & -> & ->)])];
        [constructor|by repeat constructor|]. simplify_eq/=. destruct x as [|e]; [by repeat constructor|].
      destruct (IsNotFound e) eqn:He; [|done]. do 2 (constructor; [cbn; by rewrite ?He|]). constructor.
  - constructor; [done|]. inversion Hl as [e tf f Hv Hf|e tw w Hv He Hw Htr Hres|e|agent pre step post trs t e tf f Hv Hst Hd He Hr
      |agent trs tj e tf f Hv Hd Hj Hr|agent trs tj job ts e Hv Hd Hj Hs|agent trs tj job ts task' d Hv Hd Hj Hs]; subst.
    + constructor; [done|by eapply failTask_accepted].
    + do 2 (constructor; [done|]).
      destruct (markWaiting_cases _ _ _ _ Hw) as (now & [(_ & -> & _)|(_ & [(e' & -> & ->)|(t' & _ & ->)])]); [by repeat constructor|done|].
      do 2 (constructor; [done|]). apply reports_accepted. intros c. apply event_trace_calls.
    + destruct Hr as [(Hne & Hp & Hf)|(_ & _ & ?)]; [|done]. constructor; [done|].
      repeat apply Forall_app_2; [| |constructor; [done|by eapply failTask_accepted]].
      * eapply steps_accepted; [|exact Hd]. intros s Hs. rewrite Hst. set_solver.
      * assert (Hin : step ∈ steps r task agent (effective_egress task agent)) by (rewrite Hst; set_solver).
        destruct (steps_invalid_reason _ _ _ _ _ Hin Hne) as [Hrun _]. rewrite Hrun in He.
        by eapply ensureNetworkPolicy_failed_accepted.
    + destruct Hr as [(Hp & Hf)|(_ & _ & ?)]; [|done]. constructor; [done|].
      repeat apply Forall_app_2; [by eapply steps_accepted| |constructor; [done|by eapply failTask_accepted]].
      pose proof (ensureJob_permanent _ _ _ _ _ _ Hj Hp) as Hb.
      destruct (ensureJob_cases _ _ _ _ _ _ Hj) as [(e' & _ & -> & _)|(d & Hb' & _)]; [constructor|congruence].
    + constructor; [done|]. repeat apply Forall_app_2;
        [by eapply steps_accepted|by eapply ensureJob_accepted|by eapply syncStatus_accepted].
Qed.

(** C9. No rejected write is swallowed.  When a pass ends without an error, the
    server accepted every create, update, status write and delete that the pass
    made (a delete of what is already gone counts as accepted); any other
    answer makes the pass return an error, so that it is retried. *)
Theorem rejected_write_surfaces r req tr ctrl :
  exec (Reconcile r req) tr (ctrl, Ok tt) -> all_accepted tr.
Proof. apply pass_accepted. Qed.


(** ** Waiting for the class *)

(** A Task that exists before its class waits.  When the class is not found,
    the pass creates, updates and deletes nothing; it can only write the phase
    Pending with the reason AgentClassMissing, it counts no transition, and
    without an error it asks to be woken in thirty seconds. *)
Theorem missing_class_waits r req task e tr res :
  isTerminal (task_Phase task) = false -> validateTask task = Ok tt -> IsNotFound e = true ->
  exec (Reconcile r req)
    (ev (CGet KTask req) (Ok task) :: ev (CGet KClusterAgentClass (agent_key task)) (Err e) :: tr) res ->
  (forall c, c ∈ calls tr ->
     match c with
     | CCreate _ _ | CUpdate _ _ | CDelete _ _ _ => False
     | CStatusUpdate t => task_Phase t = TaskPhasePending /\ ready_reason t = reasonAgentClassMissing /\
         task_Spec t = task_Spec task /\ st_Result (task_Status t) = st_Result (task_Status task)
     | _ => True
     end) /\
  phase_transitions tr = [] /\ (res.2 = Ok tt -> RequeueAfter res.1 = 30 * Second).
Proof.
  intros Ht Hv He Hx. apply pass_first in Hx. rewrite Ht in Hx.
  assert (Hw : exists tw w, tr = step_error StepAgentClassLookup :: tw /\ exec (markWaitingForAgentClass r task) tw w /\
    res = match w with Err e => (mkCtrl 0, Err e) | Ok _ => (mkCtrl agentClassMissingRequeue, Ok tt) end).
  { remember (ev (CGet KClusterAgentClass (agent_key task)) (Err e) :: tr) as tr0 eqn:Htr.
    assert (Hans : forall agent l, ev (CGet KClusterAgentClass (agent_key task)) (Ok agent) :: l = tr0 -> False).
    { intros agent l Heq. rewrite <- Heq in Htr.
      apply (f_equal (fun l : Trace => match l with existT (CGet KClusterAgentClass _) (Ok _) :: _ => true | _ => false end)) in Htr. done. }
    destruct Hx as [e' tf f Hv' _|e' tw w _ _ Hw|e' _ He'| | | |]; [congruence| | |exfalso; by eapply Hans..].
    - exists tw, w. split_and!; [|done..]. by injection Htr.
    - apply (f_equal (fun l : Trace => match l with existT (CGet KClusterAgentClass _) (Err e) :: _ => IsNotFound e | _ => false end)) in Htr.
      cbn in Htr. congruence. }
  destruct Hw as (tw & w & -> & Hw & ->).
  destruct (markWaiting_cases _ _ _ _ Hw) as (now & Hc).
  assert (Hm : forall t, t = marked now TaskPhasePending ConditionUnknown reasonAgentClassMissing (waiting_message task) task ->
    task_Phase t = TaskPhasePending /\ ready_reason t = reasonAgentClassMissing /\
    task_Spec t = task_Spec task /\ st_Result (task_Status t) = st_Result (task_Status task)).
  { intros t ->. by rewrite marked_ready_reason. }
  split; [|destruct Hc as [(_ & -> & ->)|(_ & [(e' & -> & ->)|(t' & -> & ->)])]; (split; [|done]); try done].
  - intros c Hin. destruct Hc as [(_ & -> & ->)|(_ & [(e' & -> & ->)|(t' & -> & ->)])];
      repeat (apply elem_of_calls_cons in Hin as [->|Hin]; [done || by apply Hm|]); try (by apply elem_of_calls_nil in Hin).
    apply event_trace_calls in Hin. by destruct c.
  - unfold event_trace. by destruct (r_Recorder r).
Qed.

End Lifecycle.

(** ** The theorems at samples *)

#[local] Existing Instances KubeRef.lib KubeRef.laws Samples.errors_text Samples.tables.

Definition req : NamespacedName := mkNN "agents" "demo".
Definition sample_pass : Prog (CtrlResult * result unit) := Reconcile Samples.reconciler req.
Definition trace_in (w : Samples.World) : Trace := trace_of Samples.handle sample_pass w.
Definition rest_in (w : Samples.World) : Trace := tail (trace_in w).
Definition result_in (w : Samples.World) : CtrlResult * result unit := (run Samples.handle sample_pass w).1.

(** The other worlds of the samples. *)
Definition with_task (t : Task) (w : Samples.World) : Samples.World :=
  Samples.mkWorld (Samples.w_Now w) (Ok t) (Samples.w_Agent w) (Samples.w_Job w) (Samples.w_Pods w)
    (Samples.w_Tasks w) (Samples.w_Triggers w) (Samples.w_Secret w) (Samples.w_Lookup w) (Samples.w_StatusUpdate w).
Definition no_class : Samples.World :=
  Samples.mkWorld (1000 * Second) (Ok Samples.task) (Err Samples.not_found) (Err Samples.not_found) [] [] []
    (Err Samples.not_found) (Ok []) None.
Definition done_world : Samples.World := with_task done_task Samples.finished.
Definition running_task : Task :=
  Samples.with_status (mkTaskStatus TaskPhaseRunning 1 "demo" (Some 5) None None
    [mkCondition "Ready" ConditionUnknown "Running" "Job is running" 1 5]).
(** The Job runs and a name of the allowlist is gone. *)
Definition lost_name : Samples.World :=
  Samples.mkWorld (1000 * Second) (Ok running_task) (Ok Samples.agent) (Ok Samples.running_job) [] [] []
    (Err Samples.not_found) (Err (true, "no such host"%string)) None.

Lemma pass_in t w : Samples.w_Task w = Ok t ->
  exec sample_pass (ev (CGet KTask req) (Ok t) :: rest_in w) (result_in w).
Proof.
  intros Hw. pose proof (run_exec Samples.handle sample_pass w) as Hx.
  unfold rest_in, result_in, trace_in. cbn in Hx |- *. by rewrite Hw in *.
Qed.

Definition created_job (tr : Trace) : option Job :=
  head (omap (fun e : Ev => match e with existT (CCreate KJob j) _ => Some j | _ => None end) tr).
Definition fresh_job : Job := default Samples.running_job (created_job (trace_in Samples.fresh)).
Definition before_job : Trace := take 16 (trace_in Samples.fresh).
Definition after_job : Trace := drop 17 (trace_in Samples.fresh).

Lemma fresh_creates :
  exec sample_pass (before_job ++ ev (CCreate KJob fresh_job) (Ok fresh_job) :: after_job) (result_in Samples.fresh).
Proof.
  refine (eq_rect _ (fun t => exec sample_pass t _) (run_exec Samples.handle sample_pass Samples.fresh) _ _).
  vm_compute. reflexivity.
Qed.

Lemma policy_precedes_job_witness : exists task np, req = mkNN (task_Namespace task) (task_Name task) /\
  holds KNetworkPolicy (mkNN (task_Namespace task) (task_Name task)) before_job np /\
  selects (nps_PodSelector (np_Spec np)) (pt_Labels (js_Template (job_Spec fresh_job))) = true.
Proof.
  destruct (policy_precedes_job _ _ _ _ _ _ _ fresh_creates) as
    (task & agent & np & cidrs & te & _ & _ & Hkey & Hh & Hsel & _).
  exists task, np. split; [|split; [exact Hh|exact Hsel]]. rewrite <- Hkey. vm_compute. reflexivity.
Defined.

Lemma job_as_declared_witness : exists owner,
  GetControllerOf (job_Meta fresh_job) = Some owner.
Proof.
  destruct (job_as_declared _ _ _ _ _ _ _ fresh_creates) as
    (task & agent & d & e & owner & _ & _ & _ & _ & _ & _ & _ & _ & Ho & _). exists owner. exact Ho.
Defined.

Lemma terminal_is_final_witness :
  st_Phase (next_status (task_Status done_task) (rest_in done_world)) = TaskPhaseCompleted.
Proof.
  apply (terminal_is_final Samples.reconciler req (task_Status done_task) [rest_in done_world]); [reflexivity|].
  eapply history_pass; [reflexivity|apply (pass_in done_task done_world); reflexivity|apply history_nil].
Defined.

Lemma echo_in w (Hw : Samples.w_StatusUpdate w = None) t x :
  ev (CStatusUpdate t) (Ok x) ∈ rest_in w -> x = t.
Proof.
  intros Hin. assert (Hall : forall A (p : Prog A), Forall (fun e : Ev => match e with
    existT (CStatusUpdate t) (Ok t') => t' = t | _ => True end) (trace_of Samples.handle p w)).
  { intros A p. induction p as [a|c k IH]; [constructor|]. cbn. constructor; [|apply IH].
    destruct c; cbn; try exact I. by rewrite Hw. }
  specialize (Hall _ sample_pass). rewrite Forall_forall in Hall.
  apply (Hall (ev (CStatusUpdate t) (Ok x))). unfold rest_in, trace_in in Hin. by destruct (trace_of _ _ _); [|right].
Qed.

Lemma collection_after_deadline_witness : exists deadline now,
  deletionDeadline done_task None = Some deadline /\ ev CNow now ∈ rest_in done_world /\ deadline <= now.
Proof.
  destruct (proj1 (collection_after_deadline Samples.reconciler req done_task (rest_in done_world) (result_in done_world)
    eq_refl (pass_in done_task done_world eq_refl) (echo_in done_world eq_refl)) req (Some "uid-1"%string))
    as (_ & _ & Hd); [|exact Hd].
  apply (list_elem_of_lookup_2 _ 6). vm_compute. reflexivity.
Defined.

Lemma reports_follow_writes_witness : exists A t w C,
  rest_in Samples.fresh = A ++ ev (CStatusUpdate t) w :: C /\ (forall t0, CStatusUpdate t0 ∉ calls C).
Proof.
  destruct (reports_follow_writes Samples.reconciler req Samples.task _ _ (pass_in Samples.task Samples.fresh eq_refl))
    as [Hq|(A & t & w & C & Htr & _ & Hn & _)]; [|exists A, t, w, C; split; assumption].
  exfalso. assert (Hb : forallb quiet (calls (rest_in Samples.fresh)) = false) by (vm_compute; reflexivity).
  apply not_true_iff_false in Hb. apply Hb, forallb_forall. intros c Hc. rewrite Forall_forall in Hq.
  apply Hq, list_elem_of_In, Hc.
Defined.

Definition written_in (w : Samples.World) : Task :=
  default Samples.task (head (omap (fun c => match c with CStatusUpdate t => Some t | _ => None end) (calls (rest_in w)))).

Lemma failed_only_for_cause_witness : exists agent,
  bad_entry (effective_egress running_task agent) (rest_in lost_name).
Proof.
  destruct (failed_only_for_cause Samples.reconciler req running_task (rest_in lost_name) (result_in lost_name)
    (written_in lost_name) eq_refl eq_refl (pass_in running_task lost_name eq_refl))
    as [[Hr _]|(agent & _ & _ & [[_ Hb]|[[Hr _]|[Hr _]]])].
  - apply (list_elem_of_lookup_2 _ 10). vm_compute. reflexivity.
  - vm_compute. reflexivity.
  - vm_compute in Hr. discriminate Hr.
  - exists agent. exact Hb.
  - vm_compute in Hr. discriminate Hr.
  - vm_compute in Hr. discriminate Hr.
Defined.

Lemma rejected_write_surfaces_witness : all_accepted (trace_in Samples.fresh).
Proof.
  apply (rejected_write_surfaces Samples.reconciler req _ (result_in Samples.fresh).1).
  refine (eq_rect _ (exec _ _) (run_exec Samples.handle sample_pass Samples.fresh) _ _). vm_compute. reflexivity.
Defined.

Lemma missing_class_waits_witness : phase_transitions (tail (rest_in no_class)) = [].
Proof.
  refine (proj1 (proj2 (missing_class_waits Samples.reconciler req Samples.task Samples.not_found
    (tail (rest_in no_class)) (result_in no_class) eq_refl _ eq_refl (pass_in Samples.task no_class eq_refl)))).
  vm_compute. reflexivity.
Defined.

(** ** A running Task that loses a name *)

(** The egress refresh of a Task whose Job is running fails the Task for good
    when a name of its allowlist does not exist any more: the pass writes Failed
    with EgressResolveFailed, keeps the name of the Job in the status, and
    neither deletes nor suspends that Job. *)
Theorem running_task_fails_on_lost_name :
  exists r req task tr res t,
    task_Phase task = TaskPhaseRunning /\
    exec (Reconcile r req) (ev (CGet KTask req) (Ok task) :: tr) res /\
    CStatusUpdate t ∈ calls tr /\ task_Phase t = TaskPhaseFailed /\ ready_reason t = reasonEgressResolveFail /\
    st_JobName (task_Status t) = "demo"%string /\
    (forall c, c ∈ calls tr -> match c with CDelete KJob _ _ | CUpdate KJob _ => False | _ => True end).
Proof.
  exists Samples.reconciler, req, running_task, (rest_in lost_name), (result_in lost_name), (written_in lost_name).
  split_and!; [done|by apply pass_in| |by vm_compute..|].
  - apply (list_elem_of_lookup_2 _ 10). by vm_compute.
  - intros c Hc. assert (Hb : forallb (fun c => match c with CDelete KJob _ _ | CUpdate KJob _ => false | _ => true end)
      (calls (rest_in lost_name)) = true) by (vm_compute; reflexivity).
    rewrite forallb_forall in Hb. apply list_elem_of_In, Hb in Hc. by destruct c as [| |[]|[]| | | | | | | | | |].
Qed.
End Lifecycle.
