(* ===== verification/ApiServer.v ===== *)
(** * The API server

    What the documentation of Kubernetes promises of the API server, the DNS
    resolver and the clock while nobody else writes: [served] relates a call, its
    answer and the states before and after it.  The theorems over [exec] leave the
    answers open; with [answered], a trace is one that this server gives.  A server
    that can be run, [respond], shows that the relation can be satisfied. *)

From S2P Require Import Prelude GoString GoTime Kube Api Effects KubeLib Samples.

Module ApiServer.

(** ** State *)

(** The objects by kind and key, the pods of a namespace with their labels, the
    trigger classes, and what a lookup of a name answers. *)
Record World := mkWorld {
  w_get : forall k : Kind, NamespacedName -> option (obj k);
  w_pods : string -> gmap string string -> list Pod;
  w_triggers : list ClusterTriggerClass;
  w_dns : string -> res (bool * string) (list string) }.

Lemma set_meta_own k (o : obj k) : set_meta k (obj_meta k o) o = o.
Proof. by destruct k, o. Qed.

(** Worlds that agree on everything but the objects. *)
Record same_env (w w' : World) : Prop := {
  same_pods : forall ns sel, w_pods w' ns sel = w_pods w ns sel;
  same_triggers : w_triggers w' = w_triggers w;
  same_dns : forall h, w_dns w' h = w_dns w h }.

Record same (w w' : World) : Prop := {
  same_get : forall k key, w_get w' k key = w_get w k key;
  same_rest : same_env w w' }.

#[export] Instance same_env_equiv : Equivalence same_env.
Proof.
  split.
  - by split.
  - intros w w' [Hp Ht Hd]. by split; symmetry.
  - intros w1 w2 w3 [P1 T1 D1] [P2 T2 D2]. split; congruence.
Qed.

#[export] Instance same_equiv : Equivalence same.
Proof.
  split.
  - by split.
  - intros w w' [Hg Hr]. by split; symmetry.
  - intros w1 w2 w3 [G1 R1] [G2 R2]. split; [congruence|by etrans].
Qed.

(** Objects are stored under their own names. *)
Definition keyed (w : World) : Prop := forall k key o, w_get w k key = Some o -> key_of (obj_meta k o) = key.

(** A place an object can be at. *)
Definition Slot : Type := Kind * NamespacedName.

(** [w'] is [w] with the slot set to [v]. *)
Record changes (k : Kind) (key : NamespacedName) (v : option (obj k)) (w w' : World) : Prop := {
  changed_at : w_get w' k key = v;
  changed_frame : forall k' key', (k', key') <> (k, key) -> w_get w' k' key' = w_get w k' key';
  changed_rest : same_env w w' }.

(** ** Calls *)

(** The metadata of a stored object: that of the object sent, up to what the
    server sets (UID, generation, a generated name). *)
Record meta_stored (m m' : ObjectMeta) : Prop := {
  ms_name : om_GenerateName m = ""%string -> om_Name m' = om_Name m;
  ms_generate : om_GenerateName m' = om_GenerateName m;
  ms_namespace : om_Namespace m' = om_Namespace m;
  ms_labels : om_Labels m' = om_Labels m;
  ms_annotations : om_Annotations m' = om_Annotations m;
  ms_owners : om_OwnerReferences m' = om_OwnerReferences m }.

(** The kinds of which the server stores everything but the metadata as it was
    sent.  It fills in fields of a Job and of a Task, and clears their status. *)
Definition plain_kind (k : Kind) : bool :=
  match k with KServiceAccount | KConfigMap | KRole | KRoleBinding | KNetworkPolicy => true | _ => false end.

Definition stored (k : Kind) (o o' : obj k) : Prop :=
  meta_stored (obj_meta k o) (obj_meta k o') /\
  (plain_kind k = true -> o' = set_meta k (obj_meta k o') o) /\
  match k return obj k -> Prop with
  | KJob => fun o' => job_Status o' = mkJobStatus [] 0 None None
  | KTask => fun o' => task_Status o' = empty_status /\ om_DeletionTimestamp (task_Meta o') = None /\
      (om_GenerateName (task_Meta o') <> ""%string -> task_Name o' <> ""%string)
  | _ => fun _ => True
  end o'.

Definition updates (k : Kind) (o o' : obj k) : Prop :=
  meta_stored (obj_meta k o) (obj_meta k o') /\ om_Name (obj_meta k o') = om_Name (obj_meta k o) /\
  (plain_kind k = true -> o' = set_meta k (obj_meta k o') o).

Definition missing {A} (x : res ApiError A) : Prop := exists e, x = Err e /\ IsNotFound e = true.
Definition refused {A} (x : res ApiError A) : Prop := exists e, x = Err e /\ IsNotFound e = false.

(** The precondition of a delete. *)
Definition uid_allows (uid : option string) (m : ObjectMeta) : Prop :=
  match uid with None => True | Some u => om_UID m = u end.

Definition listed (w : World) (select : Task -> Prop) (x : res ApiError (list Task)) : Prop :=
  exists l, x = Ok l /\ forall t, t ∈ l <-> (exists key, w_get w KTask key = Some t) /\ select t.

Definition served (w : World) (c : Call) : resp c -> World -> Prop :=
  match c return resp c -> World -> Prop with
  | CGet k key => fun x w' =>
    same w w' /\ match w_get w k key with Some o => x = Ok o | None => missing x end
  | CCreate k o => fun x w' =>
    (exists o', x = Ok o' /\ stored k o o' /\ w_get w k (key_of (obj_meta k o')) = None /\
       changes k (key_of (obj_meta k o')) (Some o') w w') \/
    (refused x /\ same w w' /\ (om_GenerateName (obj_meta k o) = ""%string -> w_get w k (key_of (obj_meta k o)) <> None))
  | CUpdate k o => fun x w' =>
    let key := key_of (obj_meta k o) in
    match w_get w k key with
    | Some _ => exists o', x = Ok o' /\ updates k o o' /\ changes k key (Some o') w w'
    | None => missing x /\ same w w'
    end
  | CDelete k key uid => fun x w' =>
    match w_get w k key with
    | Some o => (uid_allows uid (obj_meta k o) /\ x = Ok tt /\ changes k key None w w') \/
                (~ uid_allows uid (obj_meta k o) /\ refused x /\ same w w')
    | None => missing x /\ same w w'
    end
  | CStatusUpdate t => fun x w' =>
    let key := key_of (task_Meta t) in
    match w_get w KTask key with
    | Some old => let t' := mkTask (task_Meta old) (task_Spec old) (task_Status t) in
                  x = Ok t' /\ changes KTask key (Some t') w w'
    | None => missing x /\ same w w'
    end
  | CListPods ns sel => fun x w' => same w w' /\ x = Ok (w_pods w ns sel)
  | CListTasks live ns sel => fun x w' =>
    same w w' /\ listed w (fun t => task_Namespace t = ns /\ selects sel (om_Labels (task_Meta t)) = true) x
  | CListTasksByAgent ref => fun x w' =>
    same w w' /\ listed w (fun t => agent_Ref (spec_Agent (task_Spec t)) = ref) x
  | CListTriggerClasses => fun x w' => same w w' /\ x = Ok (w_triggers w)
  | CLookupHost h => fun x w' => same w w' /\ x = w_dns w h
  | CNow | CMetric _ | CEvent _ | CRespond _ => fun _ w' => same w w'
  end.

(** The server gives the answers of the trace, one call after the other. *)
Fixpoint answered (w : World) (tr : Trace) (w' : World) : Prop :=
  match tr with
  | [] => same w w'
  | e :: tr => exists w1, served w (projT1 e) (projT2 e) w1 /\ answered w1 tr w'
  end.

Lemma answered_nil w w' : answered w [] w' <-> same w w'.
Proof. done. Qed.

Lemma answered_cons w c x tr w' : answered w (ev c x :: tr) w' <-> exists w1, served w c x w1 /\ answered w1 tr w'.
Proof. done. Qed.

(** ** Equal worlds give equal answers *)

Lemma changes_same k key v w w' u u' : changes k key v w w' -> same w u -> same w' u' -> changes k key v u u'.
Proof.
  intros [Hat Hfr Hre] [Hg He] [Hg' He']. split.
  - by rewrite Hg'.
  - intros k' key' Hne. by rewrite Hg', Hg, Hfr.
  - by rewrite <- He, Hre.
Qed.

Lemma same_changes k key v w w' u : same w u -> changes k key v u w' -> changes k key v w w'.
Proof. intros Hs Hc. by eapply changes_same. Qed.

Lemma listed_same w u select x : same w u -> listed w select x -> listed u select x.
Proof.
  intros [Hg _] (l & -> & Hl). exists l. split; [done|]. intros t. rewrite Hl.
  split; intros [[key Hk] Hsel]; (split; [exists key; by rewrite ?Hg in *|done]).
Qed.

Lemma served_same w c x w' u u' : served w c x w' -> same w u -> same w' u' -> served u c x u'.
Proof.
  intros Hs Hw Hw'. assert (Hid : same w w' -> same u u') by (intros Hww; by rewrite <- Hw, Hww).
  pose proof (fun k key v Hc => changes_same k key v w w' u u' Hc Hw Hw') as Hch. pose proof (same_get _ _ Hw) as Hg.
  destruct c as [k key|k o|k o|k key uid|t|ns sel|live ns sel|ref| |h| |mt|e|rsp]; cbn in Hs |- *; rewrite ?Hg.
  - naive_solver.
  - destruct Hs as [(o' & -> & Hst & Hn & Hc)|(Hr & Hsm & Hex)]; [left; exists o'|right]; rewrite ?Hg; auto.
  - destruct (w_get w k _); [|naive_solver]. destruct Hs as (o' & -> & Hu & Hc). eauto.
  - destruct (w_get w k _); [|naive_solver]. destruct Hs as [(? & -> & Hc)|(? & ? & ?)]; [left|right]; auto.
  - destruct (w_get w KTask _); [|naive_solver]. destruct Hs as [-> Hc]. auto.
  - destruct Hs as [Hs ->]. rewrite (same_pods _ _ (same_rest _ _ Hw)). auto.
  - destruct Hs as [Hs Hl]. split; [auto|by eapply listed_same].
  - destruct Hs as [Hs Hl]. split; [auto|by eapply listed_same].
  - destruct Hs as [Hs ->]. rewrite (same_triggers _ _ (same_rest _ _ Hw)). auto.
  - destruct Hs as [Hs ->]. rewrite (same_dns _ _ (same_rest _ _ Hw)). auto.
  - auto.
  - auto.
  - auto.
  - auto.
Qed.

Lemma answered_same w tr w' u u' : answered w tr w' -> same w u -> same w' u' -> answered u tr u'.
Proof.
  revert w u. induction tr as [|[c x] tr IH]; intros w u Ha Hw Hw'; [cbn in *; by rewrite <- Hw, Ha|].
  destruct Ha as (w1 & Hs & Ha). exists w1. split; [by eapply served_same|by eapply IH].
Qed.

Lemma answered_trans w t1 t2 w' : answered w (t1 ++ t2) w' <-> exists w1, answered w t1 w1 /\ answered w1 t2 w'.
Proof.
  revert w. induction t1 as [|e t1 IH]; intros w; cbn [app answered].
  - split; [by exists w|]. intros (w1 & Hs & Ha). by eapply answered_same.
  - split.
    + intros (w1 & Hs & (w2 & H1 & H2)%IH). exists w2. split; [by exists w1|done].
    + intros (w2 & (w1 & Hs & H1) & H2). exists w1. split; [done|]. apply IH. by exists w2.
Qed.

(** ** Frames *)

(** The slots a call may change. *)
Definition at_slot (c : Call) (s : Slot) : Prop :=
  match c with
  | CCreate k o => s.1 = k /\ (om_GenerateName (obj_meta k o) = ""%string -> s.2 = key_of (obj_meta k o))
  | CUpdate k o => s = (k, key_of (obj_meta k o))
  | CDelete k key _ => s = (k, key)
  | CStatusUpdate t => s = (KTask, key_of (task_Meta t))
  | _ => False
  end.

Lemma stored_key k o o' : stored k o o' -> om_GenerateName (obj_meta k o) = ""%string -> key_of (obj_meta k o') = key_of (obj_meta k o).
Proof. intros [[Hn _ Hns _ _ _] _] Hg. unfold key_of. by rewrite Hn, Hns. Qed.

Lemma served_frame w c x w' k key : served w c x w' -> ~ at_slot c (k, key) -> w_get w' k key = w_get w k key.
Proof.
  intros Hs Hn. assert (Hid : same w w' -> w_get w' k key = w_get w k key) by (by intros [Hg _]).
  destruct c as [k' key'|k' o|k' o|k' key' uid|t|ns sel|live ns sel|ref| |h| |mt|e|rsp]; cbn in Hs, Hn; try (by apply Hid, Hs); try by apply Hid.
  - destruct Hs as [(o' & _ & Hst & _ & [_ Hf _])|(_ & Hs & _)]; [|by apply Hid]. apply Hf. intros [= -> ->].
    apply Hn. split; [done|]. intros Hg. by apply stored_key.
  - destruct (w_get w k' _); [|by apply Hid, Hs]. destruct Hs as (o' & _ & _ & [_ Hf _]). apply Hf. intros [= -> ->]. by apply Hn.
  - destruct (w_get w k' _); [|by apply Hid, Hs]. destruct Hs as [(_ & _ & [_ Hf _])|(_ & _ & Hs)]; [|by apply Hid]. by apply Hf.
  - destruct (w_get w KTask _); [|by apply Hid, Hs]. destruct Hs as (_ & [_ Hf _]). by apply Hf.
Qed.

Lemma served_env w c x w' : served w c x w' -> same_env w w'.
Proof.
  intros Hs. destruct c as [k' key'|k' o|k' o|k' key' uid|t|ns sel|live ns sel|ref| |h| |mt|e|rsp]; cbn in Hs; try (by apply same_rest, Hs); try by apply same_rest.
  - destruct Hs as [(o' & _ & _ & _ & [_ _ Hr])|(_ & [_ Hr] & _)]; done.
  - destruct (w_get w k' _); [|by apply same_rest, Hs]. by destruct Hs as (o' & _ & _ & [_ _ Hr]).
  - destruct (w_get w k' _); [|by apply same_rest, Hs]. by destruct Hs as [(_ & _ & [_ _ Hr])|(_ & _ & [_ Hr])].
  - destruct (w_get w KTask _); [|by apply same_rest, Hs]. by destruct Hs as (_ & [_ _ Hr]).
Qed.

Lemma answered_frame w tr w' k key :
  answered w tr w' -> Forall (fun c => ~ at_slot c (k, key)) (calls tr) -> w_get w' k key = w_get w k key.
Proof.
  revert w. induction tr as [|[c x] tr IH]; intros w Ha Hf; [by apply Ha|].
  destruct Ha as (w1 & Hs & Ha). apply Forall_cons in Hf as [Hc Hf]. rewrite (IH w1 Ha Hf). by eapply served_frame.
Qed.

Lemma answered_env w tr w' : answered w tr w' -> same_env w w'.
Proof.
  revert w. induction tr as [|[c x] tr IH]; intros w Ha; [by apply Ha|].
  destruct Ha as (w1 & Hs & Ha). etrans; [by eapply served_env|by apply IH].
Qed.

Lemma is_write_at_slot c s : is_write c = false -> ~ at_slot c s.
Proof. intros Hc Ha. by destruct c. Qed.

Lemma answered_reads w tr w' : answered w tr w' -> Forall (fun c => is_write c = false) (calls tr) -> same w w'.
Proof.
  intros Ha Hf. split; [|by eapply answered_env]. intros k key. eapply answered_frame; [done|].
  eapply Forall_impl; [done|]. intros c. apply is_write_at_slot.
Qed.

Lemma served_stays_keyed w c x w' : served w c x w' -> keyed w -> keyed w'.
Proof.
  intros Hs Hk. assert (Hid : same w w' -> keyed w') by (intros [Hg _] k key o; rewrite Hg; apply Hk).
  assert (Hch : forall k key o, changes k key o w w' -> (forall o', o = Some o' -> key_of (obj_meta k o') = key) -> keyed w').
  { intros k key v [Hat Hf _] Hv k' key' o Ho. destruct (decide ((k', key') = (k, key))) as [Heq|Hne].
    - injection Heq as -> ->. apply Hv. congruence.
    - rewrite Hf in Ho by done. by apply Hk. }
  destruct c as [k' key'|k' o|k' o|k' key' uid|t|ns sel|live ns sel|ref| |h| |mt|e|rsp]; cbn in Hs; try (by apply Hid, Hs); try by apply Hid.
  - destruct Hs as [(o' & _ & _ & _ & Hc)|(_ & Hs & _)]; [|by apply Hid]. eapply Hch; [exact Hc|]. by intros ? [= <-].
  - destruct (w_get w k' _); [|by apply Hid, Hs]. destruct Hs as (o' & _ & [Hm [Hn _]] & Hc). eapply Hch; [exact Hc|].
    intros ? [= <-]. unfold key_of. rewrite Hn. by destruct Hm as [_ _ -> _ _ _].
  - destruct (w_get w k' _); [|by apply Hid, Hs]. destruct Hs as [(_ & _ & Hc)|(_ & _ & Hs)]; [|by apply Hid]. by eapply Hch.
  - destruct (w_get w KTask _) as [old|] eqn:Ho; [|by apply Hid, Hs]. destruct Hs as (_ & Hc). eapply Hch; [exact Hc|].
    intros ? [= <-]. exact (Hk _ _ _ Ho).
Qed.

Lemma answered_keyed w tr w' : answered w tr w' -> keyed w -> keyed w'.
Proof.
  revert w. induction tr as [|[c x] tr IH]; intros w Ha Hk.
  - intros k key o. rewrite (same_get _ _ Ha). apply Hk.
  - destruct Ha as (w1 & Hs & Ha). eapply IH; [done|]. by eapply served_stays_keyed.
Qed.

(** ** A server that can be run *)

Definition put (k : Kind) (key : NamespacedName) (v : option (obj k)) (w : World) : World :=
  mkWorld (fun k' key' =>
    match decide (k = k') with
    | left e => if decide (key = key') then eq_rect k (fun k => option (obj k)) v k' e else w_get w k' key'
    | right _ => w_get w k' key'
    end) (w_pods w) (w_triggers w) (w_dns w).

Lemma put_changes k key v w : changes k key v w (put k key v w).
Proof.
  split; [| |by split]; cbn.
  - destruct (decide (k = k)) as [e|]; [|done]. rewrite decide_True by done. by rewrite (proof_irrel e eq_refl).
  - intros k' key' Hne. destruct (decide (k = k')) as [<-|]; [|done]. rewrite decide_False; [done|congruence].
Qed.

Section Respond.

(** The end of a generated name. *)
Context (suffix : string).

(** What the server sets in the metadata of a new object. *)
Definition fill_meta (m : ObjectMeta) : ObjectMeta :=
  mkMeta (if (om_GenerateName m =? "")%string then om_Name m else om_GenerateName m +:+ suffix) (om_GenerateName m) (om_Namespace m)
    ("uid-" +:+ om_Name m) 1 None (om_Labels m) (om_Annotations m) (om_OwnerReferences m).

Definition fill (k : Kind) : obj k -> obj k :=
  match k with
  | KJob => fun o => mkJob (fill_meta (job_Meta o)) (job_Spec o) (mkJobStatus [] 0 None None)
  | KTask => fun o => mkTask (fill_meta (task_Meta o)) (task_Spec o) empty_status
  | k => fun o => set_meta k (fill_meta (obj_meta k o)) o
  end.

Lemma fill_meta_eq k o : obj_meta k (fill k o) = fill_meta (obj_meta k o).
Proof. by destruct k. Qed.

Lemma fill_stored k o : stored k o (fill k o).
Proof.
  split; [|split].
  - rewrite fill_meta_eq. split; try done. intros Hg. unfold fill_meta. cbn. by rewrite Hg.
  - intros Hp. rewrite fill_meta_eq. by destruct k.
  - destruct k; try done. split_and!; [done..|]. cbn. intros Hg. unfold task_Name. cbn. rewrite (proj2 (String.eqb_neq _ _) Hg).
    by destruct (om_GenerateName (task_Meta o)).
Qed.

Definition is_free {A} (o : option A) : bool := match o with Some _ => false | None => true end.

Definition tasks_at (keys : list NamespacedName) (w : World) : list Task := omap (w_get w KTask) keys.

Definition respond_as (keys : list NamespacedName) (now : Time) (c : Call) (w : World) : resp c * World :=
  match c return resp c * World with
  | CGet k key => (match w_get w k key with Some o => Ok o | None => Err Samples.not_found end, w)
  | CCreate k o =>
    let o' := fill k o in
    if is_free (w_get w k (key_of (obj_meta k o'))) then (Ok o', put k (key_of (obj_meta k o')) (Some o') w)
    else (Err (mkApiError OtherReason "already exists"), w)
  | CUpdate k o =>
    match w_get w k (key_of (obj_meta k o)) with
    | Some _ => (Ok o, put k (key_of (obj_meta k o)) (Some o) w)
    | None => (Err Samples.not_found, w)
    end
  | CDelete k key uid =>
    match w_get w k key with
    | Some o =>
      if match uid with None => true | Some u => bool_decide (om_UID (obj_meta k o) = u) end then (Ok tt, put k key None w)
      else (Err (mkApiError OtherReason "conflict"), w)
    | None => (Err Samples.not_found, w)
    end
  | CStatusUpdate t =>
    match w_get w KTask (key_of (task_Meta t)) with
    | Some old => let t' := mkTask (task_Meta old) (task_Spec old) (task_Status t) in (Ok t', put KTask (key_of (task_Meta t)) (Some t') w)
    | None => (Err Samples.not_found, w)
    end
  | CListPods ns sel => (Ok (w_pods w ns sel), w)
  | CListTasks live ns sel =>
    (Ok (filter (fun t => task_Namespace t = ns /\ selects sel (om_Labels (task_Meta t)) = true) (tasks_at keys w)), w)
  | CListTasksByAgent ref => (Ok (filter (fun t => agent_Ref (spec_Agent (task_Spec t)) = ref) (tasks_at keys w)), w)
  | CListTriggerClasses => (Ok (w_triggers w), w)
  | CLookupHost h => (w_dns w h, w)
  | CNow => (now, w)
  | CMetric _ | CEvent _ | CRespond _ => (tt, w)
  end.

(** The keys of all Tasks. *)
Definition covers (keys : list NamespacedName) (w : World) : Prop := forall key t, w_get w KTask key = Some t -> key ∈ keys.

Lemma elem_of_tasks_at keys w t : covers keys w -> t ∈ tasks_at keys w <-> exists key, w_get w KTask key = Some t.
Proof.
  intros Hc. unfold tasks_at. rewrite list_elem_of_omap. split; [intros (key & _ & Hk); by exists key|].
  intros [key Hk]. exists key. split; [by eapply Hc|done].
Qed.

Lemma respond_served keys now w c : covers keys w -> served w c (respond_as keys now c w).1 (respond_as keys now c w).2.
Proof.
  intros Hc. assert (Hlist : forall (P : Task -> Prop) `{forall t, Decision (P t)}, listed w P (Ok (filter P (tasks_at keys w)))).
  { intros P HP. eexists. split; [done|]. intros t. rewrite list_elem_of_filter, elem_of_tasks_at by done. tauto. }
  destruct c as [k key|k o|k o|k key uid|t|ns sel|live ns sel|ref| |h| |mt|e|rsp]; cbn; try done.
  - split; [done|]. destruct (w_get w k key); [done|]. by eexists.
  - destruct (is_free (w_get w k (key_of (obj_meta k (fill k o))))) eqn:Hf; cbn.
    + left. exists (fill k o). split_and!; [done|apply fill_stored| |apply put_changes]. by destruct (w_get _ _ _).
    + right. split_and!; [by eexists|done|]. intros Hg He.
      rewrite (stored_key k o _ (fill_stored k o) Hg), He in Hf. done.
  - destruct (w_get w k _) eqn:Hget; cbn; [|by split; [eexists|]]. exists o. split_and!; [done| |apply put_changes].
    split_and!; [by split|done|]. intros _. by rewrite set_meta_own.
  - destruct (w_get w k key) as [o|] eqn:Hget; cbn; [|by split; [eexists|]]. destruct uid as [u|]; cbn.
    + case_bool_decide; cbn; [left; split_and!; [done|done|apply put_changes]|right; split_and!; [done|by eexists|done]].
    + left. split_and!; [done|done|apply put_changes].
  - destruct (w_get w KTask _) as [old|] eqn:Hget; cbn; [|by split; [eexists|]]. split; [done|apply put_changes].
Qed.

End Respond.

Definition respond : list NamespacedName -> Time -> forall c, World -> resp c * World := respond_as "x1".

(** Finitely many Tasks, before and after. *)
Definition finite (w : World) : Prop := exists keys, covers keys w.

Lemma changes_covers k key v w w' keys : changes k key v w w' -> covers keys w -> covers (key :: keys) w'.
Proof.
  intros [_ Hf _] Hc key' t Ht. destruct (decide (key' = key)) as [->|Hne]; [left|right].
  eapply Hc. rewrite <- Hf; [exact Ht|]. by intros [= _ ?].
Qed.

Lemma same_covers w w' keys : same w w' -> covers keys w -> covers keys w'.
Proof. intros [Hg _] Hc key t. rewrite Hg. apply Hc. Qed.

Lemma served_changes w c x w' : served w c x w' -> same w w' \/ exists k key v, changes k key v w w'.
Proof.
  destruct c as [k key|k o|k o|k key uid|t|ns sel|live ns sel|ref| |h| |mt|e|rsp]; cbn; try (by auto); try (by intros [? _]; auto).
  - intros [(o' & _ & _ & _ & Hc)|(_ & Hs & _)]; eauto.
  - destruct (w_get w k _); [intros (o' & _ & _ & Hc); eauto|intros [_ ?]; auto].
  - destruct (w_get w k _); [intros [(_ & _ & Hc)|(_ & _ & Hs)]; eauto|intros [_ ?]; auto].
  - destruct (w_get w KTask _); [intros [_ Hc]; eauto|intros [_ ?]; auto].
Qed.

Lemma served_finite w c x w' : served w c x w' -> finite w -> finite w'.
Proof.
  intros [Hs|(k & key & v & Hc)]%served_changes [keys Hk]; [by exists keys; eapply same_covers|].
  exists (key :: keys). by eapply changes_covers.
Qed.

(** Every program can be run to its end on this server. *)
Lemma answered_exists {A} (p : Prog A) w : finite w -> exists tr a w', exec p tr a /\ answered w tr w'.
Proof.
  revert w. induction p as [a|c k IH]; intros w Hf; [by exists [], a, w|]. pose proof Hf as [keys Hk].
  pose proof (respond_served "x1" keys 0 w c Hk : served w c (respond keys 0 c w).1 (respond keys 0 c w).2) as Hs.
  destruct (IH (respond keys 0 c w).1 (respond keys 0 c w).2) as (tr & a & w' & Hx & Ha); [by eapply served_finite|].
  eexists (ev c _ :: tr), a, w'. split; [by eexists _, tr|]. by eexists.
Qed.

(** The Tasks of a trace are created under one of the keys. *)
Definition within (keys : list NamespacedName) (e : Ev) : bool :=
  match e with
  | existT (CCreate KTask _) (Ok o) => bool_decide (key_of (task_Meta o) ∈ keys)
  | existT (CUpdate KTask _) _ => false
  | _ => true
  end.

Lemma served_covers w c x w' keys : served w c x w' -> within keys (ev c x) = true -> covers keys w -> covers keys w'.
Proof.
  intros Hs Hw Hc. assert (Hid : same w w' -> covers keys w') by (intros; by eapply same_covers).
  assert (Hch : forall k key v, changes k key v w w' -> (k = KTask -> key ∈ keys \/ v = None) -> covers keys w').
  { intros k key v [Hat Hf _] Hkt key' t Ht. destruct (decide ((KTask, key') = (k, key))) as [[= <- ->]|Hne].
    - destruct (Hkt eq_refl) as [?|Hn]; [done|]. by rewrite Hat, Hn in Ht.
    - rewrite Hf in Ht by done. by eapply Hc. }
  destruct c as [k key|k o|k o|k key uid|t|ns sel|live ns sel|ref| |h| |mt|e|rsp]; cbn in Hs; try (by apply Hid, Hs); try by apply Hid.
  - destruct Hs as [(o' & -> & _ & _ & Hcc)|(_ & Hs & _)]; [|by apply Hid]. eapply Hch; [exact Hcc|]. intros ->. left.
    by apply bool_decide_eq_true in Hw.
  - destruct (w_get w k _) as [old|]; [|by apply Hid, Hs]. destruct Hs as (o' & _ & _ & Hcc). eapply Hch; [exact Hcc|]. by intros ->.
  - destruct (w_get w k _); [|by apply Hid, Hs]. destruct Hs as [(_ & _ & Hcc)|(_ & _ & Hs)]; [|by apply Hid]. eapply Hch; [exact Hcc|]. by right.
  - destruct (w_get w KTask _) as [old|] eqn:Ho; [|by apply Hid, Hs]. destruct Hs as [_ Hcc]. eapply Hch; [exact Hcc|]. intros _. left. by eapply Hc.
Qed.

(** A run of the server that can be run is one of this server. *)
Lemma run_answered {A} keys now (p : Prog A) w :
  covers keys w -> forallb (within keys) (trace_of (respond keys now) p w) = true ->
  answered w (trace_of (respond keys now) p w) (run (respond keys now) p w).2.
Proof.
  revert w. induction p as [a|c k IH]; intros w Hc Hw; [done|]. cbn [trace_of run] in *.
  pose proof (respond_served "x1" keys now w c Hc : served w c (respond keys now c w).1 (respond keys now c w).2) as Hs. destruct (respond keys now c w) as [x w1]. cbn in Hs, Hw.
  apply andb_true_iff in Hw as [Hw1 Hw]. exists w1. split; [exact Hs|]. apply IH; [|done]. by eapply served_covers.
Qed.

(** The Tasks stay under these keys. *)
Lemma run_covers {A} keys now (p : Prog A) w :
  covers keys w -> forallb (within keys) (trace_of (respond keys now) p w) = true -> covers keys (run (respond keys now) p w).2.
Proof.
  revert w. induction p as [a|c k IH]; intros w Hc Hw; [done|]. cbn [trace_of run] in *.
  pose proof (respond_served "x1" keys now w c Hc : served w c (respond keys now c w).1 (respond keys now c w).2) as Hs. destruct (respond keys now c w) as [x w1]. cbn in Hs, Hw.
  apply andb_true_iff in Hw as [Hw1 Hw]. apply IH; [|done]. by eapply served_covers.
Qed.

End ApiServer.
