(* ===== verification/Settle.v ===== *)
(** * Passes come to rest

    The operations of a reconcile pass against the server of [ApiServer]: what
    each leaves in the store, and that it does nothing when it finds that again.
    From these, a pass touches only the objects of its Task, and on a quiet server
    the passes over any Tasks come to rest after a bounded number of changes. *)

From S2P Require Import Prelude GoString GoTime GoNet GoJson GoUrl Kube Api Effects KubeLib Metrics.
From S2P Require Import PolicyObjects PolicyConfig PolicyNetwork Reconciler Samples PolicyResult.
From S2P Require Import Build Status TaskResult Sync Reconcile Lifecycle ApiServer.

Module Settle.
Import Labels Secrets Rbac Prompt Config Network Build Status TaskResult Sync Reconcile Lifecycle ApiServer.

Section Operations.
Context `{KubeLaws, JsonErrors, UnicodeTables}.

(** ** Owned objects *)

(** A live object that the upsert of [d] leaves as it is. *)
Definition settled (k : Kind) (mutate : obj k -> obj k -> obj k) (d o : obj k) : Prop :=
  mutate o d = o /\ om_Labels (obj_meta k o) = om_Labels (obj_meta k d).

Lemma set_labels_self m : set_labels (om_Labels m) m = m.
Proof. by destruct m. Qed.

Lemma settled_updated k mutate d o : settled k mutate d o -> updated k mutate o d = o.
Proof. intros [Hm Hl]. unfold updated. by rewrite Hm, <- Hl, set_labels_self, set_meta_self. Qed.

Lemma settled_desired k mutate `{!Mutator k mutate} d : settled k mutate d d.
Proof. split; [apply mutate_self|done]. Qed.

Lemma settled_after_update k mutate `{!Mutator k mutate} d o : settled k mutate d (updated k mutate o d).
Proof.
  split; [|unfold updated; by rewrite obj_meta_set_meta].
  unfold updated. by rewrite mutate_set_meta, mutate_again.
Qed.

Lemma settled_stored k mutate `{!Mutator k mutate} d o o' :
  settled k mutate d o -> o' = set_meta k (obj_meta k o') o -> om_Labels (obj_meta k o') = om_Labels (obj_meta k o) ->
  settled k mutate d o'.
Proof.
  intros [Hm Hl] Ho' Hl'. split; [|congruence]. rewrite Ho'. by rewrite mutate_set_meta, Hm.
Qed.

(** What an upsert leaves: an object that the next one compares as equal. *)
Definition in_place (k : Kind) (task : Task) (d : obj k) (mutate : obj k -> obj k -> obj k) (w : World) : Prop :=
  exists m o, SetControllerReference (task_Meta task) (obj_meta k d) = Ok m /\
    w_get w k (key_of (obj_meta k d)) = Some o /\ DeepEqual k o (updated k mutate o (set_meta k m d)) = true.

Lemma in_place_spec k mutate `{!Mutator k mutate} task d w :
  in_place k task d mutate w -> exists o, w_get w k (key_of (obj_meta k d)) = Some o /\
    body_eq k o d /\ label_map (obj_meta k o) = label_map (obj_meta k d).
Proof.
  intros (m & o & Hm & Ho & He). exists o. split; [done|]. apply deep_equal_body in He as [Hb Hl].
  destruct (updated_spec k mutate o (set_meta k m d)) as [Hb' Hl']. apply set_controller_key in Hm as [_ Hml].
  assert (Hd : body_eq k (set_meta k m d) d) by apply body_eq_set_meta, body_eq_refl.
  split; [by eapply body_eq_trans, body_eq_trans|]. rewrite Hl, Hl', obj_meta_set_meta. unfold label_map. by rewrite Hml.
Qed.

Lemma read_served w k key x w' tr w1 :
  answered w (ev (CGet k key) x :: tr) w1 -> w' = w ->
  answered w tr w1 /\ match w_get w k key with Some o => x = Ok o | None => missing x end.
Proof.
  intros (w2 & [Hs Hx] & Ha) _. split; [|exact Hx]. by eapply answered_same.
Qed.

Lemma ensureOwned_served k mutate `{!Mutator k mutate} task d w tr x w1 :
  plain_kind k = true -> om_GenerateName (obj_meta k d) = ""%string -> keyed w ->
  exec (ensureOwned k task d mutate) tr x -> answered w tr w1 ->
  (exists e, SetControllerReference (task_Meta task) (obj_meta k d) = Err e /\ x = Err e /\ same w w1) \/
  (x = Ok tt /\ in_place k task d mutate w1 /\
   (same w w1 \/ exists v, changes k (key_of (obj_meta k d)) v w w1)).
Proof.
  intros Hp Hg Hk Hx Ha. destruct (ensureOwned_cases _ _ _ _ _ _ Hx) as [(e & Hm & -> & ->)|(m & Hm & Hc)]; [left; eauto|right].
  pose proof Hm as Hm'. apply set_controller_meta in Hm' as [refs Hrefs]. cbn zeta in Hc.
  assert (Hkd : key_of (obj_meta k (set_meta k m d)) = key_of (obj_meta k d)) by (rewrite obj_meta_set_meta; by rewrite Hrefs).
  destruct Hc as [(e & He & -> & _)|[(e & y & He & -> & ->)|[(o & He & -> & ->)|(o & y & He & -> & ->)]]].
  - apply (read_served _ _ _ _ w) in Ha as [_ Ho]; [|done]. destruct (w_get w k _); [done|]. destruct Ho as (? & [= <-] & ?). congruence.
  - apply (read_served _ _ _ _ w) in Ha as [Ha Ho]; [|done]. destruct (w_get w k _) eqn:Hget; [done|]. clear Ho.
    destruct Ha as (w2 & Hs & Hw2). cbn in Hs. destruct Hs as [(o' & -> & Hst & _ & Hch)|(_ & _ & Hex)].
    2: { destruct Hex; [by rewrite obj_meta_set_meta, Hrefs|]. by rewrite Hkd. }
    pose proof Hst as (Hms & Hpl & _). specialize (Hpl Hp).
    assert (Hko : key_of (obj_meta k o') = key_of (obj_meta k d)).
    { rewrite <- Hkd. apply stored_key; [done|]. by rewrite obj_meta_set_meta, Hrefs. }
    rewrite Hko in Hch. split; [done|]. split; [|right; exists (Some o'); by eapply changes_same].
    exists m, o'. split; [done|]. split; [rewrite (same_get _ _ Hw2); apply Hch|].
    rewrite settled_updated; [apply deep_equal_refl|]. eapply (settled_stored k mutate); [apply (settled_desired k mutate)|done|apply Hms].
  - apply (read_served _ _ _ _ w) in Ha as [Ha Ho]; [|done]. destruct (w_get w k _) eqn:Hget; [|by destruct Ho as (? & ? & _)].
    injection Ho as <-. split; [done|]. split; [|by left]. exists m, o. rewrite (same_get _ _ Ha). done.
  - apply (read_served _ _ _ _ w) in Ha as [Ha Ho]; [|done]. destruct (w_get w k _) eqn:Hget; [|by destruct Ho as (? & ? & _)].
    injection Ho as <-. assert (Hku : key_of (obj_meta k (updated k mutate o (set_meta k m d))) = key_of (obj_meta k d)).
    { unfold updated. rewrite obj_meta_set_meta, mutate_meta. exact (Hk _ _ _ Hget). }
    destruct Ha as (w2 & Hs & Hw2). cbn in Hs. rewrite Hku, Hget in Hs. destruct Hs as (o' & -> & (Hms & Hn & Hpl) & Hch).
    split; [done|]. split; [|right; exists (Some o'); by eapply changes_same].
    exists m, o'. split; [done|]. split; [rewrite (same_get _ _ Hw2); apply Hch|].
    rewrite settled_updated; [apply deep_equal_refl|].
    eapply (settled_stored k mutate); [apply (settled_after_update k mutate)|by apply Hpl|apply Hms].
Qed.

Lemma in_place_quiet k mutate task d w tr x w1 :
  in_place k task d mutate w -> exec (ensureOwned k task d mutate) tr x -> answered w tr w1 -> x = Ok tt /\ same w w1.
Proof.
  intros (m & o & Hm & Ho & He) Hx Ha. destruct (ensureOwned_cases _ _ _ _ _ _ Hx) as [(e & Hm' & _)|(m' & Hm' & Hc)]; [congruence|].
  assert (m' = m) as -> by congruence.
  destruct Hc as [(e & _ & -> & _)|[(e & y & _ & -> & _)|[(o' & _ & -> & ->)|(o' & y & He' & -> & _)]]];
    (apply (read_served _ _ _ _ w) in Ha as [Ha Hr]; [|done]); rewrite Ho in Hr; simplify_eq; [done|congruence].
Qed.

Lemma deleteIfExists_served k key w tr x w1 :
  exec (deleteIfExists k key) tr x -> answered w tr w1 ->
  x = Ok tt /\ w_get w1 k key = None /\ (same w w1 \/ exists v, changes k key v w w1).
Proof.
  intros (y & -> & ->)%deleteIfExists_cases (w2 & Hs & Hw2). cbn in Hs. destruct (w_get w k key) eqn:Hget.
  - destruct Hs as [(_ & -> & Hc)|(Hn & _)]; [|by destruct Hn]. split; [done|]. split; [rewrite (same_get _ _ Hw2); apply Hc|].
    right. exists None. by eapply changes_same.
  - destruct Hs as ((e & -> & He) & Hs). rewrite He. split; [done|]. assert (Hs' : same w w1) by by rewrite Hs.
    split; [by rewrite (same_get _ _ Hs')|by left].
Qed.

Lemma deleteIfExists_quiet k key w tr x w1 :
  w_get w k key = None -> exec (deleteIfExists k key) tr x -> answered w tr w1 -> x = Ok tt /\ same w w1.
Proof.
  intros Hn (y & -> & ->)%deleteIfExists_cases (w2 & Hs & Hw2). cbn in Hs. rewrite Hn in Hs.
  destruct Hs as ((e & -> & He) & Hs). rewrite He. split; [done|]. by rewrite Hs.
Qed.

(** ** Lookups *)

(** A program that only looks names up answers by the names alone. *)
Lemma lookups_served {A} (p : Prog A) w tr x w1 w2 tr' x' w3 :
  only (fun c => exists h, c = CLookupHost h) p -> same_env w w2 ->
  exec p tr x -> answered w tr w1 -> exec p tr' x' -> answered w2 tr' w3 ->
  x' = x /\ same w w1 /\ same w2 w3.
Proof.
  revert w tr w1 w2 tr'. induction p as [a|c k IH]; intros w tr w1 w2 tr' Ho He.
  - intros [-> ->] Ha [-> ->] Ha'. done.
  - intros (r & t & -> & Hx) (w4 & Hs & Ha) (r' & t' & -> & Hx') (w5 & Hs' & Ha'). apply only_head in Ho as [[h ->] Ho].
    cbn in Hs, Hs'. destruct Hs as [Hs ->], Hs' as [Hs' ->]. rewrite (same_dns _ _ He) in *.
    assert (He' : same_env w4 w5) by by rewrite <- (same_rest _ _ Hs), He, (same_rest _ _ Hs').
    destruct (IH _ _ _ _ _ _ (Ho _) He' Hx Ha Hx' Ha') as (-> & Hw & Hw'). split; [done|]. by rewrite Hs, Hs'.
Qed.

(** ** Steps *)

(** A program that changes one slot at most, and that does nothing and answers the
    same when it finds that slot again as it left it. *)
Definition Steady {A} (k : Kind) (key : NamespacedName) (p : Prog A) : Prop :=
  forall w tr x w1, keyed w -> exec p tr x -> answered w tr w1 ->
    (same w w1 \/ exists v, changes k key v w w1) /\
    forall w2 tr' x' w3, same_env w1 w2 -> w_get w2 k key = w_get w1 k key ->
      exec p tr' x' -> answered w2 tr' w3 -> x' = x /\ same w2 w3.

Lemma ensureOwned_steady k mutate `{!Mutator k mutate} task d :
  plain_kind k = true -> om_GenerateName (obj_meta k d) = ""%string ->
  Steady k (key_of (obj_meta k d)) (ensureOwned k task d mutate).
Proof.
  intros Hp Hg w tr x w1 Hk Hx Ha. destruct (ensureOwned_served k mutate _ _ _ _ _ _ Hp Hg Hk Hx Ha) as [(e & Hm & -> & Hs)|(-> & Hin & Hc)].
  - split; [by left|]. intros w2 tr' x' w3 _ _ Hx' Ha'.
    destruct (ensureOwned_cases _ _ _ _ _ _ Hx') as [(e' & Hm' & -> & ->)|(m & Hm' & _)]; [|congruence]. split; [congruence|done].
  - split; [done|]. intros w2 tr' x' w3 _ Hget Hx' Ha'. eapply in_place_quiet; [|done..].
    destruct Hin as (m & o & Hm & Ho & He). exists m, o. by rewrite Hget.
Qed.

Lemma ensureOwned_steady_at k mutate `{!Mutator k mutate} task d key :
  plain_kind k = true -> om_GenerateName (obj_meta k d) = ""%string -> key_of (obj_meta k d) = key ->
  Steady k key (ensureOwned k task d mutate).
Proof. intros Hp Hg <-. by apply ensureOwned_steady. Qed.

Lemma deleteIfExists_steady k key : Steady k key (deleteIfExists k key).
Proof.
  intros w tr x w1 Hk Hx Ha. destruct (deleteIfExists_served _ _ _ _ _ _ Hx Ha) as (-> & Hn & Hc).
  split; [done|]. intros w2 tr' x' w3 _ Hget Hx' Ha'. eapply deleteIfExists_quiet; [|done..]. by rewrite Hget.
Qed.

Lemma BuildNetworkPolicy_meta rs name ns egress ports tr np :
  exec (BuildNetworkPolicy rs name ns egress ports) tr (Ok np) -> key_of (np_Meta np) = mkNN ns name /\ om_GenerateName (np_Meta np) = ""%string.
Proof.
  unfold BuildNetworkPolicy. intros (t1 & t2 & c & -> & _ & [-> Heq]%exec_ret)%exec_bind. by destruct c; simplify_eq.
Qed.

Lemma BuildNetworkPolicy_served rs name ns egress ports w tr x w1 w2 tr' x' w3 :
  same_env w w2 -> exec (BuildNetworkPolicy rs name ns egress ports) tr x -> answered w tr w1 ->
  exec (BuildNetworkPolicy rs name ns egress ports) tr' x' -> answered w2 tr' w3 -> x' = x /\ same w w1 /\ same w2 w3.
Proof. apply lookups_served, BuildNetworkPolicy_only. Qed.

Lemma ensureNetworkPolicy_steady r task egress :
  Steady KNetworkPolicy (mkNN (task_Namespace task) (task_Name task)) (ensureNetworkPolicy r task egress).
Proof.
  intros w tr x w1 Hk Hx Ha. unfold ensureNetworkPolicy in Hx.
  apply exec_bind in Hx as (t1 & t2 & d & -> & Hb & Hx). apply answered_trans in Ha as (wm & Ha1 & Ha).
  destruct (BuildNetworkPolicy_served _ _ _ _ _ _ _ _ _ _ _ _ _ (reflexivity w) Hb Ha1 Hb Ha1) as (_ & Hsm & _).
  assert (Hinv : forall w2 tr' x' w3, same_env w1 w2 -> exec (ensureNetworkPolicy r task egress) tr' x' -> answered w2 tr' w3 ->
    exists t4 w4, same w2 w4 /\ answered w4 t4 w3 /\ exec (match d with Err e => Ret (Err e)
      | Ok desired => ensureOwned KNetworkPolicy task desired mutate_NetworkPolicy end) t4 x').
  { intros w2 tr' x' w3 He Hx' Ha'. apply exec_bind in Hx' as (t3 & t4 & d' & -> & Hb' & Hx').
    apply answered_trans in Ha' as (w4 & Ha1' & Ha'). assert (Hew : same_env w w2) by (rewrite (same_rest _ _ Hsm), <- He; by eapply answered_env).
    destruct (BuildNetworkPolicy_served _ _ _ _ _ _ _ _ _ _ _ _ _ Hew Hb Ha1 Hb' Ha1') as (-> & _ & Hs). by exists t4, w4. }
  destruct d as [np|e].
  - destruct (BuildNetworkPolicy_meta _ _ _ _ _ _ _ Hb) as [Hkey Hg]. rewrite <- Hkey.
    assert (Hkm : keyed wm) by by eapply answered_keyed.
    destruct (ensureOwned_steady KNetworkPolicy mutate_NetworkPolicy task np eq_refl Hg _ _ _ _ Hkm Hx Ha) as [Hc Hst].
    split. { destruct Hc as [Hc|[v Hc]]; [left; by rewrite Hsm|right; exists v; by eapply same_changes]. }
    intros w2 tr' x' w3 He Hget Hx' Ha'. destruct (Hinv _ _ _ _ He Hx' Ha') as (t4 & w4 & Hs4 & Ha4 & Hx4).
    destruct (Hst w4 t4 x' w3) as [-> Hs]; try done; [by rewrite He, (same_rest _ _ Hs4)|by rewrite (same_get _ _ Hs4)|].
    split; [done|by rewrite Hs4].
  - apply exec_ret in Hx as [-> ->]. cbn in Ha. split; [left; by rewrite Hsm|]. intros w2 tr' x' w3 He Hget Hx' Ha'.
    destruct (Hinv _ _ _ _ He Hx' Ha') as (t4 & w4 & Hs4 & Ha4 & [-> ->]%exec_ret). split; [done|]. by rewrite Hs4.
Qed.

(** The slots of the six steps, in their order. *)
Definition step_slots (key : NamespacedName) : list Slot :=
  [(KServiceAccount, key); (KRole, key); (KRoleBinding, key); (KNetworkPolicy, key);
   (KConfigMap, mkNN (nn_Namespace key) (InlinePromptConfigMapName (nn_Name key)));
   (KConfigMap, mkNN (nn_Namespace key) (AgentConfigMapName (nn_Name key)))].

Lemma steps_steady r task agent egress :
  Forall2 (fun step sl => Steady sl.1 sl.2 (step_run step)) (steps r task agent egress) (step_slots (key_of (task_Meta task))).
Proof.
  unfold steps, step_slots. repeat apply List.Forall2_cons; [..|apply List.Forall2_nil]; cbn [fst snd step_run].
  - by apply (ensureOwned_steady_at KServiceAccount mutate_ServiceAccount).
  - unfold ensureRole. destruct (BuildRole _ _ _) as [d|] eqn:Hd; [|apply deleteIfExists_steady].
    unfold BuildRole in Hd. case_match; simplify_eq. by apply (ensureOwned_steady_at KRole mutate_Role).
  - unfold ensureRoleBinding. destruct (BuildRoleBinding _ _ _) as [d|] eqn:Hd; [|apply deleteIfExists_steady].
    unfold BuildRoleBinding in Hd. case_match; simplify_eq. by apply (ensureOwned_steady_at KRoleBinding mutate_RoleBinding).
  - apply ensureNetworkPolicy_steady.
  - unfold ensurePromptConfigMap. destruct (BuildInlinePromptConfigMap _ _ _) as [d|] eqn:Hd; [|apply deleteIfExists_steady].
    unfold BuildInlinePromptConfigMap in Hd. case_match; simplify_eq. by apply (ensureOwned_steady_at KConfigMap mutate_ConfigMap).
  - unfold ensureAgentConfigMap. destruct (BuildAgentConfigMap _ _ _ _) as [d|] eqn:Hd; [|apply deleteIfExists_steady].
    unfold BuildAgentConfigMap in Hd. repeat case_match; simplify_eq. by apply (ensureOwned_steady_at KConfigMap mutate_ConfigMap).
Qed.

(** Outside of these slots nothing changed. *)
Definition frame (P : Slot -> Prop) (w w' : World) : Prop :=
  forall k key, ~ P (k, key) -> w_get w' k key = w_get w k key.

Lemma frame_same P w w' : same w w' -> frame P w w'.
Proof. intros Hs k key _. apply Hs. Qed.

Lemma frame_changes k key v w w' : changes k key v w w' -> frame (fun s => s = (k, key)) w w'.
Proof. intros [_ Hf _] k' key' Hn. by apply Hf. Qed.

Lemma frame_trans (P : Slot -> Prop) w1 w2 w3 : frame P w1 w2 -> frame P w2 w3 -> frame P w1 w3.
Proof. intros H12 H23 k key Hn. by rewrite H23, H12. Qed.

Lemma frame_mono (P Q : Slot -> Prop) w w' : (forall s, P s -> Q s) -> frame P w w' -> frame Q w w'.
Proof. intros HPQ Hf k key Hn. apply Hf. naive_solver. Qed.

Lemma steady_frame k key w w' : same w w' \/ (exists v, changes k key v w w') -> frame (fun s => s = (k, key)) w w'.
Proof. intros [Hs|[v Hc]]; [by apply frame_same|by eapply frame_changes]. Qed.

Definition agree_on (P : Slot -> Prop) (w w' : World) : Prop :=
  same_env w w' /\ forall k key, P (k, key) -> w_get w' k key = w_get w k key.

Lemma agree_on_same P w1 w2 w3 : agree_on P w1 w2 -> same w2 w3 -> agree_on P w1 w3.
Proof.
  intros [He Hg] [Hs Hr]. split; [by etrans|]. intros k key Hp. by rewrite Hs, Hg.
Qed.

(** What a sequence of steps does: it changes their slots only; and either it fails
    the Task, or it does nothing when it finds these slots again. *)
Lemma run_steps_served r task l ss w tr o w1 :
  Forall2 (fun step sl => Steady sl.1 sl.2 (step_run step)) l ss -> NoDup ss ->
  keyed w -> exec (run_steps r task l) tr o -> answered w tr w1 ->
  (exists reason e tf f wm, o = Some f /\ exec (failTask r task reason e) tf f /\ answered wm tf w1 /\
     frame (fun s => s ∈ ss) w wm) \/
  (frame (fun s => s ∈ ss) w w1 /\
   forall task' w2 tr' o' w3, agree_on (fun s => s ∈ ss) w1 w2 -> exec (run_steps r task' l) tr' o' -> answered w2 tr' w3 ->
     o' = o /\ same w2 w3).
Proof.
  intros Hl. revert w tr. induction Hl as [|step [k key] l ss Hst Hl IH]; intros w tr Hnd Hk Hx Ha; cbn [run_steps] in Hx.
  { apply exec_ret in Hx as [-> ->]. right. split; [by apply frame_same|]. by intros task' w2 tr' o' w3 _ [-> ->]%exec_ret Ha'. }
  apply NoDup_cons in Hnd as [Hnin Hnd]. apply exec_bind in Hx as (t1 & t2 & x & -> & Hs & Hx).
  apply answered_trans in Ha as (wm & Ha1 & Ha2). destruct (Hst _ _ _ _ Hk Hs Ha1) as [Hf%steady_frame Hag].
  assert (Hf' : frame (fun s => s ∈ (k, key) :: ss) w wm) by (eapply frame_mono; [|exact Hf]; intros s ->; left).
  destruct x as [[]|e].
  - destruct (IH wm t2 Hnd (answered_keyed _ _ _ Ha1 Hk) Hx Ha2) as [(reason & e & tf & f & wf & -> & Hfail & Haf & Hfr)|[Hfr Hag2]].
    + left. exists reason, e, tf, f, wf. split_and!; [done..|]. eapply frame_trans; [done|]. eapply frame_mono; [|exact Hfr]. by right.
    + right. split; [eapply frame_trans; [done|]; eapply frame_mono; [|exact Hfr]; by right|].
      intros task' w2 tr' o' w3 [He Hg] Hx' Ha'. cbn [run_steps] in Hx'. apply exec_bind in Hx' as (t3 & t4 & x' & -> & Hs' & Hx').
      apply answered_trans in Ha' as (w4 & Ha3 & Ha4). destruct (Hag w2 t3 x' w4) as [-> Hs4]; try done.
      { etrans; [by eapply answered_env|exact He]. }
      { rewrite Hg by left. by apply Hfr. }
      destruct (Hag2 task' w4 t4 o' w3) as [-> Hs3]; try done.
      { eapply agree_on_same; [|exact Hs4]. split; [done|]. intros k' key' Hin. apply Hg. by right. }
      split; [done|]. by rewrite Hs4.
  - apply exec_call_inv in Hx as ([] & t3 & -> & Hx). destruct Ha2 as (wo & Hwo & Ha2). cbn in Hwo.
    destruct (negb _ && IsPermanent e) eqn:Hb.
    + left. apply exec_bind in Hx as (t4 & t5 & f & -> & Hfail & [-> ->]%exec_ret). rewrite app_nil_r in Ha2.
      exists (step_invalidReason step), e, t4, f, wo. split_and!; [done..|]. intros k' key' Hn. by rewrite (same_get _ _ Hwo), Hf'.
    + right. apply exec_ret in Hx as [-> ->]. cbn in Ha2. assert (Hw1 : same wm w1) by by rewrite Hwo. split.
      { intros k' key' Hn. by rewrite (same_get _ _ Hw1), Hf'. }
      intros task' w2 tr' o' w3 [He Hg] Hx' Ha'. cbn [run_steps] in Hx'. apply exec_bind in Hx' as (t6 & t4 & x' & -> & Hs' & Hx').
      apply answered_trans in Ha' as (w4 & Ha3 & Ha4). destruct (Hag w2 t6 x' w4) as [-> Hs4]; try done.
      { by rewrite (same_rest _ _ Hw1). }
      { rewrite Hg by left. apply Hw1. }
      apply exec_call_inv in Hx' as ([] & t7 & -> & Hx'). rewrite Hb in Hx'. apply exec_ret in Hx' as [-> ->].
      destruct Ha4 as (w5 & Hw5 & Ha5). cbn in Hw5, Ha5. split; [done|]. by rewrite Hs4, Hw5.
Qed.

(** ** Status writes *)

Definition holds_task (w : World) (t : Task) : Prop := w_get w KTask (key_of (task_Meta t)) = Some t.

Lemma answered_reports w tr w' : answered w tr w' -> Forall (fun c => is_report c = true) (calls tr) -> same w w'.
Proof. intros Ha Hf. eapply answered_reads; [done|]. eapply Forall_impl; [done|]. by intros []. Qed.

Lemma event_trace_report r task ty reason msg : Forall (fun c => is_report c = true) (calls (event_trace r task ty reason msg)).
Proof. unfold event_trace. destruct (r_Recorder r); by repeat constructor. Qed.

(** A write of the status of a stored Task, with its own metadata and spec. *)
Lemma status_served w task t x w' :
  holds_task w task -> task_Meta t = task_Meta task -> task_Spec t = task_Spec task -> served w (CStatusUpdate t) x w' ->
  x = Ok t /\ changes KTask (key_of (task_Meta task)) (Some t) w w'.
Proof.
  destruct t as [m sp st]. unfold holds_task. cbn. intros Ht -> -> Hx. by rewrite Ht in Hx.
Qed.

Lemma failTask_served r task reason cause w tr f w1 :
  holds_task w task -> status_wf (task_Status task) -> exec (failTask r task reason cause) tr f -> answered w tr w1 ->
  f = Ok tt /\ exists t v, changes KTask (key_of (task_Meta task)) v w w1 /\ v = Some t /\ task_Meta t = task_Meta task /\
    task_Phase t = TaskPhaseFailed /\ status_wf (task_Status t).
Proof.
  intros Ht Hwf Hx Ha. destruct (failTask_cases _ _ _ _ _ _ Hx) as (now & Hc). cbn zeta in Hc. set (t := marked now _ _ _ _ task) in Hc.
  destruct Hc as [(e & -> & ->)|(t' & -> & ->)]; destruct Ha as (w2 & Hw2 & w3 & Hs & Ha); cbn in Hw2;
    apply (status_served w2 task) in Hs as [Hs Hch]; try done; try (by unfold holds_task; rewrite (same_get _ _ Hw2)); simplify_eq.
  split; [done|]. assert (Hw : same w3 w1).
  { eapply answered_reports; [exact Ha|]. case_bool_decide; [constructor|]. constructor; [done|]. apply event_trace_report. }
  exists t, (Some t). split_and!; [by eapply changes_same|done..|by apply marked_wf].
Qed.

Lemma marked_equal now phase status reason msg task :
  status_wf (task_Status task) ->
  equalStatus (task_Status task) (task_Status (marked now phase status reason msg task)) = true <->
  task_Phase task = phase /\ st_ObservedGeneration (task_Status task) = task_Generation task /\
  cond_view <$> FindStatusCondition (st_Conditions (task_Status task)) conditionReady =
    Some (conditionReady, status, reason, msg, task_Generation task).
Proof.
  intros Hwf. rewrite equalStatus_iff; [|done|by apply marked_wf]. cbn.
  pose proof (set_condition_same now (st_Conditions (task_Status task)) (mkCondition conditionReady status reason msg (task_Generation task) 0) eq_refl) as Hsame.
  cbn in Hsame. split.
  - intros (Hp & _ & Hg & _ & _ & _ & Hc). split_and!; [done..|]. by rewrite Hc, Hsame.
  - intros (Hp & Hg & Hc). split_and!; try done. intros t. destruct (decide (t = conditionReady)) as [->|Hne]; [by rewrite Hsame|].
    by rewrite set_condition_other.
Qed.

(** The Task waits for its class, and its status says so. *)
Definition says_waiting (t : Task) : Prop :=
  task_Phase t = TaskPhasePending /\ st_ObservedGeneration (task_Status t) = task_Generation t /\
  cond_view <$> FindStatusCondition (st_Conditions (task_Status t)) conditionReady =
    Some (conditionReady, ConditionUnknown, reasonAgentClassMissing, waiting_message t, task_Generation t).

Lemma markWaiting_served r task w tr x w1 :
  holds_task w task -> status_wf (task_Status task) -> exec (markWaitingForAgentClass r task) tr x -> answered w tr w1 ->
  exists t, holds_task w1 t /\ says_waiting t /\ status_wf (task_Status t) /\ task_Meta t = task_Meta task /\ task_Spec t = task_Spec task /\
    ((same w w1 /\ t = task) \/ (changes KTask (key_of (task_Meta task)) (Some t) w w1 /\ ~ says_waiting task)).
Proof.
  intros Ht Hwf Hx Ha. destruct (markWaiting_cases _ _ _ _ Hx) as (now & Hc). cbn zeta in Hc. set (t := marked now _ _ _ _ task) in Hc.
  destruct Hc as [(He & -> & ->)|(He & Hc)].
  - destruct Ha as (w2 & Hw2 & Ha). cbn in Hw2, Ha. assert (Hs : same w w1) by by rewrite Hw2.
    apply marked_equal in He; [|done]. exists task. split_and!; try done; [|by left]. unfold holds_task. by rewrite (same_get _ _ Hs).
  - assert (Hnot : ~ says_waiting task) by (intros Hsay; apply not_true_iff_false in He; apply He; by apply marked_equal).
    destruct Hc as [(e & -> & ->)|(t' & -> & ->)]; destruct Ha as (w2 & Hw2 & w3 & Hs & Ha); cbn in Hw2;
      apply (status_served w2 task) in Hs as [Hs Hch]; try done; try (by unfold holds_task; rewrite (same_get _ _ Hw2)); simplify_eq.
    assert (Hw : same w3 w1) by (eapply answered_reports; [exact Ha|apply event_trace_report]).
    assert (Hch' : changes KTask (key_of (task_Meta task)) (Some t) w w1) by by eapply changes_same.
    exists t. split_and!; [exact (changed_at _ _ _ _ _ Hch')| |by apply marked_wf|done|done|by right].
    split_and!; [done|done|]. cbn.
    pose proof (set_condition_same now (st_Conditions (task_Status task)) (mkCondition conditionReady ConditionUnknown reasonAgentClassMissing
      (waiting_message task) (task_Generation task) 0) eq_refl) as Hsame. cbn in Hsame. by rewrite Hsame.
Qed.

(** ** The Job *)

Lemma buildJob_generate task agent secrets ttl job :
  buildJob task agent secrets ttl = Ok job -> om_GenerateName (job_Meta job) = ""%string.
Proof. unfold buildJob. destruct (BuildSecretVolumes secrets). intros Hb. by repeat (case_match; simplify_eq). Qed.

Lemma ensureJob_served r task agent secrets w tr x w1 :
  exec (ensureJob r task agent secrets) tr x -> answered w tr w1 ->
  let key := key_of (task_Meta task) in
  (exists e, x = Err e /\ same w w1 /\ forall tr' x', exec (ensureJob r task agent secrets) tr' x' -> tr' = [] /\ x' = Err e) \/
  (exists job, x = Ok job /\ w_get w1 KJob key = Some job /\
     ((same w w1 /\ w_get w KJob key = Some job) \/
      (w_get w KJob key = None /\ changes KJob key (Some job) w w1 /\
       exists d m, buildJob task agent secrets (r_JobTTLSeconds r) = Ok d /\
         SetControllerReference (task_Meta task) (job_Meta d) = Ok m /\ stored KJob (set_meta KJob m d) job))).
Proof.
  intros Hx Ha. cbn zeta. change (key_of (task_Meta task)) with (mkNN (task_Namespace task) (task_Name task)).
  destruct (ensureJob_cases _ _ _ _ _ _ Hx) as [(e & Hb & -> & ->)|(d & Hb & [(e & Hm & -> & ->)|(m & Hm & Hc)])].
  { left. exists e. split_and!; [done|done|]. intros tr' x' Hx'. unfold ensureJob in Hx'. by rewrite Hb in Hx'. }
  { left. exists e. split_and!; [done|done|]. intros tr' x' Hx'. unfold ensureJob in Hx'. by rewrite Hb, Hm in Hx'. }
  right. cbn zeta in Hc. destruct Hc as [(e & He & -> & _)|[(e & y & _ & -> & ->)|(o & -> & ->)]];
    (apply (read_served _ _ _ _ w) in Ha as [Ha Hr]; [|done]).
  - destruct (w_get w KJob _); [done|]. destruct Hr as (? & [= <-] & ?). congruence.
  - destruct (w_get w KJob _) eqn:Hget; [done|]. destruct Ha as (w2 & Hs & Hw2). cbn in Hs.
    pose proof Hm as Hm'. apply set_controller_meta in Hm' as [refs Hrefs].
    assert (Hgen : om_GenerateName m = ""%string) by (rewrite Hrefs; by apply buildJob_generate in Hb).
    assert (Hkm : key_of m = mkNN (task_Namespace task) (task_Name task)) by (rewrite Hrefs; by apply buildJob_key in Hb).
    destruct Hs as [(o' & -> & Hst & _ & Hch)|(_ & _ & Hex)]; [|destruct Hex; [done|by rewrite Hkm]].
    assert (Hko : key_of (job_Meta o') = mkNN (task_Namespace task) (task_Name task)).
    { rewrite <- Hkm. by apply (stored_key KJob _ _ Hst). }
    rewrite Hko in Hch. assert (Hch' : changes KJob (mkNN (task_Namespace task) (task_Name task)) (Some o') w w1) by by eapply changes_same.
    exists o'. split_and!; [done|apply Hch'|right; split_and!; [done|done|by exists d, m]].
  - destruct (w_get w KJob _) eqn:Hget; [|by destruct Hr as (? & ? & _)]. injection Hr as <-.
    exists o. rewrite (same_get _ _ Ha). split_and!; [done|done|by left].
Qed.

Lemma ensureJob_steady r task agent secrets : Steady KJob (key_of (task_Meta task)) (ensureJob r task agent secrets).
Proof.
  intros w tr x w1 _ Hx Ha. destruct (ensureJob_served _ _ _ _ _ _ _ _ Hx Ha) as [(e & -> & Hs & Hdet)|(job & -> & Hget & Hc)].
  - split; [by left|]. intros w2 tr' x' w3 _ _ Hx' Ha'. by destruct (Hdet _ _ Hx') as [-> ->].
  - split; [destruct Hc as [[Hs _]|(_ & Hc & _)]; eauto|]. intros w2 tr' x' w3 _ Hg Hx' Ha'. rewrite Hget in Hg.
    destruct (ensureJob_served _ _ _ _ _ _ _ _ Hx' Ha') as [(e & -> & _ & Hdet)|(job' & -> & _ & [[Hs Hj]|(Hn & _)])].
    + by destruct (Hdet _ _ Hx) as [_ ?].
    + rewrite Hg in Hj. by simplify_eq.
    + congruence.
Qed.

(** ** The status *)

(** No pod of the Job has a termination message of the agent yet. *)
Definition no_message (w : World) (t : Task) (uid : string) : Prop :=
  forall pod, pod ∈ w_pods w (task_Namespace t) {[ LabelTaskName := task_Name t ]} -> owned_by_job uid pod = true ->
    agentTerminationMessage (pod_ContainerStatuses pod) = None.

Lemma result_set_decided task task' reason msg : result_set task task' reason msg -> resultDecided task' = true.
Proof. intros Hs. destruct (result_set_spec _ _ _ _ Hs) as ((c & Hc & _) & _). unfold resultDecided. by rewrite Hc. Qed.

Lemma observe_served r t uid egress w tr o w1 :
  exec (observeResult r t uid egress) tr o -> answered w tr w1 ->
  same w w1 /\ exists t' d, o = Ok (t', d) /\
    (resultDecided t' = true \/ (t' = t /\ resultDecided t = false /\ no_message w t uid)).
Proof.
  intros Hx Ha. split.
  { eapply answered_reads; [done|]. eapply Forall_impl; [by eapply observeResult_queries|]. by intros []. }
  assert (Hok : exists t' d, o = Ok (t', d)).
  { unfold observeResult in Hx. destruct (resultDecided t); [apply exec_ret in Hx as [_ ->]; eauto|].
    apply exec_call_inv in Hx as (pods & rest & -> & Hx). destruct Ha as (w2 & [_ Hp] & _). cbn in Hp. subst pods.
    destruct (scan_pods _ _ _); [apply exec_bind in Hx as (? & ? & ? & _ & _ & [_ ->]%exec_ret); eauto|].
    destruct (negb _); [apply exec_ret in Hx as [_ ->]; eauto|]. apply exec_bind in Hx as (? & ? & ? & _ & _ & Hx).
    apply exec_call_inv in Hx as (? & ? & _ & Hx). destruct (_ <? _); [apply exec_ret in Hx as [_ ->]; eauto|].
    apply exec_bind in Hx as (? & ? & ? & _ & _ & [_ ->]%exec_ret). eauto. }
  destruct Hok as (t' & d & ->). exists t', d. split; [done|].
  destruct (observeResult_cases _ _ _ _ _ _ _ Hx) as [(Hd & _ & -> & _)|(Hd & pods & rest & -> & _ & Hc)]; [by left|].
  destruct Ha as (w2 & Hs & _). cbn in Hs. destruct Hs as [_ [= ->]].
  destruct Hc as [(pod & msg & m & _ & _ & _ & _ & Hset)|(Hno & [(_ & -> & _)|(_ & since & now & _ & [(_ & -> & _)|(_ & _ & m & Hset)])])];
    [left; by eapply result_set_decided|right; by split_and!..|left; by eapply result_set_decided].
Qed.

Lemma observe_nothing r t uid egress w tr o w1 :
  resultDecided t = true \/ (isTerminal (task_Phase t) = false /\ no_message w t uid) ->
  exec (observeResult r t uid egress) tr o -> answered w tr w1 -> o = Ok (t, 0) /\ same w w1.
Proof.
  intros Hq Hx Ha. destruct (observe_served _ _ _ _ _ _ _ _ Hx Ha) as (Hs & t' & d & -> & _). split; [|done].
  destruct (observeResult_cases _ _ _ _ _ _ _ Hx) as [(_ & _ & -> & ->)|(Hd & pods & rest & -> & _ & Hc)]; [done|].
  destruct Ha as (w2 & Hs2 & _). cbn in Hs2. destruct Hs2 as [_ [= ->]]. destruct Hq as [?|[Ht Hno]]; [congruence|].
  destruct Hc as [(pod & msg & m & Hin & Ho & Hm & _)|(_ & [(_ & -> & ->)|(? & _)])]; [|done|congruence].
  by rewrite (Hno _ Hin Ho) in Hm.
Qed.

(** The status shows the state of the Job. *)
Definition mirrors (job : Job) (t : Task) : Prop :=
  let '(phase, reason, msg) := derivePhase job in
  task_Phase t = phase /\ st_ObservedGeneration (task_Status t) = task_Generation t /\
  st_JobName (task_Status t) = om_Name (job_Meta job) /\
  st_StartTime (task_Status t) = jst_StartTime (job_Status job) /\
  st_CompletionTime (task_Status t) = jst_CompletionTime (job_Status job) /\
  cond_view <$> FindStatusCondition (st_Conditions (task_Status t)) conditionReady =
    Some (conditionReady, conditionStatusFor phase, reason, msg, task_Generation t).

Lemma mirrors_kept now r task job egress to t d :
  exec (observeResult r (synced now task job) (om_UID (job_Meta job)) egress) to (Ok (t, d)) ->
  task_Meta t = task_Meta task /\ task_Spec t = task_Spec task /\ mirrors job t.
Proof.
  intros Hx. destruct (synced_kept _ _ _ _ _ _ _ _ Hx) as (Hm & Hs & Hk). split_and!; [done..|]. unfold mirrors.
  destruct (derivePhase job) as [[phase reason] msg]. destruct Hk as (Hp & Hg & Hj & Hst & Hct & c & Hc & Hcs & Hcr & Hcm & Hcg).
  assert (Hgen : task_Generation t = task_Generation task) by (unfold task_Generation; by rewrite Hm). rewrite Hgen.
  split_and!; try done. rewrite Hc. apply find_condition_some in Hc as [_ Hty]. cbn. unfold cond_view. congruence.
Qed.

(** An equal status shows the same. *)
Lemma mirrors_equal job t t' :
  status_wf (task_Status t) -> status_wf (task_Status t') -> task_Meta t = task_Meta t' ->
  equalStatus (task_Status t) (task_Status t') = true -> mirrors job t' -> mirrors job t.
Proof.
  intros Hwf Hwf' Hm He Hmir. apply equalStatus_iff in He as (Hp & Hj & Hg & Hst & Hct & _ & Hc); [|done..].
  unfold mirrors in *. destruct (derivePhase job) as [[phase reason] msg].
  assert (Hgen : task_Generation t = task_Generation t') by (unfold task_Generation; by rewrite Hm). rewrite Hgen, Hc.
  unfold task_Phase. rewrite Hp, Hj, Hg, Hst, Hct. done.
Qed.

Lemma mirrors_synced now job t : status_wf (task_Status t) -> mirrors job t ->
  equalStatus (task_Status t) (task_Status (synced now t job)) = true.
Proof.
  intros Hwf Hmir. apply (synced_fixpoint now t); [done|done|]. unfold mirrors in Hmir. destruct (derivePhase job) as [[phase reason] msg].
  destruct Hmir as (Hp & Hg & Hj & Hst & Hct & Hc). split_and!; try done.
  destruct (FindStatusCondition _ _) as [c|]; [|done]. cbn in Hc. unfold cond_view in Hc. exists c. by simplify_eq.
Qed.

Lemma decided_equal t t' : status_wf (task_Status t) -> status_wf (task_Status t') ->
  equalStatus (task_Status t) (task_Status t') = true -> resultDecided t' = resultDecided t.
Proof.
  intros Hwf Hwf' He. apply equalStatus_iff in He as (_ & _ & _ & _ & _ & _ & Hc); [|done..].
  specialize (Hc conditionResult). unfold resultDecided.
  destruct (FindStatusCondition (st_Conditions (task_Status t)) _), (FindStatusCondition (st_Conditions (task_Status t')) _); done.
Qed.

Lemma transition_served r before t phase reason msg w w' :
  answered w (transition_trace r before t phase reason msg) w' -> same w w'.
Proof.
  intros Ha. eapply answered_reports; [exact Ha|]. apply Forall_forall. intros c. apply transition_reports.
Qed.

(** Nothing is left to read for the Result. *)
Definition result_settled (w : World) (t : Task) (uid : string) : Prop := resultDecided t = true \/ no_message w t uid.

Lemma no_message_meta w w' t t' uid : same_env w w' -> task_Meta t' = task_Meta t -> no_message w t uid -> no_message w' t' uid.
Proof. intros He Hm Hn pod. unfold task_Namespace, task_Name. rewrite Hm, (same_pods _ _ He). apply Hn. Qed.

Lemma syncStatus_served r task job egress w tr res w1 :
  holds_task w task -> status_wf (task_Status task) -> exec (syncStatus r task job egress) tr res -> answered w tr w1 ->
  exists t d t1, res = Ok (t, d) /\ holds_task w1 t1 /\ mirrors job t /\ mirrors job t1 /\ status_wf (task_Status t1) /\
    task_Meta t1 = task_Meta task /\ task_Spec t1 = task_Spec task /\ result_settled w1 t1 (om_UID (job_Meta job)) /\
    ((same w w1 /\ t1 = task) \/ changes KTask (key_of (task_Meta task)) (Some t1) w w1).
Proof.
  intros Ht Hwf Hx Ha. destruct (derivePhase job) as [[phase reason] msg] eqn:Hd.
  destruct (syncStatus_cases _ _ _ _ _ _ _ _ _ Hd Hx) as (now & to & Hc). set (uid := om_UID (job_Meta job)) in *.
  assert (Hobs : forall o wa wb, exec (observeResult r (synced now task job) uid egress) to o -> same w wa -> answered wa to wb ->
    same w wb /\ exists t d, o = Ok (t, d) /\ (resultDecided t = true \/ no_message w t uid)).
  { intros o wa wb Ho Hwa Hao. destruct (observe_served _ _ _ _ _ _ _ _ Ho Hao) as (Hs & t & d & -> & Hset).
    split; [by rewrite Hwa|]. exists t, d. split; [done|]. destruct Hset as [?|(-> & _ & Hn)]; [by left|right].
    eapply no_message_meta; [symmetry; apply Hwa|done|done]. }
  destruct Hc as [(e & Ho & -> & ->)|(t & d & Ho & Hc)].
  { destruct Ha as (wa & Hwa & Ha). cbn in Hwa. by destruct (Hobs _ _ _ Ho Hwa Ha) as (_ & t & d & ? & _). }
  destruct (mirrors_kept _ _ _ _ _ _ _ _ Ho) as (Hm & Hs & Hmir).
  assert (Hwft : status_wf (task_Status t)) by (eapply observeResult_wf; [exact Ho|by apply synced_wf]).
  destruct Hc as [(He & -> & ->)|(He & Hc)].
  - destruct Ha as (wa & Hwa & Ha). cbn in Hwa. destruct (Hobs _ _ _ Ho Hwa Ha) as (Hw1 & t' & d' & Heq & Hset). simplify_eq.
    exists t', d', task. split_and!; try done; [unfold holds_task; by rewrite (same_get _ _ Hw1)|by eapply mirrors_equal| |by left].
    destruct Hset as [Hr|Hn]; [left; by rewrite <- (decided_equal _ _ Hwf Hwft He)|right].
    by eapply no_message_meta; [apply Hw1| |].
  - destruct Hc as [(e & -> & ->)|(t' & -> & ->)]; destruct Ha as (wa & Hwa & Ha); cbn in Hwa; apply answered_trans in Ha as (wb & Hab & wc & Hs' & Ha);
      destruct (Hobs _ _ _ Ho Hwa Hab) as (Hwb & t'' & d'' & Heq & Hset); simplify_eq;
      (apply (status_served wb task) in Hs' as [Hs' Hch]; [|unfold holds_task; by rewrite (same_get _ _ Hwb)|done..]); cbn in Hs'; simplify_eq.
    assert (Hwc : same wc w1) by (eapply transition_served; exact Ha).
    assert (Hch' : changes KTask (key_of (task_Meta task)) (Some t'') w w1) by by eapply changes_same.
    exists t'', d'', t''. split_and!; try done; [rewrite <- Hm in Hch'; apply Hch'| |by right].
    destruct Hset as [Hr|Hn]; [by left|right]. exact (no_message_meta _ _ _ _ _ (changed_rest _ _ _ _ _ Hch') eq_refl Hn).
Qed.

Lemma syncStatus_quiet r task job egress w tr res w1 :
  holds_task w task -> status_wf (task_Status task) -> mirrors job task -> isTerminal (task_Phase task) = false ->
  result_settled w task (om_UID (job_Meta job)) ->
  exec (syncStatus r task job egress) tr res -> answered w tr w1 -> same w w1 /\ exists t, res = Ok (t, 0) /\ task_Phase t = task_Phase task.
Proof.
  intros Ht Hwf Hmir Hterm Hset Hx Ha. destruct (derivePhase job) as [[phase reason] msg] eqn:Hd.
  destruct (syncStatus_cases _ _ _ _ _ _ _ _ _ Hd Hx) as (now & to & Hc). pose proof (mirrors_synced now _ _ Hwf Hmir) as Heq.
  assert (Hphase : task_Phase (synced now task job) = task_Phase task).
  { unfold mirrors in Hmir. rewrite Hd in Hmir. destruct Hmir as [-> _]. by rewrite (synced_eq _ _ _ _ _ _ Hd). }
  assert (Hmeta : task_Meta (synced now task job) = task_Meta task) by by rewrite (synced_eq _ _ _ _ _ _ Hd).
  assert (Hobs : forall o wa wb, exec (observeResult r (synced now task job) (om_UID (job_Meta job)) egress) to o -> same w wa -> answered wa to wb ->
    o = Ok (synced now task job, 0) /\ same w wb).
  { intros o wa wb Ho Hwa Hao. destruct (observe_nothing _ _ _ _ wa _ _ _ ltac:(rewrite synced_decided, Hphase;
      destruct Hset as [?|Hn]; [by left|right; split; [done|by eapply no_message_meta; [apply Hwa| |]]]) Ho Hao) as [-> Hs].
    split; [done|by rewrite Hwa]. }
  destruct Hc as [(e & Ho & -> & ->)|(t & d & Ho & Hc)].
  { destruct Ha as (wa & Hwa & Ha). cbn in Hwa. by destruct (Hobs _ _ _ Ho Hwa Ha). }
  destruct Hc as [(He & -> & ->)|(He & Hc)].
  - destruct Ha as (wa & Hwa & Ha). cbn in Hwa. destruct (Hobs _ _ _ Ho Hwa Ha) as [? Hs]. simplify_eq. eauto.
  - exfalso. destruct Hc as [(e & -> & ->)|(t' & -> & ->)]; destruct Ha as (wa & Hwa & Ha); cbn in Hwa; apply answered_trans in Ha as (wb & Hab & _);
      destruct (Hobs _ _ _ Ho Hwa Hab) as [? _]; simplify_eq; congruence.
Qed.

(** ** Terminal Tasks *)

Lemma equalStatus_refl s : status_wf s -> equalStatus s s = true.
Proof. intros Hwf. by apply equalStatus_iff. Qed.

(** [t1] is [task] or [task] with its Result decided, and is what the server holds. *)
Definition recorded (w w1 : World) (task t1 : Task) : Prop :=
  (same w w1 /\ t1 = task) \/
  (changes KTask (key_of (task_Meta task)) (Some t1) w w1 /\ resultDecided task = false /\ resultDecided t1 = true /\
   status_wf (task_Status t1) /\ task_Meta t1 = task_Meta task /\ task_Spec t1 = task_Spec task /\ task_Phase t1 = task_Phase task).

Lemma write_if_changed_served task t d w tr o w1 :
  holds_task w task -> status_wf (task_Status task) -> status_wf (task_Status t) -> keeps task t -> resultDecided task = false ->
  (t = task \/ resultDecided t = true) ->
  exec (write_if_changed (task_Status task) t d) tr o -> answered w tr w1 ->
  o = Ok (t, d) /\ recorded w w1 task t.
Proof.
  intros Ht Hwf Hwft Hk Hd Hor Hx Ha. unfold write_if_changed in Hx. destruct (equalStatus _ _) eqn:He.
  - apply exec_ret in Hx as [-> ->]. split; [done|]. left. split; [done|]. destruct Hor as [->|Hdt]; [done|].
    apply decided_equal in He; [congruence|done..].
  - destruct Hor as [->|Hdt]; [by rewrite equalStatus_refl in He|]. apply exec_call_inv in Hx as (x & t1 & -> & [-> ->]%exec_ret).
    destruct Ha as (w2 & Hs & Hw2). pose proof Hk as (Hsp & Hm & _).
    apply (status_served w task) in Hs as [Hs Hch]; [|done..]. cbn in Hs. subst x. split; [done|]. right.
    split_and!; try done; [by eapply changes_same|by apply keeps_phase].
Qed.

Lemma result_set_wf_keeps task t reason msg : status_wf (task_Status task) -> result_set task t reason msg ->
  status_wf (task_Status t) /\ keeps task t /\ resultDecided t = true.
Proof. intros Hwf Hs. split_and!; [by eapply result_set_wf|by eapply result_set_keeps|by eapply result_set_decided]. Qed.

Lemma recordTerminalResult_served r task w tr o w1 :
  holds_task w task -> status_wf (task_Status task) -> exec (recordTerminalResult r task) tr o -> answered w tr w1 ->
  exists t d, o = Ok (t, d) /\ recorded w w1 task t.
Proof.
  intros Ht Hwf Hx Ha. unfold recordTerminalResult in Hx. destruct (resultDecided task) eqn:Hd; cbn [orb] in Hx.
  { apply exec_ret in Hx as [-> ->]. exists task, 0. split; [done|by left]. }
  destruct (_ =? _)%string. { apply exec_ret in Hx as [-> ->]. exists task, 0. split; [done|by left]. }
  apply exec_call_inv in Hx as (x & t1 & -> & Hx). apply (read_served _ _ _ _ w) in Ha as [Ha Hj]; [|done].
  destruct x as [job|e].
  - apply exec_bind in Hx as (te & t2 & egress & -> & He & Hx). apply answered_trans in Ha as (wa & Ha1 & Ha).
    assert (Hwa : same w wa).
    { apply exec_call_inv in He as (y & t3 & -> & [-> _]%exec_ret). by apply (read_served _ _ _ _ w) in Ha1 as [Ha1 _]. }
    apply exec_bind in Hx as (to & t3 & ob & -> & Ho & Hx). apply answered_trans in Ha as (wb & Hab & Ha).
    destruct (observe_served _ _ _ _ _ _ _ _ Ho Hab) as (Hwb & t & d & -> & Hor). exists t, d.
    assert (Hww : same w wb) by by rewrite Hwa. assert (Htb : holds_task wb task) by (unfold holds_task; by rewrite (same_get _ _ Hww)).
    assert (Hk : keeps task t).
    { destruct (observeResult_frame _ _ _ _ _ _ _ Ho) as (? & ? & ? & ?). by split_and!. }
    destruct (write_if_changed_served task t d wb t3 o w1) as [-> Hr]; try done; [by eapply observeResult_wf|destruct Hor as [?|(? & _)]; auto|].
    split; [done|]. destruct Hr as [[Hs ->]|[Hch Hr]]; [left; by rewrite Hww|right; split; [by eapply same_changes|done]].
  - destruct (w_get w KJob _); [done|]. destruct Hj as (? & [= <-] & He). rewrite He in Hx.
    apply exec_bind in Hx as (ts & t2 & t & -> & [(now & ->) Hset]%exec_setResultCondition & Hx).
    destruct Ha as (wa & Hwa & Ha). cbn in Hwa. destruct (result_set_wf_keeps _ _ _ _ Hwf Hset) as (Hwft & Hk & Hdt). exists t, 0.
    assert (Hta : holds_task wa task) by (unfold holds_task; by rewrite (same_get _ _ Hwa)).
    destruct (write_if_changed_served task t 0 wa t2 o w1) as [-> Hr]; try done; [by right|].
    split; [done|]. destruct Hr as [[Hs ->]|[Hch Hr]]; [left; by rewrite Hwa|right; split; [by eapply same_changes|done]].
Qed.

Lemma collectTerminal_served r t w tr c w1 :
  holds_task w t -> exec (collectTerminal r t) tr c -> answered w tr w1 ->
  same w w1 \/ changes KTask (key_of (task_Meta t)) None w w1.
Proof.
  intros Ht Hx Ha. destruct (collectTerminal_cases _ _ _ _ Hx) as [(_ & -> & _)|(dl & now & _ & [(_ & -> & _)|(_ & x & -> & _)])].
  - by left.
  - destruct Ha as (w2 & Hw2 & Ha). cbn in Hw2, Ha. left. by rewrite Hw2.
  - destruct Ha as (w2 & Hw2 & w3 & Hs & Ha). cbn in Hw2, Hs, Ha. unfold holds_task in Ht. rewrite (same_get _ _ Hw2), Ht in Hs.
    destruct Hs as [(_ & _ & Hc)|(Hn & _)]; [right|by destruct Hn].
    eapply changes_same; [exact Hc|by symmetry|done].
Qed.

(** What a pass over a terminal Task leaves: nothing changed, or the Result is
    decided that was not, or the Task is gone. *)
Lemma reconcile_terminal_served r task w tr res w1 :
  holds_task w task -> status_wf (task_Status task) -> isTerminal (task_Phase task) = true ->
  exec (reconcile_terminal r task) tr res -> answered w tr w1 ->
  let key := key_of (task_Meta task) in
  frame (fun s => s = (KTask, key)) w w1 /\
  (same w w1 \/ w_get w1 KTask key = None \/
   exists t, w_get w1 KTask key = Some t /\ resultDecided task = false /\ resultDecided t = true /\
     status_wf (task_Status t) /\ isTerminal (task_Phase t) = true).
Proof.
  intros Ht Hwf Hterm Hx Ha. cbn zeta. unfold reconcile_terminal in Hx. apply exec_bind in Hx as (t1 & t2 & o & -> & Ho & Hx).
  apply answered_trans in Ha as (wa & Ha1 & Ha). destruct (recordTerminalResult_served _ _ _ _ _ _ Ht Hwf Ho Ha1) as (t & d & -> & Hr).
  apply exec_bind in Hx as (t3 & t4 & c & -> & Hc & [-> _]%exec_ret). rewrite app_nil_r in Ha.
  assert (Hm : task_Meta t = task_Meta task) by (destruct Hr as [[_ ->]|(_ & _ & _ & _ & ? & _)]; done).
  assert (Hta : holds_task wa t).
  { destruct Hr as [[Hs ->]|[Hch _]]; unfold holds_task; [by rewrite (same_get _ _ Hs)|rewrite Hm; apply Hch]. }
  destruct (collectTerminal_served _ _ _ _ _ _ Hta Hc Ha) as [Hs|Hch]; rewrite ?Hm in *.
  - destruct Hr as [[Hs' ->]|(Hch & Hd & Hdt & Hwft & _ & _ & Hp)].
    + assert (same w w1) by by rewrite Hs'. split; [by apply frame_same|by left].
    + assert (Hch' : changes KTask (key_of (task_Meta task)) (Some t) w w1) by by eapply changes_same.
      split; [by eapply frame_changes|]. right. right. exists t. split_and!; try done; [apply Hch'|by rewrite Hp].
  - split; [|right; left; apply Hch]. eapply frame_trans; [|by eapply frame_changes].
    destruct Hr as [[Hs' _]|(Hch' & _)]; [by apply frame_same|by eapply frame_changes].
Qed.

(** ** A pass over a Task that is not terminal *)

(** The same Task with another status. *)
Definition with_st (task : Task) (st : TaskStatus) : Task := mkTask (task_Meta task) (task_Spec task) st.

Lemma with_st_eq task t : task_Meta t = task_Meta task -> task_Spec t = task_Spec task -> t = with_st task (task_Status t).
Proof. destruct t. cbn. by intros -> ->. Qed.

(** The slots of a Task: its own, its Job's and those of the steps. *)
Definition owned_slots (key : NamespacedName) : list Slot := (KTask, key) :: (KJob, key) :: step_slots key.
Definition own (key : NamespacedName) (s : Slot) : Prop := s ∈ owned_slots key.

(** What a pass reads: these and the classes. *)
Definition reads (key : NamespacedName) (s : Slot) : Prop := own key s \/ s.1 = KClusterAgentClass.

(** The Task at [key] is terminal. *)
Definition ended (w : World) (key : NamespacedName) : Prop :=
  exists t, w_get w KTask key = Some t /\ isTerminal (task_Phase t) = true /\ status_wf (task_Status t).

(** The Task is stored with some status that is not terminal, and a further run of
    [p] does nothing. *)
Definition resting (w : World) (task : Task) (P : Slot -> Prop) {A} (p : Task -> Prog A) : Prop :=
  exists st, w_get w KTask (key_of (task_Meta task)) = Some (with_st task st) /\ isTerminal (st_Phase st) = false /\ status_wf st /\
    forall w2 tr x w3, agree_on P w w2 -> exec (p (with_st task st)) tr x -> answered w2 tr w3 -> same w2 w3.

Lemma with_st_self task : with_st task (task_Status task) = task.
Proof. by destruct task. Qed.

Lemma ended_failed w task t w1 :
  changes KTask (key_of (task_Meta task)) (Some t) w w1 -> task_Phase t = TaskPhaseFailed -> status_wf (task_Status t) ->
  ended w1 (key_of (task_Meta task)).
Proof. intros Hc Hp Hwf. exists t. split_and!; [apply Hc|by rewrite Hp|done]. Qed.

Lemma reconcile_job_inv r task agent tr res :
  exec (reconcile_job r task agent) tr res ->
  exists tj t2 j, tr = tj ++ t2 /\ exec (ensureJob r task agent (effective_secrets task agent)) tj j /\
  match j with
  | Err e => exists tf, t2 = step_error StepJob :: tf /\
      ((IsPermanent e = true /\ exec (failTask r task reasonInvalidSpec e) tf res.2) \/ (IsPermanent e = false /\ tf = []))
  | Ok job => exists ts te o, t2 = ts ++ te /\ exec (syncStatus r task job (effective_egress task agent)) ts o /\
      ((exists e, o = Err e) \/
       (exists t d, o = Ok (t, d) /\ te = [] /\ res = (final_requeue r t (effective_egress task agent) d, Ok tt)))
  end.
Proof.
  unfold reconcile_job. intros (tj & t2 & j & -> & Hj & Hx)%exec_bind. exists tj, t2, j. split; [done|]. split; [done|].
  destruct j as [job|e].
  - apply exec_bind in Hx as (ts & te & o & -> & Ho & Hx). exists ts, te, o. split; [done|]. split; [done|].
    destruct o as [[t d]|e]; [right|left; eauto]. apply exec_ret in Hx as [-> ->]. by exists t, d.
  - apply exec_call_inv in Hx as ([] & tf & -> & Hx). exists tf. split; [done|]. destruct (IsPermanent e).
    + apply exec_bind in Hx as (t3 & t4 & f & -> & Hf & [-> ->]%exec_ret). rewrite app_nil_r. by left.
    + apply exec_ret in Hx as [-> ->]. by right.
Qed.

Definition job_slots (key : NamespacedName) (s : Slot) : Prop := s = (KTask, key) \/ s = (KJob, key).

Lemma frame_job key w w1 : frame (fun s => s = (KTask, key)) w w1 -> frame (job_slots key) w w1.
Proof. apply frame_mono. by left. Qed.

Lemma reconcile_job_served r task agent w tr res w1 :
  keyed w -> holds_task w task -> status_wf (task_Status task) -> exec (reconcile_job r task agent) tr res -> answered w tr w1 ->
  isTerminal (task_Phase task) = false ->
  let key := key_of (task_Meta task) in
  frame (job_slots key) w w1 /\
  (ended w1 key \/ resting w1 task (job_slots key) (fun t => reconcile_job r t agent)).
Proof.
  intros Hk Ht Hwf Hx Ha Hterm. cbn zeta. destruct (reconcile_job_inv _ _ _ _ _ Hx) as (tj & t2 & j & -> & Hj & Hc).
  apply answered_trans in Ha as (wj & Haj & Ha). destruct (ensureJob_served _ _ _ _ _ _ _ _ Hj Haj) as [(e & -> & Hs & Hdet)|(job & -> & Hjob & Hjc)].
  - destruct Hc as (tf & -> & Hf). destruct Ha as (wo & Hwo & Ha). cbn in Hwo.
    assert (Hw : same w wo) by by rewrite Hs. destruct Hf as [[_ Hf]|[Hp ->]].
    + destruct (failTask_served r task reasonInvalidSpec e wo tf res.2 w1) as (_ & t & v & Hch & -> & _ & Hp & Hwft); try done.
      { unfold holds_task. by rewrite (same_get _ _ Hw). }
      assert (Hch' : changes KTask (key_of (task_Meta task)) (Some t) w w1) by by eapply changes_same.
      split; [by eapply frame_job, frame_changes|]. left. by eapply ended_failed.
    + cbn in Ha. assert (Hw1 : same w w1) by by rewrite Hw. split; [by apply frame_same|]. right. exists (task_Status task). rewrite with_st_self.
      split_and!; [by rewrite (same_get _ _ Hw1)|done..|]. intros w2 tr' x' w3 _ Hx' Ha'.
      destruct (reconcile_job_inv _ _ _ _ _ Hx') as (tj' & t2' & j' & -> & Hj' & Hc'). destruct (Hdet _ _ Hj') as [-> ->].
      destruct Hc' as (tf' & -> & [[? _]|[_ ->]]); [congruence|]. destruct Ha' as (w4 & Hw4 & Ha'). cbn in Hw4, Ha'. by rewrite Hw4.
  - destruct Hc as (ts & te & o & -> & Ho & Hc). apply answered_trans in Ha as (ws & Has & Ha).
    assert (Hfj : frame (fun s => s = (KJob, key_of (task_Meta task))) w wj).
    { apply steady_frame. destruct Hjc as [[Hs _]|(_ & Hch & _)]; eauto. }
    assert (Htj : holds_task wj task) by (unfold holds_task; rewrite Hfj; [done|intros [=]]).
    destruct (syncStatus_served _ _ _ _ _ _ _ _ Htj Hwf Ho Has) as (t & d & t1 & -> & Ht1 & Hmt & Hmir & Hwf1 & Hm1 & Hs1 & Hset & Hchg).
    destruct Hc as [[e ?]|(t' & d' & [= <- <-] & -> & ->)]; [done|]. cbn in Ha.
    assert (Hfr : frame (job_slots (key_of (task_Meta task))) w w1).
    { eapply frame_trans; [eapply frame_mono; [|exact Hfj]; by right|]. eapply frame_trans; [|by apply frame_same, Ha].
      apply frame_job. destruct Hchg as [[Hs _]|Hch]; [by apply frame_same|by eapply frame_changes]. }
    split; [done|]. assert (Hget : w_get w1 KTask (key_of (task_Meta task)) = Some t1).
    { rewrite (same_get _ _ Ha), <- Hm1. exact Ht1. }
    destruct (isTerminal (task_Phase t1)) eqn:Hterm1; [left; by exists t1|right].
    pose proof (with_st_eq _ _ Hm1 Hs1) as Heq1. exists (task_Status t1). rewrite <- Heq1. split_and!; try done.
    intros w2 tr' x' w3 [He Hag] Hx' Ha'. destruct (reconcile_job_inv _ _ _ _ _ Hx') as (tj' & t2' & j' & -> & Hj' & Hc').
    apply answered_trans in Ha' as (wj' & Haj' & Ha').
    assert (Hj2 : w_get w2 KJob (key_of (task_Meta task)) = w_get wj KJob (key_of (task_Meta task))).
    { rewrite Hag by by right. rewrite (same_get _ _ Ha). destruct Hchg as [[Hs _]|Hch]; [apply Hs|]. by apply Hch. }
    assert (Hew : same_env wj w2) by (rewrite <- He, <- (same_rest _ _ Ha); by eapply answered_env).
    assert (Hjs : j' = Ok job /\ same w2 wj').
    { rewrite Heq1 in Hj'. exact (proj2 (ensureJob_steady r task agent _ w tj (Ok job) wj Hk Hj Haj) w2 tj' j' wj' Hew Hj2 Hj' Haj'). }
    destruct Hjs as [-> Hsj]. destruct Hc' as (ts' & te' & o' & -> & Ho' & Hc').
    apply answered_trans in Ha' as (ws' & Has' & Ha').
    destruct (syncStatus_quiet r t1 job (effective_egress t1 agent) wj' ts' o' ws') as (Hss & t3 & -> & _); try done.
    { unfold holds_task. rewrite (same_get _ _ Hsj), Hm1, Hag by by left. exact Hget. }
    { destruct Hset as [?|Hn]; [by left|right]. eapply (no_message_meta ws _ t1); [|done|exact Hn]. by rewrite (same_rest _ _ Ha), He, (same_rest _ _ Hsj). }
    destruct Hc' as [[e ?]|(t4 & d4 & _ & -> & _)]; [done|]. cbn in Ha'. by rewrite Hsj, Hss.
Qed.

(** The ways a pass over a Task that is not terminal can go, up to the steps. *)
Lemma reconcile_live_inv r task tr res :
  exec (reconcile_live r task) tr res ->
  (exists e tf f, validateTask task = Err e /\ tr = step_error StepValidate :: tf /\ exec (failTask r task reasonInvalidSpec e) tf f) \/
  (validateTask task = Ok tt /\ exists got t1, tr = ev (CGet KClusterAgentClass (agent_key task)) got :: t1 /\
   match got with
   | Err e => exists t2, t1 = step_error StepAgentClassLookup :: t2 /\
       ((IsNotFound e = true /\ exists x, exec (markWaitingForAgentClass r task) t2 x) \/ (IsNotFound e = false /\ t2 = []))
   | Ok agent => exists ts o t2, t1 = ts ++ t2 /\ exec (run_steps r task (steps r task agent (effective_egress task agent))) ts o /\
       match o with Some f => t2 = [] /\ res = (mkCtrl 0, f) | None => exec (reconcile_job r task agent) t2 res end
   end).
Proof.
  unfold reconcile_live. destruct (validateTask task) as [[]|e] eqn:Hv.
  2: { intros ([] & t1 & -> & Hx)%exec_call_inv. left. apply exec_bind in Hx as (t2 & t3 & f & -> & Hf & [-> ->]%exec_ret).
       rewrite app_nil_r. by exists e, t2, f. }
  intros (got & t1 & -> & Hx)%exec_call_inv. right. split; [done|]. exists got, t1. split; [done|]. destruct got as [agent|e].
  - apply exec_bind in Hx as (ts & t2 & o & -> & Ho & Hx). exists ts, o, t2. split; [done|]. split; [done|].
    destruct o; [by apply exec_ret in Hx as [-> ->]|done].
  - destruct (IsNotFound e); apply exec_call_inv in Hx as ([] & t2 & -> & Hx); exists t2; (split; [done|]).
    + apply exec_bind in Hx as (t3 & t4 & x & -> & Hw & [-> ->]%exec_ret). rewrite app_nil_r. left. eauto.
    + apply exec_ret in Hx as [-> ->]. by right.
Qed.

Lemma step_slots_NoDup key : NoDup (step_slots key).
Proof.
  unfold step_slots. repeat apply NoDup_cons_2; [..|apply NoDup_nil_2]; rewrite ?not_elem_of_cons; split_and?; try done; try apply not_elem_of_nil;
    intros [= Heq]. by eapply (proj2 (proj2 (configmap_names_disjoint _ _))).
Qed.

Lemma step_slot_own key s : s ∈ step_slots key -> own key s.
Proof. intros Hs. right. by right. Qed.

Lemma job_slot_own key s : job_slots key s -> own key s.
Proof. intros [->| ->]; [left|right; left]. Qed.

Lemma step_slot_not_job key s : s ∈ step_slots key -> ~ job_slots key s.
Proof. intros Hs [->| ->]; unfold step_slots in Hs; repeat (apply elem_of_cons in Hs as [?|Hs]; [done|]); by apply elem_of_nil in Hs. Qed.

(** What a pass over a Task that is not terminal does when its spec is valid and
    its class there. *)
Lemma steps_then_job_served r task agent w ts o t2 wc res w1 :
  keyed w -> holds_task w task -> status_wf (task_Status task) -> isTerminal (task_Phase task) = false ->
  exec (run_steps r task (steps r task agent (effective_egress task agent))) ts o -> answered w ts wc -> answered wc t2 w1 ->
  match o with Some f => t2 = [] /\ res = (mkCtrl 0, f) | None => exec (reconcile_job r task agent) t2 res end ->
  let key := key_of (task_Meta task) in
  frame (own key) w w1 /\
  (ended w1 key \/ resting w1 task (own key) (fun t =>
     let! s := run_steps r t (steps r t agent (effective_egress t agent)) in
     match s with Some f => Ret (mkCtrl 0, f) | None => reconcile_job r t agent end)).
Proof.
  intros Hk Ht Hwf Hterm Hs Has Ha Ho. cbn zeta. set (key := key_of (task_Meta task)).
  destruct (run_steps_served r task _ _ w ts o wc (steps_steady r task agent _) (step_slots_NoDup _) Hk Hs Has)
    as [(reason & e & tf & f & wm & -> & Hf & Haf & Hfr)|[Hfr Hag]].
  - destruct Ho as [-> ->]. cbn in Ha.
    assert (Htm : holds_task wm task).
    { unfold holds_task. rewrite Hfr; [done|]. intros Hin%step_slot_not_job. destruct Hin. by left. }
    destruct (failTask_served _ _ _ _ _ _ _ _ Htm Hwf Hf Haf) as (_ & t & v & Hch & -> & _ & Hp & Hwft).
    assert (Hch' : changes KTask key (Some t) wm w1) by by eapply changes_same.
    split; [|left; by eapply ended_failed]. eapply frame_trans; [eapply frame_mono; [|exact Hfr]; apply step_slot_own|].
    eapply frame_mono; [|by eapply frame_changes]. intros s ->. left.
  - assert (Hfo : frame (own key) w wc) by (eapply frame_mono; [|exact Hfr]; apply step_slot_own).
    assert (Htc : holds_task wc task).
    { unfold holds_task. rewrite Hfr; [done|]. intros Hin%step_slot_not_job. destruct Hin. by left. }
    assert (Hagain : forall (p : Task -> Prog (CtrlResult * result unit)) t w2 tr x w3, same_env wc w2 ->
      (forall s, s ∈ step_slots key -> w_get w2 s.1 s.2 = w_get wc s.1 s.2) ->
      task_Meta t = task_Meta task -> task_Spec t = task_Spec task ->
      exec (let! s := run_steps r t (steps r t agent (effective_egress t agent)) in
        match s with Some f => Ret (mkCtrl 0, f) | None => p t end) tr x -> answered w2 tr w3 ->
      exists t3 w4, same w2 w4 /\ answered w4 t3 w3 /\ exec (match o with Some f => Ret (mkCtrl 0, f) | None => p t end) t3 x).
    { intros p t w2 tr x w3 He Hg Hm Hsp Hx Ha2. apply exec_bind in Hx as (t3 & t4 & o' & -> & Ho' & Hx).
      apply answered_trans in Ha2 as (w4 & Ha4 & Ha3). rewrite (with_st_eq _ _ Hm Hsp) in Ho'.
      destruct (Hag (with_st task (task_Status t)) w2 t3 o' w4) as [-> Hs4]; [|exact Ho'|done|by exists t4, w4].
      split; [done|]. intros k' key' Hin. exact (Hg _ Hin). }
    destruct o as [f|].
    + destruct Ho as [-> ->]. cbn in Ha. split; [eapply frame_trans; [done|by apply frame_same]|]. right.
      exists (task_Status task). rewrite with_st_self. split_and!; try done; [by rewrite (same_get _ _ Ha)|]. intros w2 tr x w3 [He Hg] Hx Ha2.
      destruct (Hagain (fun t => reconcile_job r t agent) task w2 tr x w3) as (t3 & w4 & Hs4 & Ha4 & [-> _]%exec_ret); try done.
      { by rewrite (same_rest _ _ Ha). }
      { intros [k' key'] Hin. rewrite Hg by by apply step_slot_own. apply Ha. }
      by rewrite Hs4.
    + assert (Hkc : keyed wc) by by eapply answered_keyed.
      destruct (reconcile_job_served r task agent wc t2 res w1 Hkc Htc Hwf Ho Ha Hterm) as [Hfj Hout]. fold key in Hfj, Hout.
      split; [eapply frame_trans; [done|]; eapply frame_mono; [|exact Hfj]; apply job_slot_own|].
      destruct Hout as [Hend|(st & Hget & Hterm1 & Hwf1 & Hrest)]; [by left|right]. exists st. split_and!; try done.
      intros w2 tr x w3 [He Hg] Hx Ha2. assert (Hew : same_env wc w2) by (rewrite <- He; by eapply answered_env).
      destruct (Hagain (fun t => reconcile_job r t agent) (with_st task st) w2 tr x w3) as (t3 & w4 & Hs4 & Ha4 & Hx4); try done.
      { intros [k' key'] Hin. rewrite Hg by by apply step_slot_own. apply Hfj. by apply step_slot_not_job. }
      rewrite Hs4. eapply Hrest; [|exact Hx4|exact Ha4]. split; [by rewrite He, (same_rest _ _ Hs4)|].
      intros k' key' Hjs. rewrite (same_get _ _ Hs4). by apply Hg, job_slot_own.
Qed.

Lemma reconcile_live_served r task w tr res w1 :
  keyed w -> holds_task w task -> status_wf (task_Status task) -> isTerminal (task_Phase task) = false ->
  exec (reconcile_live r task) tr res -> answered w tr w1 ->
  let key := key_of (task_Meta task) in
  frame (own key) w w1 /\ (ended w1 key \/ resting w1 task (reads key) (reconcile_live r)).
Proof.
  intros Hk Ht Hwf Hterm Hx Ha. cbn zeta. set (key := key_of (task_Meta task)).
  assert (Htask : frame (fun s => s = (KTask, key)) w w1 -> frame (own key) w w1) by (apply frame_mono; intros s ->; left).
  destruct (reconcile_live_inv _ _ _ _ Hx) as [(e & tf & f & Hv & -> & Hf)|(Hv & got & t1 & -> & Hc)].
  { destruct Ha as (wo & Hwo & Ha). cbn in Hwo. assert (Hto : holds_task wo task) by (unfold holds_task; by rewrite (same_get _ _ Hwo)).
    destruct (failTask_served _ _ _ _ _ _ _ _ Hto Hwf Hf Ha) as (_ & t & v & Hch & -> & _ & Hp & Hwft).
    assert (Hch' : changes KTask key (Some t) w w1) by by eapply changes_same.
    split; [by eapply Htask, frame_changes|]. left. by eapply ended_failed. }
  apply (read_served _ _ _ _ w) in Ha as [Ha Hgot]; [|done].
  assert (Hclass : frame (own key) w w1 -> forall w2 got' t2 w3, agree_on (reads key) w1 w2 ->
    answered w2 (ev (CGet KClusterAgentClass (agent_key task)) got' :: t2) w3 ->
    answered w2 t2 w3 /\ match w_get w KClusterAgentClass (agent_key task) with Some o => got' = Ok o | None => missing got' end).
  { intros Hfr w2 got' t2 w3 [_ Hg] Ha2. apply (read_served _ _ _ _ w2) in Ha2 as [Ha2 Hgot']; [|done].
    rewrite Hg, Hfr in Hgot'; [done| |by right]. intros Hin. unfold own, owned_slots, step_slots in Hin.
    repeat (apply elem_of_cons in Hin as [?|Hin]; [done|]). by apply elem_of_nil in Hin. }
  assert (Hinvalid : forall {P : Prop} st e, validateTask (with_st task st) = Err e -> P).
  { intros P st e Hv'. change (validateTask task = Err e) in Hv'. congruence. }
  destruct got as [agent|e].
  - destruct Hc as (ts & o & t2 & -> & Hs & Ho). apply answered_trans in Ha as (wc & Has & Ha).
    destruct (w_get w KClusterAgentClass _) as [agent'|] eqn:Hcl; [injection Hgot as <-|by destruct Hgot as (? & ? & _)].
    destruct (steps_then_job_served r task agent w ts o t2 wc res w1 Hk Ht Hwf Hterm Hs Has Ha Ho) as [Hfr Hout].
    split; [done|]. destruct Hout as [Hend|(st & Hg1 & Hterm1 & Hwf1 & Hrest)]; [by left|right].
    exists st. split_and!; try done. intros w2 tr x w3 Hag Hx' Ha2.
    destruct (reconcile_live_inv _ _ _ _ Hx') as [(e & tf & f & Hv' & _)|(_ & got' & t1' & -> & Hc')]; [exact (Hinvalid _ _ _ Hv')|].
    apply (Hclass Hfr _ _ _ _ Hag) in Ha2 as [Ha2 ->]. destruct Hc' as (ts' & o' & t2' & -> & Hs' & Ho').
    eapply Hrest; [|apply exec_bind; exists ts', t2', o'; split; [done|]; split; [exact Hs'|]|exact Ha2].
    + destruct Hag as [He Hg]. split; [done|]. intros k' key' Hin. apply Hg. by left.
    + destruct o'; [|exact Ho']. destruct Ho' as [-> ->]. by apply exec_ret.
  - destruct Hc as (t2 & -> & Hc). destruct (w_get w KClusterAgentClass _) as [|] eqn:Hcl; [done|]. destruct Hgot as (? & [= <-] & He).
    destruct Hc as [[_ (x & Hx1)]|[? _]]; [|congruence]. destruct Ha as (wo & Hwo & Ha). cbn in Hwo.
    assert (Hto : holds_task wo task) by (unfold holds_task; by rewrite (same_get _ _ Hwo)).
    destruct (markWaiting_served _ _ _ _ _ _ Hto Hwf Hx1 Ha) as (t & Ht1 & Hsay & Hwft & Hm & Hsp & Hchg).
    assert (Hfr : frame (own key) w w1).
    { apply Htask. eapply frame_trans; [by apply frame_same|]. destruct Hchg as [[Hs _]|[Hch _]]; [by apply frame_same|by eapply frame_changes]. }
    split; [done|]. right. pose proof (with_st_eq _ _ Hm Hsp) as Heq. exists (task_Status t). rewrite <- Heq.
    split_and!; [rewrite <- Hm; exact Ht1|destruct Hsay as [Hph _]; unfold task_Phase in Hph; by rewrite Hph|done|]. intros w2 tr x' w3 Hag Hx' Ha2.
    destruct (reconcile_live_inv _ _ _ _ Hx') as [(e' & tf & f & Hv' & _)|(_ & got' & t1' & -> & Hc')]; [rewrite Heq in Hv'; exact (Hinvalid _ _ _ Hv')|].
    rewrite Heq in Ha2. apply (Hclass Hfr _ _ _ _ Hag) in Ha2 as [Ha2 (e2 & -> & He2)]. destruct Hc' as (t2' & -> & [[_ (y & Hy)]|[? _]]); [|congruence].
    destruct Ha2 as (w4 & Hw4 & Ha2). cbn in Hw4.
    assert (Ht2 : holds_task w4 t).
    { unfold holds_task. rewrite (same_get _ _ Hw4). destruct Hag as [_ Hg]. rewrite Hg; [exact Ht1|]. left. rewrite Hm. left. }
    destruct (markWaiting_served _ _ _ _ _ _ Ht2 Hwft Hy Ha2) as (t3 & _ & _ & _ & _ & _ & [[Hs3 _]|[_ Hn]]); [by rewrite Hw4|by destruct Hn].
Qed.

End Operations.
End Settle.
