(* ===== verification/Quiescence.v ===== *)
(** * A quiet cluster comes to rest

    Reconcile passes over any number of Tasks, in any order, on the server of
    [ApiServer] while nobody else writes.  A pass touches nothing but the objects
    of its Task, and all passes but a bounded number change nothing. *)

From S2P Require Import Prelude GoString GoTime GoNet GoJson GoUrl Kube Api Effects KubeLib Metrics.
From S2P Require Import PolicyObjects PolicyConfig PolicyNetwork Reconciler Samples PolicyResult.
From S2P Require Import Build Status TaskResult Sync Reconcile Lifecycle ApiServer Settle.

Module Quiescence.
Import Labels Prompt Config Network Build Status TaskResult Sync Reconcile Lifecycle ApiServer Settle.

Section Quiescence.
Context `{KubeLaws, JsonErrors, UnicodeTables}.

(** One pass, from a state of the server to the next. *)
Definition pass (r : TaskReconciler) (req : NamespacedName) (w w1 : World) : Prop :=
  exists tr res, exec (Reconcile r req) tr res /\ answered w tr w1.

(** The condition types of every Task are distinct, as the schema of the status
    demands of the server. *)
Definition statuses_wf (w : World) : Prop := forall key t, w_get w KTask key = Some t -> status_wf (task_Status t).

Lemma reconcile_served r req w w1 :
  keyed w -> pass r req w w1 ->
  match w_get w KTask req with
  | None => same w w1
  | Some t => key_of (task_Meta t) = req /\ exists tr res, answered w tr w1 /\
      if isTerminal (task_Phase t) then exec (reconcile_terminal r t) tr res else exec (reconcile_live r t) tr res
  end.
Proof.
  intros Hk (tr & res & Hx & Ha). apply exec_call_inv in Hx as (got & t1 & -> & Hx).
  apply (read_served _ _ _ _ w) in Ha as [Ha Hg]; [|done]. destruct (w_get w KTask req) as [t|] eqn:Ht.
  - subst got. split; [exact (Hk _ _ _ Ht)|]. exists t1, res. by destruct (isTerminal _).
  - destruct Hg as (e & -> & _). by apply exec_ret in Hx as [-> _].
Qed.

(** ** Slots of different Tasks *)

Lemma own_reads_disjoint req req' s : req <> req' -> own req s -> ~ reads req' s.
Proof.
  intros Hne Ho [Hr|Hc].
  - destruct req as [ns n], req' as [ns' n']. destruct (configmap_names_disjoint n n') as (Hpp & Hcc & Hpc).
    destruct (configmap_names_disjoint n' n) as (_ & _ & Hcp).
    unfold own, owned_slots, step_slots in Ho, Hr. rewrite !elem_of_cons in Ho, Hr. cbn [nn_Namespace nn_Name] in Ho, Hr.
    destruct Ho as [->|[->|[->|[->|[->|[->|[->|[->|[]%elem_of_nil]]]]]]]];
      destruct Hr as [Hr|[Hr|[Hr|[Hr|[Hr|[Hr|[Hr|[Hr|[]%elem_of_nil]]]]]]]]; try discriminate Hr;
      injection Hr as Hns Hn; apply Hne; rewrite Hns; f_equal; auto; by destruct Hpc || by destruct Hcp.
  - unfold own, owned_slots, step_slots in Ho. repeat (apply elem_of_cons in Ho as [->|Ho]; [done|]). by apply elem_of_nil in Ho.
Qed.

(** ** Passes that are left *)

(** At most [n] of the passes over [req] change anything, whatever happens to the
    objects of others in between. *)
Fixpoint settles (r : TaskReconciler) (req : NamespacedName) (n : nat) (w : World) : Prop :=
  forall w' w1, keyed w' -> agree_on (reads req) w w' -> pass r req w' w1 ->
    frame (own req) w' w1 /\ (same w' w1 \/ match n with O => False | S n => settles r req n w1 end).

Lemma agree_on_trans P w1 w2 w3 : agree_on P w1 w2 -> agree_on P w2 w3 -> agree_on P w1 w3.
Proof. intros [E12 G12] [E23 G23]. split; [by etrans|]. intros k key Hp. by rewrite G23, G12. Qed.

Lemma settles_agree r req n w w' : agree_on (reads req) w w' -> settles r req n w -> settles r req n w'.
Proof.
  destruct n; cbn; intros Hag Hs w2 w3 Hk Hag2 Hp; (eapply Hs; [done| |done]); by eapply agree_on_trans.
Qed.

Lemma settles_mono r req n w : settles r req n w -> settles r req (S n) w.
Proof.
  revert w. induction n as [|n IH]; cbn; intros w Hs w' w1 Hk Hag Hp; (destruct (Hs w' w1 Hk Hag Hp) as [Hf [?|?]]; [by auto|]); [done|].
  split; [done|]. right. by apply IH.
Qed.

Lemma own_task key : own key (KTask, key).
Proof. left. Qed.

Lemma gone_settles r req w : w_get w KTask req = None -> settles r req 0 w.
Proof.
  intros Hn w' w1 Hk Hag Hp%reconcile_served; [|done]. rewrite (proj2 Hag), Hn in Hp by (left; apply own_task).
  split; [by apply frame_same|by left].
Qed.

Lemma frame_task_own req w w1 : frame (fun s => s = (KTask, req)) w w1 -> frame (own req) w w1.
Proof. apply frame_mono. intros s ->. apply own_task. Qed.

(** One pass over a terminal Task. *)
Lemma terminal_pass r t w w1 :
  let req := key_of (task_Meta t) in
  keyed w -> w_get w KTask req = Some t -> status_wf (task_Status t) -> isTerminal (task_Phase t) = true -> pass r req w w1 ->
  frame (own req) w w1 /\
  (same w w1 \/ w_get w1 KTask req = None \/
   exists t1, w_get w1 KTask req = Some t1 /\ key_of (task_Meta t1) = req /\ resultDecided t = false /\ resultDecided t1 = true /\
     status_wf (task_Status t1) /\ isTerminal (task_Phase t1) = true).
Proof.
  cbn zeta. intros Hk Ht Hwf Hterm Hp. pose proof Hp as (trp & resp & _ & Hap). assert (Hk1 : keyed w1) by by eapply answered_keyed.
  apply reconcile_served in Hp; [|done]. rewrite Ht in Hp. destruct Hp as (_ & tr & res & Ha & Hx). rewrite Hterm in Hx.
  destruct (reconcile_terminal_served _ _ _ _ _ _ Ht Hwf Hterm Hx Ha) as [Hf Hc]. split; [by apply frame_task_own|].
  destruct Hc as [?|[?|(t1 & Ht1 & ?)]]; [by left|by right; left|]. right. right. exists t1. split; [done|]. split; [|done].
  exact (Hk1 _ _ _ Ht1).
Qed.

Lemma decided_settles r t w :
  let req := key_of (task_Meta t) in
  w_get w KTask req = Some t -> status_wf (task_Status t) -> isTerminal (task_Phase t) = true -> resultDecided t = true ->
  settles r req 1 w.
Proof.
  cbn zeta. intros Ht Hwf Hterm Hd w' w1 Hk Hag Hp. rewrite <- (proj2 Hag) in Ht by (left; apply own_task).
  destruct (terminal_pass r t w' w1 Hk Ht Hwf Hterm Hp) as [Hf [Hs|[Hn|(t1 & _ & _ & Hd' & _)]]].
  - split; [done|by left].
  - split; [done|right]. by apply gone_settles.
  - congruence.
Qed.

Lemma ended_settles r w req : keyed w -> ended w req -> settles r req 2 w.
Proof.
  intros Hk0 (t & Ht & Hterm & Hwf) w' w1 Hk Hag Hp. pose proof (Hk0 _ _ _ Ht) as Hreq. cbn in Hreq. subst req.
  rewrite <- (proj2 Hag) in Ht by (left; apply own_task).
  destruct (terminal_pass r t w' w1 Hk Ht Hwf Hterm Hp) as [Hf [Hs|[Hn|(t1 & Ht1 & Hk1 & _ & Hd & Hwf1 & Hterm1)]]].
  - split; [done|by left].
  - split; [done|right]. by apply settles_mono, gone_settles.
  - split; [done|right]. rewrite <- Hk1. apply decided_settles; [by rewrite Hk1|done..].
Qed.

Lemma resting_settles r t w :
  let req := key_of (task_Meta t) in resting w t (reads req) (reconcile_live r) -> settles r req 0 w.
Proof.
  cbn zeta. intros (st & Ht & Hterm & Hwf & Hr) w' w1 Hk Hag Hp%reconcile_served; [|done].
  rewrite (proj2 Hag), Ht in Hp by (left; apply own_task). destruct Hp as (_ & tr & res & Ha & Hx).
  change (isTerminal (task_Phase (with_st t st))) with (isTerminal (st_Phase st)) in Hx. rewrite Hterm in Hx.
  assert (Hs : same w' w1) by by eapply Hr. split; [by apply frame_same|by left].
Qed.

(** Three passes, whatever the state of the Task. *)
Lemma any_settles r req w : statuses_wf w -> settles r req 3 w.
Proof.
  intros Hwf w' w1 Hk Hag Hp. pose proof Hp as (trp & resp & _ & Hap). assert (Hk1 : keyed w1) by by eapply answered_keyed.
  destruct (w_get w' KTask req) as [t|] eqn:Ht.
  2: { apply gone_settles with (r := r) in Ht. by eapply settles_mono, settles_mono, settles_mono in Ht; apply Ht. }
  assert (Hwft : status_wf (task_Status t)) by (apply (Hwf req); by rewrite <- Ht, (proj2 Hag) by (left; apply own_task)).
  pose proof (Hk _ _ _ Ht) as Hreq. cbn in Hreq. destruct (isTerminal (task_Phase t)) eqn:Hterm.
  - assert (He : ended w' req) by by exists t. apply (ended_settles r) in He; [|done]. apply settles_mono in He. by apply He.
  - pose proof Hp as Hp'. apply reconcile_served in Hp'; [|done]. rewrite Ht in Hp'. destruct Hp' as (_ & tr & res & Ha & Hx). rewrite Hterm in Hx.
    rewrite <- Hreq in Ht. destruct (reconcile_live_served r t w' tr res w1 Hk Ht Hwft Hterm Hx Ha) as [Hf Hc]. rewrite Hreq in Hf, Hc.
    split; [done|right]. destruct Hc as [He|Hr]; [by apply ended_settles|]. apply settles_mono, settles_mono. rewrite <- Hreq. apply resting_settles.
    by rewrite Hreq.
Qed.

(** ** Schedules *)

(** Passes over the requests of a schedule, and the states after each. *)
Inductive passes (r : TaskReconciler) : World -> list NamespacedName -> list World -> Prop :=
| passes_nil w : passes r w [] []
| passes_cons w req w1 sched ws : pass r req w w1 -> passes r w1 sched ws -> passes r w (req :: sched) (w1 :: ws).

(** The passes that may change something; all others keep the state. *)
Definition only_changes (changed : list nat) (w : World) (ws : list World) : Prop :=
  forall i a b, (w :: ws) !! i = Some a -> ws !! i = Some b -> i ∉ changed -> same a b.

Definition spend (budget : NamespacedName -> nat) (req : NamespacedName) (n : nat) (key : NamespacedName) : nat :=
  if decide (key = req) then n else budget key.

Lemma spend_same budget req n : spend budget req n req = n.
Proof. unfold spend. by rewrite decide_True. Qed.

Lemma spend_other budget req n key : key <> req -> spend budget req n key = budget key.
Proof. intros Hne. unfold spend. by rewrite decide_False. Qed.

Lemma spend_absent budget req n (l : list NamespacedName) : req ∉ l -> spend budget req n <$> l = budget <$> l.
Proof. intros Hn. apply list_fmap_ext. intros i x Hx%list_elem_of_lookup_2. apply spend_other. by intros ->. Qed.

Lemma spend_sum budget req n (l : list NamespacedName) :
  NoDup l -> req ∈ l -> budget req = S n -> sum_list (budget <$> l) = S (sum_list (spend budget req n <$> l)).
Proof.
  intros Hnd Hin Hb. induction Hnd as [|x l Hx Hnd IH]; [by apply elem_of_nil in Hin|]. cbn.
  destruct (decide (x = req)) as [->|Hne].
  - rewrite spend_same, spend_absent by done. lia.
  - apply elem_of_cons in Hin as [?|Hin]; [done|]. rewrite spend_other by done. specialize (IH Hin). lia.
Qed.

Lemma only_changes_cons changed w w1 ws :
  only_changes changed w1 ws -> only_changes (0%nat :: (S <$> changed)) w (w1 :: ws).
Proof.
  intros Ho [|i] a b Ha Hb Hn; [destruct Hn; left|]. eapply Ho; [exact Ha|exact Hb|]. intros Hin. apply Hn. right.
  by apply list_elem_of_fmap_2.
Qed.

Lemma only_changes_same changed w w1 ws :
  same w w1 -> only_changes changed w1 ws -> only_changes (S <$> changed) w (w1 :: ws).
Proof.
  intros Hs Ho [|i] a b Ha Hb Hn; [by simplify_eq/=|]. eapply Ho; [exact Ha|exact Hb|]. intros Hin. apply Hn.
  by apply list_elem_of_fmap_2.
Qed.

Lemma same_agree P w w1 : same w w1 -> agree_on P w w1.
Proof. intros [Hg He]. split; [done|]. intros k key _. apply Hg. Qed.

Lemma frame_agree req req' w w1 : req <> req' -> same_env w w1 -> frame (own req) w w1 -> agree_on (reads req') w w1.
Proof. intros Hne He Hf. split; [done|]. intros k key Hr. apply Hf. intros Ho. by eapply own_reads_disjoint. Qed.

Lemma pass_env r req w w1 : pass r req w w1 -> same_env w w1.
Proof. intros (tr & res & _ & Ha). by eapply answered_env. Qed.

Lemma pass_keyed r req w w1 : pass r req w w1 -> keyed w -> keyed w1.
Proof. intros (tr & res & _ & Ha). by eapply answered_keyed. Qed.

(** The passes spend the budgets of their requests. *)
Lemma passes_spend r l w sched ws :
  passes r w sched ws -> forall budget, NoDup l -> (forall req, req ∈ sched -> req ∈ l) -> keyed w ->
  (forall req, req ∈ l -> settles r req (budget req) w) ->
  exists changed, (length changed <= sum_list (budget <$> l))%nat /\ only_changes changed w ws.
Proof.
  induction 1 as [w|w req w1 sched ws Hp Hps IH]; intros budget Hnd Hl Hk Hset.
  { exists []. split; [cbn; lia|]. by intros i a b _ Hb. }
  assert (Hin : req ∈ l) by (apply Hl; left). assert (Hl' : forall req', req' ∈ sched -> req' ∈ l) by (intros req' ?; apply Hl; by right).
  assert (Hk1 : keyed w1) by by eapply pass_keyed. pose proof (Hset req Hin) as Hreq.
  assert (Hone : frame (own req) w w1 /\ (same w w1 \/ exists n, budget req = S n /\ settles r req n w1)).
  { destruct (budget req) as [|n]; cbn in Hreq; (destruct (Hreq w w1 Hk (same_agree _ _ _ (reflexivity w)) Hp) as [Hf [?|?]]);
      (split; [done|]); eauto. done. }
  destruct Hone as [Hf [Hs|(n & Hb & Hn)]].
  - destruct (IH budget Hnd Hl' Hk1) as (changed & Hlen & Ho).
    { intros req' Hin'. eapply settles_agree; [by apply same_agree|auto]. }
    exists (S <$> changed). split; [by rewrite length_fmap|by apply only_changes_same].
  - destruct (IH (spend budget req n) Hnd Hl' Hk1) as (changed & Hlen & Ho).
    { intros req' Hin'. destruct (decide (req' = req)) as [->|Hne]; [by rewrite spend_same|]. rewrite spend_other by done.
      eapply settles_agree; [|by apply Hset]. eapply frame_agree; [by symmetry|by eapply pass_env|done]. }
    exists (0%nat :: (S <$> changed)). split; [|by apply only_changes_cons].
    rewrite (spend_sum budget req n l Hnd Hin Hb). cbn. rewrite length_fmap. lia.
Qed.

Lemma sum_const {A} (l : list A) n : sum_list ((fun _ => n) <$> l) = (n * length l)%nat.
Proof. induction l as [|x l IH]; cbn; [lia|]. rewrite IH. lia. Qed.

(** ** Theorems *)

(** C14. A quiet cluster comes to rest.  Run passes over any Tasks, in any order and
    as often as you like, with any clock, while nobody else writes: however long the
    schedule is, at most three passes for each Task change anything, and every other
    pass leaves every object as it found it.  The controller has no hot loop, and
    two of its Tasks never fight over an object. *)
Theorem cluster_comes_to_rest r w sched ws :
  keyed w -> statuses_wf w -> passes r w sched ws ->
  exists changed, (length changed <= 3 * size (list_to_set sched : gset NamespacedName))%nat /\
    forall i a b, (w :: ws) !! i = Some a -> ws !! i = Some b -> i ∉ changed -> same a b.
Proof.
  intros Hk Hwf Hps. set (l := elements (list_to_set sched : gset NamespacedName)).
  destruct (passes_spend r l w sched ws Hps (fun _ => 3%nat)) as (changed & Hlen & Ho).
  - apply NoDup_elements.
  - intros req Hin. apply elem_of_elements. by apply elem_of_list_to_set.
  - done.
  - intros req _. by apply any_settles.
  - exists changed. split; [|exact Ho]. rewrite sum_const in Hlen. exact Hlen.
Qed.

(** C15. A pass touches nothing but the objects of its Task: the Task, its Job,
    ServiceAccount, Role, RoleBinding, NetworkPolicy and two ConfigMaps.  In
    particular it touches no object of another Task, whatever the two are called:
    the names the controller derives for different Tasks never meet. *)
Theorem pass_stays_home r req w w1 :
  keyed w -> statuses_wf w -> pass r req w w1 ->
  (forall k key, w_get w1 k key <> w_get w k key -> (k, key) ∈ owned_slots req) /\
  (forall req' k key, req' <> req -> (k, key) ∈ owned_slots req' -> w_get w1 k key = w_get w k key).
Proof.
  intros Hk Hwf Hp. destruct (any_settles r req w Hwf w w1 Hk (same_agree _ _ _ (reflexivity w)) Hp) as [Hf _]. split.
  - intros k key Hne. destruct (decide ((k, key) ∈ owned_slots req)) as [|Hn]; [done|]. by destruct Hne; apply Hf.
  - intros req' k key Hne Ho. apply Hf. intros Hin. apply (own_reads_disjoint req' req _ Hne Ho). by left.
Qed.

(** The passes that the server which can be run takes. *)
Lemma pass_run keys now r req w :
  covers keys w -> forallb (within keys) (trace_of (respond keys now) (Reconcile r req) w) = true ->
  pass r req w (run (respond keys now) (Reconcile r req) w).2.
Proof. intros Hc Hw. eexists _, _. split; [apply (run_exec (respond keys now))|by apply run_answered]. Qed.

End Quiescence.

(** ** The theorems at samples

    A Task and its class, and nothing else yet. *)

Definition world0 : World :=
  put KTask (mkNN "agents" "demo") (Some Samples.task)
    (put KClusterAgentClass (mkNN "" "claude") (Some Samples.agent)
       (mkWorld (fun _ _ => None) (fun _ _ => []) [] (fun _ => Ok ["192.0.2.7"%string]))).

Lemma keyed_put k key o w : keyed w -> key_of (obj_meta k o) = key -> keyed (put k key (Some o) w).
Proof.
  intros Hk Ho k' key' o'. destruct (put_changes k key (Some o) w) as [Hat Hf _].
  destruct (decide ((k', key') = (k, key))) as [[= -> ->]|Hne]; [rewrite Hat; by intros [= <-]|rewrite Hf by done; apply Hk].
Qed.

Lemma keyed_world0 : keyed world0.
Proof. apply keyed_put; [apply keyed_put; [by intros k key o|done]|done]. Qed.

Lemma task_world0 key t : w_get world0 KTask key = Some t -> key = mkNN "agents" "demo" /\ t = Samples.task.
Proof.
  unfold world0. destruct (put_changes KTask (mkNN "agents" "demo") (Some Samples.task) (put KClusterAgentClass (mkNN "" "claude") (Some Samples.agent)
    (mkWorld (fun _ _ => None) (fun _ _ => []) [] (fun _ => Ok ["192.0.2.7"%string])))) as [Hat Hf _].
  destruct (decide (key = mkNN "agents" "demo")) as [->|Hne]; [rewrite Hat; by intros [= <-]|]. rewrite Hf by congruence. by cbn.
Qed.

Lemma statuses_world0 : statuses_wf world0.
Proof. intros key t [_ ->]%task_world0. apply NoDup_nil_2. Qed.

Lemma covers_world0 : covers [mkNN "agents" "demo"] world0.
Proof. intros key t [-> _]%task_world0. left. Qed.

Section Sample.
#[local] Existing Instances KubeRef.lib KubeRef.laws Samples.errors_text Samples.tables.

Definition demo : NamespacedName := mkNN "agents" "demo".
Definition sample_run (w : World) : World := (run (respond [demo] (1000 * Second)) (Reconcile Samples.reconciler demo) w).2.

Lemma covers_run w :
  covers [demo] w -> forallb (within [demo]) (trace_of (respond [demo] (1000 * Second)) (Reconcile Samples.reconciler demo) w) = true ->
  covers [demo] (sample_run w).
Proof. apply run_covers. Qed.

Definition world1 : World := sample_run world0.
Definition world2 : World := sample_run world1.

Lemma within0 : forallb (within [demo]) (trace_of (respond [demo] (1000 * Second)) (Reconcile Samples.reconciler demo) world0) = true.
Proof. vm_compute. reflexivity. Qed.
Lemma within1 : forallb (within [demo]) (trace_of (respond [demo] (1000 * Second)) (Reconcile Samples.reconciler demo) world1) = true.
Proof. vm_compute. reflexivity. Qed.

Lemma pass01 : pass Samples.reconciler demo world0 world1.
Proof. apply pass_run; [exact covers_world0|exact within0]. Qed.
Lemma pass12 : pass Samples.reconciler demo world1 world2.
Proof. apply pass_run; [apply covers_run; [exact covers_world0|exact within0]|exact within1]. Qed.

Lemma cluster_comes_to_rest_witness : exists changed, (length changed <= 3)%nat /\ (1%nat ∉ changed -> same world1 world2).
Proof.
  destruct (cluster_comes_to_rest Samples.reconciler world0 [demo; demo] [world1; world2]) as (changed & Hlen & Hs).
  - exact keyed_world0.
  - exact statuses_world0.
  - apply passes_cons; [exact pass01|]. apply passes_cons; [exact pass12|]. apply passes_nil.
  - exists changed. split; [vm_compute in Hlen; exact Hlen|]. intros Hn. by apply (Hs 1%nat).
Defined.

Lemma pass_stays_home_witness : w_get world1 KTask (mkNN "agents" "other") = w_get world0 KTask (mkNN "agents" "other").
Proof.
  apply (proj2 (pass_stays_home Samples.reconciler demo world0 world1 keyed_world0 statuses_world0 pass01) (mkNN "agents" "other")).
  - discriminate.
  - left.
Defined.
End Sample.
End Quiescence.
