(* ===== verification/PassCalls.v ===== *)
(** * The calls of a pass

    What each single call of a reconcile pass can be, whatever the server answered
    before: which slots it reads and writes, that a new object has the Task as its
    controller, and that an update follows directly on the read of what it updates.
    From this, passes whose calls are interleaved with the writes of others. *)

From S2P Require Import Prelude GoString GoTime GoNet GoJson GoUrl Kube Api Effects KubeLib Metrics.
From S2P Require Import PolicyObjects PolicyConfig PolicyNetwork Reconciler Samples PolicyResult.
From S2P Require Import Build Status TaskResult Sync Reconcile Lifecycle ApiServer Settle Quiescence.

Module PassCalls.
Import Labels Secrets Rbac Prompt Config Network Result Build Status TaskResult Sync Reconcile Lifecycle ApiServer Settle Quiescence.

Section PassCalls.
Context `{KubeLaws, JsonErrors, UnicodeTables}.

(** ** Calls on Tasks *)

(** The calls of a pass on Tasks: no create or update, and status writes with the
    metadata of the Task it read. *)
Definition task_safe (task : Task) (c : Call) : Prop :=
  match c with
  | CCreate k _ | CUpdate k _ => k <> KTask
  | CStatusUpdate t => task_Meta t = task_Meta task
  | _ => True
  end.

Lemma report_safe task c : is_report c = true -> task_safe task c.
Proof. by destruct c. Qed.

Lemma queries_safe task tr : Forall (fun c => is_query c = true) (calls tr) -> Forall (task_safe task) (calls tr).
Proof. intros Hq. eapply Forall_impl; [exact Hq|]. by intros []. Qed.

Lemma event_safe task r t ty reason msg : Forall (task_safe task) (calls (event_trace r t ty reason msg)).
Proof. apply Forall_forall. intros c Hc%event_trace_calls. by apply report_safe. Qed.

Lemma failTask_safe r task reason cause : only (task_safe task) (failTask r task reason cause).
Proof.
  intros tr res Hx. destruct (failTask_cases _ _ _ _ _ _ Hx) as (now & [(e & -> & _)|(t' & _ & ->)]); [by repeat constructor|].
  apply List.Forall_cons; [done|]. apply List.Forall_cons; [done|]. case_bool_decide; [constructor|].
  apply List.Forall_cons; [done|]. apply event_safe.
Qed.

Lemma markWaiting_safe r task : only (task_safe task) (markWaitingForAgentClass r task).
Proof.
  intros tr res Hx. destruct (markWaiting_cases _ _ _ _ Hx) as (now & [(_ & -> & _)|(_ & [(e & -> & _)|(t' & _ & ->)])]);
    [by repeat constructor..|]. apply List.Forall_cons; [done|]. apply List.Forall_cons; [done|]. apply event_safe.
Qed.

Lemma syncStatus_safe r task job egress : only (task_safe task) (syncStatus r task job egress).
Proof.
  intros tr res Hx. destruct (derivePhase job) as [[phase reason] msg] eqn:Hd.
  destruct (syncStatus_cases _ _ _ _ _ _ _ _ _ Hd Hx) as (now & to & Hc).
  assert (Hq : forall o, exec (observeResult r (synced now task job) (om_UID (job_Meta job)) egress) to o ->
    Forall (task_safe task) (calls (ev CNow now :: to))).
  { intros o Ho. apply queries_safe, List.Forall_cons; [done|]. by eapply observeResult_queries. }
  destruct Hc as [(e & Ho & -> & _)|(t & d & Ho & [(_ & -> & _)|(_ & [(e & -> & _)|(t' & -> & _)])])]; [by eapply Hq..| |];
    (rewrite app_comm_cons, calls_app; apply Forall_app; split; [by eapply Hq|]; apply List.Forall_cons;
     [exact (proj1 (synced_kept _ _ _ _ _ _ _ _ Ho))|]); [constructor|].
  apply Forall_forall. intros c Hin%transition_reports. by apply report_safe.
Qed.

Lemma step_call_safe task c : step_call c = true -> task_safe task c.
Proof. by destruct c as [|[]|[]|[]| | | | | | | | | |]. Qed.

Lemma live_safe r task : only (task_safe task) (reconcile_live r task).
Proof.
  apply (reconcile_live_every (fun tr => Forall (task_safe task) (calls tr))).
  - intros s. by repeat constructor.
  - intros key x. by repeat constructor.
  - intros. apply failTask_safe.
  - apply markWaiting_safe.
  - intros agent egress step Hin. eapply only_impl; [|by eapply steps_only]. apply step_call_safe.
  - intros. eapply only_impl; [|apply ensureJob_only]. by intros [|[]|[]|[]| | | | | | | | | |].
  - intros. apply syncStatus_safe.
Qed.

Lemma terminal_call_safe task c : terminal_call task c -> task_safe task c.
Proof. destruct c as [| | | |t| | | | | | | | |]; cbn; try done. by intros (_ & ? & _). Qed.


(** A Task after a safe call: as before, but for a status that the call wrote. *)
Lemma safe_call_task w c x w1 task key t1 :
  served w c x w1 -> task_safe task c -> w_get w1 KTask key = Some t1 ->
  exists t, w_get w KTask key = Some t /\
    (t1 = t \/ exists u, c = CStatusUpdate u /\ key = key_of (task_Meta task) /\ t1 = with_st t (task_Status u)).
Proof.
  intros Hs Hc Ht1. set (G := exists t, _).
  assert (Hkept : w_get w KTask key = Some t1 -> G) by (intros Ht; exists t1; split; [done|by left]).
  assert (Hfr : ~ at_slot c (KTask, key) -> G) by (intros Hn; apply Hkept; by rewrite <- (served_frame _ _ _ _ _ _ Hs Hn)).
  assert (Hsame : same w w1 -> G) by (intros Hsm; apply Hkept; by rewrite <- (same_get _ _ Hsm)).
  destruct c as [|k o|k o|k key' uid|u| | | | | | | | |]; try (apply Hfr; exact id); cbn in Hc, Hs, Hfr.
  - apply Hfr. intros [Hkk _]. by apply Hc.
  - apply Hfr. intros [= Hkk _]. by apply Hc.
  - destruct (w_get w k key'); [|apply Hsame, Hs].
    destruct Hs as [(_ & _ & [Hat Hf _])|(_ & _ & Hsm)]; [|by apply Hsame]. apply Hfr. intros [= <- <-]. by rewrite Hat in Ht1.
  - rewrite Hc in Hs. destruct (w_get w KTask (key_of (task_Meta task))) as [old|] eqn:Ho; [|apply Hsame, Hs].
    destruct Hs as [_ [Hat Hf _]]. destruct (decide (key = key_of (task_Meta task))) as [->|Hne].
    + rewrite Hat in Ht1. injection Ht1 as <-. exists old. split; [done|]. right. by exists u.
    + apply Hfr. rewrite Hc. by intros [= ->].
Qed.

(** ** What belongs to a Task *)

(** What belongs to a Task, besides the Task. *)
Definition belongings (key : NamespacedName) : list Slot := (KJob, key) :: step_slots key.

Lemma belongings_own key s : s ∈ belongings key -> own key s.
Proof. intros Hs. by right. Qed.

Lemma belongings_not_task key key' : (KTask, key') ∉ belongings key.
Proof. unfold belongings, step_slots. rewrite !elem_of_cons, elem_of_nil. naive_solver. Qed.

(** ** The calls of a live pass *)

(** Calls that neither touch objects, other than the status of a Task, nor list Tasks. *)
Definition plain_call (c : Call) : bool :=
  match c with
  | CListPods _ _ | CNow | CLookupHost _ | CStatusUpdate _ | CMetric _ | CEvent _ => true
  | _ => false
  end.

Ltac walk :=
  repeat match goal with
  | |- only _ (Ret _) => apply only_ret
  | |- only _ (Vis _ _) => apply only_call; [done|intros ?]
  | |- only _ (call _) => apply only_call; [done|intros ?]
  | |- only _ (bind _ _) => apply only_bind; [|intros ?]
  | |- only _ (match ?x with _ => _ end) => destruct x
  | |- only _ ?p => progress unfold recordEvent, set_condition, setResultCondition, applyParsedResult, terminalSince, observeResult,
      report_transition, ObservePhaseTransition, ObserveTaskDuration, ObserveReconcileError, markInvalid, failTask
  end.

Lemma failTask_plain r task reason cause : only (fun c => plain_call c = true) (failTask r task reason cause).
Proof. walk. Qed.

Lemma markWaiting_plain r task : only (fun c => plain_call c = true) (markWaitingForAgentClass r task).
Proof. unfold markWaitingForAgentClass. walk. Qed.

Lemma syncStatus_plain r task job egress : only (fun c => plain_call c = true) (syncStatus r task job egress).
Proof. unfold syncStatus. walk. Qed.

(** A call of a live pass over [task], after the calls of [pre]: it reads and writes
    what belongs to the Task.  An update follows directly on the read of the object, and
    keeps its name and its owner references. *)
Definition tidy_call (task : Task) (pre : Trace) (c : Call) : Prop :=
  let slots := belongings (key_of (task_Meta task)) in
  match c with
  | CGet k key | CDelete k key _ => (k, key) ∈ slots
  | CCreate k o =>
    (k, key_of (obj_meta k o)) ∈ slots /\ om_GenerateName (obj_meta k o) = ""%string /\ om_Namespace (obj_meta k o) = task_Namespace task /\
    exists m, SetControllerReference (task_Meta task) m = Ok (obj_meta k o)
  | CUpdate k o => exists pre' key live,
    pre = pre' ++ [ev (CGet k key) (Ok live)] /\ (k, key) ∈ slots /\ key_of (obj_meta k o) = key_of (obj_meta k live) /\
    om_OwnerReferences (obj_meta k o) = om_OwnerReferences (obj_meta k live)
  | CListTasks _ _ _ | CListTasksByAgent _ => False
  | _ => True
  end.

Definition tidy (task : Task) (tr : Trace) : Prop :=
  forall pre e post, tr = pre ++ e :: post -> tidy_call task pre (ev_call e).

Lemma tidy_call_app task pre0 pre c : tidy_call task pre c -> tidy_call task (pre0 ++ pre) c.
Proof.
  destruct c; try done. cbn. intros (pre' & key & live & -> & Hrest). exists (pre0 ++ pre'), key, live. by rewrite app_assoc.
Qed.

#[export] Instance tidy_additive task : Additive (tidy task).
Proof.
  split; [intros [|e0 pre] e post Heq; discriminate Heq|]. intros t1 t2 Ht1 Ht2 pre e post Heq.
  apply app_eq_inv in Heq as [(t & -> & Heq)|(t & -> & ->)].
  - destruct t as [|e' t]; cbn in Heq.
    + rewrite app_nil_r in *. rewrite <- (app_nil_r pre). apply tidy_call_app, (Ht2 [] e post). done.
    + injection Heq as -> ->. by apply (Ht1 pre e' t).
  - by apply tidy_call_app, (Ht2 t e post).
Qed.

(** Programs without updates. *)
Definition tidy_once (task : Task) (c : Call) : Prop := match c with CUpdate _ _ => False | _ => tidy_call task [] c end.

Lemma only_tidy {A} task (p : Prog A) : only (tidy_once task) p -> every (tidy task) p.
Proof.
  intros Hp tr a Hx pre e post ->. specialize (Hp _ _ Hx). rewrite calls_app in Hp. apply Forall_app in Hp as [_ [Hc _]%Forall_cons].
  by destruct (ev_call e).
Qed.

Lemma plain_tidy {A} task (p : Prog A) : only (fun c => plain_call c = true) p -> every (tidy task) p.
Proof. intros Hp. apply only_tidy. eapply only_impl; [|exact Hp]. by intros []. Qed.

Lemma tidy_pair task e1 e2 : tidy_call task [] (ev_call e1) -> tidy_call task [e1] (ev_call e2) -> tidy task [e1; e2].
Proof.
  intros Hc1 Hc2 pre e post Heq. destruct pre as [|e' [|e'' pre]]; cbn in Heq; simplify_eq; [done|done|].
  by destruct pre.
Qed.

Lemma tidy_one task e : tidy_call task [] (ev_call e) -> tidy task [e].
Proof. intros Hc pre e' post Heq. destruct pre as [|? []]; cbn in Heq; by simplify_eq. Qed.

Lemma ensureOwned_tidy k mutate `{!Mutator k mutate} task d :
  (k, key_of (obj_meta k d)) ∈ belongings (key_of (task_Meta task)) -> om_GenerateName (obj_meta k d) = ""%string ->
  om_Namespace (obj_meta k d) = task_Namespace task -> every (tidy task) (ensureOwned k task d mutate).
Proof.
  intros Hin Hg Hns tr x Hx. destruct (ensureOwned_cases _ _ _ _ _ _ Hx) as [(e & _ & -> & _)|(m & Hm & Hc)]; [apply additive_nil|]. cbn zeta in Hc.
  assert (Hmeta : obj_meta k (set_meta k m d) = m) by apply obj_meta_set_meta.
  pose proof (set_controller_key _ _ _ Hm) as [Hkey _]. pose proof Hm as Hm'. apply set_controller_meta in Hm' as [refs Hrefs].
  destruct Hc as [(e & _ & -> & _)|[(e & y & _ & -> & _)|[(o & _ & -> & _)|(o & y & _ & -> & _)]]].
  - by apply tidy_one.
  - apply tidy_pair; [done|]. cbn. rewrite Hmeta, Hkey. split_and!; [done|by rewrite Hrefs|by rewrite Hrefs|by exists (obj_meta k d)].
  - by apply tidy_one.
  - apply tidy_pair; [done|]. cbn. exists [], (key_of (obj_meta k d)), o. split; [done|]. split; [done|].
    unfold updated. by rewrite !obj_meta_set_meta, mutate_meta.
Qed.

Lemma deleteIfExists_tidy k key task : (k, key) ∈ belongings (key_of (task_Meta task)) -> every (tidy task) (deleteIfExists k key).
Proof. intros Hin. apply only_tidy. intros tr res (x & -> & _)%deleteIfExists_cases. by apply List.Forall_cons. Qed.

Lemma ensureJob_tidy r task agent secrets : every (tidy task) (ensureJob r task agent secrets).
Proof.
  intros tr x Hx. destruct (ensureJob_cases _ _ _ _ _ _ Hx) as [(e & _ & -> & _)|(d & Hb & [(e & _ & -> & _)|(m & Hm & Hc)])]; [apply additive_nil..|].
  cbn zeta in Hc. pose proof (set_controller_key _ _ _ Hm) as [Hkey _]. pose proof Hm as Hm'. apply set_controller_meta in Hm' as [refs Hrefs].
  assert (Hin : (KJob, mkNN (task_Namespace task) (task_Name task)) ∈ belongings (key_of (task_Meta task))) by left.
  destruct Hc as [(e & _ & -> & _)|[(e & y & _ & -> & _)|(o & -> & _)]]; [by apply tidy_one| |by apply tidy_one].
  apply tidy_pair; [done|]. pose proof (buildJob_key _ _ _ _ _ Hb) as Hk. cbn. rewrite Hkey, Hk. split_and!; [done| | |by exists (job_Meta d)].
  - rewrite Hrefs. cbn. by eapply buildJob_generate.
  - rewrite Hrefs. cbn. by injection Hk.
Qed.

Ltac slot := unfold belongings, step_slots; rewrite !elem_of_cons; tauto.

Lemma steps_tidy r task agent egress step : step ∈ steps r task agent egress -> every (tidy task) (step_run step).
Proof.
  intros Hin. unfold steps in Hin. rewrite !elem_of_cons in Hin.
  destruct Hin as [->|[->|[->|[->|[->|[->|Hin]]]]]]; cbn [step_run]; [| | | | | |by apply elem_of_nil in Hin].
  - apply (ensureOwned_tidy KServiceAccount mutate_ServiceAccount); [slot|done..].
  - unfold ensureRole, BuildRole. destruct (task_rbac task); [apply deleteIfExists_tidy; slot|].
    apply (ensureOwned_tidy KRole mutate_Role); [slot|done..].
  - unfold ensureRoleBinding, BuildRoleBinding. destruct (task_rbac task); [apply deleteIfExists_tidy; slot|].
    apply (ensureOwned_tidy KRoleBinding mutate_RoleBinding); [slot|done..].
  - intros tr res (t1 & t2 & d & -> & Hb & Hx)%exec_bind. apply additive_app.
    { eapply plain_tidy; [|exact Hb]. eapply only_impl; [|apply BuildNetworkPolicy_only]. by intros c [h ->]. }
    destruct d as [np|e]; [|apply exec_ret in Hx as [-> _]; apply additive_nil].
    destruct (BuildNetworkPolicy_meta _ _ _ _ _ _ _ Hb) as [Hkey Hg].
    eapply (ensureOwned_tidy KNetworkPolicy mutate_NetworkPolicy); [cbn; rewrite Hkey; slot|done| |exact Hx]. by injection Hkey.
  - unfold ensurePromptConfigMap. destruct (BuildInlinePromptConfigMap _ _ _) as [d|] eqn:Hd; [|apply deleteIfExists_tidy; slot].
    unfold BuildInlinePromptConfigMap in Hd. case_match; simplify_eq. apply (ensureOwned_tidy KConfigMap mutate_ConfigMap); [slot|done..].
  - unfold ensureAgentConfigMap. destruct (BuildAgentConfigMap _ _ _ _) as [d|] eqn:Hd; [|apply deleteIfExists_tidy; slot].
    unfold BuildAgentConfigMap in Hd. repeat case_match; simplify_eq. apply (ensureOwned_tidy KConfigMap mutate_ConfigMap); [slot|done..].
Qed.

(** The class is read first, if at all. *)
Lemma live_tidy r task tr res :
  exec (reconcile_live r task) tr res ->
  tidy task tr \/ exists x tr', tr = ev (CGet KClusterAgentClass (agent_key task)) x :: tr' /\ tidy task tr'.
Proof.
  assert (Hobs : forall s, every (tidy task) (ObserveReconcileError s)) by (intros s; apply plain_tidy; walk).
  assert (Hfail : forall reason cause, every (tidy task) (failTask r task reason cause)) by (intros; apply plain_tidy, failTask_plain).
  unfold reconcile_live. destruct (validateTask task) as [[]|e]; intros Hx.
  2: { left. revert Hx. apply every_bind; [apply _|done|]. intros _. apply every_bind; [apply _|done|]. intros ?. apply every_ret, _. }
  right. apply exec_call_inv in Hx as (x & tr' & -> & Hx). exists x, tr'. split; [done|]. revert Hx. destruct x as [agent|e].
  - apply every_bind; [apply _| |].
    { apply run_steps_lift; [apply _|intros s; by eapply tidy_one|done|]. intros. split; [by eapply steps_reasons|by eapply steps_tidy]. }
    intros [f|]; [apply every_ret, _|]. apply reconcile_job_lift; [apply _|intros s; by eapply tidy_one|done| |].
    + intros. apply ensureJob_tidy.
    + intros. apply plain_tidy, syncStatus_plain.
  - destruct (IsNotFound e); (apply every_bind; [apply _|done|]); intros _; [|apply every_ret, _].
    apply every_bind; [apply _|apply plain_tidy, markWaiting_plain|]. intros ?. apply every_ret, _.
Qed.

(** ** The next call *)

(** Answers carry the names that were asked for. *)
Definition truthful_answer (e : Ev) : Prop :=
  match e with
  | existT (CGet k key) (Ok o) => key_of (obj_meta k o) = key
  | existT (CStatusUpdate u) (Ok t) => key_of (task_Meta t) = key_of (task_Meta u)
  | _ => True
  end.
Definition truthful (tr : Trace) : Prop := Forall truthful_answer tr.

Lemma no_delete_in tr t1 t2 c k key uid x post :
  tr ++ ev (CDelete k key uid) x :: post = t1 ++ t2 -> c = CDelete k key uid -> c ∉ calls t1 ->
  exists pre, tr = t1 ++ pre /\ t2 = pre ++ ev (CDelete k key uid) x :: post.
Proof.
  intros Heq -> Hn. apply app_eq_inv in Heq as [(t & -> & ->)|(t & -> & Heq)]; [by exists t|].
  destruct t as [|e t]; cbn in Heq; [exists []; by rewrite !app_nil_r|]. injection Heq as <- _.
  destruct Hn. rewrite calls_app. apply elem_of_app. right. left.
Qed.

(** A terminal pass deletes nothing but its Task. *)
Lemma terminal_delete r task pre k key uid x post res :
  exec (reconcile_terminal r task) (pre ++ ev (CDelete k key uid) x :: post) res -> truthful pre -> (k, key) = (KTask, key_of (task_Meta task)).
Proof.
  intros (t1 & t2 & o & Heq & Hw & Hrest)%terminal_cases Htr.
  assert (Hn : CDelete k key uid ∉ calls t1).
  { intros Hc. destruct Hw as [tr' res' Hq _|tr' t w res' Hq _ _ _ _].
    - rewrite Forall_forall in Hq. specialize (Hq _ Hc). done.
    - apply elem_of_calls_app in Hc as [Hc|Hc]; [rewrite Forall_forall in Hq; specialize (Hq _ Hc); done|]. by apply list_elem_of_singleton in Hc. }
  destruct (no_delete_in _ _ _ _ _ _ _ _ _ Heq eq_refl Hn) as (t3 & -> & ->).
  destruct o as [[t d]|e].
  2: { destruct Hrest as [Hr _]. destruct t3 as [|? []]; cbn in Hr; simplify_eq. }
  assert (Ht : key_of (task_Meta t) = key_of (task_Meta task)).
  { inversion Hw as [tr' res' _ Hk|tr' t0 w res' _ Hk _ Hok _]; subst.
    - destruct (Hk _ _ eq_refl) as [(_ & Hm & _) _]. by rewrite Hm.
    - destruct (Hok _ _ eq_refl) as [-> _]. destruct Hk as (_ & Hm & _). unfold truthful in Htr. rewrite !Forall_app in Htr.
      destruct Htr as [[_ [Ha _]%Forall_cons] _]. cbn in Ha. by rewrite Ha, Hm. }
  destruct Hrest as (c & Hc & _). destruct (collectTerminal_cases _ _ _ _ Hc) as [(_ & Heq' & _)|(dl & now & _ & [(_ & Heq' & _)|(_ & y & Heq' & _)])];
    destruct t3 as [|e1 [|e2 t3]]; cbn in Heq'; simplify_eq.
  - unfold key_of. congruence.
  - by destruct t3.
Qed.

(** What a pass may do next once it has read its Task. *)
Definition next_ok (task : Task) (tr : Trace) (c : Call) : Prop :=
  if isTerminal (task_Phase task) then
    terminal_call task c /\ forall k key uid, c = CDelete k key uid -> (k, key) = (KTask, key_of (task_Meta task))
  else
    ((tr = [] /\ c = CGet KClusterAgentClass (agent_key task)) \/ tidy_call task tr c) /\ task_safe task c.

Lemma pass_full r req tr c k : after (Reconcile r req) tr (Vis c k) ->
  exists x tr2 res, exec (Reconcile r req) (tr ++ ev c x :: tr2) res.
Proof.
  intros Ha. destruct (exec_exists (k (refusal c)) refusal) as (tr2 & res & Hx). exists (refusal c), tr2, res.
  eapply after_exec; [exact Ha|by exists (refusal c), tr2].
Qed.

Lemma pass_next r req tr c k : truthful tr -> after (Reconcile r req) tr (Vis c k) ->
  (tr = [] /\ c = CGet KTask req) \/
  exists task tr', tr = ev (CGet KTask req) (Ok task) :: tr' /\ key_of (task_Meta task) = req /\ next_ok task tr' c.
Proof.
  intros Htr (x & tr2 & res & Hx)%pass_full. destruct tr as [|e tr].
  { left. split; [done|]. apply exec_call_inv in Hx as (got & t & Heq & _). apply (f_equal (fun l => ev_call <$> head l)) in Heq. cbn in Heq. by simplify_eq. }
  right. pose proof Hx as (got & t & Heq & Hk)%exec_call_inv. cbn in Heq. injection Heq as -> Heq.
  destruct got as [task|err]; [|apply exec_ret in Hk as [-> _]; by destruct tr].
  apply Forall_cons in Htr as [Hkey Htr]. exists task, tr. split; [done|]. split; [exact Hkey|].
  cbn [app] in Hx. apply pass_first_exec in Hx. unfold next_ok.
  assert (Hin : c ∈ calls (tr ++ ev c x :: tr2)) by (apply elem_of_calls_app; right; apply elem_of_calls_cons; by left).
  destruct (isTerminal (task_Phase task)) eqn:Hterm.
  - split; [eapply terminal_pass_calls; [exact Hx|exact Hin]|]. intros k' key uid ->. exact (terminal_delete _ _ _ _ _ _ _ _ _ Hx Htr).
  - split; [|exact (only_exec _ _ _ _ _ (live_safe r task) Hx Hin)]. destruct (live_tidy _ _ _ _ Hx) as [Ht|(y & t' & Heq' & Ht)].
    + right. exact (Ht tr (ev c x) tr2 eq_refl).
    + destruct tr as [|e tr]; cbn in Heq'; [left; split; [done|]|right].
      * apply (f_equal (fun l => ev_call <$> head l)) in Heq'. cbn in Heq'. by simplify_eq.
      * injection Heq' as -> Heq'. apply (tidy_call_app task [_]). exact (Ht tr (ev c x) tr2 (eq_sym Heq')).
Qed.

(** The slots that a pass writes are those of its Task. *)
Lemma next_slot task tr c s : truthful tr -> next_ok task tr c -> at_slot c s -> own (key_of (task_Meta task)) s.
Proof.
  intros Htr Hn Hs. unfold next_ok in Hn. destruct (isTerminal _).
  - destruct Hn as [Hc Hd]. destruct c as [k' key'|k' o|k' o|k' key' uid|t| | | | | | | | |]; try done; cbn in Hs; subst s.
    + rewrite (Hd _ _ _ eq_refl). left.
    + destruct Hc as (_ & -> & _). left.
  - destruct Hn as [[[_ ->]|Ht] Hsafe]; [done|]. destruct c as [k' key'|k' o|k' o|k' key' uid|t| | | | | | | | |]; try done; cbn in Hs, Ht.
    + destruct Ht as (Hin & Hg & _). destruct s as [k key]. destruct Hs as [Hkind Hk]. cbn in Hkind, Hk. subst k. rewrite (Hk Hg). by apply belongings_own.
    + destruct Ht as (pre & key & live & -> & Hin & Hkey & _). apply Forall_app in Htr as [_ [Ha _]%Forall_cons]. cbn in Ha.
      rewrite Hs, Hkey, Ha. by apply belongings_own.
    + rewrite Hs. by apply belongings_own.
    + cbn in Hsafe. rewrite Hs, Hsafe. left.
Qed.

(** ** Servers that agree *)

(** The slots that a call reads or writes. *)
Definition touches (c : Call) (s : Slot) : Prop :=
  match c with CGet k key => s = (k, key) | _ => at_slot c s end.

Lemma changes_agreed (P : Slot -> Prop) k key v w w1 g : agree_on P w g -> changes k key v w w1 -> agree_on P w1 (put k key v g).
Proof.
  intros [He Hg] [Hat Hf Hr]. destruct (put_changes k key v g) as [Hat' Hf' Hr']. split; [by rewrite <- Hr, He|].
  intros k' key' Hp. destruct (decide ((k', key') = (k, key))) as [[= -> ->]|Hne]; [by rewrite Hat, Hat'|].
  rewrite Hf, Hf' by done. by apply Hg.
Qed.

(** A server that agrees on what a call touches answers it alike. *)
Lemma served_agree (P : Slot -> Prop) w g c x w1 :
  agree_on P w g -> (forall s, touches c s -> P s) ->
  match c with CListTasks _ _ _ | CListTasksByAgent _ => False | CCreate k o => om_GenerateName (obj_meta k o) = ""%string | _ => True end ->
  served w c x w1 -> exists g1, served g c x g1 /\ agree_on P w1 g1.
Proof.
  intros Hag Ht Hc Hs. assert (Hid : same w w1 -> agree_on P w1 g).
  { intros [Hg He]. destruct Hag as [He' Hg']. split; [by rewrite <- He|]. intros k key Hp. rewrite Hg. by apply Hg'. }
  pose proof Hag as [He Hg].
  destruct c as [k key|k o|k o|k key uid|t|ns sel|live ns sel|ref| |h| |mt|e|rsp]; cbn in Hs, Ht |- *; try done;
    try (exists g; split; [reflexivity|by apply Hid]).
  - destruct Hs as [Hsm Hx]. exists g. rewrite (Hg k key) by by apply Ht. split; [by split|by apply Hid].
  - assert (Hp : P (k, key_of (obj_meta k o))) by (apply Ht; split; done).
    destruct Hs as [(o' & -> & Hst & Hn & Hch)|(Hr & Hsm & Hex)].
    + rewrite (stored_key _ _ _ Hst Hc) in *. exists (put k (key_of (obj_meta k o)) (Some o') g). split; [|by eapply changes_agreed].
      left. exists o'. rewrite (stored_key _ _ _ Hst Hc), Hg by done. split_and!; [done..|apply put_changes].
    + exists g. split; [|by apply Hid]. right. rewrite Hg by done. split_and!; [done|reflexivity|done].
  - rewrite Hg by by apply Ht. destruct (w_get w k _); [|exists g; split; [split; [apply Hs|reflexivity]|apply Hid, Hs]].
    destruct Hs as (o' & -> & Hu & Hch). eexists. split; [|eapply changes_agreed; [exact Hag|exact Hch]]. exists o'. split_and!; [done..|apply put_changes].
  - rewrite Hg by by apply Ht. destruct (w_get w k _); [|exists g; split; [split; [apply Hs|reflexivity]|apply Hid, Hs]].
    destruct Hs as [(Ha & -> & Hch)|(Ha & Hr & Hsm)]; [eexists; split; [|eapply changes_agreed; [exact Hag|exact Hch]]; left; split_and!; [done..|apply put_changes]|].
    exists g. split; [right; split_and!; [done..|reflexivity]|by apply Hid].
  - rewrite Hg by by apply Ht. destruct (w_get w KTask _); [|exists g; split; [split; [apply Hs|reflexivity]|apply Hid, Hs]].
    destruct Hs as [-> Hch]. eexists. split; [|eapply changes_agreed; [exact Hag|exact Hch]]. split; [done|apply put_changes].
  - destruct Hs as [Hsm ->]. exists g. rewrite (same_pods _ _ He). split; [by split|by apply Hid].
  - destruct Hs as [Hsm ->]. exists g. rewrite (same_triggers _ _ He). split; [by split|by apply Hid].
  - destruct Hs as [Hsm ->]. exists g. rewrite (same_dns _ _ He). split; [by split|by apply Hid].
Qed.
End PassCalls.
End PassCalls.
