(* ===== verification/Completion.v ===== *)
(** * From a Task to its Result

    What a pass achieves, not only what it avoids: on the server of [ApiServer], a
    pass over a valid Task whose class exists and whose allowlist resolves succeeds
    and leaves exactly the declared objects; and a Task runs from its creation
    through its Job to its Result and its deletion. *)

From S2P Require Import Prelude GoString GoTime GoNet GoJson GoUrl Kube Api Effects KubeLib Metrics.
From S2P Require Import PolicyObjects PolicyConfig PolicyNetwork Reconciler Samples PolicyResult.
From S2P Require Import Build Status TaskResult Sync Reconcile Lifecycle ApiServer Settle Quiescence.

Module Completion.
Import Labels Secrets Rbac Prompt Config Network Result Build Status TaskResult Sync Reconcile Lifecycle ApiServer Settle Quiescence.

Section Completion.
Context `{KubeLaws, JsonErrors, UnicodeTables}.

(** ** The declared state *)

(** The slot holds an object that agrees with the wanted one on its labels and on every
    field that the controller copies onto an object that is already there; or nothing,
    when nothing is wanted.  The other metadata belongs to the server and to other
    controllers, and the RoleRef of a binding is immutable: for it see [keeps_ref]. *)
Definition wants (k : Kind) (key : NamespacedName) (d : option (obj k)) (w : World) : Prop :=
  match d with
  | None => w_get w k key = None
  | Some d => exists o, w_get w k key = Some o /\ body_eq k o d /\ label_map (obj_meta k o) = label_map (obj_meta k d)
  end.

(** The RoleRef of the binding of a Task after a pass, when one is wanted: that of the
    binding that was there before, which is immutable, else the declared one. *)
Definition keeps_ref (task : Task) (w w1 : World) : Prop :=
  forall d rb, BuildRoleBinding (task_Name task) (task_Namespace task) (task_rbac task) = Some d ->
    w_get w1 KRoleBinding (key_of (task_Meta task)) = Some rb ->
    rb_RoleRef rb = match w_get w KRoleBinding (key_of (task_Meta task)) with
                    | Some old => rb_RoleRef old
                    | None => rb_RoleRef d
                    end.

(** The CIDRs that the allowlist resolves to. *)
Definition resolution (r : TaskReconciler) (egress : list string) (w : World) (cidrs : list string) : Prop :=
  exists tr w', exec (resolveEgress (resolver r) egress) tr (Ok cidrs) /\ answered w tr w'.

(** The objects that a Task and its class declare, besides the Job. *)
Record declared (r : TaskReconciler) (task : Task) (agent : ClusterAgentClass) (w : World) : Prop := {
  decl_account : wants KServiceAccount (key_of (task_Meta task)) (Some (buildServiceAccount task)) w;
  decl_role : wants KRole (key_of (task_Meta task)) (BuildRole (task_Name task) (task_Namespace task) (task_rbac task)) w;
  decl_binding : wants KRoleBinding (key_of (task_Meta task))
    (BuildRoleBinding (task_Name task) (task_Namespace task) (task_rbac task)) w;
  decl_policy : exists cidrs, resolution r (effective_egress task agent) w cidrs /\
    wants KNetworkPolicy (key_of (task_Meta task)) (Some (desired_policy task agent cidrs)) w;
  decl_prompt : wants KConfigMap (mkNN (task_Namespace task) (InlinePromptConfigMapName (task_Name task)))
    (BuildInlinePromptConfigMap (task_Name task) (task_Namespace task) (spec_Prompt (task_Spec task))) w;
  decl_config : wants KConfigMap (mkNN (task_Namespace task) (AgentConfigMapName (task_Name task)))
    (BuildAgentConfigMap (task_Name task) (task_Namespace task) (agent_Config (spec_Agent (task_Spec task)))
       (cac_Inputs (class_Spec agent))) w }.

(** An entry of the allowlist that resolves: blank, a well-formed CIDR, an address,
    or a name that the resolver answers. *)
Definition resolves (rs : Resolver) (w : World) (entry : string) : Prop :=
  let entry := TrimSpace entry in
  entry = ""%string \/
  if ContainsByte entry "/" then is_Some (ParseCIDR entry)
  else is_Some (ParseIP entry) \/
       match rs with DefaultResolver => exists l, w_dns w entry = Ok l | StaticResolver _ err => err = None end.

(** What a pass needs to go through. *)
Record healthy (r : TaskReconciler) (task : Task) (agent : ClusterAgentClass) (w : World) : Prop := {
  he_keyed : keyed w;
  he_task : holds_task w task;
  he_wf : status_wf (task_Status task);
  he_live : isTerminal (task_Phase task) = false;
  he_valid : validateTask task = Ok tt;
  he_class : w_get w KClusterAgentClass (agent_key task) = Some agent;
  he_egress : Forall (resolves (resolver r) w) (effective_egress task agent);
  he_job : exists d, buildJob task agent (effective_secrets task agent) (r_JobTTLSeconds r) = Ok d }.

(** ** Steps that succeed *)

Lemma wants_at k key d w w' : w_get w' k key = w_get w k key -> wants k key d w -> wants k key d w'.
Proof. unfold wants. by intros ->. Qed.

Lemma resolves_env rs w w' e : same_env w w' -> resolves rs w e -> resolves rs w' e.
Proof. intros [_ _ Hd]. unfold resolves. destruct rs; [|done]. by rewrite Hd. Qed.

Lemma resolve_entries_served rs egress set w tr x w1 :
  Forall (resolves rs w) egress -> exec (resolve_entries rs egress set) tr x -> answered w tr w1 -> exists out, x = Ok out.
Proof.
  revert set w tr. induction egress as [|e es IH]; intros set w tr Hr Hx Ha; cbn [resolve_entries] in Hx.
  { apply exec_ret in Hx as [_ ->]. eauto. }
  apply Forall_cons in Hr as [He Hes]. destruct He as [He|He].
  { rewrite He in Hx. cbn in Hx. exact (IH _ _ _ Hes Hx Ha). }
  destruct (TrimSpace e =? "")%string; [exact (IH _ _ _ Hes Hx Ha)|]. destruct (ContainsByte (TrimSpace e) "/").
  { destruct He as [n Hn]. rewrite Hn in Hx. exact (IH _ _ _ Hes Hx Ha). }
  destruct (ParseIP (TrimSpace e)) as [ip|]; [exact (IH _ _ _ Hes Hx Ha)|]. destruct He as [[? ?]|He]; [done|].
  apply exec_bind in Hx as (t1 & t2 & ans & -> & Hl & Hx). apply answered_trans in Ha as (wa & Ha1 & Ha).
  assert (Hok : (exists l, ans = Ok l) /\ same_env w wa).
  { unfold lookupWithTimeout, LookupHost in Hl. destruct rs as [|hosts err].
    - apply exec_call_inv in Hl as (y & t3 & -> & [-> ->]%exec_ret). destruct Ha1 as (wb & [Hs Hy] & Hb). cbn in Hs, Hy, Hb.
      destruct He as [l Hl]. subst y. rewrite Hl. split; [eauto|]. etrans; [apply Hs|apply Hb].
    - apply exec_ret in Hl as [-> ->]. rewrite He. split; [eauto|]. apply Ha1. }
  destruct Hok as [[l ->] Hew]. eapply IH; [|exact Hx|exact Ha]. eapply Forall_impl; [exact Hes|]. intros e'. by apply resolves_env.
Qed.

(** Answers to lookups come from the names alone. *)
Lemma lookups_env {A} (p : Prog A) w' w tr x w1 :
  only (fun c => exists h, c = CLookupHost h) p -> same_env w' w -> exec p tr x -> answered w' tr w1 -> answered w tr w.
Proof.
  revert w' tr. induction p as [a|c k IH]; intros w' tr Ho He; [by intros [-> _]|].
  intros (y & t & -> & Hx) (w2 & Hs & Ha). apply only_head in Ho as [[h ->] Ho]. cbn in Hs. destruct Hs as [Hs ->].
  exists w. split; [split; [done|]; by rewrite (same_dns _ _ He)|]. eapply IH; [apply Ho| |exact Hx|exact Ha].
  by rewrite <- (same_rest _ _ Hs).
Qed.

(** A step that always succeeds and leaves its slot as [G] wants it, from any world in
    which that slot is as in [w]. *)
Definition Achieves (w : World) (sl : Slot) (G : World -> Prop) (p : Prog (result unit)) : Prop :=
  (forall a b, w_get b sl.1 sl.2 = w_get a sl.1 sl.2 -> G a -> G b) /\
  forall w' tr x w1, keyed w' -> same_env w w' -> w_get w' sl.1 sl.2 = w_get w sl.1 sl.2 ->
    exec p tr x -> answered w' tr w1 -> x = Ok tt /\ G w1.

Lemma ensureOwned_achieves w k mutate `{!Mutator k mutate} task d key :
  plain_kind k = true -> om_GenerateName (obj_meta k d) = ""%string -> om_OwnerReferences (obj_meta k d) = [] ->
  om_Namespace (obj_meta k d) = task_Namespace task -> key_of (obj_meta k d) = key ->
  Achieves w (k, key) (wants k key (Some d)) (ensureOwned k task d mutate).
Proof.
  intros Hp Hg Ho Hns <-. split; [intros a b; apply wants_at|]. intros w' tr x w1 Hk _ _ Hx Ha.
  destruct (set_controller_fresh (task_Meta task) _ Ho Hns) as [m Hm].
  destruct (ensureOwned_served k mutate _ _ _ _ _ _ Hp Hg Hk Hx Ha) as [(e & Hm' & _)|(-> & Hin & _)]; [congruence|].
  split; [done|]. by eapply in_place_spec.
Qed.

Lemma deleteIfExists_achieves w k key : Achieves w (k, key) (wants k key None) (deleteIfExists k key).
Proof.
  split; [intros a b; apply wants_at|]. intros w' tr x w1 _ _ _ Hx Ha.
  by destruct (deleteIfExists_served _ _ _ _ _ _ Hx Ha) as (-> & Hn & _).
Qed.

Lemma ensureNetworkPolicy_achieves r task agent w :
  Forall (resolves (resolver r) w) (effective_egress task agent) ->
  Achieves w (KNetworkPolicy, key_of (task_Meta task)) (fun w1 => exists cidrs, resolution r (effective_egress task agent) w cidrs /\
    wants KNetworkPolicy (key_of (task_Meta task)) (Some (desired_policy task agent cidrs)) w1)
    (ensureNetworkPolicy r task (effective_egress task agent)).
Proof.
  intros Hr. split; [intros a b Hg (c & Hc & Hw); exists c; split; [done|by eapply wants_at]|].
  intros w' tr x w1 Hk He _ Hx Ha. unfold ensureNetworkPolicy in Hx.
  apply exec_bind in Hx as (t1 & t2 & d & -> & Hb & Hx). apply answered_trans in Ha as (wm & Ha1 & Ha).
  assert (Hb' := Hb). unfold BuildNetworkPolicy in Hb'. apply exec_bind in Hb' as (t3 & t4 & c & -> & Hc & [-> ->]%exec_ret). rewrite app_nil_r in *.
  pose proof Hc as Hc'. apply resolveEgress_exec in Hc' as (so & Hso & Heq).
  destruct (resolve_entries_served _ _ ∅ w' t3 so wm ltac:(eapply Forall_impl; [exact Hr|intros e; by apply resolves_env]) Hso Ha1) as [out ->].
  set (cidrs := sort_strings (elements out)) in *. subst c.
  destruct (proj2 (ensureOwned_achieves wm KNetworkPolicy mutate_NetworkPolicy task (desired_policy task agent cidrs) _
    eq_refl eq_refl eq_refl eq_refl eq_refl) wm t2 x w1 (answered_keyed _ _ _ Ha1 Hk) (reflexivity _) eq_refl Hx Ha) as [-> Hw].
  split; [done|]. exists cidrs. split; [|exact Hw].
  exists t3, w. split; [exact Hc|]. eapply (lookups_env _ w'); [|symmetry; exact He|exact Hc|exact Ha1].
  unfold resolveEgress. apply only_bind; [apply resolve_entries_only|intros; apply only_ret].
Qed.

(** An upsert of a binding leaves the RoleRef of one that was there. *)
Lemma ensureOwned_ref task d w tr x w1 rb :
  keyed w -> om_GenerateName (rb_Meta d) = ""%string ->
  exec (ensureOwned KRoleBinding task d mutate_RoleBinding) tr x -> answered w tr w1 -> x = Ok tt ->
  w_get w1 KRoleBinding (key_of (rb_Meta d)) = Some rb ->
  rb_RoleRef rb = match w_get w KRoleBinding (key_of (rb_Meta d)) with Some old => rb_RoleRef old | None => rb_RoleRef d end.
Proof.
  intros Hk Hg Hx Ha -> Hrb. destruct (ensureOwned_cases _ _ _ _ _ _ Hx) as [(e & Hm & -> & [=])|(m & Hm & Hc)].
  pose proof Hm as [refs Hrefs]%set_controller_meta. cbn zeta in Hc. change (obj_meta KRoleBinding d) with (rb_Meta d) in *.
  destruct Hc as [(e & _ & _ & [=])|[(e & y & He & -> & Hy)|[(o & _ & -> & _)|(o & y & _ & -> & Hy)]]];
    (apply (read_served _ _ _ _ w) in Ha as [Ha Ho]; [|done]);
    destruct (w_get w KRoleBinding (key_of (rb_Meta d))) as [old|] eqn:Hold; simplify_eq/=; try by destruct Ho as (? & ? & _).
  - destruct Ha as (w2 & Hs & Hw2). cbn in Hs. rewrite (same_get _ _ Hw2) in Hrb.
    destruct Hs as [(o' & -> & Hst & _ & Hch)|((e' & -> & _) & _)]; [|done]. pose proof Hst as (_ & Hpl & _).
    assert (Hko : key_of (rb_Meta o') = key_of (rb_Meta d)).
    { etrans; [by apply (stored_key KRoleBinding _ _ Hst)|done]. }
    rewrite <- Hko, (changed_at _ _ _ _ _ Hch) in Hrb. injection Hrb as <-. by rewrite Hpl.
  - rewrite (same_get _ _ Ha), Hold in Hrb. by injection Hrb as <-.
  - destruct Ha as (w2 & Hs & Hw2). cbn in Hs. rewrite (same_get _ _ Hw2) in Hrb.
    assert (Hku : key_of (set_labels (om_Labels (rb_Meta d)) (rb_Meta old)) = key_of (rb_Meta d)) by exact (Hk KRoleBinding _ old Hold).
    rewrite Hku, Hold in Hs. destruct Hs as (o' & _ & (_ & _ & Hpl) & Hch).
    rewrite (changed_at _ _ _ _ _ Hch) in Hrb. injection Hrb as <-. by rewrite Hpl.
Qed.

Lemma ensureRoleBinding_achieves task w :
  Achieves w (KRoleBinding, key_of (task_Meta task))
    (fun w1 => wants KRoleBinding (key_of (task_Meta task))
       (BuildRoleBinding (task_Name task) (task_Namespace task) (task_rbac task)) w1 /\ keeps_ref task w w1)
    (ensureRoleBinding task).
Proof.
  split.
  { cbn. intros a b Hg [Hw Hr]. split; [by eapply wants_at|]. intros d rb Hd Hrb. apply (Hr d); [done|]. by rewrite <- Hg. }
  cbn. intros w' tr x w1 Hk He Hsl Hx Ha. unfold ensureRoleBinding in Hx. unfold keeps_ref.
  destruct (BuildRoleBinding _ _ _) as [d|] eqn:Hd.
  2: { destruct (proj2 (deleteIfExists_achieves w KRoleBinding (key_of (task_Meta task))) _ _ _ _ Hk He Hsl Hx Ha). done. }
  assert (Hm : rb_Meta d = rb_Meta d /\ key_of (rb_Meta d) = key_of (task_Meta task) /\ om_GenerateName (rb_Meta d) = ""%string /\
    om_OwnerReferences (rb_Meta d) = [] /\ om_Namespace (rb_Meta d) = task_Namespace task).
  { unfold BuildRoleBinding in Hd. case_match; simplify_eq. done. }
  destruct Hm as (_ & Hkey & Hg & Ho & Hns).
  destruct (proj2 (ensureOwned_achieves w KRoleBinding mutate_RoleBinding task d (key_of (task_Meta task)) eq_refl Hg Ho Hns Hkey) _ _ _ _ Hk He Hsl Hx Ha) as [-> Hw].
  split_and!; [done..|]. intros d' rb [= <-] Hrb. rewrite <- Hsl, <- Hkey. eapply ensureOwned_ref; try done. by rewrite Hkey.
Qed.

Definition StepGoal : Type := Slot * (World -> Prop).

(** The slots of the steps and what each step makes of its slot. *)
Definition goals (r : TaskReconciler) (task : Task) (agent : ClusterAgentClass) (w : World) : list StepGoal :=
  let key := key_of (task_Meta task) in
  let pkey := mkNN (task_Namespace task) (InlinePromptConfigMapName (task_Name task)) in
  let ckey := mkNN (task_Namespace task) (AgentConfigMapName (task_Name task)) in
  [((KServiceAccount, key), wants KServiceAccount key (Some (buildServiceAccount task)));
   ((KRole, key), wants KRole key (BuildRole (task_Name task) (task_Namespace task) (task_rbac task)));
   ((KRoleBinding, key), fun w1 =>
     wants KRoleBinding key (BuildRoleBinding (task_Name task) (task_Namespace task) (task_rbac task)) w1 /\ keeps_ref task w w1);
   ((KNetworkPolicy, key), fun w1 => exists cidrs, resolution r (effective_egress task agent) w cidrs /\
     wants KNetworkPolicy key (Some (desired_policy task agent cidrs)) w1);
   ((KConfigMap, pkey), wants KConfigMap pkey
     (BuildInlinePromptConfigMap (task_Name task) (task_Namespace task) (spec_Prompt (task_Spec task))));
   ((KConfigMap, ckey), wants KConfigMap ckey (BuildAgentConfigMap (task_Name task) (task_Namespace task)
     (agent_Config (spec_Agent (task_Spec task))) (cac_Inputs (class_Spec agent))))].

Lemma steps_achieve r task agent w :
  Forall (resolves (resolver r) w) (effective_egress task agent) ->
  Forall2 (fun step g => Achieves w g.1 g.2 (step_run step)) (steps r task agent (effective_egress task agent)) (goals r task agent w).
Proof.
  intros Hr. unfold steps, goals. repeat apply List.Forall2_cons; [..|apply List.Forall2_nil]; cbn [fst snd step_run].
  - by apply (ensureOwned_achieves _ KServiceAccount mutate_ServiceAccount).
  - unfold ensureRole. destruct (BuildRole _ _ _) as [d|] eqn:Hd; [|apply deleteIfExists_achieves].
    unfold BuildRole in Hd. case_match; simplify_eq. by apply (ensureOwned_achieves _ KRole mutate_Role).
  - apply ensureRoleBinding_achieves.
  - by apply ensureNetworkPolicy_achieves.
  - unfold ensurePromptConfigMap. destruct (BuildInlinePromptConfigMap _ _ _) as [d|] eqn:Hd; [|apply deleteIfExists_achieves].
    unfold BuildInlinePromptConfigMap in Hd. case_match; simplify_eq. by apply (ensureOwned_achieves _ KConfigMap mutate_ConfigMap).
  - unfold ensureAgentConfigMap. destruct (BuildAgentConfigMap _ _ _ _) as [d|] eqn:Hd; [|apply deleteIfExists_achieves].
    unfold BuildAgentConfigMap in Hd. repeat case_match; simplify_eq. by apply (ensureOwned_achieves _ KConfigMap mutate_ConfigMap).
Qed.

(** Steps that achieve their goals, each in its own slot, achieve them all. *)
Lemma run_steps_achieve r task l gs w0 w tr o w1 :
  Forall2 (fun step sl => Steady sl.1 sl.2 (step_run step)) l gs.*1 ->
  Forall2 (fun step g => Achieves w0 g.1 g.2 (step_run step)) l gs -> NoDup gs.*1 -> keyed w -> same_env w0 w ->
  (forall sl, sl ∈ gs.*1 -> w_get w sl.1 sl.2 = w_get w0 sl.1 sl.2) ->
  exec (run_steps r task l) tr o -> answered w tr w1 ->
  o = None /\ Forall (fun g => forall w2, w_get w2 g.1.1 g.1.2 = w_get w1 g.1.1 g.1.2 -> g.2 w2) gs.
Proof.
  intros Hst Hl. revert w tr Hst. induction Hl as [|step g l gs [Hat Hach] Hl IH]; intros w tr Hst Hnd Hk He Hsl Hx Ha; cbn [run_steps] in Hx.
  { apply exec_ret in Hx as [_ ->]. done. }
  cbn in Hst, Hnd. apply Forall2_cons in Hst as [Hs1 Hst]. apply NoDup_cons in Hnd as [Hnin Hnd].
  apply exec_bind in Hx as (t1 & t2 & x & -> & Hs & Hx). apply answered_trans in Ha as (wm & Ha1 & Ha).
  destruct (Hach _ _ _ _ Hk He (Hsl g.1 (list_elem_of_here _ _)) Hs Ha1) as [-> Hg]. assert (Hkm : keyed wm) by by eapply answered_keyed.
  assert (Hem : same_env w0 wm) by (etrans; [exact He|by eapply answered_env]).
  assert (Hslm : forall sl, sl ∈ gs.*1 -> w_get wm sl.1 sl.2 = w_get w0 sl.1 sl.2).
  { intros sl Hin. rewrite <- Hsl by by right. destruct (Hs1 _ _ _ _ Hk Hs Ha1) as [Hf%steady_frame _]. destruct sl as [k key].
    apply Hf. intros Heq. apply Hnin. cbn in Heq. by rewrite Heq, <- surjective_pairing in Hin. }
  destruct (IH wm t2 Hst Hnd Hkm Hem Hslm Hx Ha) as [-> Hgs]. split; [done|]. constructor; [|done].
  destruct (run_steps_served r task _ _ wm t2 None w1 Hst Hnd Hkm Hx Ha) as [(? & ? & ? & ? & ? & ? & _)|[Hf _]]; [done|].
  intros w2 Hw2. destruct g as [[k key] G]. apply (Hat wm); [|exact Hg]. etrans; [exact Hw2|]. by apply Hf.
Qed.

Lemma goals_declared r task agent w w1 :
  Forall (fun g => g.2 w1) (goals r task agent w) -> same_env w w1 -> declared r task agent w1 /\ keeps_ref task w w1.
Proof.
  unfold goals. rewrite !Forall_cons. cbn. intros (? & ? & [? ?] & (c & (tr & w' & Hx & Ha) & Hp) & ? & ? & _) He. split; [|done]. split; try done.
  exists c. split; [|done]. exists tr, w1. split; [done|]. eapply (lookups_env _ w); [|done|exact Hx|exact Ha].
  unfold resolveEgress. apply only_bind; [apply resolve_entries_only|intros; apply only_ret].
Qed.

(** ** The Result *)

(** What the pods of the Job say: the termination message of the agent, when there
    is one. *)
Definition message (w : World) (t : Task) (uid : string) : option string :=
  match scan_pods uid (w_pods w (task_Namespace t) {[ LabelTaskName := task_Name t ]}) false with
  | inl msg => Some msg
  | inr _ => None
  end.

Lemma message_meta w w' t t' uid : same_env w w' -> task_Meta t' = task_Meta t -> message w' t' uid = message w t uid.
Proof. intros He Hm. unfold message, task_Namespace, task_Name. by rewrite Hm, (same_pods _ _ He). Qed.

Lemma no_message_none w t uid : message w t uid = None -> no_message w t uid.
Proof.
  unfold message. pose proof (scan_pods_spec uid (w_pods w (task_Namespace t) {[ LabelTaskName := task_Name t ]}) false) as Hs.
  destruct (scan_pods _ _ _); [done|]. intros _. by destruct Hs as [Hs _].
Qed.

Lemma observe_message r t uid egress w tr o w1 msg :
  resultDecided t = false -> message w t uid = Some msg ->
  exec (observeResult r t uid egress) tr o -> answered w tr w1 ->
  exists t', o = Ok (t', 0) /\ st_Result (task_Status t') = pr_Result (ParseResult msg egress) /\ resultDecided t' = true.
Proof.
  intros Hd Hm Hx Ha. unfold observeResult in Hx. rewrite Hd in Hx. apply exec_call_inv in Hx as (pods & rest & -> & Hx).
  destruct Ha as (w2 & [_ Hp] & _). cbn in Hp. subst pods. unfold message in Hm.
  destruct (scan_pods _ _ _) as [msg'|]; [injection Hm as ->|done].
  apply exec_bind in Hx as (t1 & t2 & t' & -> & [_ (m & Hset)]%exec_applyParsedResult & [-> ->]%exec_ret).
  exists t'. split; [done|]. split; [|by eapply result_set_decided].
  destruct (result_set_spec _ _ _ _ Hset) as (_ & _ & _ & _ & ->). done.
Qed.

(** A sync with a message to read records the Result that it parses to. *)
Lemma syncStatus_records r task job egress w tr res w1 msg :
  holds_task w task -> status_wf (task_Status task) -> resultDecided task = false -> message w task (om_UID (job_Meta job)) = Some msg ->
  exec (syncStatus r task job egress) tr res -> answered w tr w1 ->
  exists t, w_get w1 KTask (key_of (task_Meta task)) = Some t /\
    st_Result (task_Status t) = pr_Result (ParseResult msg egress) /\ resultDecided t = true.
Proof.
  intros Ht Hwf Hd Hm Hx Ha. destruct (derivePhase job) as [[phase reason] m] eqn:Hder.
  destruct (syncStatus_cases _ _ _ _ _ _ _ _ _ Hder Hx) as (now & to & Hc).
  assert (Hmeta : task_Meta (synced now task job) = task_Meta task) by by rewrite (synced_eq _ _ _ _ _ _ Hder).
  assert (Hobs : forall o wa wb, exec (observeResult r (synced now task job) (om_UID (job_Meta job)) egress) to o -> same w wa -> answered wa to wb ->
    same w wb /\ exists t', o = Ok (t', 0) /\ st_Result (task_Status t') = pr_Result (ParseResult msg egress) /\ resultDecided t' = true).
  { intros o wa wb Ho Hwa Hao. destruct (observe_served _ _ _ _ _ _ _ _ Ho Hao) as [Hs _]. split; [by rewrite Hwa|].
    eapply observe_message; [by rewrite synced_decided| |exact Ho|exact Hao]. rewrite <- Hm. apply message_meta; [apply Hwa|done]. }
  destruct Hc as [(e & Ho & -> & ->)|(t & d & Ho & Hc)].
  { destruct Ha as (wa & Hwa & Ha). cbn in Hwa. by destruct (Hobs _ _ _ Ho Hwa Ha) as (_ & t & ? & _). }
  assert (Hwft : status_wf (task_Status t)) by (eapply observeResult_wf; [exact Ho|by apply synced_wf]).
  destruct (mirrors_kept _ _ _ _ _ _ _ _ Ho) as (Hmt & Hst & _).
  destruct Hc as [(He & -> & ->)|(He & Hc)].
  - destruct Ha as (wa & Hwa & Ha). cbn in Hwa. destruct (Hobs _ _ _ Ho Hwa Ha) as (_ & t' & Heq & _ & Hd'). simplify_eq.
    apply decided_equal in He; [congruence|done..].
  - destruct Hc as [(e & -> & ->)|(t' & -> & ->)]; destruct Ha as (wa & Hwa & Ha); cbn in Hwa; apply answered_trans in Ha as (wb & Hab & wc & Hs' & Ha);
      destruct (Hobs _ _ _ Ho Hwa Hab) as (Hwb & t'' & Heq & Hres & Hdec); simplify_eq;
      (apply (status_served wb task) in Hs' as [Hs' Hch]; [|unfold holds_task; by rewrite (same_get _ _ Hwb)|done..]); cbn in Hs'; simplify_eq.
    assert (Hwc : same wc w1) by (eapply transition_served; exact Ha). exists t''. split_and!; [|done..].
    rewrite (same_get _ _ Hwc). apply Hch.
Qed.

(** A sync with nothing to read leaves the Result as undecided as it was. *)
Lemma syncStatus_undecided r task job egress w tr res w1 :
  holds_task w task -> status_wf (task_Status task) -> message w task (om_UID (job_Meta job)) = None ->
  isTerminal (derivePhase job).1.1 = false ->
  exec (syncStatus r task job egress) tr res -> answered w tr w1 ->
  exists t, w_get w1 KTask (key_of (task_Meta task)) = Some t /\ resultDecided t = resultDecided task.
Proof.
  intros Ht Hwf Hm Hph Hx Ha. destruct (derivePhase job) as [[phase reason] m] eqn:Hder. cbn in Hph.
  destruct (syncStatus_cases _ _ _ _ _ _ _ _ _ Hder Hx) as (now & to & Hc).
  assert (Hmeta : task_Meta (synced now task job) = task_Meta task) by by rewrite (synced_eq _ _ _ _ _ _ Hder).
  assert (Hobs : forall o wa wb, exec (observeResult r (synced now task job) (om_UID (job_Meta job)) egress) to o -> same w wa -> answered wa to wb ->
    same w wb /\ o = Ok (synced now task job, 0)).
  { intros o wa wb Ho Hwa Hao. assert (Hq : isTerminal (task_Phase (synced now task job)) = false /\ no_message wa (synced now task job) (om_UID (job_Meta job))).
    { split; [by rewrite (synced_eq _ _ _ _ _ _ Hder)|]. apply no_message_none. by rewrite (message_meta w wa task _ _ (same_rest _ _ Hwa) Hmeta). }
    destruct (observe_nothing _ _ _ _ wa _ _ _ (or_intror Hq) Ho Hao) as [-> Hs]. split; [by rewrite Hwa|done]. }
  destruct Hc as [(e & Ho & -> & ->)|(t & d & Ho & Hc)].
  { destruct Ha as (wa & Hwa & Ha). cbn in Hwa. by destruct (Hobs _ _ _ Ho Hwa Ha). }
  destruct Hc as [(He & -> & ->)|(He & Hc)].
  - destruct Ha as (wa & Hwa & Ha). cbn in Hwa. destruct (Hobs _ _ _ Ho Hwa Ha) as [Hs _]. exists task. by rewrite (same_get _ _ Hs).
  - destruct Hc as [(e & -> & ->)|(t' & -> & ->)]; destruct Ha as (wa & Hwa & Ha); cbn in Hwa; apply answered_trans in Ha as (wb & Hab & wc & Hs' & Ha);
      destruct (Hobs _ _ _ Ho Hwa Hab) as (Hwb & Heq); simplify_eq;
      (apply (status_served wb task) in Hs' as [Hs' Hch]; [|unfold holds_task; by rewrite (same_get _ _ Hwb)|by rewrite (synced_eq _ _ _ _ _ _ Hder)..]);
      cbn in Hs'; simplify_eq.
    assert (Hwc : same wc w1) by (eapply transition_served; exact Ha). exists (synced now task job). rewrite (same_get _ _ Hwc).
    split; [apply Hch|apply synced_decided].
Qed.

(** ** A pass that goes through *)

(** The Job that the Task has after a pass: the one it had, or the declared one. *)
Definition job_of (r : TaskReconciler) (task : Task) (agent : ClusterAgentClass) (w : World) (job : Job) : Prop :=
  w_get w KJob (key_of (task_Meta task)) = Some job \/
  (w_get w KJob (key_of (task_Meta task)) = None /\ exists d m,
     buildJob task agent (effective_secrets task agent) (r_JobTTLSeconds r) = Ok d /\
     SetControllerReference (task_Meta task) (job_Meta d) = Ok m /\ stored KJob (set_meta KJob m d) job).

Lemma buildJob_meta task agent secrets ttl job :
  buildJob task agent secrets ttl = Ok job ->
  job_Meta job = new_meta (taskResourceName task) (task_Namespace task) (Some (ownershipLabels task)).
Proof. unfold buildJob. destruct (BuildSecretVolumes secrets). intros Hb. by repeat (case_match; simplify_eq). Qed.

(** A Job that can be built is there after [ensureJob]. *)
Lemma ensureJob_succeeds r task agent secrets d w tr x w1 :
  buildJob task agent secrets (r_JobTTLSeconds r) = Ok d -> exec (ensureJob r task agent secrets) tr x -> answered w tr w1 ->
  exists job, x = Ok job.
Proof.
  intros Hd Hx Ha. pose proof (buildJob_meta _ _ _ _ _ Hd) as Hm.
  destruct (set_controller_fresh (task_Meta task) (job_Meta d)) as [m Hset]; [by rewrite Hm..|].
  destruct (ensureJob_cases _ _ _ _ _ _ Hx) as [(e & Hb & _)|(d' & Hb & [(e & Hm' & _)|(m' & Hm' & Hc)])]; [congruence..|].
  assert (d' = d) as -> by congruence. cbn zeta in Hc.
  destruct Hc as [(e & He & -> & _)|[(e & y & He & -> & ->)|(o & _ & ->)]]; [..|eauto];
    (apply (read_served _ _ _ _ w) in Ha as [Ha Hr]; [|done]); destruct (w_get w KJob _) eqn:Hget; try done.
  - destruct Hr as (? & [= <-] & ?). congruence.
  - destruct Ha as (w2 & Hs & _). cbn in Hs. destruct Hs as [(o & -> & _)|(_ & _ & Hex)]; [by exists o|].
    apply set_controller_meta in Hm' as [refs ->]. rewrite Hm in Hex. by destruct Hex.
Qed.

Lemma goals_slots r task agent w : (goals r task agent w).*1 = step_slots (key_of (task_Meta task)).
Proof. done. Qed.

(** What a pass over a healthy Task does. *)
Lemma healthy_served r task agent w tr res w1 :
  healthy r task agent w -> exec (Reconcile r (key_of (task_Meta task))) tr res -> answered w tr w1 ->
  let key := key_of (task_Meta task) in
  (declared r task agent w1 /\ keeps_ref task w w1) /\ (exists requeue, res = (requeue, Ok tt)) /\
  exists job t, job_of r task agent w job /\ w_get w1 KJob key = Some job /\ w_get w1 KTask key = Some t /\
    task_Meta t = task_Meta task /\ task_Spec t = task_Spec task /\ status_wf (task_Status t) /\ mirrors job t /\
    (forall msg, resultDecided task = false -> message w task (om_UID (job_Meta job)) = Some msg ->
       st_Result (task_Status t) = pr_Result (ParseResult msg (effective_egress task agent)) /\ resultDecided t = true) /\
    (message w task (om_UID (job_Meta job)) = None -> isTerminal (derivePhase job).1.1 = false -> resultDecided t = resultDecided task).
Proof.
  intros [Hk Ht Hwf Hlive Hv Hcl Heg [d Hd]] Hx Ha. cbn zeta. apply exec_call_inv in Hx as (got & t1 & -> & Hx). apply (read_served _ _ _ _ w) in Ha as [Ha Hg]; [|done].
  unfold holds_task in Ht. rewrite Ht in Hg. subst got. set (key := key_of (task_Meta task)) in *. cbn beta iota in Hx. rewrite Hlive in Hx.
  destruct (reconcile_live_inv _ _ _ _ Hx) as [(e & tf & f & Hv' & _)|(_ & got & t2 & -> & Hc)]; [congruence|].
  apply (read_served _ _ _ _ w) in Ha as [Ha Hg]; [|done]. rewrite Hcl in Hg. subst got.
  destruct Hc as (ts & o & t3 & -> & Hs & Ho). apply answered_trans in Ha as (wc & Has & Ha).
  pose proof (steps_steady r task agent (effective_egress task agent)) as Hst. pose proof (step_slots_NoDup key) as Hnd.
  destruct (run_steps_achieve r task _ (goals r task agent w) w w ts o wc Hst (steps_achieve r task agent w Heg) Hnd Hk (reflexivity w) (fun _ _ => eq_refl) Hs Has) as [-> Hgs].
  destruct (run_steps_served r task _ _ w ts None wc Hst Hnd Hk Hs Has) as [(? & ? & ? & ? & ? & ? & _)|[Hfr _]]; [done|].
  assert (Hkeep : forall s, job_slots key s -> w_get wc s.1 s.2 = w_get w s.1 s.2).
  { intros [k key'] Hs'. apply Hfr. intros Hin%step_slot_not_job. by destruct Hin. }
  pose proof (Hkeep (KTask, key) (or_introl eq_refl)) as Htc. pose proof (Hkeep (KJob, key) (or_intror eq_refl)) as Hjc. cbn in Htc, Hjc.
  assert (Htask : holds_task wc task) by by (unfold holds_task; fold key; rewrite Htc).
  destruct (reconcile_job_inv _ _ _ _ _ Ho) as (tj & t4 & j & -> & Hj & Hrest). apply answered_trans in Ha as (wj & Haj & Ha).
  destruct (ensureJob_served _ _ _ _ _ _ _ _ Hj Haj) as [(e & -> & _ & _)|(job & -> & Hjob & Hjw)].
  { by destruct (ensureJob_succeeds _ _ _ _ _ _ _ _ _ Hd Hj Haj). }
  destruct Hrest as (ts2 & te & o2 & -> & Hsy & Hfin). apply answered_trans in Ha as (ws & Hasy & Ha).
  assert (Hfj : frame (fun s => s = (KJob, key)) wc wj) by (apply steady_frame; destruct Hjw as [[? _]|(_ & ? & _)]; eauto).
  assert (Htj : holds_task wj task) by (unfold holds_task; rewrite Hfj; [done|intros [=]]).
  destruct (syncStatus_served _ _ _ _ _ _ _ _ Htj Hwf Hsy Hasy) as (t & dd & t' & -> & Ht' & _ & Hmir & Hwf' & Hm' & Hs' & _ & Hchg).
  destruct Hfin as [[e ?]|(t0 & d0 & [= <- <-] & -> & ->)]; [done|]. cbn in Ha. unfold holds_task in Ht'. rewrite Hm' in Ht'. fold key in Ht', Hchg.
  assert (Hfs : frame (fun s => s = (KTask, key)) wj w1).
  { eapply frame_trans; [|by apply frame_same, Ha]. destruct Hchg as [[? _]|?]; [by apply frame_same|by eapply frame_changes]. }
  split; [|split; [by eexists|]].
  - eapply (goals_declared _ _ _ w).
    + rewrite Forall_forall in Hgs |- *. intros g Hg. apply (Hgs g Hg). destruct g as [[k key'] G]. cbn.
      assert (Hin : (k, key') ∈ step_slots key) by exact (list_elem_of_fmap_2 fst _ _ Hg). apply step_slot_not_job in Hin.
      rewrite Hfs, Hfj; [done|..]; intros Heq; apply Hin; rewrite Heq; [by right|by left].
    + do 3 (etrans; [by eapply answered_env|]). apply Ha.
  - exists job, t'. split_and!; try done.
    + unfold job_of. fold key. rewrite <- Hjc. destruct Hjw as [[_ Hw]|(Hw & _ & Hb)]; [by left|by right].
    + rewrite Hfs; [done|intros [=]].
    + by rewrite (same_get _ _ Ha).
    + intros msg Hdec Hmsg. destruct (syncStatus_records r task job (effective_egress task agent) wj ts2 (Ok (t, dd)) ws msg Htj Hwf Hdec) as (t2 & Ht2 & Hres); try done.
      { rewrite <- Hmsg. apply message_meta; [|done]. etrans; by eapply answered_env. }
      fold key in Ht2. rewrite Ht2 in Ht'. by simplify_eq.
    + intros Hmsg Hph. destruct (syncStatus_undecided r task job (effective_egress task agent) wj ts2 (Ok (t, dd)) ws Htj Hwf) as (t2 & Ht2 & Hres); try done.
      { rewrite <- Hmsg. apply message_meta; [|done]. etrans; by eapply answered_env. }
      fold key in Ht2. rewrite Ht2 in Ht'. by simplify_eq.
Qed.

(** ** Theorems *)

(** C13. A pass achieves what the Task declares.  Take the ideal server of [ApiServer]: it
    carries out every write but a create of an object that is there, an update or delete
    of one that is not, and a delete whose precondition fails; nobody else writes to it
    during the pass.  When the spec is valid, the class exists,
    its config can be projected and the allowlist resolves, a pass over a Task that is
    not terminal has an execution on this server and every execution succeeds.  The
    server then has a ServiceAccount, a NetworkPolicy for the resolved allowlist, a Role,
    a binding and ConfigMaps exactly where they are declared and nothing where they are
    not; each agrees with the declared object on its labels and on every field the
    controller copies, and the binding has the RoleRef of the binding that was there
    before (it is immutable) or else the declared one.  The Job is the one the Task had
    or the declared one, the status mirrors this Job, and every other object is as it
    was. *)
Theorem healthy_pass r task agent w :
  healthy r task agent w -> finite w -> statuses_wf w ->
  let key := key_of (task_Meta task) in
  (exists tr res w1, exec (Reconcile r key) tr res /\ answered w tr w1) /\
  forall tr res w1, exec (Reconcile r key) tr res -> answered w tr w1 ->
    (exists requeue, res = (requeue, Ok tt)) /\ declared r task agent w1 /\ keeps_ref task w w1 /\
    (exists job t, job_of r task agent w job /\ w_get w1 KJob key = Some job /\ w_get w1 KTask key = Some t /\
       task_Meta t = task_Meta task /\ task_Spec t = task_Spec task /\ mirrors job t) /\
    (forall k key', (k, key') ∉ owned_slots key -> w_get w1 k key' = w_get w k key').
Proof.
  intros Hh Hfin Hwf. cbn zeta. split; [by apply answered_exists|]. intros tr res w1 Hx Ha.
  destruct (healthy_served _ _ _ _ _ _ _ Hh Hx Ha) as ([Hd Href] & Hres & job & t & Hj & Hj1 & Ht1 & Hm & Hs & _ & Hmir & _).
  split_and!; [done..|by exists job, t|]. pose proof (he_keyed _ _ _ _ Hh) as Hk.
  destruct (any_settles r (key_of (task_Meta task)) w Hwf w w1 Hk (same_agree _ _ _ (reflexivity w)) ltac:(by exists tr, res)) as [Hf _]. exact Hf.
Qed.

(** The cluster ran the Job to its end: its status says so, and the agent left a
    message in the pod; nothing else changed. *)
Record job_ran (task : Task) (msg : string) (w w' : World) : Prop := {
  jr_job : exists job job', w_get w KJob (key_of (task_Meta task)) = Some job /\ w_get w' KJob (key_of (task_Meta task)) = Some job' /\
    job_Meta job' = job_Meta job /\ (derivePhase job').1.1 = TaskPhaseCompleted /\ message w' task (om_UID (job_Meta job')) = Some msg;
  jr_frame : forall k key, (k, key) <> (KJob, key_of (task_Meta task)) -> w_get w' k key = w_get w k key;
  jr_dns : forall h, w_dns w' h = w_dns w h }.

Lemma job_ran_keyed task msg w w' : job_ran task msg w w' -> keyed w -> keyed w'.
Proof.
  intros [(job & job' & Hj & Hj' & Hm & _) Hf _] Hk k key o Ho. destruct (decide ((k, key) = (KJob, key_of (task_Meta task)))) as [Heq|Hne].
  - injection Heq as -> ->. rewrite Hj' in Ho. injection Ho as <-. cbn. rewrite Hm. exact (Hk _ _ _ Hj).
  - rewrite Hf in Ho by done. by apply Hk.
Qed.

(** A healthy Task stays so under a new status and a finished Job. *)
Lemma healthy_after r task agent msg w w1 w2 st :
  healthy r task agent w -> keyed w1 -> same_env w w1 -> job_ran task msg w1 w2 ->
  w_get w1 KTask (key_of (task_Meta task)) = Some (with_st task st) -> status_wf st -> isTerminal (st_Phase st) = false ->
  w_get w1 KClusterAgentClass (agent_key task) = Some agent -> healthy r (with_st task st) agent w2.
Proof.
  intros [_ _ _ _ Hv _ Heg Hj] Hk He Hr Ht Hwf Hterm Hcl. split; try done.
  - by eapply job_ran_keyed.
  - unfold holds_task. cbn. destruct Hr as [_ Hf _]. rewrite Hf; [exact Ht|intros [=]].
  - destruct Hr as [_ Hf _]. rewrite Hf; [exact Hcl|intros [=]].
  - eapply Forall_impl; [exact Heg|]. intros e [Hb|Hb]; [by left|right]. destruct (ContainsByte _ _); [done|]. destruct Hb as [Hb|Hb]; [by left|right].
    destruct (resolver r); [|done]. destruct Hr as [_ _ Hd]. by rewrite Hd, (same_dns _ _ He).
Qed.

Lemma stored_pending o job : stored KJob o job -> derivePhase job = (TaskPhasePending, reasonPending, "Waiting for pod to start"%string).
Proof. intros (_ & _ & Hst). unfold derivePhase. by rewrite Hst. Qed.

(** After the deadline a pass deletes a terminal Task whose Result is decided. *)
Lemma expired_served r t deadline w tr res w1 :
  keyed w -> holds_task w t -> isTerminal (task_Phase t) = true -> resultDecided t = true ->
  deletionDeadline t (r_DefaultTaskTTLSeconds r) = Some deadline ->
  exec (Reconcile r (key_of (task_Meta t))) tr res -> answered w tr w1 -> (forall now, ev CNow now ∈ tr -> deadline <= now) ->
  w_get w1 KTask (key_of (task_Meta t)) = None.
Proof.
  intros Hk Ht Hterm Hdec Hdl Hx Ha Hnow. apply exec_call_inv in Hx as (got & t1 & -> & Hx).
  apply (read_served _ _ _ _ w) in Ha as [Ha Hg]; [|done]. unfold holds_task in Ht. rewrite Ht in Hg. subst got. rewrite Hterm in Hx.
  unfold reconcile_terminal in Hx. apply exec_bind in Hx as (t2 & t3 & o & -> & Ho & Hx).
  unfold recordTerminalResult in Ho. rewrite Hdec in Ho. apply exec_ret in Ho as [-> ->].
  apply exec_bind in Hx as (t4 & t5 & c & -> & Hc & [-> _]%exec_ret). rewrite app_nil_r in Ha. cbn [app] in Ha.
  destruct (collectTerminal_cases _ _ _ _ Hc) as [(Hn & _)|(dl & now & Hd & Hcc)]; [congruence|].
  assert (dl = deadline) as -> by congruence. destruct (Time_Sub_sign deadline now) as [Hsign _].
  destruct Hcc as [(Hlt & -> & _)|(_ & x & -> & _)].
  - assert (Hle : deadline <= now) by (apply Hnow; right; left). apply Hsign in Hle. lia.
  - destruct Ha as (w2 & Hw2 & w3 & Hs & Ha). cbn in Hw2, Hs, Ha. rewrite (same_get _ _ Hw2), Ht in Hs.
    destruct Hs as [(_ & _ & Hch)|(Hn & _)]; [|by destruct Hn]. rewrite (same_get _ _ Ha). apply Hch.
Qed.

(** C12. A Task runs from its creation to its Result and its deletion.  Take a healthy
    Task that is new and has no Job, on the ideal server of [ApiServer], to which nobody
    but the controller and the cluster that runs the Job writes.  A pass creates the declared Job and sets the Task
    Pending; when the cluster has run this Job to its end, the next pass sets the Task
    Completed, with the Result that the message of the agent parses to; and once the
    deadline of its TTL is over, the next pass deletes the Task. *)
Theorem task_runs_to_its_end r task agent msg w0 w1 w2 w3 :
  healthy r task agent w0 -> statuses_wf w0 -> task_Status task = empty_status -> w_get w0 KJob (key_of (task_Meta task)) = None ->
  (forall uid, message w0 task uid = None) ->
  let key := key_of (task_Meta task) in
  pass r key w0 w1 -> job_ran task msg w1 w2 -> pass r key w2 w3 ->
  (exists t1 job, w_get w1 KTask key = Some t1 /\ task_Phase t1 = TaskPhasePending /\
     w_get w1 KJob key = Some job /\ job_of r task agent w0 job) /\
  exists t3, w_get w3 KTask key = Some t3 /\ task_Phase t3 = TaskPhaseCompleted /\ task_Spec t3 = task_Spec task /\
    st_Result (task_Status t3) = pr_Result (ParseResult msg (effective_egress task agent)) /\ resultDecided t3 = true /\
    forall deadline tr res w4, deletionDeadline t3 (r_DefaultTaskTTLSeconds r) = Some deadline ->
      exec (Reconcile r key) tr res -> answered w3 tr w4 -> (forall now, ev CNow now ∈ tr -> deadline <= now) ->
      w_get w4 KTask key = None.
Proof.
  intros Hh Hwfs Hst Hnj Hnm. cbn zeta. set (key := key_of (task_Meta task)). intros (tr1 & res1 & Hx1 & Ha1) Hran (tr3 & res3 & Hx3 & Ha3).
  destruct (healthy_served _ _ _ _ _ _ _ Hh Hx1 Ha1) as (_ & _ & job & t1 & Hjob & Hj1 & Ht1 & Hm1 & Hs1 & Hwf1 & Hmir & _ & Hund).
  fold key in Hj1, Ht1. assert (Hph : derivePhase job = (TaskPhasePending, reasonPending, "Waiting for pod to start"%string)).
  { destruct Hjob as [Hj|(_ & d & m & _ & _ & Hsto)]; [congruence|by eapply stored_pending]. }
  assert (Hp1 : task_Phase t1 = TaskPhasePending) by (unfold mirrors in Hmir; rewrite Hph in Hmir; by destruct Hmir).
  split; [by exists t1, job|]. pose proof (with_st_eq _ _ Hm1 Hs1) as Heq.
  assert (Hk1 : keyed w1) by (eapply answered_keyed; [exact Ha1|apply Hh]).
  assert (Hund1 : resultDecided t1 = false).
  { rewrite Hund; [|by apply Hnm|by rewrite Hph]. unfold resultDecided. rewrite Hst. cbn. by destruct (FindStatusCondition [] _) as [c|] eqn:Hf; [apply find_condition_some in Hf as [[]%elem_of_nil _]|]. }
  assert (Hcl1 : w_get w1 KClusterAgentClass (agent_key task) = Some agent).
  { rewrite <- (he_class _ _ _ _ Hh).
    destruct (any_settles r key w0 Hwfs w0 w1 (he_keyed _ _ _ _ Hh) (same_agree _ _ _ (reflexivity w0)) ltac:(by exists tr1, res1)) as [Hf _].
    apply Hf. intros Hown. unfold own, owned_slots, step_slots in Hown.
    repeat (apply elem_of_cons in Hown as [?|Hown]; [done|]). by apply elem_of_nil in Hown. }
  rewrite Heq in Ht1. assert (Hterm1 : isTerminal (st_Phase (task_Status t1)) = false).
  { change (isTerminal (task_Phase t1) = false). by rewrite Hp1. }
  pose proof (healthy_after r task agent msg w0 w1 w2 _ Hh Hk1 (answered_env _ _ _ Ha1) Hran Ht1 Hwf1 Hterm1 Hcl1) as Hh2.
  destruct (healthy_served _ _ _ _ _ _ _ Hh2 Hx3 Ha3) as (_ & _ & job2 & t3 & Hjob2 & _ & Ht3 & Hm3 & Hs3 & _ & Hmir3 & Hres3 & _).
  destruct Hran as [(jobA & job' & HjA & Hj' & Hmj & Hdone & Hmsg) _ _].
  assert (job2 = job') as ->.
  { destruct Hjob2 as [Hj2|(Hn & _)]; [|change (w_get w2 KJob key = None) in Hn; fold key in Hj'; congruence].
    change (w_get w2 KJob key = Some job2) in Hj2. fold key in Hj'. congruence. }
  destruct (Hres3 msg) as [Hresult Hdec3]; [by rewrite <- Heq|exact Hmsg|].
  assert (Hp3 : task_Phase t3 = TaskPhaseCompleted).
  { unfold mirrors in Hmir3. destruct (derivePhase job') as [[phase reason] m]. cbn in Hdone. subst phase. by destruct Hmir3. }
  assert (Hk3 : keyed w3) by (eapply answered_keyed; [exact Ha3|apply Hh2]).
  cbn in Hm3, Hs3, Ht3. exists t3. split_and!; try done. intros deadline tr res w4 Hdl Hx4 Ha4 Hnow.
  assert (Hkey3 : key_of (task_Meta t3) = key) by by rewrite Hm3. fold key in Ht3. rewrite <- Hkey3 in Hx4, Ht3 |- *.
  eapply expired_served; [exact Hk3|exact Ht3|by rewrite Hp3|exact Hdec3|exact Hdl|exact Hx4|exact Ha4|exact Hnow].
Qed.

End Completion.

(** ** The theorems at samples *)

Section Sample.
#[local] Existing Instances KubeRef.lib KubeRef.laws Samples.errors_text Samples.tables.

Lemma healthy_world0 : healthy Samples.reconciler Samples.task Samples.agent world0.
Proof.
  split.
  - exact keyed_world0.
  - vm_compute. reflexivity.
  - apply NoDup_nil_2.
  - reflexivity.
  - vm_compute. reflexivity.
  - vm_compute. reflexivity.
  - assert (He : effective_egress Samples.task Samples.agent = ["api.example.com"; "10.0.0.0/8"; "api.anthropic.com"]%string) by (vm_compute; reflexivity).
    rewrite He. repeat apply List.Forall_cons; [..|apply List.Forall_nil]; right; vm_compute; [right; by eexists|by eexists|right; by eexists].
  - vm_compute. eexists. reflexivity.
Qed.

Lemma healthy_pass_witness : exists job, w_get world1 KJob demo = Some job.
Proof.
  destruct pass01 as (tr & res & Hx & Ha).
  destruct (healthy_pass Samples.reconciler Samples.task Samples.agent world0 healthy_world0) as [_ Hall].
  - exists [demo]. exact covers_world0.
  - exact statuses_world0.
  - destruct (Hall tr res world1 Hx Ha) as (_ & _ & _ & (job & t & _ & Hj & _) & _). exists job. exact Hj.
Defined.

(** The Job ran, and its pod holds a message. *)
Definition created_job : Job := default Samples.running_job (w_get world1 KJob demo).
Definition ended_job : Job :=
  mkJob (job_Meta created_job) (job_Spec created_job) (mkJobStatus [mkJobCondition "Complete" ConditionTrue "" ""] 0 (Some 5) (Some (60 * Second))).
Definition agent_pod : Pod :=
  mkPod (mkMeta "demo-x" "" "agents" "uid-pod" 1 None None None [mkOwner "Job" "demo" (om_UID (job_Meta created_job)) true])
    (pod_ContainerStatuses Samples.pod).
Definition ran_world : World :=
  let w := put KJob demo (Some ended_job) world1 in mkWorld (w_get w) (fun _ _ => [agent_pod]) (w_triggers w) (w_dns w).

Lemma ran_frame k key : (k, key) <> (KJob, demo) -> w_get ran_world k key = w_get world1 k key.
Proof. apply (changed_frame _ _ _ _ _ (put_changes KJob demo (Some ended_job) world1)). Qed.

Lemma ran_covers : covers [demo] ran_world.
Proof.
  intros key t Ht. rewrite ran_frame in Ht by discriminate. revert key t Ht. apply covers_run; [exact covers_world0|exact within0].
Qed.

Definition last_world : World := sample_run ran_world.

Lemma pass_ran : pass Samples.reconciler demo ran_world last_world.
Proof. apply pass_run; [exact ran_covers|vm_compute; reflexivity]. Qed.

Definition sample_message : string :=
  match agentTerminationMessage (pod_ContainerStatuses Samples.pod) with Some m => m | None => "" end.

Lemma sample_job_ran : job_ran Samples.task sample_message world1 ran_world.
Proof.
  split.
  - exists created_job, ended_job. split_and!; vm_compute; reflexivity.
  - apply ran_frame.
  - reflexivity.
Qed.

Lemma task_runs_to_its_end_witness : exists t3, w_get last_world KTask demo = Some t3 /\ task_Phase t3 = TaskPhaseCompleted.
Proof.
  destruct (task_runs_to_its_end Samples.reconciler Samples.task Samples.agent sample_message world0 world1 ran_world last_world) as (_ & t3 & Ht & Hp & _).
  - exact healthy_world0.
  - exact statuses_world0.
  - reflexivity.
  - vm_compute. reflexivity.
  - intros uid. reflexivity.
  - exact pass01.
  - exact sample_job_ran.
  - exact pass_ran.
  - exists t3. split; [exact Ht|exact Hp].
Defined.
End Sample.
End Completion.
