(* ===== verification/Watch.v ===== *)
(** * Watches

    [SetupWithManager] of [internal/controller/task_controller.go]: which events make
    the controller reconcile which Task.  The delivery of events, the work queue and
    the index are [controller-runtime]'s; here is the table the program registers,
    what each row maps an object to, and that no object of a Task is left out. *)

From S2P Require Import Prelude GoString GoTime GoNet GoJson GoUrl Kube Api Effects KubeLib Metrics.
From S2P Require Import PolicyObjects PolicyConfig PolicyNetwork Reconciler Samples PolicyResult.
From S2P Require Import Build Status TaskResult Sync Reconcile Lifecycle.

Module Watch.
Import Labels Secrets Rbac Prompt Config Network Build Status TaskResult Sync Reconcile Lifecycle.

(** A row of the controller's table. *)
Inductive Row :=
| ForTasks
| Owns (k : Kind)
| WatchesAgentClasses
| WatchesPods.

Definition watches : list Row :=
  [ForTasks; Owns KJob; Owns KServiceAccount; Owns KConfigMap; Owns KRole; Owns KRoleBinding; Owns KNetworkPolicy;
   WatchesAgentClasses; WatchesPods].

(** The function behind the index [taskAgentRefIndex]. *)
Definition index_agent_ref (task : Task) : list string :=
  let ref := agent_Ref (spec_Agent (task_Spec task)) in
  if (ref =? "")%string then [] else [ref].

(** What a list by that index answers from a store. *)
Definition indexed (store : list Task) (ref : string) : list Task :=
  filter (fun t => ref ∈ index_agent_ref t) store.

(** An event: an object that changed. *)
Inductive WatchEvent :=
| TaskEvent (m : ObjectMeta)
| ObjectEvent (k : Kind) (m : ObjectMeta)
| AgentClassEvent (name : string)
| PodEvent (m : ObjectMeta).

Section Watch.
Context `{KubeLib, JsonErrors, UnicodeTables}.

(** [EnqueueRequestForOwner], for owners that are the controller and a Task. *)
Definition enqueue_owner (m : ObjectMeta) : list NamespacedName :=
  match GetControllerOf m with
  | Some ref => if (owner_Kind ref =? "Task")%string then [mkNN (om_Namespace m) (owner_Name ref)] else []
  | None => []
  end.

(** The requests that a row enqueues for an event. *)
Definition enqueue (row : Row) (ev : WatchEvent) : Prog (list NamespacedName) :=
  match row, ev with
  | ForTasks, TaskEvent m => Ret [key_of m]
  | Owns k, ObjectEvent k' m => Ret (if bool_decide (k = k') then enqueue_owner m else [])
  | WatchesAgentClasses, AgentClassEvent name => tasksForAgentClass name
  | WatchesPods, PodEvent m => Ret (taskForPod m)
  | _, _ => Ret []
  end.

(** All rows see every event. *)
Fixpoint dispatch (rows : list Row) (ev : WatchEvent) : Prog (list NamespacedName) :=
  match rows with
  | [] => Ret []
  | row :: rows' => let! here := enqueue row ev in let! there := dispatch rows' ev in Ret (here ++ there)
  end.

End Watch.

(** ** The objects a pass creates *)

Section Created.
Context `{KubeLaws, JsonErrors, UnicodeTables}.

(** [c], when it creates an object, makes [task] its controller, in the namespace
    of [task], and the kind is one the controller owns. *)
Definition created_for (task : Task) (c : Call) : Prop :=
  match c with
  | CCreate k o =>
    Owns k ∈ watches /\ om_Namespace (obj_meta k o) = task_Namespace task /\
    exists m, SetControllerReference (task_Meta task) m = Ok (obj_meta k o)
  | _ => True
  end.

Lemma owned_created k task (desired : obj k) m :
  Owns k ∈ watches -> om_Namespace (obj_meta k desired) = task_Namespace task ->
  SetControllerReference (task_Meta task) (obj_meta k desired) = Ok m ->
  created_for task (CCreate k (set_meta k m desired)).
Proof.
  intros Hk Hn Hm. cbn. rewrite obj_meta_set_meta. split; [done|]. split; [|eauto].
  apply set_controller_meta in Hm as (refs & ->). done.
Qed.

Lemma ensureOwned_created k task desired mutate :
  Owns k ∈ watches -> om_Namespace (obj_meta k desired) = task_Namespace task ->
  only (created_for task) (ensureOwned k task desired mutate).
Proof.
  intros Hk Hn tr res Hx.
  destruct (ensureOwned_cases _ _ _ _ _ _ Hx) as [(e & _ & -> & _)|(m & Hm & [(e & _ & -> & _)|
    [(e & x & _ & -> & _)|[(o & _ & -> & _)|(o & x & _ & -> & _)]]])]; try by repeat constructor.
  apply Forall_cons_2; [done|]. apply Forall_cons_2; [by apply owned_created|constructor].
Qed.

Lemma deleteIfExists_created k key task : only (created_for task) (deleteIfExists k key).
Proof. intros tr res (x & -> & _)%deleteIfExists_cases. by repeat constructor. Qed.

Lemma ensureJob_created r task agent secrets : only (created_for task) (ensureJob r task agent secrets).
Proof.
  unfold ensureJob. destruct (buildJob _ _ _ _) as [d|] eqn:Hb; [|apply only_ret].
  destruct (SetControllerReference _ _) as [m|] eqn:Hm; [|apply only_ret].
  apply only_call; [done|]. intros [j|e]; [apply only_ret|]. destruct (IsNotFound e); [|apply only_ret].
  apply only_call; [|intros; apply only_ret]. apply (owned_created KJob task d m); [|..|done].
  - repeat constructor.
  - apply buildJob_key in Hb. unfold key_of in Hb. by injection Hb.
Qed.

Lemma status_created {A} task (p : Prog A) : only (fun c => status_call c = true) p -> only (created_for task) p.
Proof. apply only_impl. by intros []. Qed.

Lemma lookups_created {A} task (p : Prog A) : only (fun c => exists h, c = CLookupHost h) p -> only (created_for task) p.
Proof. apply only_impl. by intros c [h ->]. Qed.

Lemma BuildNetworkPolicy_namespace rs name ns egress ports tr np :
  exec (BuildNetworkPolicy rs name ns egress ports) tr (Ok np) -> om_Namespace (np_Meta np) = ns.
Proof.
  unfold BuildNetworkPolicy. intros (t1 & t2 & [cidrs|e] & -> & _ & Hx)%exec_bind; apply exec_ret in Hx as [-> Hx]; [|done].
  by injection Hx as ->.
Qed.

Lemma ensureNetworkPolicy_created r task egress : only (created_for task) (ensureNetworkPolicy r task egress).
Proof.
  intros tr res (t1 & t2 & [np|e] & -> & Hb & Hx)%exec_bind; rewrite calls_app; apply Forall_app; split.
  - eapply lookups_created, Hb. apply BuildNetworkPolicy_only.
  - eapply ensureOwned_created, Hx; [repeat constructor|]. by eapply BuildNetworkPolicy_namespace.
  - eapply lookups_created, Hb. apply BuildNetworkPolicy_only.
  - apply exec_ret in Hx as [-> _]. constructor.
Qed.

Lemma steps_created r task agent egress step :
  step ∈ steps r task agent egress -> only (created_for task) (step_run step).
Proof.
  intros Hin. unfold steps in Hin. rewrite !elem_of_cons in Hin.
  destruct Hin as [->|[->|[->|[->|[->|[->|Hin]]]]]]; cbn [step_run]; [| | | | | |by apply elem_of_nil in Hin].
  - apply ensureOwned_created; [repeat constructor|done].
  - unfold ensureRole, BuildRole. destruct (task_rbac task); [apply deleteIfExists_created|]. apply ensureOwned_created; [repeat constructor|done].
  - unfold ensureRoleBinding, BuildRoleBinding. destruct (task_rbac task); [apply deleteIfExists_created|].
    apply ensureOwned_created; [repeat constructor|done].
  - apply ensureNetworkPolicy_created.
  - unfold ensurePromptConfigMap. destruct (BuildInlinePromptConfigMap _ _ _) as [cm|] eqn:Hb; [|apply deleteIfExists_created].
    apply ensureOwned_created; [repeat constructor|]. unfold BuildInlinePromptConfigMap in Hb. by repeat (case_match; simplify_eq).
  - unfold ensureAgentConfigMap. destruct (BuildAgentConfigMap _ _ _ _) as [cm|] eqn:Hb; [|apply deleteIfExists_created].
    apply ensureOwned_created; [repeat constructor|]. unfold BuildAgentConfigMap in Hb. by repeat (case_match; simplify_eq).
Qed.

Lemma reconcile_live_created r task : only (created_for task) (reconcile_live r task).
Proof.
  apply (reconcile_live_every (fun tr => Forall (created_for task) (calls tr))).
  - intros; by repeat constructor.
  - intros; by repeat constructor.
  - intros. apply status_created, failTask_only.
  - apply status_created, markWaiting_only.
  - intros. by eapply steps_created.
  - intros. apply ensureJob_created.
  - intros. apply status_created, syncStatus_only.
Qed.

Lemma reconcile_terminal_created r task : only (created_for task) (reconcile_terminal r task).
Proof.
  intros tr res Hx. apply Forall_forall. intros c Hc. apply (terminal_pass_calls _ _ _ _ _ Hx) in Hc. by destruct c.
Qed.

Lemma pass_created r req tr res k o :
  exec (Reconcile r req) tr res -> CCreate k o ∈ calls tr ->
  exists task, ev (CGet KTask req) (Ok task) ∈ tr /\ created_for task (CCreate k o).
Proof.
  intros (got & t & -> & Hx)%exec_call_inv [Hc|Hc]%elem_of_calls_cons; [done|]. destruct got as [task|e].
  - exists task. split; [left|]. destruct (isTerminal _);
      [eapply only_exec; [apply reconcile_terminal_created|done..]|eapply only_exec; [apply reconcile_live_created|done..]].
  - destruct (IsNotFound e); apply exec_ret in Hx as [-> _]; by apply elem_of_calls_nil in Hc.
Qed.

(** An event on an owned object enqueues its controller, once. *)
Lemma dispatch_owned k m : Owns k ∈ watches -> exec (dispatch watches (ObjectEvent k m)) [] (enqueue_owner m).
Proof.
  intros Hk. assert (Hin : owned_kind k = true \/ k = KJob).
  { unfold watches in Hk. rewrite !elem_of_cons, elem_of_nil in Hk. destruct k; auto; exfalso; intuition discriminate. }
  destruct k; try (by destruct Hin); cbn; rewrite ?app_nil_r; done.
Qed.

Lemma elem_of_indexed store ref t : t ∈ indexed store ref <-> t ∈ store /\ agent_Ref (spec_Agent (task_Spec t)) = ref /\ ref <> ""%string.
Proof.
  unfold indexed, index_agent_ref. rewrite list_elem_of_filter. destruct (agent_Ref _ =? "")%string eqn:He; str_eqb.
  - rewrite elem_of_nil. split; [by intros []|]. intros (_ & <- & Hn). done.
  - rewrite list_elem_of_singleton. split; [intros [-> ?]; done|intros (? & <- & _); done].
Qed.

Lemma dispatch_class name answer tr keys :
  exec (dispatch watches (AgentClassEvent name)) tr keys -> tr = [ev (CListTasksByAgent name) answer] ->
  exec (tasksForAgentClass name) tr keys.
Proof.
  intros Hx ->. cbn in Hx |- *. destruct Hx as (x & tr' & Heq & Hx). exists x, tr'. split; [done|].
  destruct Hx as [-> ->]. cbn. by rewrite app_nil_r.
Qed.

(** C22. No change that concerns a Task goes unnoticed.  Every object a reconcile pass
    creates is of a kind the controller watches, and an event on it, as the server
    stores it, enqueues exactly the Task of that pass.  An event on an agent class
    enqueues exactly the Tasks of the index that name the class and are not
    finished, so a Task that waits for its class is woken when the class appears.
    An event on a pod with the labels of a Task enqueues that Task. *)
Theorem watches_complete :
  (forall r req tr res k o m, exec (Reconcile r req) tr res -> CCreate k o ∈ calls tr ->
     GetControllerOf m = GetControllerOf (obj_meta k o) -> om_Namespace m = om_Namespace (obj_meta k o) ->
     exists task, ev (CGet KTask req) (Ok task) ∈ tr /\
       exec (dispatch watches (ObjectEvent k m)) [] [key_of (task_Meta task)]) /\
  (forall store name keys,
     exec (dispatch watches (AgentClassEvent name)) [ev (CListTasksByAgent name) (Ok (indexed store name))] keys ->
     forall key, key ∈ keys <-> exists t, t ∈ store /\ key = key_of (task_Meta t) /\ isTerminal (task_Phase t) = false /\
       agent_Ref (spec_Agent (task_Spec t)) = name /\ name <> ""%string) /\
  (forall task m, om_Labels m = Some (podLabels task) -> om_Namespace m = task_Namespace task -> task_Name task <> ""%string ->
     exec (dispatch watches (PodEvent m)) [] [key_of (task_Meta task)]).
Proof.
  split_and!.
  - intros r req tr res k o m Hx Hc Hg Hn. destruct (pass_created _ _ _ _ _ _ Hx Hc) as (task & Ht & Hk & Hns & m0 & Hm).
    exists task. split; [done|]. destruct (set_controller_owner _ _ _ Hm) as (ref & Href & _).
    destruct (set_controller_ref _ _ _ _ Hm Href) as [Hname Hkind].
    assert (He : enqueue_owner m = [key_of (task_Meta task)]); [|rewrite <- He; by apply dispatch_owned].
    unfold enqueue_owner. rewrite Hg, Href, Hkind, Hn, Hns, Hname. done.
  - intros store name keys Hx key. eapply dispatch_class in Hx; [|done].
    apply exec_call_inv in Hx as (x & tr' & Heq & Hx).
    apply (f_equal (fun l : Trace => match l with existT (CListTasksByAgent _) y :: _ => Some y | _ => None end)) in Heq.
    injection Heq as <-. apply exec_ret in Hx as [_ ->]. rewrite list_elem_of_fmap. setoid_rewrite list_elem_of_filter. setoid_rewrite elem_of_indexed. naive_solver.
  - intros task m Hl Hn Hne. cbn. by rewrite (proj1 (taskForPod_roundtrip task m Hne Hn) Hl).
Qed.

End Created.
(** ** The theorem at a sample *)

#[local] Existing Instances KubeRef.lib KubeRef.laws Samples.errors_text Samples.tables.

(** The Job of a first pass wakes the Task again. *)
Lemma watches_complete_witness : exists task,
  ev (CGet KTask req) (Ok task) ∈ before_job ++ ev (CCreate KJob fresh_job) (Ok fresh_job) :: after_job /\
  exec (dispatch watches (ObjectEvent KJob (job_Meta fresh_job))) [] [key_of (task_Meta task)].
Proof.
  destruct watches_complete as [Hw _].
  apply (Hw Samples.reconciler req _ _ KJob fresh_job (job_Meta fresh_job) fresh_creates); [|done..].
  apply elem_of_calls_app. right. apply elem_of_calls_cons. by left.
Defined.

End Watch.
