(* ===== verification/Healing.v ===== *)
(** * Nothing drifts unnoticed

    The control loop: a queue of Tasks to reconcile, fed by the watches of [Watch]
    and worked off by the passes of [Reconcile], call by call on the server of
    [ApiServer], while others create, change and delete objects between any two calls
    and writes fail.  Whenever a Task that can be run is neither in the queue nor being
    worked on, the server holds what it declares. *)

From S2P Require Import Prelude GoString GoTime GoNet GoJson GoUrl Kube Api Effects KubeLib Metrics.
From S2P Require Import PolicyObjects PolicyConfig PolicyNetwork Reconciler Samples PolicyResult.
From S2P Require Import Build Status TaskResult Sync Reconcile Lifecycle ApiServer Settle Quiescence PassCalls Completion Watch.

Module Healing.
Import Labels Secrets Rbac Prompt Config Network Result Build Status TaskResult Sync Reconcile Lifecycle ApiServer Settle Quiescence PassCalls Completion Watch.

Section Healing.
Context `{KubeLaws, JsonErrors, UnicodeTables}.

(** ** Events *)

(** The event that an object causes. *)
Definition event_of (k : Kind) (m : ObjectMeta) : WatchEvent :=
  match k with
  | KTask => TaskEvent m
  | KClusterAgentClass => AgentClassEvent (om_Name m)
  | _ => ObjectEvent k m
  end.

(** The keys that an event puts into the queue; the index is up to date. *)
Definition notified (w : World) (e : WatchEvent) (keys : list NamespacedName) : Prop :=
  exists tr w', exec (dispatch watches e) tr keys /\ answered w tr w'.

Definition notified_of (w : World) (k : Kind) (o : option (obj k)) (keys : list NamespacedName) : Prop :=
  match o with None => keys = [] | Some o => notified w (event_of k (obj_meta k o)) keys end.

Lemma notified_task w m keys : notified w (TaskEvent m) keys -> keys = [key_of m].
Proof. intros (tr & w' & Hx & _). cbn in Hx. by apply exec_ret in Hx as [_ ->]. Qed.

Lemma notified_owned w k m keys : Owns k ∈ watches -> notified w (ObjectEvent k m) keys -> keys = enqueue_owner m.
Proof.
  intros Hk (tr & w' & Hx & _). pose proof (dispatch_owned k m Hk) as Hd.
  assert (Ho : exists l, dispatch watches (ObjectEvent k m) = Ret l) by (destruct k; cbn; eauto).
  destruct Ho as [l Hl]. rewrite Hl in Hx, Hd. apply exec_ret in Hx as [_ ->]. by apply exec_ret in Hd as [_ ->].
Qed.

Lemma notified_class w name keys key t :
  notified w (AgentClassEvent name) keys -> w_get w KTask key = Some t -> agent_Ref (spec_Agent (task_Spec t)) = name ->
  isTerminal (task_Phase t) = false -> key_of (task_Meta t) ∈ keys.
Proof.
  intros (tr & w' & Hx & Ha) Ht Hr Hterm. cbn in Hx. destruct Hx as (x & tr' & -> & Hx). apply exec_ret in Hx as [_ ->].
  destruct Ha as (w1 & Hs & _). cbn in Hs. destruct Hs as [_ (l & -> & Hl)]. rewrite app_nil_r. cbn.
  apply (list_elem_of_fmap_2 (fun t => key_of (task_Meta t))). apply list_elem_of_filter. split; [done|]. apply Hl. split; [by exists key|done].
Qed.

(** ** Owners *)

Lemma belongings_watched key k key' : (k, key') ∈ belongings key -> Owns k ∈ watches.
Proof.
  unfold belongings, step_slots. rewrite !elem_of_cons, elem_of_nil. intros Hin. unfold watches. rewrite !elem_of_cons. naive_solver.
Qed.

(** What belongs to the Task carries its owner reference. *)
Definition adopted_at (key : NamespacedName) (w : World) : Prop :=
  forall k key' o, (k, key') ∈ belongings key -> w_get w k key' = Some o -> enqueue_owner (obj_meta k o) = [key].

Definition adopted (w : World) : Prop := forall key t, w_get w KTask key = Some t -> adopted_at key w.

Lemma enqueue_owner_meta m m' :
  om_OwnerReferences m = om_OwnerReferences m' -> om_Namespace m = om_Namespace m' -> enqueue_owner m = enqueue_owner m'.
Proof. intros Hr Hn. unfold enqueue_owner. by rewrite (get_controller_refs _ _ Hr), Hn. Qed.

Lemma enqueue_owner_set task m m' :
  SetControllerReference (task_Meta task) m = Ok m' -> om_Namespace m' = task_Namespace task -> enqueue_owner m' = [key_of (task_Meta task)].
Proof.
  intros Hm Hn. destruct (set_controller_owner _ _ _ Hm) as (ref & Href & _). destruct (set_controller_ref _ _ _ _ Hm Href) as [Hname Hkind].
  unfold enqueue_owner. by rewrite Href, Hkind, Hn, Hname.
Qed.

Lemma adopted_changes key k key' v w w' :
  changes k key' v w w' -> adopted_at key w ->
  (forall o, v = Some o -> (k, key') ∈ belongings key -> enqueue_owner (obj_meta k o) = [key]) -> adopted_at key w'.
Proof.
  intros [Hat Hf _] Ha Hv k2 key2 o Hin Ho. destruct (decide ((k2, key2) = (k, key'))) as [Heq|Hne].
  - injection Heq as -> ->. rewrite Hat in Ho. by apply Hv.
  - rewrite Hf in Ho by done. by apply (Ha _ _ _ Hin).
Qed.

Lemma adopted_same key w w' : same w w' -> adopted_at key w -> adopted_at key w'.
Proof. intros [Hg _] Ha k key' o Hin. rewrite Hg. by apply Ha. Qed.

(** An upsert never takes an owner reference away, nor does it add one to an object
    that is there. *)
Lemma ensureOwned_keeps_owners k mutate `{!Mutator k mutate} task d w tr x w1 o :
  plain_kind k = true -> keyed w -> w_get w k (key_of (obj_meta k d)) = Some o ->
  exec (ensureOwned k task d mutate) tr x -> answered w tr w1 ->
  same w w1 \/ exists o', changes k (key_of (obj_meta k d)) (Some o') w w1 /\
    om_OwnerReferences (obj_meta k o') = om_OwnerReferences (obj_meta k o) /\ om_Namespace (obj_meta k o') = om_Namespace (obj_meta k o).
Proof.
  intros Hp Hk Ho Hx Ha. destruct (ensureOwned_cases _ _ _ _ _ _ Hx) as [(e & _ & -> & _)|(m & _ & Hc)]; [by left|]. cbn zeta in Hc.
  destruct Hc as [(e & _ & -> & _)|[(e & y & _ & -> & _)|[(o' & _ & -> & _)|(o' & y & _ & -> & _)]]];
    (apply (read_served _ _ _ _ w) in Ha as [Ha Hr]; [|done]); rewrite Ho in Hr; simplify_eq; [by left|right].
  assert (Hm : obj_meta k (updated k mutate o (set_meta k m d)) = set_labels (om_Labels m) (obj_meta k o)).
  { unfold updated. by rewrite !obj_meta_set_meta, mutate_meta. }
  destruct Ha as (w2 & Hs & Hw2). cbn in Hs. rewrite Hm in Hs.
  assert (Hkey : key_of (set_labels (om_Labels m) (obj_meta k o)) = key_of (obj_meta k d)) by exact (Hk _ _ _ Ho).
  rewrite Hkey, Ho in Hs. destruct Hs as (o' & _ & ([_ _ Hns _ _ Hrefs] & _) & Hch). rewrite Hm in Hns, Hrefs.
  exists o'. split; [by eapply changes_same|]. by rewrite Hrefs, Hns.
Qed.

(** ** The settled state of a Task *)

(** The server holds what the Task declares, with a Job that its status mirrors. *)
Definition at_rest (r : TaskReconciler) (task : Task) (agent : ClusterAgentClass) (w : World) : Prop :=
  declared r task agent w /\ exists job, w_get w KJob (key_of (task_Meta task)) = Some job /\ mirrors job task.

(** What the passes over a Task depend on. *)
Definition concerns (task : Task) (s : Slot) : Prop :=
  s ∈ owned_slots (key_of (task_Meta task)) \/ s = (KClusterAgentClass, agent_key task).

Lemma healthy_agree r task agent w w1 :
  agree_on (concerns task) w w1 -> keyed w -> healthy r task agent w1 -> healthy r task agent w.
Proof.
  intros [He Hg] Hk [_ Ht Hwf Hlive Hv Hcl Heg Hj]. split; try done.
  - unfold holds_task in *. rewrite <- Ht. symmetry. apply Hg. left. left.
  - rewrite <- Hcl. symmetry. apply Hg. by right.
  - eapply Forall_impl; [exact Heg|]. intros e. apply resolves_env. by symmetry.
Qed.

Lemma declared_agree r task agent w w1 : agree_on (concerns task) w w1 -> declared r task agent w -> declared r task agent w1.
Proof.
  intros [He Hg] [Ha Hr Hb (c & (tr & w' & Hx & Hans) & Hp) Hpr Hco].
  assert (Hs : forall k key, (k, key) ∈ step_slots (key_of (task_Meta task)) -> w_get w1 k key = w_get w k key).
  { intros k key Hin. apply Hg. left. by apply step_slot_own. }
  split; try (eapply wants_at; [apply Hs; unfold step_slots; rewrite !elem_of_cons; tauto|done]).
  exists c. split; [|eapply wants_at; [apply Hs; unfold step_slots; rewrite !elem_of_cons; tauto|done]].
  exists tr, w1. split; [done|]. eapply (lookups_env _ w); [|exact He|exact Hx|exact Hans].
  unfold resolveEgress. apply only_bind; [apply resolve_entries_only|intros; apply only_ret].
Qed.

Lemma at_rest_agree r task agent w w1 : agree_on (concerns task) w w1 -> at_rest r task agent w -> at_rest r task agent w1.
Proof.
  intros Hag [Hd (job & Hj & Hm)]. split; [by eapply declared_agree|]. exists job. split; [|done].
  rewrite (proj2 Hag); [done|]. left. right. left.
Qed.

Lemma own_concerns_disjoint req task s : req <> key_of (task_Meta task) -> own req s -> ~ concerns task s.
Proof. intros Hne Ho Hc. apply (own_reads_disjoint req (key_of (task_Meta task)) s Hne Ho). destruct Hc as [Hc| ->]; [by left|by right]. Qed.


(** A pass after which its Task can be run brings it to rest. *)
Lemma pass_rests r task agent w w1 :
  keyed w -> statuses_wf w -> pass r (key_of (task_Meta task)) w w1 -> healthy r task agent w1 -> at_rest r task agent w1.
Proof.
  intros Hk Hwf Hp Hh. destruct (any_settles r _ w Hwf w w1 Hk (same_agree _ _ _ (reflexivity w)) Hp) as [Hf _].
  pose proof Hh as [_ Ht Hwft Hlive Hv Hcl Heg Hj]. assert (He : same_env w w1) by by eapply pass_env.
  pose proof Hp as Hp'. apply reconcile_served in Hp'; [|done].
  destruct (w_get w KTask (key_of (task_Meta task))) as [t|] eqn:Ht0.
  2: { unfold holds_task in Ht. rewrite (same_get _ _ Hp'), Ht0 in Ht. done. }
  destruct Hp' as (Hkey & tr & res & Ha & Hx). pose proof (Hwf _ _ Ht0) as Hwf0. destruct (isTerminal (task_Phase t)) eqn:Hterm.
  { rewrite <- Hkey in Ht0. destruct (reconcile_terminal_served _ _ _ _ _ _ Ht0 Hwf0 Hterm Hx Ha) as [_ Hc]. unfold holds_task in Ht. rewrite <- Hkey in Ht.
    destruct Hc as [Hs|[Hn|(t' & Ht' & _ & _ & _ & Hterm')]]; [rewrite (same_get _ _ Hs) in Ht|congruence|]; congruence. }
  assert (Hst : exists st, task = with_st t st).
  { rewrite <- Hkey in Ht0. unfold holds_task in Ht. rewrite <- Hkey in Ht.
    destruct (reconcile_live_served r t w tr res w1 Hk Ht0 Hwf0 Hterm Hx Ha) as [_ [(t' & Ht' & Hterm' & _)|(st & Ht' & _)]]; [congruence|].
    exists st. congruence. }
  destruct Hst as [st ->]. cbn in Ht0, Hp, Hf.
  assert (Hh0 : healthy r t agent w).
  { split; try done.
    - rewrite <- Hcl. symmetry. apply Hf. intros Hown. unfold own, owned_slots, step_slots in Hown. repeat (apply elem_of_cons in Hown as [?|Hown]; [done|]). by apply elem_of_nil in Hown.
    - eapply Forall_impl; [exact Heg|]. intros e. apply resolves_env. by symmetry. }
  destruct Hp as (tr2 & res2 & Hx2 & Ha2).
  destruct (healthy_served _ _ _ _ _ _ _ Hh0 Hx2 Ha2) as ([[D1 D2 D3 D4 D5 D6] _] & _ & job & t1 & _ & Hj1 & Ht1 & _ & _ & _ & Hmir & _).
  unfold holds_task in Ht. cbn in Ht. rewrite Ht in Ht1. injection Ht1 as <-. split; [by split|]. by exists job.
Qed.

(** ** The control loop *)

(** The pass in progress: its key, its calls so far, and how it goes on. *)
Record Run := mkRun { rn_Key : NamespacedName; rn_Trace : Trace; rn_Rest : Prog (CtrlResult * result unit) }.

Record State := mkState { hl_World : World; hl_Queue : list NamespacedName; hl_Run : option Run }.

(** Optimistic concurrency: an update goes through on the object that was just read,
    and a status on the Task that was read first. *)
Definition current (tr : Trace) (w : World) (c : Call) : Prop :=
  match c with
  | CUpdate k o => let key := key_of (obj_meta k o) in
    forall live, last tr = Some (ev (CGet k key) (Ok live)) -> w_get w k key = Some live
  | CStatusUpdate t => let key := key_of (task_Meta t) in
    forall live, head tr = Some (ev (CGet KTask key) (Ok live)) -> w_get w KTask key = Some live
  | _ => True
  end.

(** A call is carried out, and the answer to a write may get lost; or a write is
    refused, for whatever reason. *)
Definition answers (tr : Trace) (w : World) (c : Call) (saw : resp c) (w1 : World) : Prop :=
  (exists did, served w c did w1 /\ current tr w c /\ (saw = did \/ failed_write (ev c saw) = true)) \/
  (same w w1 /\ failed_write (ev c saw) = true).

Inductive step (r : TaskReconciler) : State -> State -> Prop :=
(** The next key is taken off the queue.  The controller works on one at a time. *)
| begins w queue key :
    key ∈ queue -> step r (mkState w queue None) (mkState w (filter (fun k => k <> key) queue) (Some (mkRun key [] (Reconcile r key))))
(** The pass makes its next call; the event of a write may wake any Task.  The
    server refuses statuses that repeat a condition type. *)
| calls_once w queue key tr c k saw w1 woken :
    answers tr w c saw w1 -> statuses_wf w1 ->
    step r (mkState w queue (Some (mkRun key tr (Vis c k)))) (mkState w1 (queue ++ woken) (Some (mkRun key (tr ++ [ev c saw]) (k saw))))
(** The pass ends.  An error puts its key back, a requested delay may. *)
| finishes w queue key tr res woken :
    (forall e, res.2 = Err e -> key ∈ woken) ->
    step r (mkState w queue (Some (mkRun key tr (Ret res)))) (mkState w (queue ++ woken) None)
(** Others create, change or delete one object of any kind.  What belongs to a Task
    keeps its owner reference.  The object before and the object after are events. *)
| edits w queue run k key o w1 before after :
    changes k key o w w1 -> keyed w1 -> statuses_wf w1 -> adopted w1 ->
    notified_of w1 k (w_get w k key) before -> notified_of w1 k o after ->
    step r (mkState w queue run) (mkState w1 (queue ++ before ++ after) run)
(** Any key may come into the queue at any time: pods, resyncs, delays. *)
| wakes w queue run keys : step r (mkState w queue run) (mkState w (queue ++ keys) run).

(** The controller starts: the informers deliver every Task. *)
Definition started (w : World) (queue : list NamespacedName) : Prop :=
  forall key t, w_get w KTask key = Some t -> key ∈ queue.

(** *** One call *)

Lemma same_calls_frame w c x w1 (P : Slot -> Prop) :
  served w c x w1 -> (forall s, at_slot c s -> P s) -> frame P w w1.
Proof. intros Hs Hc k key Hn. eapply served_frame; [exact Hs|]. naive_solver. Qed.

(** What a call of the pass over [key] does to the server. *)
Record call_does (key : NamespacedName) (w w1 : World) : Prop := {
  cd_keyed : keyed w1;
  cd_env : same_env w w1;
  cd_frame : frame (own key) w w1;
  cd_adopted : adopted_at key w -> adopted_at key w1;
  cd_task : forall t1, w_get w1 KTask key = Some t1 -> exists t st, w_get w KTask key = Some t /\ t1 = with_st t st }.

Lemma call_does_same key w w1 : keyed w -> same w w1 -> call_does key w w1.
Proof.
  intros Hk Hs. split.
  - intros k key' o. rewrite (same_get _ _ Hs). apply Hk.
  - apply Hs.
  - by apply frame_same.
  - by apply adopted_same.
  - intros t1. rewrite (same_get _ _ Hs). intros Ht. exists t1, (task_Status t1). split; [done|by rewrite with_st_self].
Qed.

Lemma next_safe task tr c : next_ok task tr c -> task_safe task c.
Proof. unfold next_ok. destruct (isTerminal _); intros Hn; [apply terminal_call_safe|]; apply Hn. Qed.

Lemma next_adopts task tr0 tr c x w w1 :
  keyed w -> truthful tr -> next_ok task tr c -> current (tr0 ++ tr) w c -> served w c x w1 ->
  adopted_at (key_of (task_Meta task)) w -> adopted_at (key_of (task_Meta task)) w1.
Proof.
  intros Hk Htr Hn Hcur Hs Ha. assert (Hid : same w w1 -> adopted_at (key_of (task_Meta task)) w1) by (intros; by eapply adopted_same).
  pose proof (next_safe _ _ _ Hn) as Hsafe.
  destruct c as [k' key'|k' o|k' o|k' key' uid|t|ns sel|live ns sel|ref| |h| |mt|e|rsp]; cbn in Hs; try (by apply Hid, Hs); try by apply Hid.
  - destruct Hs as [(o' & _ & Hst & _ & Hch)|(_ & Hs & _)]; [|by apply Hid]. eapply adopted_changes; [exact Hch|done|]. intros ? [= <-] _.
    unfold next_ok in Hn. destruct (isTerminal _); [by destruct Hn|]. destruct Hn as [[[_ ?]|(_ & _ & Hns & m & Hm)] _]; [done|].
    destruct Hst as [[_ _ Hn' _ _ Ho'] _]. rewrite (enqueue_owner_meta _ _ Ho' Hn'). by eapply enqueue_owner_set.
  - unfold next_ok in Hn. destruct (isTerminal _); [by destruct Hn|]. destruct Hn as [[[_ ?]|(pre & key & live & -> & Hin & Hkey & Hrefs)] _]; [done|].
    apply Forall_app in Htr as [_ [Hl _]%Forall_cons]. cbn in Hl. rewrite <- Hkey in Hl. subst key.
    assert (Hg : w_get w k' (key_of (obj_meta k' o)) = Some live) by (apply Hcur; by rewrite app_assoc, last_snoc).
    rewrite Hg in Hs. destruct Hs as (o' & _ & ([_ _ Hns _ _ Hrefs'] & _) & Hch). eapply adopted_changes; [exact Hch|done|]. intros ? [= <-] _.
    rewrite <- (Ha _ _ _ Hin Hg). apply enqueue_owner_meta; [congruence|]. rewrite Hns. unfold key_of in Hkey. by injection Hkey.
  - destruct (w_get w k' _); [|by apply Hid, Hs]. destruct Hs as [(_ & _ & Hch)|(_ & _ & Hs)]; [|by apply Hid]. by eapply adopted_changes.
  - destruct (w_get w KTask _); [|by apply Hid, Hs]. destruct Hs as (_ & Hch). eapply adopted_changes; [exact Hch|done|].
    by intros ? _ []%belongings_not_task.
Qed.

Lemma pass_call_does r key tr c k saw w w1 :
  keyed w -> truthful tr -> after (Reconcile r key) tr (Vis c k) -> answers tr w c saw w1 -> call_does key w w1.
Proof.
  intros Hk Htr Haf [(did & Hs & Hcur & _)|[Hs _]]; [|by apply call_does_same].
  destruct (pass_next _ _ _ _ _ Htr Haf) as [[-> ->]|(task & tr' & -> & <- & Hn)]; [apply call_does_same; [done|apply Hs]|].
  apply Forall_cons in Htr as [_ Htr]. split.
  - by eapply served_stays_keyed.
  - by eapply served_env.
  - eapply same_calls_frame; [exact Hs|]. intros s. by apply (next_slot task tr').
  - by eapply (next_adopts task [_]).
  - intros t1 Ht1. destruct (safe_call_task _ _ _ _ _ _ _ Hs (next_safe _ _ _ Hn) Ht1) as (t & Ht & [->|(u & _ & _ & ->)]).
    + exists t, (task_Status t). split; [done|by rewrite with_st_self].
    + by exists t, (task_Status u).
Qed.

Lemma answers_truthful tr w c saw w1 : keyed w -> answers tr w c saw w1 -> truthful_answer (ev c saw).
Proof.
  intros Hk Ha. assert (Hf : failed_write (ev c saw) = true -> truthful_answer (ev c saw)) by (by destruct c, saw).
  destruct Ha as [(did & Hs & _ & [->|?])|[_ ?]]; [|by auto..].
  destruct c as [k' key'| | | |t| | | | | | | | |]; cbn; try done; cbn in Hs.
  - destruct Hs as [_ Hs]. destruct (w_get w k' key') as [o|] eqn:Ho; [subst did; by apply Hk|]. by destruct Hs as (e & -> & _).
  - destruct (w_get w KTask _) as [old|] eqn:Ho; [destruct Hs as [-> _]; exact (Hk _ _ _ Ho)|]. by destruct Hs as ((e & -> & _) & _).
Qed.

(** *** The pass in progress *)

(** The pass has nothing to bring to rest. *)
Definition idle (key : NamespacedName) (tr : Trace) (w : World) : Prop :=
  (exists got tr', tr = ev (CGet KTask key) got :: tr' /\ forall t, got = Ok t -> isTerminal (task_Phase t) = true) /\
  forall t, w_get w KTask key = Some t -> isTerminal (task_Phase t) = true.

(** The calls so far are those of a pass that started at [g0] while nobody else
    wrote, and the server agrees with the state [g] that this pass has reached. *)
Record shadow (key : NamespacedName) (tr : Trace) (w g0 g : World) : Prop := {
  sh_keyed : keyed g0;
  sh_statuses : statuses_wf g0;
  sh_answered : answered g0 tr g;
  sh_agree : agree_on (own key) w g;
  sh_class : forall t, w_get w KTask key = Some t -> isTerminal (task_Phase t) = false ->
    w_get g KClusterAgentClass (agent_key t) = w_get w KClusterAgentClass (agent_key t);
  sh_live : tr = [] \/ exists t tr', tr = ev (CGet KTask key) (Ok t) :: tr' /\ isTerminal (task_Phase t) = false /\
    is_Some (w_get w KTask key) }.

Lemma shadow_start key w : keyed w -> statuses_wf w -> shadow key [] w w w.
Proof. intros Hk Hwf. split; try done. by left. Qed.

Lemma first_read_inj key a b t1 t2 : ev (CGet KTask key) a :: t1 = ev (CGet KTask key) b :: t2 -> a = b.
Proof.
  intros He. apply (f_equal (fun l : Trace => match l with e :: _ => match e return resp (CGet KTask key) with existT (CGet KTask _) x => x | _ => a end | [] => a end)) in He.
  exact He.
Qed.

Lemma not_own_class key key' : ~ own key (KClusterAgentClass, key').
Proof.
  intros Hown. unfold own, owned_slots, step_slots in Hown. repeat (apply elem_of_cons in Hown as [?|Hown]; [done|]). by apply elem_of_nil in Hown.
Qed.

Lemma answered_snoc w tr w1 c x w2 : answered w tr w1 -> served w1 c x w2 -> answered w (tr ++ [ev c x]) w2.
Proof. intros Ha Hs. apply answered_trans. exists w1. split; [done|]. by exists w2. Qed.

(** The first read decides what the pass is about. *)
Lemma first_call key saw w w1 :
  keyed w -> statuses_wf w -> served w (CGet KTask key) saw w1 ->
  idle key [ev (CGet KTask key) saw] w1 \/ shadow key [ev (CGet KTask key) saw] w1 w w1.
Proof.
  intros Hk Hwf [Hs Hx]. destruct (w_get w KTask key) as [t|] eqn:Ht.
  - subst saw. destruct (isTerminal (task_Phase t)) eqn:Hterm; [left|right].
    + split; [exists (Ok t), []; split; [done|by intros ? [= <-]]|]. intros t' Ht'. rewrite (same_get _ _ Hs), Ht in Ht'. by injection Ht' as <-.
    + split; try done.
      * exists w1. split; [|done]. split; [done|by rewrite Ht].
      * right. exists t, []. split_and!; [done..|]. rewrite (same_get _ _ Hs), Ht. by exists t.
  - left. destruct Hx as (e & -> & _). split; [by exists (Err e), []|]. intros t'. rewrite (same_get _ _ Hs), Ht. done.
Qed.

(** A call of a live pass on a server that agrees. *)
Lemma tidy_shadow key task tr' c saw w w1 g0 g :
  let tr := ev (CGet KTask key) (Ok task) :: tr' in
  truthful tr' -> key_of (task_Meta task) = key -> isTerminal (task_Phase task) = false -> is_Some (w_get w KTask key) ->
  tidy_call task tr' c -> task_safe task c -> current tr w c -> served w c saw w1 -> shadow key tr w g0 g ->
  exists g1, shadow key (tr ++ [ev c saw]) w1 g0 g1.
Proof.
  intros tr Htr <- Hlive [t Ht] Hti Hsafe Hcur Hs [Hk Hwf Ha Hag Hcl _]. set (key := key_of (task_Meta task)) in *.
  assert (Hn : next_ok task tr' c) by (unfold next_ok; rewrite Hlive; by split; [right|]).
  assert (Hslot : forall s, at_slot c s -> own key s) by (intros s; by apply (next_slot task tr')).
  destruct (served_agree (own key) w g c saw w1 Hag) as (g1 & Hs1 & Hag1); [| |exact Hs|].
  { intros s Hts. destruct c; try by apply Hslot. cbn in Hts, Hti. subst s. by apply belongings_own. }
  { by destruct c; try done; destruct Hti as (_ & ? & _). }
  assert (Htask : forall t1, w_get w1 KTask key = Some t1 -> isTerminal (task_Phase t1) = false -> agent_key t1 = agent_key t /\ isTerminal (task_Phase t) = false).
  { intros t1 Ht1 Hl1. destruct (safe_call_task _ _ _ _ _ _ _ Hs Hsafe Ht1) as (t' & Ht' & Hc). assert (t' = t) as -> by congruence.
    destruct Hc as [->|(u & -> & _ & ->)]; [done|]. split; [done|]. cbn in Hsafe. assert (t = task) as ->; [|done].
    assert (Hg : w_get w KTask key = Some task); [|congruence]. specialize (Hcur task). rewrite Hsafe in Hcur. by apply Hcur. }
  exists g1. split; try done.
  - by eapply answered_snoc.
  - intros t1 Ht1 Hl1. destruct (Htask _ Ht1 Hl1) as [-> Hl]. pose proof (not_own_class key (agent_key t)) as Hno.
    rewrite (same_calls_frame _ _ _ _ _ Hs Hslot _ _ Hno), (same_calls_frame _ _ _ _ _ Hs1 Hslot _ _ Hno). by apply Hcl.
  - right. exists task, (tr' ++ [ev c saw]). split_and!; [done..|].
    assert (Hfr : ~ at_slot c (KTask, key) -> is_Some (w_get w1 KTask key)) by (intros Hno; rewrite (served_frame _ _ _ _ _ _ Hs Hno); by exists t).
    destruct c as [k' key'|k' o|k' o|k' key' uid|u| | | | | | | | |]; try (apply Hfr; exact id); cbn in Hfr.
    + destruct Hti as (Hin & Hg & _). apply Hfr. intros [Hkk Hkey]. subst k'. by apply belongings_not_task in Hin.
    + destruct Hti as (pre & key' & live & -> & Hin & Hkey & _). apply Hfr. intros [= <- _]. by apply belongings_not_task in Hin.
    + apply Hfr. intros [= <- <-]. by apply belongings_not_task in Hti.
    + cbn in Hs, Hsafe. rewrite Hsafe in Hs. fold key in Hs. rewrite Ht in Hs. destruct Hs as [_ [Hat _ _]]. rewrite Hat. by eexists.
Qed.

(** The read of the class, on a server that agrees. *)
Lemma class_shadow key task saw w w1 g0 g :
  let tr := [ev (CGet KTask key) (Ok task)] in let c := CGet KClusterAgentClass (agent_key task) in
  isTerminal (task_Phase task) = false -> served w c saw w1 -> shadow key tr w g0 g -> shadow key (tr ++ [ev c saw]) w1 g0 g.
Proof.
  intros tr c Hlive [Hs Hx] [Hk Hwf Ha [He Hg] Hcl Hli]. destruct Ha as (g' & [Hs0 Hx0] & Hs1).
  assert (Ht : w_get w KTask key = Some task).
  { rewrite <- Hg by left. rewrite (same_get _ _ Hs1), (same_get _ _ Hs0). destruct (w_get g0 KTask key) as [t|]; [by injection Hx0 as ->|by destruct Hx0 as (? & ? & _)]. }
  split; try done.
  - eapply answered_snoc; [exists g'; by split|]. split; [reflexivity|]. by rewrite (Hcl _ Ht Hlive).
  - split; [by rewrite <- (same_rest _ _ Hs)|]. intros k key' Ho. rewrite (same_get _ _ Hs). by apply Hg.
  - intros t. rewrite !(same_get _ _ Hs). apply Hcl.
  - right. eexists _, _. split; [done|]. split; [done|]. rewrite (same_get _ _ Hs), Ht. by eexists.
Qed.

Lemma idle_call r key tr c k saw w w1 :
  truthful tr -> after (Reconcile r key) tr (Vis c k) -> answers tr w c saw w1 -> idle key tr w -> idle key (tr ++ [ev c saw]) w1.
Proof.
  intros Htr Haf Hans [(got & tr' & -> & Hgot) Hw]. split; [by exists got, (tr' ++ [ev c saw])|]. intros t1 Ht1.
  destruct Hans as [(did & Hs & _ & _)|[Hs _]]; [|rewrite (same_get _ _ Hs) in Ht1; by apply Hw].
  destruct (pass_next _ _ _ _ _ Htr Haf) as [[? _]|(task & tr2 & Heq & <- & Hn)]; [done|].
  apply first_read_inj in Heq as ->. specialize (Hgot _ eq_refl). pose proof (next_safe _ _ _ Hn) as Hsafe.
  unfold next_ok in Hn. rewrite Hgot in Hn. destruct Hn as [Hc _].
  destruct (safe_call_task _ _ _ _ _ _ _ Hs Hsafe Ht1) as (t & Ht & [->|(u & -> & _ & ->)]); [by apply Hw|].
  apply keeps_phase in Hc. unfold task_Phase in *. cbn. by rewrite Hc.
Qed.

(** The pass in progress: its key is queued again, or a write failed and the pass
    will end with an error, or it has nothing to do, or nobody got in its way. *)
Definition run_ok (r : TaskReconciler) (w : World) (queue : list NamespacedName) (run : Run) : Prop :=
  let '(mkRun key tr p) := run in
  after (Reconcile r key) tr p /\ truthful tr /\
  (key ∈ queue \/ ~ all_accepted tr \/ idle key tr w \/ exists g0 g, shadow key tr w g0 g).

Lemma run_call r key tr c k saw w w1 queue woken :
  keyed w -> statuses_wf w -> answers tr w c saw w1 -> run_ok r w queue (mkRun key tr (Vis c k)) ->
  run_ok r w1 (queue ++ woken) (mkRun key (tr ++ [ev c saw]) (k saw)).
Proof.
  intros Hk Hwf Hans (Haf & Htr & Hd). split; [by apply after_call|]. split.
  { apply Forall_app. split; [done|]. constructor; [by eapply answers_truthful|constructor]. }
  unfold all_accepted. rewrite Forall_app, elem_of_app, Forall_singleton.
  destruct Hd as [?|[Hno|[Hid|(g0 & g & Hsh)]]]; [by left; left|right; left; by intros []|right; right; left; by eapply idle_call|].
  destruct (failed_write (ev c saw)) eqn:Hf; [right; left; by intros []|]. right. right.
  destruct Hans as [(did & Hs & Hcur & [->|?])|[_ ?]]; [|congruence..].
  destruct (pass_next _ _ _ _ _ Htr Haf) as [[-> ->]|(task & tr' & -> & Hkey & Hn)].
  - destruct (first_call _ _ _ _ Hk Hwf Hs) as [?|?]; [by left|right]. by exists w, w1.
  - right. destruct (sh_live _ _ _ _ _ Hsh) as [?|(t & tr2 & Heq & Hlive & Hsome)]; [done|].
    apply first_read_inj in Heq. injection Heq as <-. unfold next_ok in Hn. rewrite Hlive in Hn. destruct Hn as [[[-> ->]|Hti] Hsafe].
    + exists g0, g. exact (class_shadow key task did w w1 g0 g Hlive Hs Hsh).
    + apply Forall_cons in Htr as [_ Htr]. destruct (tidy_shadow key task tr' c did w w1 g0 g) as [g1 Hg1]; try done. by exists g0, g1.
Qed.

(** *** Changes by others *)

Lemma changes_agree (P : Slot -> Prop) k key v w w' : changes k key v w w' -> (P (k, key) -> w_get w k key = v) -> agree_on P w w'.
Proof.
  intros [Hat Hf He] Hn. split; [done|]. intros k' key' Hp. destruct (decide ((k', key') = (k, key))) as [[= -> ->]|Hne]; [|by apply Hf].
  rewrite Hat. symmetry. by apply Hn.
Qed.

(** The conditions of the step [edits]. *)
Record edit (w w1 : World) (k : Kind) (key : NamespacedName) (o : option (obj k)) (keys : list NamespacedName) : Prop := {
  ed_changes : changes k key o w w1;
  ed_keyed : keyed w /\ keyed w1;
  ed_adopted : adopted w /\ adopted w1;
  ed_noticed : exists before after, keys = before ++ after /\ notified_of w1 k (w_get w k key) before /\ notified_of w1 k o after }.

(** An object that was there before or is there after is noticed. *)
Lemma edit_wakes w w1 k key o keys woken :
  edit w w1 k key o keys ->
  (forall x ks, (o = Some x /\ w_get w1 k key = Some x) \/ (o = None /\ w_get w k key = Some x) -> notified w1 (event_of k (obj_meta k x)) ks -> woken ∈ ks) ->
  woken ∈ keys \/ w_get w k key = o.
Proof.
  intros [Hch _ _ (before & after & -> & Hb & Ha)] Hx. rewrite elem_of_app. destruct o as [x|].
  - left. right. apply (Hx x); [left; split; [done|apply Hch]|done].
  - destruct (w_get w k key) as [x|] eqn:Ho; [|by right]. left. left. apply (Hx x); [by right|done].
Qed.

(** An edit of what belongs to a Task wakes the Task. *)
Lemma edit_own w w1 k key o keys req :
  edit w w1 k key o keys -> own req (k, key) -> is_Some (w_get w KTask req) -> req ∈ keys \/ w_get w k key = o.
Proof.
  intros He Hown [t Ht]. apply (edit_wakes _ _ _ _ _ _ _ He). intros x ks Hx Hn. destruct He as [Hch [Hk Hk1] [Had Had1] _].
  apply elem_of_cons in Hown as [[= -> ->]|Hin].
  - rewrite (notified_task _ _ _ Hn). destruct Hx as [[_ Hx]|[_ Hx]]; [rewrite (Hk1 _ _ _ Hx)|rewrite (Hk _ _ _ Hx)]; left.
  - pose proof (belongings_watched _ _ _ Hin) as Hw. assert (Hne : (KTask, req) <> (k, key)) by (intros [= <- <-]; by apply belongings_not_task in Hin).
    assert (Hev : event_of k (obj_meta k x) = ObjectEvent k (obj_meta k x)).
    { unfold watches in Hw. rewrite !elem_of_cons, elem_of_nil in Hw. destruct k; try done; naive_solver. }
    rewrite Hev in Hn. apply notified_owned in Hn; [|done]. subst ks.
    destruct Hx as [[_ Hx]|[_ Hx]]; [|rewrite (Had _ _ Ht _ _ _ Hin Hx); left].
    rewrite <- (changed_frame _ _ _ _ _ Hch _ _ Hne) in Ht. rewrite (Had1 _ _ Ht _ _ _ Hin Hx). left.
Qed.

(** An edit of the class that a Task names wakes the Task. *)
Lemma edit_class w w1 t o keys :
  edit w w1 KClusterAgentClass (agent_key t) o keys -> w_get w1 KTask (key_of (task_Meta t)) = Some t -> isTerminal (task_Phase t) = false ->
  key_of (task_Meta t) ∈ keys \/ w_get w KClusterAgentClass (agent_key t) = o.
Proof.
  intros He Ht Hlive. apply (edit_wakes _ _ _ _ _ _ _ He). intros x ks Hx Hn. destruct He as [_ [Hk Hk1] _ _].
  assert (Hkey : key_of (class_Meta x) = agent_key t) by (destruct Hx as [[_ Hx]|[_ Hx]]; [exact (Hk1 _ _ _ Hx)|exact (Hk _ _ _ Hx)]).
  injection Hkey as _ Hname. cbn in Hn. rewrite Hname in Hn. by eapply notified_class.
Qed.

Lemma edit_run r w w1 k key o keys queue run :
  edit w w1 k key o keys -> statuses_wf w1 -> run_ok r w queue run -> run_ok r w1 (queue ++ keys) run.
Proof.
  intros He Hwf1. destruct run as [req tr p]. intros (Haf & Htr & Hd). split; [done|]. split; [done|]. rewrite elem_of_app.
  destruct Hd as [?|[?|[Hid|(g0 & g & Hsh)]]]; [by left; left|by right; left|..].
  - destruct (decide ((k, key) = (KTask, req))) as [Heq|Hne].
    + injection Heq as -> ->. destruct o as [t|].
      * left. right. destruct (ed_noticed _ _ _ _ _ _ He) as (before & after & -> & _ & Hn). apply elem_of_app. right. cbn in Hn.
        rewrite (notified_task _ _ _ Hn). pose proof (proj2 (ed_keyed _ _ _ _ _ _ He) _ _ _ (changed_at _ _ _ _ _ (ed_changes _ _ _ _ _ _ He))) as Hkey.
        cbn in Hkey. rewrite Hkey. left.
      * right. right. left. destruct Hid as [Hh _]. split; [done|]. intros t. by rewrite (changed_at _ _ _ _ _ (ed_changes _ _ _ _ _ _ He)).
    + right. right. left. destruct Hid as [Hh Hw]. split; [done|]. intros t. rewrite (changed_frame _ _ _ _ _ (ed_changes _ _ _ _ _ _ He)) by done. apply Hw.
  - destruct (decide (req ∈ keys)) as [?|Hno]; [by left; right|]. right. right. right.
    destruct Hsh as [Hk0 Hwf0 Ha [Henv Hg] Hcl Hli]. destruct Hli as [->|(t & tr' & -> & Hlive & Hsome)].
    { exists w1, w1. apply shadow_start; [apply He|done]. }
    assert (Hag : agree_on (own req) w w1).
    { eapply changes_agree; [apply He|]. intros Hown. by destruct (edit_own _ _ _ _ _ _ _ He Hown Hsome). }
    assert (Htask : w_get w1 KTask req = w_get w KTask req) by (apply Hag; left).
    exists g0, g. split; try done.
    + split; [by rewrite <- (proj1 Hag)|]. intros k' key' Ho. rewrite (proj2 Hag) by done. by apply Hg.
    + intros t1 Ht1 Hl1. rewrite (Hcl t1) by (by rewrite <- ?Htask). symmetry. destruct (decide ((KClusterAgentClass, agent_key t1) = (k, key))) as [Heq|Hne].
      * injection Heq as <- <-. pose proof (proj2 (ed_keyed _ _ _ _ _ _ He) _ _ _ Ht1) as Hkey. cbn in Hkey.
        destruct (edit_class w w1 t1 o keys He) as [Hin|Hs]; [by rewrite Hkey|done|by rewrite Hkey in Hin|]. rewrite Hs. apply He.
      * by apply (changed_frame _ _ _ _ _ (ed_changes _ _ _ _ _ _ He)).
    + right. exists t, tr'. by rewrite Htask.
Qed.

(** *** The invariant *)

(** A pass that ended leaves its Task at rest, unless it is queued again. *)
Lemma run_end r w queue key tr res woken task agent :
  run_ok r w queue (mkRun key tr (Ret res)) -> (forall e, res.2 = Err e -> key ∈ woken) ->
  healthy r task agent w -> key_of (task_Meta task) = key -> key ∉ queue ++ woken -> at_rest r task agent w.
Proof.
  intros (Haf & _ & Hd) Hres Hh <- Hn. rewrite elem_of_app in Hn. pose proof Hh as [_ Ht _ Hlive _ _ _ _].
  assert (Hx : exec (Reconcile r (key_of (task_Meta task))) tr res).
  { rewrite <- (app_nil_r tr). by eapply after_exec. }
  destruct Hd as [?|[Hno|[[_ Hw]|(g0 & g & [Hk0 Hwf0 Ha [He Hg] Hcl _])]]]; [by destruct Hn; left| | |].
  - destruct res as [ctrl [[]|e]]; [by destruct Hno; eapply pass_accepted|]. destruct Hn. right. by apply (Hres e).
  - rewrite (Hw _ Ht) in Hlive. done.
  - assert (Hag : agree_on (concerns task) g w).
    { split; [by symmetry|]. intros k key [Ho|[= -> ->]]; symmetry; [by apply Hg|by apply Hcl]. }
    eapply at_rest_agree; [exact Hag|]. eapply pass_rests; [exact Hk0|exact Hwf0|by exists tr, res|].
    eapply healthy_agree; [exact Hag|by eapply answered_keyed|done].
Qed.

Definition working_on (st : State) (key : NamespacedName) : Prop := exists run, hl_Run st = Some run /\ rn_Key run = key.

Record Inv (r : TaskReconciler) (st : State) : Prop := {
  inv_keyed : keyed (hl_World st);
  inv_statuses : statuses_wf (hl_World st);
  inv_adopted : adopted (hl_World st);
  inv_run : forall run, hl_Run st = Some run -> run_ok r (hl_World st) (hl_Queue st) run;
  inv_rest : forall task agent, healthy r task agent (hl_World st) ->
    key_of (task_Meta task) ∉ hl_Queue st -> ~ working_on st (key_of (task_Meta task)) -> at_rest r task agent (hl_World st) }.

Lemma run_ok_mono r w queue keys run : run_ok r w queue run -> run_ok r w (queue ++ keys) run.
Proof. destruct run as [key tr p]. intros (? & ? & Hd). split_and!; [done..|]. rewrite elem_of_app. tauto. Qed.

Lemma call_adopted key w w1 : call_does key w w1 -> adopted w -> adopted w1.
Proof.
  intros [_ _ Hf Had Htask] Ha req t1 Ht1. destruct (decide (req = key)) as [->|Hne].
  - destruct (Htask _ Ht1) as (t & st & Ht & _). by apply Had, (Ha _ t).
  - assert (Hg : forall k key', own req (k, key') -> w_get w1 k key' = w_get w k key').
    { intros k key' Ho. apply Hf. intros Ho'. apply (own_reads_disjoint req key _ Hne Ho). by left. }
    rewrite Hg in Ht1 by left. intros k key' o Hin. rewrite Hg by by apply belongings_own. by apply (Ha _ _ Ht1).
Qed.

Lemma keeps_rest r task agent w w1 :
  agree_on (concerns task) w w1 -> keyed w -> (healthy r task agent w -> at_rest r task agent w) -> healthy r task agent w1 -> at_rest r task agent w1.
Proof. intros Hag Hk Hw Hh. eapply at_rest_agree; [exact Hag|]. apply Hw. by eapply healthy_agree. Qed.

Lemma step_keeps r st st1 : step r st st1 -> Inv r st -> Inv r st1.
Proof.
  destruct 1 as [w queue key Hq|w queue key tr c k saw w1 woken Hans Hwf1|w queue key tr res woken Hres
    |w queue run k key o w1 before after Hch Hk1 Hwf1 Had1 Hb Ha|w queue run keys]; intros [Hk Hwf Had Hrun Hrest]; cbn in *.
  - split; cbn; [done..| |].
    + intros run [= <-]. split; [constructor|]. split; [constructor|]. right. right. right. exists w, w. by apply shadow_start.
    + intros task agent Hh Hn Hw. apply Hrest; [done| |by intros (run & ? & _)]. intros Hin. apply Hn, list_elem_of_filter. split; [|done].
      intros Heq. apply Hw. eexists. split; [done|]. by rewrite Heq.
  - pose proof (Hrun _ eq_refl) as Hr. pose proof Hr as (Haf & Htr & _). pose proof (pass_call_does _ _ _ _ _ _ _ _ Hk Htr Haf Hans) as Hd.
    split; cbn; [apply Hd|done|by eapply call_adopted| |].
    + intros run [= <-]. by eapply run_call.
    + intros task agent Hh Hn Hw. apply not_elem_of_app in Hn as [Hn _].
      assert (Hne : key <> key_of (task_Meta task)) by (intros ->; apply Hw; by eexists).
      eapply (keeps_rest _ _ _ w); [|done| |exact Hh].
      * split; [apply Hd|]. intros k' key' Hc. apply (cd_frame _ _ _ Hd). intros Ho. by eapply own_concerns_disjoint.
      * intros Hh0. apply Hrest; [done|done|]. intros (run & [= <-] & Heq). done.
  - pose proof (Hrun _ eq_refl) as Hr. split; cbn; [done..|by intros|]. intros task agent Hh Hn _.
    destruct (decide (key_of (task_Meta task) = key)) as [Heq|Hne]; [eapply run_end; [exact Hr|exact Hres|done|done|by rewrite <- Heq]|].
    apply not_elem_of_app in Hn as [Hn _]. apply Hrest; [done|done|]. intros (run & [= <-] & Heq). by cbn in Heq.
  - assert (He : edit w w1 k key o (before ++ after)) by (split; [done..|by exists before, after]).
    split; cbn; [done..| |]; [intros run' Hr'; by apply edit_run with w k key o; auto|].
    intros task agent Hh Hn Hw. apply not_elem_of_app in Hn as [Hn Hev]. pose proof Hh as [_ Ht _ Hlive _ _ _ _]. unfold holds_task in Ht.
    eapply (keeps_rest _ _ _ w); [|done| |exact Hh].
    + eapply changes_agree; [exact Hch|]. intros [Ho|Hcl].
      * destruct (w_get w KTask (key_of (task_Meta task))) as [t|] eqn:Ht0; [by destruct (edit_own _ _ _ _ _ _ _ He Ho ltac:(by rewrite Ht0))|].
        destruct (decide ((KTask, key_of (task_Meta task)) = (k, key))) as [Heq|Hne]; [|rewrite (changed_frame _ _ _ _ _ Hch) in Ht by done; congruence].
        injection Heq as <- <-. rewrite (changed_at _ _ _ _ _ Hch) in Ht. subst o. cbn in Ha. destruct Hev. apply elem_of_app. right.
        rewrite (notified_task _ _ _ Ha). left.
      * injection Hcl as -> ->. by destruct (edit_class _ _ _ _ _ He Ht Hlive).
    + intros Hh0. by apply Hrest.
  - split; cbn; [done..| |]; [intros run' Hr'; by apply run_ok_mono, Hrun|]. intros task agent Hh Hn Hw. apply not_elem_of_app in Hn as [Hn _].
    by apply Hrest.
Qed.

Lemma loop_keeps r st st1 : rtc (step r) st st1 -> Inv r st -> Inv r st1.
Proof. induction 1 as [|x y z Hxy _ IH]; intros Hi; [done|]. by apply IH, (step_keeps r x). Qed.

Lemma Inv_started r w queue : keyed w -> statuses_wf w -> adopted w -> started w queue -> Inv r (mkState w queue None).
Proof. intros Hk Hwf Had Hs. split; cbn; [done..|]. intros task agent Hh Hn. destruct Hn. eapply Hs, Hh. Qed.

(** C19. Nothing drifts unnoticed.  Let the controller start on any cluster whose owned
    objects carry their owner references, and let it work off the queue that its
    watches fill, one pass at a time, as is its default.  Between any two calls of a pass
    others may create, change and delete Tasks, classes and owned objects (an edit keeps
    the owner references of what belongs to a Task), writes of the pass may be refused
    for any reason, and answers to them may get lost; reads see what the server stores,
    and a lookup of a name answers the same throughout.  In every state that is reached, a Task that can
    be run, is not in the queue and is not being worked on has the ServiceAccount, Role,
    binding, NetworkPolicy and ConfigMaps that it and its class declare at that moment,
    and none that they do not declare, equal in every field that the controller copies
    (so not in the immutable RoleRef of a binding that was there before), and its
    status mirrors its Job. *)
Theorem nothing_drifts r w0 queue0 st task agent :
  keyed w0 -> statuses_wf w0 -> adopted w0 -> started w0 queue0 -> rtc (step r) (mkState w0 queue0 None) st ->
  healthy r task agent (hl_World st) -> key_of (task_Meta task) ∉ hl_Queue st -> ~ working_on st (key_of (task_Meta task)) ->
  declared r task agent (hl_World st) /\
  exists job, w_get (hl_World st) KJob (key_of (task_Meta task)) = Some job /\ mirrors job task.
Proof.
  intros Hk Hwf Had Hs Hr. apply inv_rest. eapply loop_keeps; [exact Hr|]. by apply Inv_started.
Qed.

(** ** A pass that can be run *)

Definition current_b (tr : Trace) (w : World) (c : Call) : bool :=
  match c with
  | CUpdate _ _ => match last tr with Some (existT (CGet k key) (Ok live)) => bool_decide (w_get w k key = Some live) | _ => true end
  | CStatusUpdate _ => match head tr with Some (existT (CGet k key) (Ok live)) => bool_decide (w_get w k key = Some live) | _ => true end
  | _ => true
  end.

Lemma current_b_ok tr w c : current_b tr w c = true -> current tr w c.
Proof.
  destruct c as [|k o|k o| |t| | | | | | | | |]; cbn; try done; intros Hb live Hl; rewrite Hl in Hb; by apply bool_decide_eq_true in Hb.
Qed.

(** The condition types of the Tasks of these keys are distinct. *)
Definition statuses_b (keys : list NamespacedName) (w : World) : bool :=
  forallb (fun key => match w_get w KTask key with Some t => bool_decide (status_wf (task_Status t)) | None => true end) keys.

Lemma statuses_b_ok keys w : covers keys w -> statuses_b keys w = true -> statuses_wf w.
Proof.
  intros Hc Hb key t Ht. unfold statuses_b in Hb. rewrite forallb_forall in Hb. specialize (Hb key). rewrite Ht in Hb.
  eapply bool_decide_eq_true, Hb, list_elem_of_In, Hc, Ht.
Qed.

(** The server answers every call; the flag says that all is as the steps demand. *)
Fixpoint drive (keys : list NamespacedName) (now : Time) (tr : Trace) (p : Prog (CtrlResult * result unit)) (w : World)
  : bool * (World * Trace * (CtrlResult * result unit)) :=
  match p with
  | Ret a => (true, (w, tr, a))
  | Vis c k =>
    let '(x, w1) := respond keys now c w in
    let '(b, out) := drive keys now (tr ++ [ev c x]) (k x) w1 in
    (within keys (ev c x) && current_b tr w c && statuses_b keys w1 && b, out)
  end.

Lemma drive_steps r keys now queue key p : forall tr w w2 tr2 a,
  covers keys w -> drive keys now tr p w = (true, (w2, tr2, a)) ->
  rtc (step r) (mkState w queue (Some (mkRun key tr p))) (mkState w2 queue (Some (mkRun key tr2 (Ret a)))).
Proof.
  induction p as [a|c k IH]; intros tr w w2 tr2 a0 Hc Hd; cbn [drive] in Hd; [by injection Hd as <- <- <-|].
  pose proof (respond_served "x1" keys now w c Hc) as Hs. change (respond_as "x1" keys now c w) with (respond keys now c w) in Hs.
  destruct (respond keys now c w) as [x w1]. cbn in Hs. destruct (drive keys now (tr ++ [ev c x]) (k x) w1) as [b out] eqn:Hr.
  injection Hd as Hb ->. rewrite !andb_true_iff in Hb. destruct Hb as [[[Hw Hcur] Hst] ->].
  assert (Hc1 : covers keys w1) by by eapply served_covers.
  eapply rtc_l; [|by eapply IH]. rewrite <- (app_nil_r queue) at 2. apply calls_once; [|by eapply statuses_b_ok].
  left. exists x. split; [done|]. split; [by apply current_b_ok|by left].
Qed.

Lemma drive_run keys now p : forall tr w, (drive keys now tr p w).2.1.1 = (run (respond keys now) p w).2.
Proof.
  induction p as [a|c k IH]; intros tr w; cbn [drive run]; [done|]. destruct (respond keys now c w) as [x w1]. rewrite <- (IH x (tr ++ [ev c x])).
  by destruct (drive _ _ _ _ _).
Qed.

(** A whole pass over the only key of the queue. *)
Lemma drive_pass r keys now key w w2 tr a :
  covers keys w -> drive keys now [] (Reconcile r key) w = (true, (w2, tr, (a, Ok tt))) ->
  rtc (step r) (mkState w [key] None) (mkState w2 [] None).
Proof.
  intros Hc Hd. eapply rtc_l; [apply (begins r w [key] key); left|]. rewrite filter_cons_False by naive_solver. rewrite filter_nil.
  etrans; [by eapply drive_steps|]. apply rtc_once. apply (finishes r w2 [] key tr (a, Ok tt) []). done.
Qed.
End Healing.
(** ** The theorem at a sample

    After its first pass somebody deletes the NetworkPolicy of the Task; the watch
    wakes the Task, and the next pass brings the policy back. *)

Section Sample.
#[local] Existing Instances KubeRef.lib KubeRef.laws Samples.errors_text Samples.tables.

Definition policy_deleted : World := put KNetworkPolicy demo None world1.
Definition repaired : World := sample_run policy_deleted.
Definition sample_task_at (w : World) : Task := default Samples.task (w_get w KTask demo).

Lemma drive_sample w : covers [demo] w -> (drive [demo] (1000 * Second) [] (Reconcile Samples.reconciler demo) w).1 = true ->
  (drive [demo] (1000 * Second) [] (Reconcile Samples.reconciler demo) w).2.2.2 = Ok tt ->
  rtc (step Samples.reconciler) (mkState w [demo] None) (mkState (sample_run w) [] None).
Proof.
  intros Hc Hb Hres. unfold sample_run. rewrite <- (drive_run _ _ _ []). destruct (drive _ _ _ _ _) as [b [[w2 tr] [a x]]] eqn:Hd.
  cbn in Hb, Hres |- *. subst b x. by eapply drive_pass.
Qed.

Lemma covers_world1 : covers [demo] world1.
Proof. apply covers_run; [exact covers_world0|exact within0]. Qed.

Lemma covers_deleted : covers [demo] policy_deleted.
Proof. intros key t Ht. unfold policy_deleted in Ht. rewrite (changed_frame _ _ _ _ _ (put_changes KNetworkPolicy demo None world1)) in Ht by discriminate. exact (covers_world1 key t Ht). Qed.

Lemma adopted_at_demo w : Forall (fun s => match w_get w s.1 s.2 with Some o => enqueue_owner (obj_meta s.1 o) = [demo] | None => True end) (belongings demo) -> adopted_at demo w.
Proof. intros Hf k key o Hin Ho. rewrite Forall_forall in Hf. specialize (Hf _ Hin). cbn in Hf. by rewrite Ho in Hf. Qed.

Lemma adopted_deleted : adopted policy_deleted.
Proof.
  intros key t Ht. apply covers_deleted, list_elem_of_singleton in Ht as ->. apply adopted_at_demo.
  repeat apply List.Forall_cons; [vm_compute; reflexivity || exact I..|apply List.Forall_nil].
Qed.

Lemma statuses_deleted : statuses_wf policy_deleted.
Proof.
  intros key t Ht. pose proof (covers_deleted _ _ Ht) as Hk. apply list_elem_of_singleton in Hk as ->. vm_compute in Ht. injection Ht as <-.
  apply NoDup_singleton.
Qed.

Lemma adopted_world0 : adopted world0.
Proof.
  intros key t [-> _]%task_world0. apply adopted_at_demo. repeat apply List.Forall_cons; [exact I..|apply List.Forall_nil].
Qed.

Lemma keyed_deleted : keyed policy_deleted.
Proof.
  intros k key o. unfold policy_deleted. destruct (put_changes KNetworkPolicy demo None world1) as [Hat Hf _].
  destruct (decide ((k, key) = (KNetworkPolicy, demo))) as [[= -> ->]|Hne]; [by rewrite Hat|]. rewrite Hf by done.
  apply (pass_keyed _ _ _ _ pass01 keyed_world0).
Qed.

Lemma policy_world1 : exists np, w_get world1 KNetworkPolicy demo = Some np /\ enqueue_owner (np_Meta np) = [demo].
Proof. eexists. split; [vm_compute; reflexivity|vm_compute; reflexivity]. Qed.

Lemma deleted_noticed : step Samples.reconciler (mkState world1 [] None) (mkState policy_deleted [demo] None).
Proof.
  apply (edits Samples.reconciler world1 [] None KNetworkPolicy demo None policy_deleted [demo] []).
  - apply put_changes.
  - exact keyed_deleted.
  - exact statuses_deleted.
  - exact adopted_deleted.
  - destruct policy_world1 as (np & Hnp & Ho). rewrite Hnp. cbn [notified_of]. exists [], policy_deleted. split; [|by apply answered_nil].
    rewrite <- Ho. apply (dispatch_owned KNetworkPolicy). repeat constructor.
  - reflexivity.
Qed.

Lemma healthy_repaired : healthy Samples.reconciler (sample_task_at repaired) Samples.agent repaired.
Proof.
  split.
  - eapply pass_keyed; [|exact keyed_deleted]. apply (pass_run [demo] (1000 * Second)); [exact covers_deleted|vm_compute; reflexivity].
  - vm_compute. reflexivity.
  - apply NoDup_singleton.
  - vm_compute. reflexivity.
  - vm_compute. reflexivity.
  - vm_compute. reflexivity.
  - assert (He : effective_egress (sample_task_at repaired) Samples.agent = ["api.example.com"; "10.0.0.0/8"; "api.anthropic.com"]%string) by (vm_compute; reflexivity).
    rewrite He. repeat apply List.Forall_cons; [..|apply List.Forall_nil]; right; vm_compute; [right; by eexists|by eexists|right; by eexists].
  - vm_compute. eexists. reflexivity.
Qed.

Lemma nothing_drifts_witness : declared Samples.reconciler (sample_task_at repaired) Samples.agent repaired.
Proof.
  apply (nothing_drifts Samples.reconciler world0 [demo] (mkState repaired [] None) (sample_task_at repaired) Samples.agent).
  - exact keyed_world0.
  - exact statuses_world0.
  - exact adopted_world0.
  - intros key t [-> _]%task_world0. left.
  - etrans; [apply (drive_sample world0 covers_world0); vm_compute; reflexivity|]. eapply rtc_l; [exact deleted_noticed|].
    apply (drive_sample policy_deleted covers_deleted); vm_compute; reflexivity.
  - exact healthy_repaired.
  - apply not_elem_of_nil.
  - by intros (run & ? & _).
Defined.
End Sample.
End Healing.
