(* ===== verification/Signature.v ===== *)
(** * Webhook signatures

    [internal/trigger/signature.go], with SHA-256 and HMAC of the Go library on
    lists of bytes. *)

From S2P Require Import Prelude GoString GoTime.

Module Signature.

(** ** SHA-256 *)

Definition w32 (z : Z) : Z := z mod 2 ^ 32.
Definition add32 (a b : Z) : Z := w32 (a + b).
Definition rotr (n x : Z) : Z := Z.lor (Z.shiftr x n) (w32 (Z.shiftl x (32 - n))).

Definition Ch (x y z : Z) : Z := Z.lxor (Z.land x y) (Z.land (Z.lxor x 4294967295) z).
Definition Maj (x y z : Z) : Z := Z.lxor (Z.land x y) (Z.lxor (Z.land x z) (Z.land y z)).
Definition Sigma0 (x : Z) : Z := Z.lxor (rotr 2 x) (Z.lxor (rotr 13 x) (rotr 22 x)).
Definition Sigma1 (x : Z) : Z := Z.lxor (rotr 6 x) (Z.lxor (rotr 11 x) (rotr 25 x)).
Definition sigma0 (x : Z) : Z := Z.lxor (rotr 7 x) (Z.lxor (rotr 18 x) (Z.shiftr x 3)).
Definition sigma1 (x : Z) : Z := Z.lxor (rotr 17 x) (Z.lxor (rotr 19 x) (Z.shiftr x 10)).

(** The constants of FIPS 180-4: the first 32 bits of the fractional parts of the
    cube roots of the first 64 primes, and of the square roots of the first 8. *)
Definition is_prime (p : Z) : bool :=
  forallb (fun d => negb (p mod Z.of_nat d =? 0)) (seq 2 (Z.to_nat (Z.sqrt p) - 1)).
Definition primes_to (bound : nat) : list Z := List.filter is_prime (Z.of_nat <$> seq 2 (bound - 1)).

(** The root of the greatest cube up to [n], bit by bit from [bits]. *)
Fixpoint cube_root (bits : nat) (r n : Z) : Z :=
  match bits with
  | O => r
  | S i => let r' := r + 2 ^ Z.of_nat i in cube_root i (if r' ^ 3 <=? n then r' else r) n
  end.

Definition K256 : list Z := Eval vm_compute in (fun p => w32 (cube_root 35 0 (p * 2 ^ 96))) <$> primes_to 311.
Definition H256 : list Z := Eval vm_compute in (fun p => w32 (Z.sqrt (p * 2 ^ 64))) <$> primes_to 19.

(** The schedule, newest word first: [n] more words. *)
Fixpoint extend (n : nat) (ws : list Z) : list Z :=
  match n with
  | O => ws
  | S n' =>
    let at_ i := nth i ws 0 in
    extend n' (add32 (add32 (sigma1 (at_ 1%nat)) (at_ 6%nat)) (add32 (sigma0 (at_ 14%nat)) (at_ 15%nat)) :: ws)
  end.

Definition schedule (block : list Z) : list Z := rev (extend 48 (rev block)).

Definition round (st : list Z) (kw : Z * Z) : list Z :=
  match st with
  | [a; b; c; d; e; f; g; h] =>
    let t1 := add32 (add32 h (Sigma1 e)) (add32 (Ch e f g) (add32 kw.1 kw.2)) in
    let t2 := add32 (Sigma0 a) (Maj a b c) in
    [add32 t1 t2; a; b; c; add32 d t1; e; f; g]
  | _ => st
  end.

Definition compress (st block : list Z) : list Z :=
  zip_with add32 st (foldl round st (zip K256 (schedule block))).

(** Big-endian words of bytes. *)
Fixpoint words (bs : list Z) : list Z :=
  match bs with
  | a :: b :: c :: d :: rest => (a * 2 ^ 24 + b * 2 ^ 16 + c * 2 ^ 8 + d) :: words rest
  | _ => []
  end.

Fixpoint be_bytes (n : nat) (z : Z) : list Z :=
  match n with
  | O => []
  | S n' => be_bytes n' (z / 256) ++ [z mod 256]
  end.

Definition pad (bs : list Z) : list Z :=
  let l := Z.of_nat (length bs) in
  bs ++ [128] ++ replicate (Z.to_nat ((55 - l) mod 64)) 0 ++ be_bytes 8 (8 * l).

(** One block of sixteen words after the other; [n] bounds their number. *)
Fixpoint blocks (n : nat) (st ws : list Z) : list Z :=
  match n with
  | O => st
  | S n' => match ws with [] => st | _ => blocks n' (compress st (take 16 ws)) (drop 16 ws) end
  end.

Definition sha256 (bs : list Z) : list Z :=
  let ws := words (pad bs) in concat (be_bytes 4 <$> blocks (length ws) H256 ws).

(** ** HMAC *)

Definition blockSize : nat := 64.
Definition hmac_key (secret : list Z) : list Z :=
  let k := if (blockSize <? length secret)%nat then sha256 secret else secret in
  k ++ replicate (blockSize - length k) 0.

Definition hmac_sha256 (secret body : list Z) : list Z :=
  let k := hmac_key secret in
  sha256 ((Z.lxor 92 <$> k) ++ sha256 ((Z.lxor 54 <$> k) ++ body)).

(** ** Strings and bytes *)

Definition bytes (s : string) : list Z := byte_val <$> String.list_ascii_of_string s.

Definition hex_byte (b : Z) : string := String (hex_digit (b / 16)) (str1 (hex_digit (b mod 16))).
(** [hex.EncodeToString]. *)
Definition EncodeToString (bs : list Z) : string := concat_strs (hex_byte <$> bs).

(** ** signature.go *)

Definition algorithmSHA256 : string := "sha256".
Definition missing_signature : string := "missing signature header".
Definition signature_mismatch : string := "signature mismatch".
Definition empty_secret : string := "empty signing secret".
Definition unsupported_algorithm : string := "unsupported signature algorithm".
Definition ErrMissingSignature : GoError := ErrSentinel missing_signature.
Definition ErrSignatureMismatch : GoError := ErrSentinel signature_mismatch.
Definition ErrEmptySecret : GoError := ErrSentinel empty_secret.
Definition ErrUnsupportedAlgorithm : GoError := ErrSentinel unsupported_algorithm.

Section Verify.
Context `{UnicodeTables}.

(** [None] is a nil error; [hash.Hash.Write] never fails. *)
Definition VerifyHMAC (algorithm prefix headerValue secret body : string) : option GoError :=
  if (headerValue =? "")%string then Some ErrMissingSignature
  else if (secret =? "")%string then Some ErrEmptySecret
  else
    let sig := TrimPrefix (TrimSpace headerValue) prefix in
    let alg := ToLower (TrimSpace algorithm) in
    if (alg =? "")%string || (alg =? algorithmSHA256)%string then
      let want := EncodeToString (hmac_sha256 (bytes secret) (bytes body)) in
      if (ToLower sig =? want)%string then None else Some ErrSignatureMismatch
    else Some (ErrWrap "" ErrUnsupportedAlgorithm (": " +:+ Quote algorithm)).

End Verify.
(** The vectors of FIPS 180-2 (B.1) and RFC 4231 (test case 2). *)
Example sha256_vector :
  EncodeToString (sha256 (bytes "abc")) = "ba7816bf8f01cfea414140de5dae2223b00361a396177a9cb410ff61f20015ad"%string.
Proof. vm_compute. reflexivity. Qed.
Example hmac_vector :
  EncodeToString (hmac_sha256 (bytes "Jefe") (bytes "what do ya want for nothing?")) =
  "5bdcc146bf60754e6a042426089575c75a003f089d2739839dec58b964ec3843"%string.
Proof. vm_compute. reflexivity. Qed.

(** ** Lemmas *)

Lemma length_compress st block : length st = 8%nat -> length (compress st block) = 8%nat.
Proof.
  intros Hl. unfold compress. rewrite length_zip_with.
  assert (Hf : forall l st, length st = 8%nat -> length (foldl round st l) = 8%nat).
  { clear. induction l as [|kw l IH]; intros st Hst; [done|]. cbn. apply IH.
    destruct st as [|a [|b [|c [|d [|e [|f [|g [|h [|]]]]]]]]]; try done. }
  rewrite Hl, Hf by done. done.
Qed.

Lemma length_blocks n st ws : length st = 8%nat -> length (blocks n st ws) = 8%nat.
Proof.
  revert st ws. induction n as [|n IH]; intros st ws Hl; [done|]. cbn. destruct ws; [done|].
  by apply IH, length_compress.
Qed.

Lemma be_bytes_spec n z : length (be_bytes n z) = n /\ Forall (fun b => 0 <= b < 256) (be_bytes n z).
Proof.
  revert z. induction n as [|n IH]; intros z; cbn; [by split|]. destruct (IH (z / 256)) as [Hl Hf].
  rewrite length_app, Hl. split; [cbn; lia|]. apply Forall_app. split; [done|].
  constructor; [|constructor]. apply Z.mod_pos_bound. lia.
Qed.

Lemma sha256_digest bs : length (sha256 bs) = 32%nat /\ Forall (fun b => 0 <= b < 256) (sha256 bs).
Proof.
  unfold sha256. cbn zeta.
  assert (Hl : length (blocks (length (words (pad bs))) H256 (words (pad bs))) = 8%nat) by (by apply length_blocks).
  set (st := blocks _ _ _) in *. clearbody st.
  destruct st as [|a [|b [|c [|d [|e [|f [|g [|h [|]]]]]]]]]; try done. cbn [fmap list_fmap concat].
  split; [rewrite !length_app, !(proj1 (be_bytes_spec 4 _)); done|]. rewrite !Forall_app.
  split_and!; try apply be_bytes_spec. constructor.
Qed.

Definition hex_char (c : ascii) : bool := in_range 48 57 (byte_val c) || in_range 97 102 (byte_val c).

Lemma hex_digit_char z : 0 <= z < 16 -> hex_char (hex_digit z) = true.
Proof.
  intros Hz. assert (Hall : forallb (fun n => hex_char (hex_digit (Z.of_nat n))) (seq 0 16) = true) by (vm_compute; reflexivity).
  rewrite forallb_forall in Hall. rewrite <- (Z2Nat.id z) by lia. apply Hall, in_seq. lia.
Qed.

Lemma EncodeToString_hex bs :
  Forall (fun b => 0 <= b < 256) bs ->
  Forall (fun c => hex_char c = true) (String.list_ascii_of_string (EncodeToString bs)) /\
  String.length (EncodeToString bs) = (2 * length bs)%nat.
Proof.
  intros Hb. induction Hb as [|b bs Hr Hb [IH1 IH2]]; [by split|].
  change (EncodeToString (b :: bs)) with (hex_byte b +:+ EncodeToString bs).
  rewrite list_ascii_append, length_append. split.
  - apply Forall_app. split; [|done]. cbn. repeat constructor; apply hex_digit_char.
    + split; [apply Z.div_pos; lia|apply Z.div_lt_upper_bound; lia].
    + apply Z.mod_pos_bound. lia.
  - cbn [hex_byte String.length str1 length]. lia.
Qed.

(** A MAC in hex is 64 lower-case digits. *)
Lemma mac_hex secret body :
  Forall (fun c => hex_char c = true) (String.list_ascii_of_string (EncodeToString (hmac_sha256 secret body))) /\
  String.length (EncodeToString (hmac_sha256 secret body)) = 64%nat.
Proof.
  destruct (sha256_digest ((Z.lxor 92 <$> hmac_key secret) ++ sha256 ((Z.lxor 54 <$> hmac_key secret) ++ body))) as [Hl Hf].
  destruct (EncodeToString_hex _ Hf) as [H1 H2]. unfold hmac_sha256. cbn zeta. split; [done|]. rewrite H2, Hl. done.
Qed.

(** ** Theorems *)

Section Theorems.
Context `{UnicodeTables}.

(** A header prefix of visible ASCII characters, such as [sha256=]. *)
Definition visible (s : string) : Prop :=
  Forall (fun c => in_range 33 126 (byte_val c) = true) (String.list_ascii_of_string s).

Definition supported (algorithm : string) : Prop :=
  ToLower (TrimSpace algorithm) = ""%string \/ ToLower (TrimSpace algorithm) = algorithmSHA256.

Lemma visible_no_space c : in_range 33 126 (byte_val c) = true -> is_ascii c = true /\ IsSpace (byte_val c) = false.
Proof.
  intros Hr. destruct c as [[] [] [] [] [] [] [] []]; try (vm_compute in Hr; discriminate Hr); split; reflexivity.
Qed.

Lemma hex_char_visible c : hex_char c = true ->
  in_range 33 126 (byte_val c) = true /\ is_ascii c = true /\ in_range 65 90 (byte_val c) = false.
Proof.
  intros Hr. destruct c as [[] [] [] [] [] [] [] []]; try (vm_compute in Hr; discriminate Hr); split_and!; reflexivity.
Qed.

(** C7. The signature check is sound and complete.  It accepts exactly when there
    is a header, a secret and a supported algorithm, and the header, without its
    surrounding space and its prefix and in lower case, is the 64 hex digits of
    the HMAC-SHA256 of the body under the secret; in particular a sender that
    puts the prefix and the hex MAC into the header is accepted. *)
Theorem VerifyHMAC_exact algorithm prefix secret body :
  let mac := EncodeToString (hmac_sha256 (bytes secret) (bytes body)) in
  (forall header, VerifyHMAC algorithm prefix header secret body = None <->
     header <> ""%string /\ secret <> ""%string /\ supported algorithm /\
     ToLower (TrimPrefix (TrimSpace header) prefix) = mac) /\
  String.length mac = 64%nat /\
  (secret <> ""%string -> supported algorithm -> visible prefix ->
   VerifyHMAC algorithm prefix (prefix +:+ mac) secret body = None).
Proof.
  intros mac. destruct (mac_hex (bytes secret) (bytes body)) as [Hhex Hlen]. fold mac in Hhex, Hlen.
  assert (Hiff : forall header, VerifyHMAC algorithm prefix header secret body = None <->
     header <> ""%string /\ secret <> ""%string /\ supported algorithm /\
     ToLower (TrimPrefix (TrimSpace header) prefix) = mac).
  { intros header. unfold VerifyHMAC, supported. fold mac.
    destruct (String.eqb_spec header ""); [split; [done|tauto]|].
    destruct (String.eqb_spec secret ""); [split; [done|tauto]|].
    destruct (String.eqb_spec (ToLower (TrimSpace algorithm)) ""),
      (String.eqb_spec (ToLower (TrimSpace algorithm)) algorithmSHA256); cbn [orb];
      destruct (String.eqb_spec (ToLower (TrimPrefix (TrimSpace header) prefix)) mac); intuition congruence. }
  split_and!; [done..|]. intros Hs Hal Hv. apply Hiff. split_and!; [|done..|].
  - intros He. apply (f_equal String.length) in He. rewrite length_append, Hlen in He. cbn in He. lia.
  - rewrite TrimSpace_ascii.
    + unfold TrimPrefix. rewrite CutPrefix_app. cbn. apply ToLower_ascii.
      eapply Forall_impl; [exact Hhex|]. intros c Hc. apply hex_char_visible in Hc. tauto.
    + rewrite list_ascii_append. apply Forall_app. split; eapply Forall_impl; [exact Hv| |exact Hhex|].
      * intros c Hc. by apply visible_no_space.
      * intros c Hc. apply visible_no_space. by apply hex_char_visible in Hc as [? _].
Qed.

(** The errors that blame the configuration, not the caller. *)
Lemma VerifyHMAC_errors algorithm prefix header secret body e :
  VerifyHMAC algorithm prefix header secret body = Some e ->
  (errors_Is e empty_secret || errors_Is e unsupported_algorithm = true <->
   header <> ""%string /\ (secret = ""%string \/ ~ supported algorithm)).
Proof.
  unfold VerifyHMAC, supported.
  destruct (String.eqb_spec header ""); [intros [= <-]; split; [done|tauto]|].
  destruct (String.eqb_spec secret ""); [intros [= <-]; split; [tauto|done]|].
  destruct (String.eqb_spec (ToLower (TrimSpace algorithm)) ""),
    (String.eqb_spec (ToLower (TrimSpace algorithm)) algorithmSHA256); cbn [orb].
  1-3: destruct (_ =? _)%string; [done|]; intros [= <-]; split; [done|]; tauto.
  intros [= <-]. split; [|done]. intros _. split; [done|]. right. tauto.
Qed.

End Theorems.
End Signature.
