(* ===== verification/Mapping.v ===== *)
(** * From a payload to a Task

    [internal/trigger/mapping.go].  The query language of [tidwall/gjson] is a
    parameter; JSON decoding and encoding are those of the Go library. *)

From S2P Require Import Prelude GoString GoTime GoJson Kube Api Effects KubeLib PolicyObjects PolicyConfig.

(** [gjson.GetBytes(body, path)]: the [String] of the result, or [None] when it
    does not exist, whose [String] is empty. *)
Class Gjson := { gjson_get : string -> string -> option string }.

(** A Go function either returns or panics. *)
Inductive outcome (A : Type) := Returns (a : A) | Panics.
Arguments Returns {A} a.
Arguments Panics {A}.

Module Mapping.

Definition defaultGenerateNamePrefix : string := "task-".

Section Mapping.
Context `{Gjson, JsonErrors, UnicodeTables}.

Fixpoint ApplyFilters (body : string) (filters : list WebhookFilter) : bool :=
  match filters with
  | [] => true
  | f :: fs =>
    if negb (default ""%string (gjson_get body (filter_Path f)) =? filter_Equals f)%string then false
    else ApplyFilters body fs
  end.

Definition resolveMapping (body : string) (m : FieldMapping) : string :=
  match gjson_get body (map_From m) with
  | None => map_Default m
  | Some s => if (s =? "")%string then map_Default m else s
  end.

Definition setMapKey (m : GoMap) (key value : string) : GoMap :=
  Some (<[key := value]> (default ∅ m)).

(** Assignments to fields of the Task. *)
Definition set_task_meta (f : ObjectMeta -> ObjectMeta) (t : Task) : Task :=
  mkTask (f (task_Meta t)) (task_Spec t) (task_Status t).
Definition set_name (name gen : string) (m : ObjectMeta) : ObjectMeta :=
  mkMeta name gen (om_Namespace m) (om_UID m) (om_Generation m) (om_DeletionTimestamp m)
    (om_Labels m) (om_Annotations m) (om_OwnerReferences m).
Definition set_namespace (ns : string) (m : ObjectMeta) : ObjectMeta :=
  mkMeta (om_Name m) (om_GenerateName m) ns (om_UID m) (om_Generation m) (om_DeletionTimestamp m)
    (om_Labels m) (om_Annotations m) (om_OwnerReferences m).
Definition set_annotations (a : GoMap) (m : ObjectMeta) : ObjectMeta :=
  mkMeta (om_Name m) (om_GenerateName m) (om_Namespace m) (om_UID m) (om_Generation m)
    (om_DeletionTimestamp m) (om_Labels m) a (om_OwnerReferences m).
Definition set_spec (f : TaskSpec -> TaskSpec) (t : Task) : Task :=
  mkTask (task_Meta t) (f (task_Spec t)) (task_Status t).
Definition with_Inline (v : string) (s : TaskSpec) : TaskSpec :=
  mkTaskSpec (spec_Agent s)
    (mkPromptSource v (prompt_SecretRef (spec_Prompt s)) (prompt_ConfigMapRef (spec_Prompt s)))
    (spec_Permissions s) (spec_Resources s) (spec_TTLSecondsAfterFinished s).
Definition with_Agent (a : AgentRef) (s : TaskSpec) : TaskSpec :=
  mkTaskSpec a (spec_Prompt s) (spec_Permissions s) (spec_Resources s) (spec_TTLSecondsAfterFinished s).

(** The fields the template config decodes to: JSON null leaves a nil map. *)
Definition template_fields (config : option string) : result (option (gmap string json)) :=
  match Config.config_bytes config with
  | None => Ok (Some ∅)
  | Some raw =>
    match decode_first raw with
    | Some (JObject l, _) => Ok (Some (members_map l))
    | Some (JNull, _) => Ok None
    | _ => Err (ErrWrap "template agent.config is not a JSON object: " (ErrNew (json_error raw)) "")
    end
  end.

Definition setConfigKey (agent : AgentRef) (key value : string) : outcome (result AgentRef) :=
  if (key =? "")%string then
    Returns (Err (ErrNew ("config mapping needs a key, e.g. " +:+ str1 dquote +:+ "config.TARGET_REPO" +:+ str1 dquote)))
  else
    match template_fields (agent_Config agent) with
    | Err e => Returns (Err e)
    | Ok None => Panics (* assignment to an entry in a nil map *)
    | Ok (Some fields) =>
      Returns (Ok (mkAgentRef (agent_Ref agent) (Some (Marshal_map (<[key := JString value]> fields)))))
    end.

Definition applyMapping (task : Task) (to value : string) : outcome (result Task) :=
  if (to =? "prompt")%string then Returns (Ok (set_spec (with_Inline value) task))
  else if (to =? "name")%string then Returns (Ok (set_task_meta (set_name value "") task))
  else if HasPrefix to "labels." then
    Returns (Ok (set_task_meta (fun m => set_labels (setMapKey (om_Labels m) (TrimPrefix to "labels.") value) m) task))
  else if HasPrefix to "annotations." then
    Returns (Ok (set_task_meta (fun m => set_annotations (setMapKey (om_Annotations m) (TrimPrefix to "annotations.") value) m) task))
  else if HasPrefix to "config." then
    match setConfigKey (spec_Agent (task_Spec task)) (TrimPrefix to "config.") value with
    | Panics => Panics
    | Returns (Err e) => Returns (Err e)
    | Returns (Ok agent) => Returns (Ok (set_spec (with_Agent agent) task))
    end
  else Returns (Err (ErrNew ("unknown mapping target " +:+ Quote to))).

(** The arrow of the message is U+2192. *)
Definition arrow : string := EncodeRune 8594.

Fixpoint apply_mappings (task : Task) (body : string) (l : list FieldMapping) : outcome (result Task) :=
  match l with
  | [] => Returns (Ok task)
  | m :: l' =>
    let val := resolveMapping body m in
    if (val =? "")%string then apply_mappings task body l'
    else
      match applyMapping task (map_To m) val with
      | Panics => Panics
      | Returns (Err e) =>
        Returns (Err (ErrWrap ("mapping " +:+ Quote (map_From m) +:+ " " +:+ arrow +:+ " " +:+ Quote (map_To m) +:+ ": ") e ""))
      | Returns (Ok task) => apply_mappings task body l'
      end
  end.

(** The Task before the mappings. *)
Definition template_task (tmpl : TaskTemplate) : Task :=
  mkTask
    (mkMeta "" (if (tmpl_GenerateNamePrefix tmpl =? "")%string then defaultGenerateNamePrefix else tmpl_GenerateNamePrefix tmpl)
       (tmpl_Namespace tmpl) "" 0 None None None [])
    (mkTaskSpec (tmpl_Agent tmpl) (mkPromptSource "" None None) (tmpl_Permissions tmpl) (tmpl_Resources tmpl)
       (tmpl_TTLSecondsAfterFinished tmpl))
    empty_status.

Definition no_prompt : string :=
  "webhook produced a Task with no prompt " +:+ EncodeRune 8212 +:+ " add a " +:+ str1 dquote +:+ "prompt" +:+
  str1 dquote +:+ " mapping or a default".

Definition has_prompt (p : PromptSource) : bool :=
  negb (prompt_Inline p =? "")%string ||
  match prompt_SecretRef p with Some _ => true | None => false end ||
  match prompt_ConfigMapRef p with Some _ => true | None => false end.

Definition BuildTask (tmpl : TaskTemplate) (body : string) : outcome (result Task) :=
  match apply_mappings (template_task tmpl) body (tmpl_Mappings tmpl) with
  | Returns (Ok task) =>
    if has_prompt (spec_Prompt (task_Spec task)) then Returns (Ok task)
    else Returns (Err (ErrNew no_prompt))
  | r => r
  end.

(** ** Lemmas *)

(** What a payload can never change: the permissions, the resources, the TTL,
    the referenced class, the namespace, the identity and the owners. *)
Definition payload_frame (a b : Task) : Prop :=
  spec_Permissions (task_Spec a) = spec_Permissions (task_Spec b) /\
  spec_Resources (task_Spec a) = spec_Resources (task_Spec b) /\
  spec_TTLSecondsAfterFinished (task_Spec a) = spec_TTLSecondsAfterFinished (task_Spec b) /\
  agent_Ref (spec_Agent (task_Spec a)) = agent_Ref (spec_Agent (task_Spec b)) /\
  task_Namespace a = task_Namespace b /\ om_OwnerReferences (task_Meta a) = om_OwnerReferences (task_Meta b) /\
  task_UID a = task_UID b /\ task_Status a = task_Status b /\
  prompt_SecretRef (spec_Prompt (task_Spec a)) = prompt_SecretRef (spec_Prompt (task_Spec b)) /\
  prompt_ConfigMapRef (spec_Prompt (task_Spec a)) = prompt_ConfigMapRef (spec_Prompt (task_Spec b)).

#[local] Instance payload_frame_preorder : PreOrder payload_frame.
Proof. split; [by intros x|intros x y z; unfold payload_frame; naive_solver congruence]. Qed.

Lemma applyMapping_frame task to value task' :
  applyMapping task to value = Returns (Ok task') -> payload_frame task' task.
Proof.
  unfold applyMapping. intros Ha. repeat (case_match; simplify_eq); try done.
  unfold setConfigKey in *. by repeat (case_match; simplify_eq).
Qed.

Lemma apply_mappings_frame task body l task' :
  apply_mappings task body l = Returns (Ok task') -> payload_frame task' task.
Proof.
  revert task. induction l as [|m l IH]; intros task Ha; cbn [apply_mappings] in Ha; [by simplify_eq|].
  destruct (_ =? _)%string; [by apply IH|].
  destruct (applyMapping _ _ _) as [[t|e]|] eqn:Hm; simplify_eq.
  etrans; [by apply IH|by eapply applyMapping_frame].
Qed.

Lemma BuildTask_frame tmpl body task :
  BuildTask tmpl body = Returns (Ok task) -> payload_frame task (template_task tmpl).
Proof.
  unfold BuildTask. intros Hb. destruct (apply_mappings _ _ _) as [[t|e]|] eqn:Ha; simplify_eq.
  destruct (has_prompt _); simplify_eq. by eapply apply_mappings_frame.
Qed.

(** A Task that can be stored: it has a name, or asks the server for one. *)
Definition identified (t : Task) : Prop := task_Name t <> ""%string \/ om_GenerateName (task_Meta t) <> ""%string.

Lemma apply_mappings_identified task body l task' :
  apply_mappings task body l = Returns (Ok task') -> identified task -> identified task'.
Proof.
  revert task. induction l as [|m l IH]; intros task Ha Hi; cbn [apply_mappings] in Ha; [by simplify_eq|].
  destruct (String.eqb_spec (resolveMapping body m) "") as [|Hv]; [by eapply IH|].
  destruct (applyMapping _ _ _) as [[t|e]|] eqn:Hm; simplify_eq. eapply IH; [done|].
  unfold applyMapping in Hm. repeat (case_match; simplify_eq); try exact Hi. by left.
Qed.

Lemma BuildTask_identified tmpl body task : BuildTask tmpl body = Returns (Ok task) -> identified task.
Proof.
  unfold BuildTask. intros Hb. destruct (apply_mappings _ _ _) as [[t|e]|] eqn:Ha; simplify_eq.
  destruct (has_prompt _); simplify_eq. eapply apply_mappings_identified; [done|]. right. cbn.
  by destruct (String.eqb_spec (tmpl_GenerateNamePrefix tmpl) "").
Qed.

Lemma ApplyFilters_spec body filters :
  ApplyFilters body filters = true <->
  forall f, f ∈ filters -> default ""%string (gjson_get body (filter_Path f)) = filter_Equals f.
Proof.
  induction filters as [|f fs IH]; cbn [ApplyFilters]; [split; [intros _ f []%elem_of_nil|done]|].
  destruct (String.eqb_spec (default ""%string (gjson_get body (filter_Path f))) (filter_Equals f)) as [He|He]; cbn [negb].
  - rewrite IH. split; [intros Hf g [->|Hg]%elem_of_cons; auto|intros Hf g Hg; apply Hf; by right].
  - split; [done|]. intros Hf. destruct He. apply Hf. left.
Qed.

(** ** Theorems *)

(** C36. A payload cannot widen what its class grants.  Whatever the body and the
    mappings, a built Task has the permissions, the resources, the TTL, the
    agent class and the namespace of the template, an inline prompt as its only
    prompt source, and no owner or status. *)
Theorem BuildTask_contained tmpl body task :
  BuildTask tmpl body = Returns (Ok task) ->
  spec_Permissions (task_Spec task) = tmpl_Permissions tmpl /\
  spec_Resources (task_Spec task) = tmpl_Resources tmpl /\
  spec_TTLSecondsAfterFinished (task_Spec task) = tmpl_TTLSecondsAfterFinished tmpl /\
  agent_Ref (spec_Agent (task_Spec task)) = agent_Ref (tmpl_Agent tmpl) /\
  task_Namespace task = tmpl_Namespace tmpl /\ om_OwnerReferences (task_Meta task) = [] /\
  task_Status task = empty_status /\
  prompt_Inline (spec_Prompt (task_Spec task)) <> ""%string /\
  prompt_SecretRef (spec_Prompt (task_Spec task)) = None /\ prompt_ConfigMapRef (spec_Prompt (task_Spec task)) = None.
Proof.
  unfold BuildTask. intros Hb. destruct (apply_mappings _ _ _) as [[t|e]|] eqn:Ha; simplify_eq.
  destruct (has_prompt _) eqn:Hp; simplify_eq.
  destruct (apply_mappings_frame _ _ _ _ Ha) as (H1' & H2' & H3' & H4' & H5' & H6' & H7' & H8' & Hs & Hc).
  rewrite H1', H2', H3', H4', H5', H6', H8', Hs, Hc. split_and!; try done.
  unfold has_prompt in Hp. rewrite Hs, Hc in Hp. cbn in Hp. rewrite !orb_false_r in Hp.
  apply negb_true_iff in Hp. by str_eqb.
Qed.

(** A config mapping over a template whose config is the JSON text null does
    not return: the decoder leaves a nil map, and the assignment panics. *)
Theorem setConfigKey_null_panics ref key value :
  key <> ""%string -> setConfigKey (mkAgentRef ref (Some "null"%string)) key value = Panics.
Proof. intros Hk. unfold setConfigKey. by destruct (String.eqb_spec key ""). Qed.

End Mapping.

(** ** The theorems at samples *)

#[local] Instance sample_gjson : Gjson := {| gjson_get := fun body path => if (path =? "title")%string then Some body else None |}.
#[local] Instance sample_errors : JsonErrors := {| json_error := fun _ => "bad"%string |}.
#[local] Instance sample_tables : UnicodeTables := plain_tables.

Definition sample_template : TaskTemplate :=
  mkTaskTemplate "agents" "" (mkAgentRef "claude" None) (mkPermissions [] [] [] [])
    (mkTaskResources "" "" Minute) None
    [mkFieldMapping "title" "prompt" ""; mkFieldMapping "repo" "labels.repo" "none"].
Definition sample_built : Task :=
  match BuildTask sample_template "fix it" with Returns (Ok t) => t | _ => template_task sample_template end.

Lemma BuildTask_contained_witness :
  prompt_Inline (spec_Prompt (task_Spec sample_built)) <> ""%string /\ task_Namespace sample_built = "agents"%string.
Proof.
  destruct (BuildTask_contained sample_template "fix it" sample_built) as (_ & _ & _ & _ & Hn & _ & _ & Hp & _);
    [vm_compute; reflexivity|]. split; [exact Hp|exact Hn].
Defined.

Lemma setConfigKey_null_panics_witness : setConfigKey (mkAgentRef "claude" (Some "null"%string)) "REPO" "x" = Panics.
Proof. apply (setConfigKey_null_panics "claude" "REPO" "x"). discriminate. Defined.

End Mapping.
