(* ===== verification/ConfigRoundtrip.v ===== *)
(** * Config from a payload to the agent

    A config mapping of the webhook adapter rewrites [spec.agent.config] as JSON
    text ([internal/trigger/mapping.go]); the controller decodes that text again
    ([internal/policy/config.go]). *)

From S2P Require Import Prelude GoString GoTime GoJson JsonRoundtrip Kube Api Effects KubeLib PolicyObjects PolicyConfig Samples Mapping.

Module ConfigRoundtrip.
Import Config Mapping.

Section Roundtrip.
Context `{JsonErrors, UnicodeTables}.

Lemma decoded_members l k v :
  decoded 0 (JObject l) -> members_map l !! k = Some v ->
  unquoted k = k /\ literals v = true /\ 1 + depth v <= maxNestingDepth.
Proof.
  intros (Hl & Hd & Hk) Hm%elem_of_members_map. cbn [literals] in Hl. rewrite forallb_forall in Hl.
  split_and!.
  - unfold clean_keys in Hk. rewrite Forall_forall in Hk. by apply (Hk (k, v)).
  - apply (Hl (k, v)). by apply list_elem_of_In.
  - cbn [depth] in Hd. pose proof (depth_fold (fun kv : string * json => depth kv.2) l (k, v) Hm) as Hf. cbn in Hf. lia.
Qed.

(** The fields of a template config are printable. *)
Lemma template_fields_printable config fields k v :
  template_fields config = Ok (Some fields) -> fields !! k = Some v ->
  unquoted k = k /\ literals v = true /\ 1 + depth v <= maxNestingDepth.
Proof.
  unfold template_fields. destruct (config_bytes config) as [raw|]; [|intros [= <-]; by rewrite lookup_empty].
  destruct (decode_first raw) as [[v0 r]|] eqn:Hd; [|done]. apply decode_first_decoded in Hd.
  destruct v0; try done. intros [= <-] Hk. by eapply decoded_members.
Qed.

Lemma setConfigKey_inv agent key value agent' :
  setConfigKey agent key value = Returns (Ok agent') ->
  exists fields, template_fields (agent_Config agent) = Ok (Some fields) /\
    agent' = mkAgentRef (agent_Ref agent) (Some (Marshal_map (<[key := JString value]> fields))).
Proof.
  unfold setConfigKey. intros Hs. destruct (_ =? _)%string; [done|].
  destruct (template_fields _) as [[fields|]|]; simplify_eq. eauto.
Qed.

Lemma Marshal_map_nonempty m : Marshal_map m <> ""%string.
Proof. by unfold Marshal_map. Qed.

(** A field that the projection turns into a variable. *)
Lemma projected_env taskName config inputs raw fields proj k val :
  config_bytes config = Some raw -> decodeConfigObject raw = Ok fields ->
  BuildConfigProjection taskName config inputs = Ok proj -> env_field fields k val -> mkEnv k val ∈ cp_Env proj.
Proof.
  intros Hb Hd Hp Hf. unfold BuildConfigProjection in Hp. rewrite Hb, Hd in Hp.
  destruct (project_fields _ _ _) as [envs|] eqn:He; [|done].
  assert (Hin : mkEnv k val ∈ envs).
  { apply project_fields_ok in He as [He _]. apply He. split_and!; [done| |done].
    apply elem_of_field_keys. destruct Hf as (v & Hv & _). eauto. }
  repeat (case_match; simplify_eq); cbn [cp_Env]; rewrite ?elem_of_app; auto.
Qed.

(** C23. A value from a payload reaches the agent.  When a config mapping succeeds,
    the text it writes decodes to the fields of the template with the mapped key
    set to the value, in valid UTF-8 (every other field is kept, its numbers as
    written); and when the key is fit for a variable and the controller accepts
    the config, the agent gets the variable of that name with that value. *)
Theorem mapped_config_roundtrip agent key value agent' :
  setConfigKey agent key value = Returns (Ok agent') -> unquoted key = key ->
  exists fields raw, template_fields (agent_Config agent) = Ok (Some fields) /\
    agent' = mkAgentRef (agent_Ref agent) (Some raw) /\
    decodeConfigObject raw = Ok (<[key := JString (unquoted value)]> (normal <$> fields)) /\
    json_Valid raw = true /\
    forall taskName inputs proj, BuildConfigProjection taskName (agent_Config agent') inputs = Ok proj ->
      (envNameRe key = true -> mkEnv key (unquoted value) ∈ cp_Env proj) /\
      forall k n, k <> key -> fields !! k = Some (JNumber n) -> envNameRe k = true -> mkEnv k n ∈ cp_Env proj.
Proof.
  intros (fields & Hf & ->)%setConfigKey_inv Hk. set (m := <[key := JString value]> fields).
  destruct (decode_marshal_map m) as (l & Hd & Hm).
  { intros k v Hv. destruct (decide (k = key)) as [->|Hn].
    - unfold m in Hv. rewrite lookup_insert_eq in Hv. simplify_eq. split_and!; [done..|]. unfold maxNestingDepth. cbn. lia.
    - unfold m in Hv. rewrite lookup_insert_ne in Hv by done. by eapply template_fields_printable. }
  assert (Hdec : decodeConfigObject (Marshal_map m) = Ok (<[key := JString (unquoted value)]> (normal <$> fields))).
  { unfold decodeConfigObject. rewrite Hd, Hm. unfold m. by rewrite fmap_insert. }
  assert (Hb : config_bytes (Some (Marshal_map m)) = Some (Marshal_map m)).
  { unfold config_bytes. destruct (String.eqb_spec (Marshal_map m) ""); [|done]. by apply Marshal_map_nonempty in e. }
  exists fields, (Marshal_map m). split_and!; [done..| |].
  { unfold json_Valid. by rewrite Hd. }
  intros taskName inputs proj Hp. split.
  - intros He. eapply projected_env; [exact Hb|exact Hdec|exact Hp|]. exists (JString (unquoted value)).
    by rewrite lookup_insert_eq.
  - intros k n Hn Hv He. eapply projected_env; [exact Hb|exact Hdec|exact Hp|]. exists (JNumber n).
    by rewrite lookup_insert_ne, lookup_fmap, Hv.
Qed.

End Roundtrip.

(** ** The theorem at a sample *)

#[local] Existing Instances Samples.errors_text Samples.tables.

Definition sample_config : string := "{" +:+ str1 dquote +:+ "depth" +:+ str1 dquote +:+ ":1.50}".
Definition sample_mapped : AgentRef :=
  match setConfigKey (mkAgentRef "claude" (Some sample_config)) "REPO" "a&b" with
  | Returns (Ok a) => a
  | _ => mkAgentRef "" None
  end.

Lemma mapped_config_roundtrip_witness : exists raw, agent_Config sample_mapped = Some raw /\ json_Valid raw = true.
Proof.
  destruct (mapped_config_roundtrip (mkAgentRef "claude" (Some sample_config)) "REPO" "a&b" sample_mapped)
    as (fields & raw & _ & Ha & _ & Hv & _); [vm_compute; reflexivity|vm_compute; reflexivity|].
  exists raw. split; [rewrite Ha; reflexivity|exact Hv].
Defined.

End ConfigRoundtrip.
