(* ===== verification/TemplateCopy.v ===== *)
(** * Tasks from a shared template, in memory

    The first lines of [BuildTask] in [internal/trigger/mapping.go] copy parts of
    the template of a trigger class.  That template lies in the informer cache and
    serves every later request.  The model of [BuildTask] in [Mapping] works on
    values; here the same lines work on memory, and are shown to refine it and to
    leave the template alone. *)

From S2P Require Import Prelude GoString GoTime Kube Api Mapping DeepCopy.

Module TemplateCopy.
Import DeepCopy.

Section TemplateCopy.
Context {L : LibTypes} `{!LibCopies}.

Notation "'do' x <- m ; k" := (mbind_ m (fun x => k)) (at level 10, x name, m at level 100, k at level 200).
Abbreviation heap := (gmap nat cell).

(** [*p]. *)
Definition load {G} `{!Stored G} (p : ptr G) : M G := fun h =>
  match p with
  | Nil => None
  | At l => match deref h l with Some [g] => Some (g, h) | _ => None end
  end.

(** The [Spec] of the new Task.  [tmpl] is passed by value: the fields whose address
    is taken lie in memory of the call. *)
Definition new_spec (tmpl : gTaskTemplate) : M gTaskSpec :=
  do pa <- alloc [g_TmplAgent tmpl];
  do pa' <- AgentRef_DeepCopy (At pa);
  do agent <- load pa';
  do pp <- alloc [g_TmplPermissions tmpl];
  do pp' <- Permissions_DeepCopy (At pp);
  do permissions <- load pp';
  do ttl <- ptr_copy ret (g_TmplTTL tmpl);
  ret (mkGTaskSpec agent (mkGPromptSource "" Nil Nil) permissions (g_TmplResources tmpl) ttl).

Lemma wp_load {G A} `{!Stored G, !Repr G A, !ReprLaws G A} (p : ptr G) h0 h (a : A) (Q : G -> heap -> Prop) :
  made h0 h p (Some a) -> (forall g, made h0 h g a -> Q g h) -> wp (load p) h Q.
Proof.
  intros [Hr Hd] HQ. destruct p as [|l]; [done|]. unfold wp, load. cbn in Hr, Hd.
  destruct (deref h l) as [[|g [|]]|]; try done. apply fmap_Some in Hr as (x & Hx & [= ->]).
  apply HQ. split; [done|]. set_solver.
Qed.

(** [*p.DeepCopy()] for the address of a value at hand. *)
Lemma wp_copy_of {G A Y} `{!Stored G, !Repr G A, !ReprLaws G A} (copy : G -> M G) `{!Copies copy} (g : G) (a : A) h0 h (k : G -> M Y) Q :
  h0 ⊆ h -> read h0 g = Some a ->
  (forall g' h', h ⊆ h' -> made h0 h' g' a -> wp (k g') h' Q) ->
  wp (do p <- alloc [g]; do p' <- DeepCopy_of copy (At p); do g' <- load p'; k g') h Q.
Proof.
  intros Hs Hr HQ. destruct (read_extends h0 h g a Hs Hr) as [Hrh _].
  apply wp_bind, wp_alloc. intros l Hl Hs1 Hd. apply wp_bind.
  assert (Hp : read (<[l:=pack [g]]> h) (At l : ptr G) = Some (Some a)).
  { cbn. rewrite Hd. by destruct (read_extends _ _ g a Hs1 Hrh) as [-> _]. }
  apply (wp_copy (DeepCopy_of copy) _ _ _ _ _ (reflexivity _) Hp). intros p h2 Hs2 Hm.
  apply wp_bind, (wp_load p h0 h2 a). { destruct Hm as [Hm1 Hm2]. split; [done|]. apply subseteq_dom in Hs, Hs1. set_solver. }
  intros g' Hg'. apply HQ; [by etrans|done].
Qed.

Lemma new_spec_made h (tmpl : gTaskTemplate) (t : TaskTemplate) :
  read h tmpl = Some t ->
  wp (new_spec tmpl) h (fun g h' => h ⊆ h' /\ made h h' g (task_Spec (Mapping.template_task t))).
Proof.
  unfold read, TaskTemplate_repr. intros Hr.
  repeat match goal with H : _ ≫= _ = Some _ |- _ => apply bind_Some in H as (? & ? & H) end. simplify_eq. unfold new_spec.
  eapply (wp_copy_of AgentRef_DeepCopyInto _ _ h h); [done|eassumption|]. intros agent h1 Hs1 Ha.
  eapply (wp_copy_of Permissions_DeepCopyInto _ _ h h1); [done|eassumption|]. intros permissions h2 Hs2 Hp.
  apply wp_bind. eapply (wp_copy _ h h2); [by etrans|eassumption|]. intros ttl h3 Hs3 Ht. apply wp_ret.
  assert (Hs : h ⊆ h3) by (do 2 (etrans; [eassumption|]); done). split; [done|].
  apply (made_extends _ _ _ _ _ Hs3) in Hp. apply (made_extends _ _ _ _ _ (transitivity Hs2 Hs3)) in Ha.
  destruct Ha as [Ha1 Ha2], Hp as [Hp1 Hp2], Ht as [Ht1 Ht2]. split; cbn [read reach TaskSpec_repr g_Agent g_Prompt g_Permissions g_SpecResources g_TTL].
  - rewrite Ha1, Hp1, Ht1. done.
  - rewrite !disjoint_union_l. split_and!; [done| |done..]. cbn. set_solver.
Qed.

(** C26. A webhook Task never shares memory with its template.  From any trigger
    template in memory, the Task spec that [BuildTask] starts from stands for the
    value the functional model starts from, with no field left out; the template is
    unchanged, also by any later write to memory the Task reaches, and no later
    write to the template reaches the Task. *)
Theorem template_isolated h (tmpl : gTaskTemplate) (t : TaskTemplate) (Ht : read h tmpl = Some t) :
  exists g h', new_spec tmpl h = Some (g, h') /\ read h' g = Some (task_Spec (Mapping.template_task t)) /\
    (forall h'', differs_in (reach h' g) h' h'' -> read h'' tmpl = Some t) /\
    (forall h'', differs_in (reach h' tmpl) h' h'' -> read h'' g = Some (task_Spec (Mapping.template_task t))).
Proof.
  pose proof (new_spec_made h tmpl t Ht) as Hw. unfold wp in Hw. destruct (new_spec tmpl h) as [[g h']|]; [|done].
  destruct Hw as (Hs & Hr & Hd). exists g, h'. destruct (read_extends h h' tmpl t Hs Ht) as [Ht' Hre].
  assert (Hoff : reach h' tmpl ## reach h' g).
  { rewrite Hre. exact (disjoint_shrink _ _ _ Hd (reach_dom h tmpl t Ht)). }
  split_and!; [done..| |]; intros h'' Hw; (eapply differs_off; [exact Hw|done|]); [done|by symmetry].
Qed.

End TemplateCopy.

#[local] Existing Instances Sample.layout Sample.library.

(** The template of the sample memory: its agent config is at address 1. *)
Definition sample_template : gTaskTemplate :=
  mkGTaskTemplate "ns" "" (mkGAgentRef "agent" (At 1))
    (mkGPermissions (Window 4 1 2) NilSlice NilSlice NilSlice) (mkTaskResources "" "" 0) Nil NilSlice.

Lemma template_isolated_witness : exists g h',
  new_spec sample_template Sample.memory = Some (g, h') /\
  read h' g = Some (mkTaskSpec (mkAgentRef "agent" (Some "{}"%string)) (mkPromptSource "" None None)
    (mkPermissions ["a"; "b"]%string [] [] []) (mkTaskResources "" "" 0) None).
Proof.
  destruct (template_isolated (H := Sample.library) Sample.memory sample_template
    (mkTaskTemplate "ns" "" (mkAgentRef "agent" (Some "{}"%string)) (mkPermissions ["a"; "b"]%string [] [] [])
       (mkTaskResources "" "" 0) None []) eq_refl) as (g & h' & Hc & Hr & _).
  exists g, h'. split; [exact Hc|exact Hr].
Defined.

End TemplateCopy.
