(* ===== verification/Admission.v ===== *)
(** * Admission

    The validation markers of [api/v1alpha1/task_types.go], which the API server
    enforces on every Task, with the schema of the conditions in
    [config/crd/bases/openconveyor.ai_tasks.yaml], and how the program relates to them: a
    Task that is admitted passes the checks of the reconciler, a Task that the webhook
    builds is admitted, and a status that the reconciler writes is admitted unless the
    message of its Ready condition is too long, which a spec can bring about
    ([long_key_refused]).

    The functions of the rule language ([isCIDR], [isIP], [isQuantity], the order
    of quantities) belong to the API server and are parameters; its regular
    expressions are recognisers. *)

From S2P Require Import Prelude GoString GoTime GoNet GoJson GoUrl Kube Api Effects KubeLib Metrics.
From S2P Require Import PolicyObjects PolicyConfig PolicyNetwork Reconciler Samples PolicyResult.
From S2P Require Import Build Status TaskResult Sync Reconcile Lifecycle Mapping.

(** The functions that validation rules may call. *)
Class CelLib := {
  isCIDR : string -> bool;
  isIP : string -> bool;
  isQuantity : string -> bool;
  quantity_negative : string -> bool }.

(** They accept no text that the parsers of the program refuse, and no spaces. *)
Class CelLaws `{CelLib, KubeLib} : Prop := {
  cel_cidr : forall s, isCIDR s = true -> TrimSpace s = s /\ is_Some (ParseCIDR s);
  cel_ip : forall s, isIP s = true -> TrimSpace s = s /\ ContainsByte s "/" = false /\ is_Some (ParseIP s);
  cel_quantity : forall s, isQuantity s = true -> exists q, ParseQuantity s = Ok q }.

Module Admission.
Import Labels Secrets Rbac Prompt Config Network Result Build Status TaskResult Sync Reconcile Lifecycle.

(** ** The schema of a spec *)

(** The expression for DNS names: labels of at most 63 letters, digits and inner
    hyphens, joined with dots, with an optional dot at the end.  [n] counts the
    characters of the label so far, [alnum] tells whether the last was not a
    hyphen, [dot] whether a label came before. *)
Fixpoint dns_scan (s : string) (n : nat) (alnum dot : bool) : bool :=
  match s with
  | EmptyString => if (n =? 0)%nat then dot else alnum
  | String c s' =>
    if is_alnum c then (n <? 63)%nat && dns_scan s' (S n) true dot
    else if Ascii.eqb c "-" then negb (n =? 0)%nat && (n <? 63)%nat && dns_scan s' (S n) false dot
    else if Ascii.eqb c "." then negb (n =? 0)%nat && alnum && dns_scan s' 0 false true
    else false
  end.
Definition dns_name (s : string) : bool := dns_scan s 0 false false.

(** [MaxLength] counts characters. *)
Definition chars (s : string) : Z := Z.of_nat (length (runes s)).

Section Schema.
Context `{CelLib}.

Definition egress_entry_admitted (e : string) : Prop :=
  chars e <= 253 /\ (isCIDR e = true \/ isIP e = true \/ dns_name e = true).

Definition rule_admitted (r : RBACRule) : Prop := rbac_APIGroups r <> [] /\ rbac_Resources r <> [] /\ rbac_Verbs r <> [].

Definition permissions_admitted (p : Permissions) : Prop :=
  (length (perm_Egress p) <= 256)%nat /\ Forall egress_entry_admitted (perm_Egress p) /\
  (length (perm_EgressPorts p) <= 16)%nat /\ NoDup (perm_EgressPorts p) /\
  Forall (fun port => 1 <= port <= 65535) (perm_EgressPorts p) /\ Forall rule_admitted (perm_RBAC p).

(** An empty text is an absent field. *)
Definition quantity_admitted (s : string) : Prop := s = ""%string \/ (isQuantity s = true /\ quantity_negative s = false).

Definition resources_admitted (r : TaskResources) : Prop :=
  quantity_admitted (res_CPU r) /\ quantity_admitted (res_Memory r) /\ 0 < res_Timeout r.

(** The rule on the prompt: exactly one source. *)
Definition prompt_admitted (p : PromptSource) : Prop :=
  length (filter (fun b => b = true) [negb (prompt_Inline p =? "")%string; is_set (prompt_SecretRef p); is_set (prompt_ConfigMapRef p)]) = 1%nat /\
  chars (prompt_Inline p) <= 262144.

Definition ttl_admitted (ttl : option Z) : Prop := match ttl with Some t => 0 <= t | None => True end.

Definition spec_admitted (s : TaskSpec) : Prop :=
  prompt_admitted (spec_Prompt s) /\ permissions_admitted (spec_Permissions s) /\ resources_admitted (spec_Resources s) /\
  ttl_admitted (spec_TTLSecondsAfterFinished s).

(** The same markers on the template of a trigger class. *)
Definition template_admitted (t : TaskTemplate) : Prop :=
  permissions_admitted (tmpl_Permissions t) /\ resources_admitted (tmpl_Resources t) /\
  ttl_admitted (tmpl_TTLSecondsAfterFinished t).

(** The markers on an agent class; an empty pull policy is an absent field. *)
Definition requirements_admitted (r : AgentRequirements) : Prop :=
  (length (req_Egress r) <= 256)%nat /\ Forall egress_entry_admitted (req_Egress r).
Definition class_admitted (s : ClusterAgentClassSpec) : Prop :=
  1 <= chars (cac_Image s) /\ cac_ImagePullPolicy s ∈ [""; "Always"; "Never"; "IfNotPresent"]%string /\
  requirements_admitted (cac_Requires s).

End Schema.

(** ** The schema of a status *)

Definition link_admitted (l : ResultLink) : Prop :=
  1 <= chars (link_Name l) <= 32 /\ linkNamePattern (link_Name l) = true /\ 1 <= chars (link_URL l) <= 2048.

(** The links are a map by name. *)
Definition result_admitted (r : TaskResult) : Prop :=
  chars (result_Summary r) <= 512 /\ (length (result_Links r) <= 8)%nat /\ NoDup (link_Name <$> result_Links r) /\
  Forall link_admitted (result_Links r).

(** The pattern of a reason, after its first letter: letters, digits, underscores, commas
    and colons, the last of them no comma or colon; [fin] says that the text may end here. *)
Fixpoint reason_scan (s : string) (fin : bool) : bool :=
  match s with
  | EmptyString => fin
  | String c s' =>
    if is_alnum c || Ascii.eqb c "_" then reason_scan s' true
    else if Ascii.eqb c "," || Ascii.eqb c ":" then reason_scan s' false
    else false
  end.
Definition reason_pattern (s : string) : bool :=
  match s with String c s' => is_alpha c && reason_scan s' true | EmptyString => false end.

(** The name in a condition type, after its first letter or digit: letters, digits,
    hyphens, underscores and dots, the last of them a letter or digit. *)
Fixpoint name_scan (s : string) (fin : bool) : bool :=
  match s with
  | EmptyString => fin
  | String c s' =>
    if is_alnum c then name_scan s' true
    else if Ascii.eqb c "-" || Ascii.eqb c "_" || Ascii.eqb c "." then name_scan s' false
    else false
  end.
Definition name_pattern (s : string) : bool :=
  match s with String c s' => is_alnum c && name_scan s' true | EmptyString => false end.

(** The domain before it: words of small letters, digits and inner hyphens, joined with
    dots; [start] says that a word begins here, [fin] that it may end here. *)
Fixpoint domain_scan (s : string) (start fin : bool) : bool :=
  match s with
  | EmptyString => fin
  | String c s' =>
    if in_range 97 122 (byte_val c) || in_range 48 57 (byte_val c) then domain_scan s' false true
    else if Ascii.eqb c "-" then negb start && domain_scan s' false false
    else if Ascii.eqb c "." then fin && domain_scan s' true false
    else false
  end.

(** The pattern of a condition type: a name, or a domain, a slash and a name. *)
Definition type_pattern (s : string) : bool :=
  match IndexByte s "/" with
  | Some i => domain_scan (take_str i s) true false && name_pattern (drop_str (S i) s)
  | None => name_pattern s
  end.

(** The schema of a condition but for its message: [lastTransitionTime] is required,
    and a zero time is written as null. *)
Definition condition_formed (c : Condition) : Prop :=
  chars (cond_Type c) <= 316 /\ type_pattern (cond_Type c) = true /\
  1 <= chars (cond_Reason c) <= 1024 /\ reason_pattern (cond_Reason c) = true /\
  0 <= cond_ObservedGeneration c /\ IsZero (cond_LastTransitionTime c) = false.

Definition MaxMessageChars : Z := 32768.

Definition condition_admitted (c : Condition) : Prop :=
  condition_formed c /\ chars (cond_Message c) <= MaxMessageChars.

(** The conditions are a map by type. *)
Definition status_admitted (s : TaskStatus) : Prop :=
  status_wf s /\ Forall condition_admitted (st_Conditions s) /\ (forall r, st_Result s = Some r -> result_admitted r).

(** ** Lemmas *)

Definition dns_char (c : ascii) : bool := is_alnum c || Ascii.eqb c "-" || Ascii.eqb c ".".

Lemma dns_scan_chars s n alnum dot : dns_scan s n alnum dot = true -> Forall (fun c => dns_char c = true) (String.list_ascii_of_string s).
Proof.
  revert n alnum dot. induction s as [|c s IH]; intros n alnum dot; cbn [dns_scan String.list_ascii_of_string]; [constructor|].
  intros Hs. assert (Hc : dns_char c = true /\ exists n' a d, dns_scan s n' a d = true).
  { unfold dns_char. repeat case_match; rewrite ?andb_true_iff in Hs; cbn; naive_solver. }
  destruct Hc as [Hc (n' & a & d & Hr)]. constructor; [done|by eapply IH].
Qed.

Lemma dns_char_plain c : dns_char c = true -> is_ascii c = true /\ IsSpace (byte_val c) = false /\ Ascii.eqb c "/" = false.
Proof. destruct c as [[] [] [] [] [] [] [] []]; vm_compute; intuition congruence. Qed.

Lemma contains_list s c : ContainsByte s c = existsb (fun d => Ascii.eqb d c) (String.list_ascii_of_string s).
Proof.
  unfold ContainsByte. induction s as [|d s IH]; [done|]. cbn. destruct (Ascii.eqb d c); [done|]. rewrite <- IH. by destruct (IndexByte s c).
Qed.

Lemma dns_name_plain s : dns_name s = true -> TrimSpace s = s /\ ContainsByte s "/" = false.
Proof.
  intros Hs%dns_scan_chars. split.
  - apply TrimSpace_ascii. eapply Forall_impl; [exact Hs|]. intros c (? & ? & _)%dns_char_plain. done.
  - rewrite contains_list. apply not_true_iff_false. intros (c & Hin%list_elem_of_In & Hc)%existsb_exists.
    rewrite Forall_forall in Hs. specialize (Hs c Hin). apply dns_char_plain in Hs. intuition congruence.
Qed.

Section Spec.
Context `{CelLib, KubeLib, !CelLaws, UnicodeTables, JsonErrors, Gjson}.

Lemma admitted_sources p : prompt_admitted p -> prompt_sources p = 1%nat.
Proof.
  intros [Hl _]. unfold prompt_sources. destruct (negb _), (is_set (prompt_SecretRef p)), (is_set (prompt_ConfigMapRef p)); try done.
Qed.

Lemma admitted_quantity field text : quantity_admitted text -> validate_quantity field text = Ok tt.
Proof.
  unfold validate_quantity. intros [->|[Hq _]]; [done|]. destruct (text =? "")%string; [done|]. by destruct (cel_quantity text Hq) as [q ->].
Qed.

(** An admitted entry is trimmed, and with a slash it is a CIDR. *)
Lemma admitted_entry e :
  egress_entry_admitted e -> TrimSpace e = e /\ (ContainsByte e "/" = true -> is_Some (ParseCIDR e)) /\
  (dns_name e = true \/ isCIDR e = true \/ is_Some (ParseIP e)).
Proof.
  intros [_ [Hc|[Hi|Hd]]].
  - destruct (cel_cidr e Hc). auto.
  - destruct (cel_ip e Hi) as (? & Hn & ?). split_and!; [done| |auto]. congruence.
  - destruct (dns_name_plain e Hd) as [? Hn]. split_and!; [done| |auto]. congruence.
Qed.

Lemma admitted_effective task agent :
  Forall egress_entry_admitted (perm_Egress (spec_Permissions (task_Spec task))) ->
  Forall egress_entry_admitted (req_Egress (cac_Requires (class_Spec agent))) ->
  Forall egress_entry_admitted (effective_egress task agent).
Proof.
  rewrite !Forall_forall. intros Ht Hc e [_ (l & Hl & He)]%elem_of_MergeStringSets.
  apply elem_of_cons in Hl as [->|Hl]; [auto|]. apply list_elem_of_singleton in Hl as ->. auto.
Qed.

(** C28. What the API server admits, the reconciler accepts.  An admitted spec passes the
    reconciler's own check exactly when it names an agent class, the one thing
    the schema leaves open.  With an admitted class, resolving the effective allowlist of the
    two can then fail only because a lookup of one of its entries failed, never because
    an entry is malformed. *)
Theorem admitted_spec_accepted task (Ha : spec_admitted (task_Spec task)) :
  (validateTask task = Ok tt <-> agent_Ref (spec_Agent (task_Spec task)) <> ""%string) /\
  (agent_Ref (spec_Agent (task_Spec task)) = ""%string -> validateTask task = Err (ErrNew "spec.agent.ref is required")) /\
  (forall agent tr e, class_admitted (class_Spec agent) ->
     exec (resolveEgress DefaultResolver (effective_egress task agent)) tr (Err e) ->
     exists entry nf m, entry ∈ effective_egress task agent /\
       ev (CLookupHost entry) (Err (nf, m)) ∈ tr /\ IsPermanent e = nf).
Proof.
  destruct Ha as (Hp & (_ & He & _) & (Hcpu & Hmem & Ht) & _).
  assert (Hv : validateTask task = if (agent_Ref (spec_Agent (task_Spec task)) =? "")%string
    then Err (ErrNew "spec.agent.ref is required") else Ok tt).
  { unfold validateTask. rewrite (proj2 (Z.leb_gt _ _) Ht), (admitted_sources _ Hp), !admitted_quantity by done. done. }
  rewrite Hv. split_and!.
  - destruct (_ =? "")%string eqn:Hr; str_eqb; [|done]. by rewrite Hr.
  - by intros ->.
  - intros agent tr e (_ & _ & _ & Hr) ([s|e'] & Hx & [= ->])%resolveEgress_exec.
    pose proof (admitted_effective task agent He Hr) as Hadm. rewrite Forall_forall in Hadm. apply resolve_entries_err in Hx as [(en & Hin & Hs & Hn & _)|(en & nf & m & Hin & Hl & _ & Hnf)];
      destruct (admitted_entry en (Hadm en Hin)) as (Htr & Hc & _); rewrite Htr in *.
    + destruct (Hc Hs) as [x Hx]. congruence.
    + by exists en, nf, m.
Qed.

(** The webhook sends the API server what it will admit.  A Task that [BuildTask]
    makes from an admitted template is admitted exactly when its prompt has at most
    262144 characters: nothing else a payload can set is subject to validation. *)
Theorem built_task_admitted tmpl body task
    (Ht : template_admitted tmpl) (Hb : Mapping.BuildTask tmpl body = Returns (Ok task)) :
  spec_admitted (task_Spec task) <-> chars (prompt_Inline (spec_Prompt (task_Spec task))) <= 262144.
Proof.
  destruct (Mapping.BuildTask_frame _ _ _ Hb) as (Hp & Hr & Httl & _ & _ & _ & _ & _ & Hs & Hc).
  assert (Hne : Mapping.has_prompt (spec_Prompt (task_Spec task)) = true).
  { unfold Mapping.BuildTask in Hb. repeat (case_match; simplify_eq). done. }
  unfold spec_admitted, prompt_admitted. rewrite Hp, Hr, Httl, Hs, Hc. cbn [Mapping.template_task task_Spec spec_Permissions spec_Resources
    spec_TTLSecondsAfterFinished spec_Prompt prompt_SecretRef prompt_ConfigMapRef].
  unfold Mapping.has_prompt in Hne. rewrite Hs, Hc in Hne. cbn in Hne. rewrite !orb_false_r in Hne. rewrite Hne.
  destruct Ht as (? & ? & ?). cbn. tauto.
Qed.

End Spec.

(** ** Written statuses *)

Section Written.
Context `{KubeLaws, UnicodeTables, JsonErrors}.

Lemma chunks_from_length k s : (length (chunks_from k s) <= String.length s)%nat.
Proof.
  revert k. induction s as [|c s IH]; intros k; [done|]. cbn [chunks_from String.length]. destruct k as [|k].
  - destruct (DecodeRune _) as [r w]. cbn [length]. specialize (IH (Nat.pred w)). lia.
  - specialize (IH k). lia.
Qed.

(** At most one character per byte, and at least one in a text that is not empty. *)
Lemma chars_bound s : chars s <= len s /\ (s <> ""%string -> 1 <= chars s).
Proof.
  unfold chars, runes. rewrite length_fmap. split.
  - pose proof (chunks_from_length 0 s). unfold chunks, len. lia.
  - destruct s as [|c s]; [done|]. intros _. unfold chunks. cbn [chunks_from]. destruct (DecodeRune _). cbn [length]. lia.
Qed.

Lemma good_link_admitted allowlist l : good_link allowlist l -> link_admitted l.
Proof.
  intros (Hp & Hn & Hu & raw & u & _ & He & Hs & _). unfold link_admitted.
  destruct (chars_bound (link_Name l)) as [Hn1 Hn2], (chars_bound (link_URL l)) as [Hu1 Hu2].
  assert (link_Name l <> ""%string) by (intros Hl; by rewrite Hl in Hp).
  assert (link_URL l <> ""%string) by (rewrite He; unfold URL_String; by rewrite Hs).
  unfold MaxResultLinkNameChars, MaxResultLinkURLChars in *. split_and!; auto; lia.
Qed.

Lemma parsed_admitted message allowlist r : pr_Result (ParseResult message allowlist) = Some r -> result_admitted r.
Proof.
  intros ((Hs & _) & Hl & Hn & Hg & _)%ParseResult_clean. unfold result_admitted, chars.
  unfold MaxResultSummaryChars, MaxResultLinks in *. split_and!; [lia|lia|done|].
  eapply Forall_impl; [exact Hg|]. intros l. apply good_link_admitted.
Qed.

(** ** The statuses that a pass writes

    They are of the schema but for the length of one text: the message of Ready, which
    can be an error text, the name of the missing class, or what a Job says. *)

Definition free_text (task : Task) (c : Condition) : Prop :=
  fail_reason (cond_Reason c) \/
  (cond_Reason c = reasonAgentClassMissing /\ cond_Message c = waiting_message task) \/
  cond_Reason c ∈ [reasonCompleted; reasonFailed; reasonTimedOut; reasonSuspended].

Definition condition_written (task : Task) (c : Condition) : Prop :=
  condition_formed c /\ (chars (cond_Message c) <= MaxMessageChars \/ (cond_Type c = conditionReady /\ free_text task c)).

Definition status_written (task : Task) (s : TaskStatus) : Prop :=
  status_wf s /\ Forall (condition_written task) (st_Conditions s) /\ (forall r, st_Result s = Some r -> result_admitted r).

Lemma admitted_written task s : status_admitted s -> status_written task s.
Proof. intros (Hw & Hc & Hr). split_and!; [done| |done]. eapply Forall_impl; [exact Hc|]. intros c [? ?]. split; [done|by left]. Qed.

(** Such a status is admitted exactly when its Ready message is not too long. *)
Lemma written_admitted task s : status_written task s ->
  (status_admitted s <-> forall c, FindStatusCondition (st_Conditions s) conditionReady = Some c -> chars (cond_Message c) <= MaxMessageChars).
Proof.
  intros (Hw & Hc & Hr). rewrite Forall_forall in Hc. split.
  - intros (_ & Ha & _) c [Hin _]%find_condition_some. rewrite Forall_forall in Ha. by apply Ha.
  - intros Hm. split_and!; [done| |done]. apply Forall_forall. intros c Hin. destruct (Hc c Hin) as [Hf [Hl|[Ht _]]]; [by split|].
    split; [done|]. apply Hm. rewrite <- Ht. by apply find_condition_NoDup.
Qed.

Definition at_time (t : Time) (c : Condition) : Condition :=
  mkCondition (cond_Type c) (cond_Status c) (cond_Reason c) (cond_Message c) (cond_ObservedGeneration c) t.

Lemma set_condition_written task now s c :
  status_written task s -> now <> 0 -> cond_LastTransitionTime c = 0 -> (forall t, t <> 0 -> condition_written task (at_time t c)) ->
  status_written task (with_Conditions (SetStatusCondition now (st_Conditions s) c) s).
Proof.
  intros (Hw & Hl & Hr) Hn Hz0 Hc. assert (Hnd : NoDup (cond_Type <$> SetStatusCondition now (st_Conditions s) c)) by by apply set_condition_NoDup.
  split_and!; [exact Hnd| |exact Hr]. apply Forall_forall. intros c' Hin. pose proof (find_condition_NoDup _ _ Hnd Hin) as Hf.
  rewrite Forall_forall in Hl. destruct (decide (cond_Type c' = cond_Type c)) as [He|He].
  - rewrite He, set_condition_same in Hf by done. injection Hf as <-. apply Hc.
    destruct (FindStatusCondition (st_Conditions s) (cond_Type c)) as [old|] eqn:Ho; [|done]. case_bool_decide; [|done].
    apply find_condition_some in Ho as [Hin' _]. destruct (Hl old Hin') as [(_ & _ & _ & _ & _ & Hz) _]. unfold IsZero in Hz. by apply Z.eqb_neq.
  - rewrite set_condition_other in Hf by done. apply find_condition_some in Hf as [Hin' _]. by apply Hl.
Qed.

(** A reason that the schema accepts. *)
Definition reason_admitted (reason : string) : Prop := 1 <= chars reason <= 1024 /\ reason_pattern reason = true.

Lemma new_condition_written task type status reason msg gen :
  type = conditionReady \/ type = conditionResult -> reason_admitted reason -> 0 <= gen ->
  (chars msg <= MaxMessageChars \/ (type = conditionReady /\ free_text task (mkCondition type status reason msg gen 0))) ->
  forall t, t <> 0 -> condition_written task (at_time t (mkCondition type status reason msg gen 0)).
Proof.
  intros Ht [Hr Hp] Hg Hm t Hz. split; [|exact Hm]. unfold condition_formed. cbn [at_time cond_Type cond_Reason cond_ObservedGeneration cond_LastTransitionTime].
  split_and!; [|by destruct Ht as [-> | ->]|apply Hr|apply Hr|done|done|by apply Z.eqb_neq]. by destruct Ht as [-> | ->].
Qed.

(** The clock never reads the zero time. *)
Definition clocked (tr : Trace) : Prop := forall now, ev CNow now ∈ tr -> now <> 0.

Lemma clocked_app t1 t2 : clocked (t1 ++ t2) <-> clocked t1 /\ clocked t2.
Proof. unfold clocked. setoid_rewrite elem_of_app. naive_solver. Qed.
Lemma clocked_cons e tr : clocked (e :: tr) -> clocked tr.
Proof. intros Hc now Hin. apply Hc. by right. Qed.

(** [c], when it writes a status, writes such a status. *)
Definition sends (task : Task) (c : Call) : Prop :=
  match c with CStatusUpdate t => status_written task (task_Status t) | _ => True end.
Definition writes (task : Task) (tr : Trace) : Prop := clocked tr -> Forall (sends task) (calls tr).

#[local] Instance writes_additive task : Additive (writes task).
Proof.
  split; [constructor|]. intros t1 t2 Hw1 Hw2 [Hc1 Hc2]%clocked_app. rewrite calls_app. apply Forall_app. split; [by apply Hw1|by apply Hw2].
Qed.

Lemma quiet_writes {A} (P : Call -> Prop) task (p : Prog A) :
  (forall c, P c -> match c with CStatusUpdate _ => False | _ => True end) -> only P p -> every (writes task) p.
Proof. intros HP Hp tr a Hx _. eapply Forall_impl; [by eapply Hp|]. intros c Hc%HP. by destruct c. Qed.

Lemma writes_one task e : match ev_call e with CStatusUpdate _ => False | _ => True end -> writes task [e].
Proof. intros He _. repeat constructor. unfold sends. by destruct (ev_call e). Qed.

Lemma fail_reason_admitted reason : fail_reason reason -> reason_admitted reason.
Proof. intros [-> | ->]; (split; [split; vm_compute; discriminate|reflexivity]). Qed.

Lemma marked_written now phase status reason msg task :
  status_admitted (task_Status task) -> 0 <= task_Generation task -> now <> 0 -> reason_admitted reason ->
  free_text task (mkCondition conditionReady status reason msg (task_Generation task) 0) ->
  status_written task (task_Status (marked now phase status reason msg task)).
Proof.
  intros Hs Hg Hn Hr Hf. pose proof (admitted_written task _ Hs) as Hw.
  apply (set_condition_written task now (with_ObservedGeneration (task_Generation task) (with_Phase phase (task_Status task)))); [exact Hw|done|done|].
  apply new_condition_written; auto.
Qed.

Lemma failTask_writes r task reason cause :
  status_admitted (task_Status task) -> 0 <= task_Generation task -> fail_reason reason -> every (writes task) (failTask r task reason cause).
Proof.
  intros Hs Hg Hf tr res Hx Hck. apply Forall_forall. intros c Hc. destruct c as [| | | |t| | | | | | | | |]; try exact I.
  destruct (failTask_cases _ _ _ _ _ _ Hx) as (now & Hcase). cbn zeta in Hcase. assert (Hn : now <> 0).
  { apply Hck. destruct Hcase as [(e & -> & _)|(t' & _ & ->)]; left. }
  assert (Ht : t = marked now TaskPhaseFailed ConditionFalse reason (Error cause) task).
  { destruct Hcase as [(e & -> & _)|(t' & _ & ->)]; apply elem_of_calls_cons in Hc as [?|[[=]|Hc]%elem_of_calls_cons]; try done.
    - by apply elem_of_calls_nil in Hc.
    - destruct (bool_decide _); [by apply elem_of_calls_nil in Hc|]. apply elem_of_calls_cons in Hc as [?|Hc]; [done|].
      by apply event_trace_calls in Hc. }
  subst t. apply marked_written; [done|done|done|by apply fail_reason_admitted|by left].
Qed.

Lemma markWaiting_writes r task :
  status_admitted (task_Status task) -> 0 <= task_Generation task -> every (writes task) (markWaitingForAgentClass r task).
Proof.
  intros Hs Hg tr res Hx Hck. apply Forall_forall. intros c Hc. destruct c as [| | | |t| | | | | | | | |]; try exact I.
  destruct (markWaiting_cases _ _ _ _ Hx) as (now & Hcase). cbn zeta in Hcase. assert (Hn : now <> 0).
  { apply Hck. destruct Hcase as [(_ & -> & _)|(_ & [(e & -> & _)|(t' & _ & ->)])]; left. }
  assert (Ht : t = marked now TaskPhasePending ConditionUnknown reasonAgentClassMissing (waiting_message task) task).
  { destruct Hcase as [(_ & -> & _)|(_ & [(e & -> & _)|(t' & _ & ->)])]; apply elem_of_calls_cons in Hc as [?|Hc]; try done;
      [by apply elem_of_calls_nil in Hc|..]; apply elem_of_calls_cons in Hc as [[=]|Hc]; try done;
      [by apply elem_of_calls_nil in Hc|by apply event_trace_calls in Hc]. }
  subst t. apply marked_written; [done..| |by right; left]. split; [split; vm_compute; discriminate|reflexivity].
Qed.

(** *** The Result *)

Definition result_reasons : list string :=
  [reasonResultRecorded; reasonResultInvalid; reasonResultNotProvided; reasonResultUnavailable].

Lemma result_reason_admitted reason : reason ∈ result_reasons -> reason_admitted reason.
Proof.
  unfold result_reasons. intros Hin. repeat (apply elem_of_cons in Hin as [->|Hin]; [split; [split; vm_compute; discriminate|reflexivity]|]).
  by apply elem_of_nil in Hin.
Qed.

Lemma short_message s n : (String.length s <= n)%nat -> (n <= 1000)%nat -> chars s <= MaxMessageChars.
Proof. unfold chars, MaxMessageChars. pose proof (runes_length s). lia. Qed.

Lemma setResult_written task0 task reason msg tr task' :
  exec (setResultCondition task reason msg) tr task' -> clocked tr -> status_written task0 (task_Status task) -> 0 <= task_Generation task ->
  reason ∈ result_reasons -> chars msg <= MaxMessageChars -> status_written task0 (task_Status task').
Proof.
  intros (now & -> & ->)%exec_set_condition Hck Hs Hg Hr Hm. apply set_condition_written; [done|apply Hck; left|done|].
  apply new_condition_written; [by right|by apply result_reason_admitted|done|by left].
Qed.

Lemma observed_written task0 r task uid egress tr task' d :
  exec (observeResult r task uid egress) tr (Ok (task', d)) -> clocked tr -> status_written task0 (task_Status task) ->
  0 <= task_Generation task -> status_written task0 (task_Status task').
Proof.
  intros Hx Hck Hs Hg. unfold observeResult in Hx. destruct (resultDecided task); [apply exec_ret in Hx as [_ Hx]; by simplify_eq|].
  apply exec_call_inv in Hx as (pods & rest & -> & Hx). apply clocked_cons in Hck.
  destruct pods as [pods|e]; [|by apply exec_ret in Hx as [_ ?]]. destruct (scan_pods uid pods false) as [msg|seen].
  - apply exec_bind in Hx as (t1 & t2 & t & -> & Ha & [-> Hx]%exec_ret). simplify_eq. rewrite app_nil_r in Hck.
    assert (Hs' : status_written task0 (with_Result (pr_Result (ParseResult msg egress)) (task_Status task))).
    { destruct Hs as (Hw & Hc & _). split_and!; [exact Hw|exact Hc|]. intros out. apply parsed_admitted. }
    pose proof (short_message _ _ (problem_short msg egress) ltac:(lia)) as Hp.
    unfold applyParsedResult in Ha. destruct (pr_Outcome _); (eapply setResult_written; [exact Ha|exact Hck|exact Hs'|exact Hg|by repeat constructor|]);
      [vm_compute; discriminate|exact Hp|exact Hp].
  - destruct (negb _); [apply exec_ret in Hx as [_ Hx]; by simplify_eq|]. apply exec_bind in Hx as (t1 & t2 & since & -> & _ & Hx).
    apply exec_call_inv in Hx as (now & t3 & -> & Hx). apply clocked_app in Hck as [_ Hck%clocked_cons].
    destruct (_ <? _); [apply exec_ret in Hx as [_ Hx]; by simplify_eq|]. apply exec_bind in Hx as (t4 & t5 & t & -> & Ha & [-> Hx]%exec_ret).
    simplify_eq. rewrite app_nil_r in Hck. eapply setResult_written; [exact Ha|exact Hck|exact Hs|exact Hg|by repeat constructor|].
    destruct seen; vm_compute; discriminate.
Qed.

(** *** The state of the Job *)

Lemma conditions_phase_text l phase reason msg :
  conditions_phase l = Some (phase, reason, msg) -> reason ∈ [reasonCompleted; reasonFailed; reasonTimedOut; reasonSuspended].
Proof.
  induction l as [|c l IH]; cbn [conditions_phase]; [done|]. intros Hp.
  repeat (case_match; simplify_eq); try (by apply IH); by repeat constructor.
Qed.

Lemma derivePhase_text job phase reason msg :
  derivePhase job = (phase, reason, msg) -> reason_admitted reason /\
  (chars msg <= MaxMessageChars \/ reason ∈ [reasonCompleted; reasonFailed; reasonTimedOut; reasonSuspended]).
Proof.
  unfold derivePhase. destruct (conditions_phase _) as [v|] eqn:Hc.
  - intros ->. apply conditions_phase_text in Hc. split; [|by right].
    repeat (apply elem_of_cons in Hc as [->|Hc]; [split; [split; vm_compute; discriminate|reflexivity]|]). by apply elem_of_nil in Hc.
  - destruct (_ || _); intros [= <- <- <-]; (split; [split; [split; vm_compute; discriminate|reflexivity]|left; vm_compute; discriminate]).
Qed.

Lemma synced_written now task job :
  status_admitted (task_Status task) -> 0 <= task_Generation task -> now <> 0 -> status_written task (task_Status (synced now task job)).
Proof.
  intros Hs Hg Hn. destruct (derivePhase job) as [[phase reason] msg] eqn:Hd. destruct (derivePhase_text _ _ _ _ Hd) as [Hr Hm].
  rewrite (synced_eq _ _ _ _ _ _ Hd). pose proof (admitted_written task _ Hs) as Hw. cbn [task_Status].
  apply (set_condition_written task now (mkTaskStatus phase (task_Generation task) (om_Name (job_Meta job)) (jst_StartTime (job_Status job))
    (jst_CompletionTime (job_Status job)) (st_Result (task_Status task)) (st_Conditions (task_Status task)))); [exact Hw|done|done|].
  apply new_condition_written; [by left|done|done|]. destruct Hm as [Hm|Hm]; [by left|right]. split; [done|]. by right; right.
Qed.

Lemma syncStatus_writes r task job egress :
  status_admitted (task_Status task) -> 0 <= task_Generation task -> every (writes task) (syncStatus r task job egress).
Proof.
  intros Hs Hg tr res Hx Hck. destruct (derivePhase job) as [[phase reason] msg] eqn:Hd.
  destruct (syncStatus_cases _ _ _ _ _ _ _ _ _ Hd Hx) as (now & to & Hc).
  assert (Hq : forall o, exec (observeResult r (synced now task job) (om_UID (job_Meta job)) egress) to o -> Forall (sends task) (calls (ev CNow now :: to))).
  { intros o Ho. constructor; [exact I|]. eapply Forall_impl; [by eapply observeResult_queries|]. by intros []. }
  destruct Hc as [(e & Ho & -> & _)|(t & d & Ho & Hc)]; [by eapply Hq|].
  assert (Ht : clocked (ev CNow now :: to) -> sends task (CStatusUpdate t)).
  { intros Hk. eapply observed_written; [exact Ho|by eapply clocked_cons|apply synced_written; [done..|apply Hk; left]|].
    by rewrite (synced_eq _ _ _ _ _ _ Hd). }
  destruct Hc as [(_ & -> & _)|(_ & [(e & -> & _)|(t' & -> & _)])]; [by eapply Hq|..];
    rewrite app_comm_cons in Hck |- *; apply clocked_app in Hck as [Hk _]; rewrite calls_app; apply Forall_app; (split; [by eapply Hq|]);
    (constructor; [by apply Ht|]); [constructor|]. apply Forall_forall. intros c Hin%transition_reports. by destruct c.
Qed.

Lemma write_if_changed_writes task0 before task d :
  status_written task0 (task_Status task) -> only (sends task0) (write_if_changed before task d).
Proof.
  intros Hs. unfold write_if_changed. destruct (equalStatus _ _); [apply only_ret|]. apply only_call; [exact Hs|]. intros; apply only_ret.
Qed.

Lemma recordTerminalResult_writes r task :
  status_admitted (task_Status task) -> 0 <= task_Generation task -> every (writes task) (recordTerminalResult r task).
Proof.
  intros Hs Hg. pose proof (admitted_written task _ Hs) as Hw. unfold recordTerminalResult. destruct (_ || _); [apply every_ret, _|].
  apply every_call; [apply _|intros; by apply writes_one|]. intros [job|e].
  - apply every_bind; [apply _|apply every_call; [apply _|intros; by apply writes_one|intros; apply every_ret, _]|].
    intros egress tr res (t1 & t2 & o & -> & Ho & Hx)%exec_bind [Hc1 Hc2]%clocked_app. rewrite calls_app. apply Forall_app. split.
    + eapply quiet_writes; [|apply observeResult_queries|exact Ho|exact Hc1]. by intros [].
    + destruct o as [[t d]|e]; [|by apply exec_ret in Hx as [-> _]; constructor].
      eapply write_if_changed_writes; [|exact Hx]. by eapply observed_written.
  - destruct (IsNotFound e); [|apply every_ret, _]. intros tr res (t1 & t2 & t & -> & Ht & Hx)%exec_bind [Hc1 Hc2]%clocked_app.
    rewrite calls_app. apply Forall_app. split; [by pose proof Ht as [[now ->] _]%exec_setResultCondition; repeat constructor|].
    eapply write_if_changed_writes; [|exact Hx]. eapply setResult_written; [exact Ht|done..|by repeat constructor|vm_compute; discriminate].
Qed.

Lemma observe_writes task s : every (writes task) (ObserveReconcileError s).
Proof. apply every_call; [apply _|intros; by apply writes_one|]. intros; apply every_ret, _. Qed.

Lemma collectTerminal_writes task0 r task : every (writes task0) (collectTerminal r task).
Proof.
  unfold collectTerminal. destruct (deletionDeadline _ _); [|apply every_ret, _]. apply every_call; [apply _|intros; by apply writes_one|]. intros now.
  destruct (0 <? _); [apply every_ret, _|]. apply every_call; [apply _|intros; by apply writes_one|]. intros; apply every_ret, _.
Qed.

Lemma reconcile_live_writes r task :
  status_admitted (task_Status task) -> 0 <= task_Generation task -> every (writes task) (reconcile_live r task).
Proof.
  intros Hs Hg. apply (reconcile_live_every (writes task)).
  - intros; by apply writes_one.
  - intros; by apply writes_one.
  - intros. by apply failTask_writes.
  - by apply markWaiting_writes.
  - intros. eapply quiet_writes; [|by eapply steps_only]. by intros [].
  - intros. eapply quiet_writes; [|apply ensureJob_only]. by intros [|[]|[]|[]| | | | | | | | | |].
  - intros. by apply syncStatus_writes.
Qed.

(** C25. The statuses of the reconciler keep to the schema of the CRD, but for the length
    of one text.  From a Task whose status is of the schema, whatever the agent wrote and
    whatever the server, the resolver and the clock answer (the clock never the zero
    time), every status that a pass sends has distinct conditions, each with a type, a
    reason, a generation and a time that the schema accepts, a Result with at most 512
    characters of summary and at most 8 links with distinct names of 1 to 32 characters of
    the pattern and URLs of 1 to 2048 characters, and messages of at most 32768
    characters, except for the message of Ready when it is an error text, the name of the
    missing class or a text of the Job.  So the server admits the status exactly when that
    one message has at most 32768 characters; nothing in the program cuts it. *)
Theorem written_status_admitted r req task tr res t
    (Hs : status_admitted (task_Status task)) (Hg : 0 <= task_Generation task)
    (Hclock : forall now, ev CNow now ∈ tr -> now <> 0)
    (Hx : exec (Reconcile r req) (ev (CGet KTask req) (Ok task) :: tr) res) (Hin : CStatusUpdate t ∈ calls tr) :
  status_written task (task_Status t) /\
  (status_admitted (task_Status t) <->
   forall c, FindStatusCondition (st_Conditions (task_Status t)) conditionReady = Some c -> chars (cond_Message c) <= MaxMessageChars).
Proof.
  assert (Hw : status_written task (task_Status t)); [|split; [done|by eapply written_admitted]].
  assert (Hq : writes task tr); [|specialize (Hq Hclock); rewrite Forall_forall in Hq; exact (Hq _ Hin)].
  apply pass_first_exec in Hx. destruct (isTerminal _); [|by eapply reconcile_live_writes].
  revert Hx. apply every_bind; [apply _|by apply recordTerminalResult_writes|]. intros [[t' d]|e].
  - apply every_bind; [apply _|apply collectTerminal_writes|]. intros; apply every_ret, _.
  - apply every_bind; [apply _|apply observe_writes|]. intros; apply every_ret, _.
Qed.

End Written.
(** ** The theorems at samples *)

#[local] Existing Instances KubeRef.lib KubeRef.laws Samples.errors_text Samples.tables.

(** Rule functions that accept exactly what the parsers accept. *)
#[local] Instance parser_cel : CelLib := {|
  isCIDR := fun s => bool_decide (TrimSpace s = s) && is_set (ParseCIDR s);
  isIP := fun s => bool_decide (TrimSpace s = s) && negb (ContainsByte s "/") && is_set (ParseIP s);
  isQuantity := fun s => is_ok (ParseQuantity s);
  quantity_negative := fun _ => false |}.
#[local] Instance parser_cel_laws : CelLaws.
Proof.
  split; cbn; intros s.
  - intros [Ht%bool_decide_eq_true Hp]%andb_true_iff. split; [done|]. by destruct (ParseCIDR s).
  - intros [[Ht%bool_decide_eq_true Hc%negb_true_iff]%andb_true_iff Hp]%andb_true_iff. split_and!; [done..|]. by destruct (ParseIP s).
  - destruct (KubeRef.quantity s) as [q|]; [by exists q|done].
Qed.

#[local] Instance title_query : Gjson := {| gjson_get := fun _ path => if (path =? "title")%string then Some "fix it"%string else None |}.

Definition admitted_spec : TaskSpec :=
  mkTaskSpec (mkAgentRef "claude" None) (mkPromptSource "go" None None)
    (mkPermissions [] ["api.example.com"; "10.0.0.0/8"; "192.0.2.7"]%string [443] []) (mkTaskResources "1" "" Minute) (Some 60).
Definition admitted_task : Task := mkTask (Samples.meta "demo" "agents" "uid-1") admitted_spec empty_status.

Lemma admitted_permissions : permissions_admitted (spec_Permissions admitted_spec).
Proof.
  unfold permissions_admitted, egress_entry_admitted. cbn. split_and!; [lia| |lia|apply NoDup_singleton|repeat constructor; lia|constructor].
  repeat (apply List.Forall_cons; [split; [vm_compute; discriminate|]|]); [| | |apply List.Forall_nil];
    [right; right|left|right; left]; vm_compute; reflexivity.
Qed.

(** The class of the samples is admitted. *)
Example agent_admitted : class_admitted (class_Spec Samples.agent).
Proof.
  split_and!; [vm_compute; discriminate|left|split; [cbn; lia|]]. apply List.Forall_cons; [|apply List.Forall_nil].
  split; [vm_compute; discriminate|right; right; vm_compute; reflexivity].
Qed.

Lemma admitted_spec_accepted_witness : spec_admitted admitted_spec /\ validateTask admitted_task = Ok tt.
Proof.
  assert (Ha : spec_admitted (task_Spec admitted_task)).
  { split_and!; [|exact admitted_permissions| |cbn; lia].
    - split; [reflexivity|vm_compute; discriminate].
    - split_and!; [right; split; vm_compute; reflexivity|left; reflexivity|vm_compute; reflexivity]. }
  split; [exact Ha|]. apply (admitted_spec_accepted admitted_task Ha). discriminate.
Defined.

Definition admitted_template : TaskTemplate :=
  mkTaskTemplate "" "" (mkAgentRef "claude" None) (spec_Permissions admitted_spec) (mkTaskResources "" "" Minute) None
    [mkFieldMapping "title" "prompt" ""].

Lemma built_task_admitted_witness : exists task,
  Mapping.BuildTask admitted_template "{}" = Returns (Ok task) /\ spec_admitted (task_Spec task).
Proof.
  destruct (Mapping.BuildTask admitted_template "{}") as [[task|e]|] eqn:Hb; [|discriminate Hb..].
  exists task. split; [reflexivity|]. apply (built_task_admitted admitted_template "{}" task); [|exact Hb|].
  - split_and!; [exact admitted_permissions| |exact I].
    split_and!; [left; reflexivity|left; reflexivity|vm_compute; reflexivity].
  - injection Hb as <-. vm_compute. discriminate.
Defined.

Definition clocked_b (tr : Trace) : bool :=
  forallb (fun e : Ev => match e with existT CNow now => negb (now =? 0) | _ => true end) tr.

Lemma clocked_b_ok tr : clocked_b tr = true -> clocked tr.
Proof.
  unfold clocked_b. rewrite forallb_forall. intros Hall now Hin%list_elem_of_In. specialize (Hall _ Hin). cbn in Hall.
  by apply negb_true_iff, Z.eqb_neq in Hall.
Qed.

Lemma written_status_admitted_witness : exists t,
  CStatusUpdate t ∈ calls (rest_in Samples.finished) /\ status_admitted (task_Status t).
Proof.
  exists (written_in Samples.finished).
  assert (Hin : CStatusUpdate (written_in Samples.finished) ∈ calls (rest_in Samples.finished)).
  { apply list_elem_of_In. vm_compute. tauto. }
  split; [exact Hin|].
  apply (written_status_admitted Samples.reconciler req Samples.task (rest_in Samples.finished) (result_in Samples.finished));
    [split_and!; [constructor|constructor|discriminate]|vm_compute; discriminate| |apply pass_in; reflexivity|exact Hin|].
  - apply clocked_b_ok. vm_compute. reflexivity.
  - intros c Hc. vm_compute in Hc. injection Hc as <-. vm_compute. discriminate.
Defined.

(** ** A status that the server must refuse *)

(** A config with one field that fits no variable and has a name of 32769 characters. *)
Definition long_key : string := byte_run "a" (Z.to_nat 32769).
Definition long_key_config : string := "{" +:+ str1 dquote +:+ long_key +:+ str1 dquote +:+ ":{}}".
Definition long_key_task : Task :=
  mkTask (task_Meta Samples.task)
    (mkTaskSpec (mkAgentRef "claude" (Some long_key_config)) (spec_Prompt admitted_spec) (spec_Permissions admitted_spec)
       (spec_Resources admitted_spec) None) empty_status.

(** The server refuses the status of the pass. *)
Definition refusing : Samples.World :=
  Samples.mkWorld (1000 * Second) (Ok long_key_task) (Ok Samples.agent) (Err Samples.not_found) [] [] []
    (Err Samples.not_found) (Ok ["192.0.2.7"%string]) (Some (mkApiError OtherReason "message: Too long")).

Definition refused_message : bool :=
  existsb (fun c => match c with
                    | CStatusUpdate t => existsb (fun c => MaxMessageChars <? chars (cond_Message c)) (st_Conditions (task_Status t))
                    | _ => false
                    end) (calls (rest_in refusing)).

(** The spec is of the schema, yet the pass can only write a status that is not: the
    write is refused, and the Task never becomes Failed. *)
Lemma long_key_refused :
  spec_admitted (task_Spec long_key_task) /\ is_ok (result_in refusing).2 = false /\
  exists t, CStatusUpdate t ∈ calls (rest_in refusing) /\ ~ status_admitted (task_Status t).
Proof.
  split; [|split].
  - split_and!; [split; [reflexivity|vm_compute; discriminate]|exact admitted_permissions| |exact I].
    split_and!; [right; split; vm_compute; reflexivity|left; reflexivity|vm_compute; reflexivity].
  - vm_compute. reflexivity.
  - assert (Hr : refused_message = true) by (vm_compute; reflexivity). unfold refused_message in Hr.
    apply existsb_exists in Hr as (c & Hin%list_elem_of_In & Hc). destruct c as [| | | |t| | | | | | | | |]; try done.
    exists t. split; [exact Hin|]. intros (_ & Ha & _). apply existsb_exists in Hc as (c & Hc%list_elem_of_In & Hl%Z.ltb_lt).
    rewrite Forall_forall in Ha. destruct (Ha c Hc) as [_ Hm]. lia.
Qed.

End Admission.
