(* ===== verification/Webhook.v ===== *)
(** * The webhook adapter

    [internal/trigger/dedupe.go] and [handler.go]: from an HTTP request to at
    most one Task. *)

From S2P Require Import Prelude GoString GoTime GoNet GoJson Kube Api Effects KubeLib Metrics.
From S2P Require Import PolicyObjects PolicyConfig PolicyNetwork Reconciler Samples Signature Mapping.

Module Webhook.
Import Labels Signature Mapping.

Definition maxBodyBytes : Z := 1048576.

(** [h_Reader] says whether a live reader is set. *)
Record Handler := mkHandler {
  h_SecretNamespace : string; h_DefaultTaskNamespace : string; h_Reader : bool }.

(** A request: [rq_Header name] is what [Header.Get(name)] answers; the body is
    the bytes the client sends and whether reading fails after them. *)
Record Request := mkRequest {
  rq_Method : string; rq_Path : string; rq_Header : string -> string;
  rq_Body : string; rq_BodyFails : bool }.

Inductive BodyError := BodyTooLarge | BodyUnreadable.

(** [io.ReadAll(http.MaxBytesReader(w, r.Body, maxBodyBytes))]. *)
Definition read_body (r : Request) : res BodyError string :=
  if maxBodyBytes <? Z.of_nat (String.length (rq_Body r)) then Err BodyTooLarge
  else if rq_BodyFails r then Err BodyUnreadable
  else Ok (rq_Body r).

Definition MethodPost : string := "POST".
Definition StatusOK : Z := 200.
Definition StatusAccepted : Z := 202.
Definition StatusBadRequest : Z := 400.
Definition StatusUnauthorized : Z := 401.
Definition StatusNotFound : Z := 404.
Definition StatusMethodNotAllowed : Z := 405.
Definition StatusRequestEntityTooLarge : Z := 413.
Definition StatusInternalServerError : Z := 500.

Definition writeJSON (code : Z) (payload : list (string * PayloadValue)) : Prog unit :=
  call (CRespond (mkResponse code None payload)).
Definition writeStatus (code : Z) (msg : string) : Prog unit := writeJSON code [("error"%string, PString msg)].

(** ** dedupe.go *)

Definition isTerminalPhase (phase : TaskPhase) : bool :=
  match phase with
  | TaskPhaseCompleted | TaskPhaseFailed | TaskPhaseTimedOut => true
  | _ => false
  end.

(** A Task that still blocks a new one. *)
Definition active (t : Task) : bool :=
  negb (match om_DeletionTimestamp (task_Meta t) with Some _ => true | None => false end ||
        isTerminalPhase (task_Phase t)).

Definition first_active (tasks : list Task) : string :=
  match list_find (fun t => active t = true) tasks with Some (_, t) => task_Name t | None => "" end.

(** The reader of the list: live when one is set, else the cached client. *)
Definition reader (h : Handler) : bool := h_Reader h.

(** The selector from the [uniqueBy] keys, or [None] when a label is missing. *)
Fixpoint unique_selector (labels : GoMap) (keys : list string) (sel : gmap string string)
  : option (gmap string string) :=
  match keys with
  | [] => Some sel
  | key :: keys' =>
    let v := map_get labels key in
    if (v =? "")%string then None else unique_selector labels keys' (<[key := v]> sel)
  end.

Definition trim_path (path : string) : string :=
  let p := TrimRightByte path "/" in if (p =? "")%string then "/" else p.

Section Webhook.
Context `{KubeLib, Gjson, JsonErrors, UnicodeTables}.

Definition stampTriggerClass (task : Task) (ctc : ClusterTriggerClass) : Task :=
  match IsValidLabelValue (om_Name (trigger_Meta ctc)) with
  | [] => set_task_meta (fun m => set_labels (setMapKey (om_Labels m) LabelTriggerClass (om_Name (trigger_Meta ctc))) m) task
  | _ => task
  end.

Definition findActiveDuplicate (h : Handler) (ctc : ClusterTriggerClass) (task : Task) : Prog (result string) :=
  match ctc_Dedupe (trigger_Spec ctc) with
  | None => Ret (Ok ""%string)
  | Some d =>
    match dedupe_UniqueBy d with
    | [] => Ret (Ok ""%string)
    | keys =>
      let v := map_get (om_Labels (task_Meta task)) LabelTriggerClass in
      if (v =? "")%string then Ret (Ok ""%string)
      else
        match unique_selector (om_Labels (task_Meta task)) keys {[ LabelTriggerClass := v ]} with
        | None => Ret (Ok ""%string)
        | Some sel =>
          let! tasks := call (CListTasks (reader h) (task_Namespace task) sel) in
          Ret (match tasks with
               | Err e => Err (ErrWrap "list tasks for dedupe: " (ErrApi e) "")
               | Ok tasks => Ok (first_active tasks)
               end)
        end
    end
  end.

(** ** handler.go *)

Definition path_matches (path : string) (ctc : ClusterTriggerClass) : bool :=
  (trim_path (ctc_Path (trigger_Spec ctc)) =? path)%string.

Definition findTriggerClass (path0 : string) : Prog (result (option ClusterTriggerClass)) :=
  let path := trim_path path0 in
  let! items := call CListTriggerClasses in
  Ret (match items with
       | Err e => Err (ErrApi e)
       | Ok items =>
         match filter (fun ctc => path_matches path ctc = true) items with
         | [] => Ok None
         | [ctc] => Ok (Some ctc)
         | matches => Err (ErrNew ("path " +:+ Quote path +:+ " is claimed by " +:+
                             Itoa (Z.of_nat (length matches)) +:+ " ClusterTriggerClasses"))
         end
       end).

Definition lookupSignatureSecret (h : Handler) (ctc : ClusterTriggerClass) : Prog (result string) :=
  let ref := sig_SecretRef (ctc_Signature (trigger_Spec ctc)) in
  if (sel_Name ref =? "")%string || (sel_Key ref =? "")%string then
    Ret (Err (ErrNew "signature.secretRef is incomplete"))
  else
    let key := mkNN (h_SecretNamespace h) (sel_Name ref) in
    let! got := call (CGet KSecret key) in
    Ret (match got with
         | Err e =>
           if IsNotFound e then
             Err (ErrWrap ("secret " +:+ nn_Namespace key +:+ "/" +:+ nn_Name key +:+ " not found: ") (ErrApi e) "")
           else Err (ErrApi e)
         | Ok secret =>
           match secret_Data secret !! sel_Key ref with
           | None => Err (ErrNew ("secret " +:+ nn_Namespace key +:+ "/" +:+ nn_Name key +:+ " has no key " +:+ Quote (sel_Key ref)))
           | Some val => Ok val
           end
         end).

Definition reject (class metric : string) (code : Z) (msg : string) : Prog (outcome unit) :=
  ObserveWebhook class metric ;; writeStatus code msg ;; Ret (Returns tt).

(** The namespace of a Task whose template left it unset. *)
Definition default_namespace (h : Handler) (task : Task) : Task :=
  if (task_Namespace task =? "")%string
  then set_task_meta (set_namespace (h_DefaultTaskNamespace h)) task else task.

(** After the signature: filters, the Task, the duplicate check, the create. *)
Definition serve_signed (h : Handler) (ctc : ClusterTriggerClass) (body : string) : Prog (outcome unit) :=
  let name := om_Name (trigger_Meta ctc) in
  if negb (ApplyFilters body (ctc_Filters (trigger_Spec ctc))) then
    ObserveWebhook name ResultFiltered ;;
    writeJSON StatusAccepted [("filtered"%string, PBool true)] ;; Ret (Returns tt)
  else
    match BuildTask (ctc_Task (trigger_Spec ctc)) body with
    | Panics => Ret Panics
    | Returns (Err e) => reject name ResultBuildFailed StatusBadRequest ("build task: " +:+ Error e)
    | Returns (Ok task) =>
      let task := stampTriggerClass (default_namespace h task) ctc in
      let! existing := findActiveDuplicate h ctc task in
      match existing with
      | Err _ => reject name ResultError StatusInternalServerError "dedupe check failed"
      | Ok existing =>
        if negb (existing =? "")%string then
          ObserveWebhook name ResultDuplicate ;;
          writeJSON StatusAccepted [("duplicate"%string, PBool true); ("task"%string, PString existing)] ;;
          Ret (Returns tt)
        else
          let! created := call (CCreate KTask task) in
          match created with
          | Err e => reject name ResultError StatusInternalServerError ("create task: " +:+ Error (ErrApi e))
          | Ok task =>
            ObserveWebhook name ResultAccepted ;;
            writeJSON StatusOK [("task"%string, PString (task_Name task)); ("namespace"%string, PString (task_Namespace task))] ;;
            Ret (Returns tt)
          end
      end
    end.

(** With the secret: the signature. *)
Definition serve_verified (h : Handler) (r : Request) (ctc : ClusterTriggerClass) (secret body : string) : Prog (outcome unit) :=
  let name := om_Name (trigger_Meta ctc) in
  let sig := ctc_Signature (trigger_Spec ctc) in
  match VerifyHMAC (sig_Algorithm sig) (sig_Prefix sig) (rq_Header r (sig_Header sig)) secret body with
  | Some e =>
    if errors_Is e empty_secret || errors_Is e unsupported_algorithm then
      reject name ResultError StatusInternalServerError "signature configuration error"
    else reject name ResultRejectedSignature StatusUnauthorized "signature verification failed"
  | None => serve_signed h ctc body
  end.

(** After the class is found: the secret. *)
Definition serve_class (h : Handler) (r : Request) (ctc : ClusterTriggerClass) (body : string) : Prog (outcome unit) :=
  let! secret := lookupSignatureSecret h ctc in
  match secret with
  | Err _ => reject (om_Name (trigger_Meta ctc)) ResultError StatusInternalServerError "load signature secret"
  | Ok secret => serve_verified h r ctc secret body
  end.

Definition ServeHTTP (h : Handler) (r : Request) : Prog (outcome unit) :=
  if negb (rq_Method r =? MethodPost)%string then
    ObserveWebhook "" ResultRejectedMethod ;;
    call (CRespond (mkResponse StatusMethodNotAllowed (Some MethodPost) [("error"%string, PString "method not allowed")])) ;;
    Ret (Returns tt)
  else
    match read_body r with
    | Err BodyTooLarge => reject "" ResultRejectedBodyTooLarge StatusRequestEntityTooLarge "body too large"
    | Err BodyUnreadable => reject "" ResultRejectedBadBody StatusBadRequest "malformed request body"
    | Ok body =>
      if negb (json_Valid body) then reject "" ResultRejectedBadBody StatusBadRequest "body is not valid JSON"
      else
        let! found := findTriggerClass (rq_Path r) in
        match found with
        | Err _ => reject "" ResultError StatusInternalServerError "lookup trigger class"
        | Ok None => reject "" MetricNotFound StatusNotFound ("no ClusterTriggerClass registered for path " +:+ rq_Path r)
        | Ok (Some ctc) => serve_class h r ctc body
        end
    end.

(** ** What a request leaves behind *)

(** The metric sample and the response that end a request. *)
Definition closing (class metric : string) (rsp : Response) : Trace :=
  [ev (CMetric (Effects.Webhook class metric)) tt; ev (CRespond rsp) tt].

(** The responses the handler documents, by the result it counts. *)
Definition status_of (metric : string) : Z :=
  if (metric =? ResultAccepted)%string then 200
  else if (metric =? ResultFiltered)%string || (metric =? ResultDuplicate)%string then 202
  else if (metric =? ResultRejectedBadBody)%string || (metric =? ResultBuildFailed)%string then 400
  else if (metric =? ResultRejectedSignature)%string then 401
  else if (metric =? MetricNotFound)%string then 404
  else if (metric =? ResultRejectedMethod)%string then 405
  else if (metric =? ResultRejectedBodyTooLarge)%string then 413
  else 500.

Definition queries (tr : Trace) : Prop := Forall (fun c => is_query c = true) (calls tr).

(** A request that ends after queries only. *)
Definition refused (tr : Trace) (o : outcome unit) : Prop :=
  exists pre class metric rsp,
    tr = pre ++ closing class metric rsp /\ queries pre /\ o = Returns tt /\
    rsp_Code rsp = status_of metric /\ metric <> ResultAccepted.

(** A request that creates [task], with the answer of the API server. *)
Definition submitted (task : Task) (tr : Trace) (o : outcome unit) : Prop :=
  exists pre a class metric rsp,
    tr = pre ++ ev (CCreate KTask task) a :: closing class metric rsp /\ queries pre /\ o = Returns tt /\
    rsp_Code rsp = status_of metric /\
    match a with
    | Ok t => metric = ResultAccepted /\
              rsp = mkResponse 200 None [("task"%string, PString (task_Name t)); ("namespace"%string, PString (task_Namespace t))]
    | Err _ => metric = ResultError
    end.

(** The request is a POST of at most 1 MiB of valid JSON to the path of exactly
    one class, and the trace read [val] from the Secret of that class. *)
Definition resolved (h : Handler) (r : Request) (ctc : ClusterTriggerClass) (val : string) (tr : Trace) : Prop :=
  rq_Method r = MethodPost /\ Z.of_nat (String.length (rq_Body r)) <= maxBodyBytes /\ rq_BodyFails r = false /\
  json_Valid (rq_Body r) = true /\
  exists items secret,
    let ref := sig_SecretRef (ctc_Signature (trigger_Spec ctc)) in
    [ev CListTriggerClasses (Ok items);
     ev (CGet KSecret (mkNN (h_SecretNamespace h) (sel_Name ref))) (Ok secret)] `prefix_of` tr /\
    filter (fun ctc => path_matches (trim_path (rq_Path r)) ctc = true) items = [ctc] /\
    sel_Name ref <> ""%string /\ sel_Key ref <> ""%string /\ secret_Data secret !! sel_Key ref = Some val.

(** The check of the signature that a class asks for. *)
Definition verify (r : Request) (ctc : ClusterTriggerClass) (val : string) : option GoError :=
  let sig := ctc_Signature (trigger_Spec ctc) in
  VerifyHMAC (sig_Algorithm sig) (sig_Prefix sig) (rq_Header r (sig_Header sig)) val (rq_Body r).

(** ** Lemmas *)

Ltac unit_answers := repeat match goal with x : resp (CMetric _) |- _ => destruct x | x : resp (CRespond _) |- _ => destruct x end.

Lemma queries_nil : queries [].
Proof. constructor. Qed.

Lemma queries_cons e tr : is_query (ev_call e) = true -> queries tr -> queries (e :: tr).
Proof. by constructor. Qed.

Lemma queries_app t1 t2 : queries (t1 ++ t2) <-> queries t1 /\ queries t2.
Proof. unfold queries. rewrite calls_app. apply Forall_app. Qed.

#[local] Hint Resolve queries_nil queries_cons : core.

Lemma queries_not c tr : queries tr -> is_query c = false -> c ∉ calls tr.
Proof. intros Hq Hc Hin. unfold queries in Hq. rewrite Forall_forall in Hq. specialize (Hq c Hin). congruence. Qed.

Lemma closing_calls c class metric rsp :
  c ∈ calls (closing class metric rsp) <-> c = CMetric (Effects.Webhook class metric) \/ c = CRespond rsp.
Proof. cbn. rewrite !elem_of_cons, elem_of_nil. tauto. Qed.

Lemma refused_no_write c tr o : refused tr o -> is_write c = true -> c ∉ calls tr.
Proof.
  intros (pre & class & metric & rsp & -> & Hq & _) Hw [Hin|[-> | ->]%closing_calls]%elem_of_calls_app; try done.
  by eapply queries_not in Hin; [| |destruct c].
Qed.

Lemma refused_cons pre tr o : queries pre -> refused tr o -> refused (pre ++ tr) o.
Proof.
  intros Hp (pre' & class & metric & rsp & -> & Hq & Hr). exists (pre ++ pre'), class, metric, rsp.
  rewrite app_assoc, queries_app. done.
Qed.

Lemma submitted_cons task pre tr o : queries pre -> submitted task tr o -> submitted task (pre ++ tr) o.
Proof.
  intros Hp (pre' & a & class & metric & rsp & -> & Hq & Hr). exists (pre ++ pre'), a, class, metric, rsp.
  rewrite app_assoc, queries_app. done.
Qed.

Lemma exec_reject class metric code msg tr o :
  exec (reject class metric code msg) tr o ->
  o = Returns tt /\ tr = closing class metric (mkResponse code None [("error"%string, PString msg)]).
Proof. unfold reject, ObserveWebhook, writeStatus, writeJSON. intros Hx. repeat exec_step. unit_answers. done. Qed.

Lemma reject_refused class metric code msg tr o :
  exec (reject class metric code msg) tr o -> code = status_of metric -> metric <> ResultAccepted -> refused tr o.
Proof.
  intros [-> ->]%exec_reject Hc Hm. by exists [], class, metric, (mkResponse code None [("error"%string, PString msg)]).
Qed.

Lemma findActiveDuplicate_queries h ctc task tr r :
  exec (findActiveDuplicate h ctc task) tr r -> queries tr.
Proof.
  unfold findActiveDuplicate. intros Hx. repeat case_match; repeat exec_step; auto.
Qed.

Lemma findTriggerClass_exec path tr r :
  exec (findTriggerClass path) tr r -> exists a, tr = [ev CListTriggerClasses a] /\
    match r with
    | Ok (Some ctc) => exists items, a = Ok items /\ filter (fun ctc => path_matches (trim_path path) ctc = true) items = [ctc]
    | Ok None => exists items, a = Ok items /\ filter (fun ctc => path_matches (trim_path path) ctc = true) items = []
    | Err _ => match a with
               | Ok items => (2 <= length (filter (fun ctc => path_matches (trim_path path) ctc = true) items))%nat
               | Err _ => True
               end
    end.
Proof.
  unfold findTriggerClass. intros Hx. repeat exec_step. eexists. split; [done|].
  match goal with x : resp CListTriggerClasses |- _ => destruct x as [items|] end; [|done].
  destruct (filter _ items) as [|ctc [|ctc' l]] eqn:Hf; cbn; eauto; lia.
Qed.

Lemma lookupSignatureSecret_exec h ctc tr r :
  exec (lookupSignatureSecret h ctc) tr r ->
  let ref := sig_SecretRef (ctc_Signature (trigger_Spec ctc)) in
  queries tr /\
  (forall val, r = Ok val -> exists secret,
     tr = [ev (CGet KSecret (mkNN (h_SecretNamespace h) (sel_Name ref))) (Ok secret)] /\
     secret_Data secret !! sel_Key ref = Some val /\ sel_Name ref <> ""%string /\ sel_Key ref <> ""%string).
Proof.
  intros Hx ref. unfold lookupSignatureSecret in Hx. fold ref in Hx.
  destruct (String.eqb_spec (sel_Name ref) ""), (String.eqb_spec (sel_Key ref) ""); cbn [orb] in Hx;
    repeat exec_step; try (split; [auto|done]).
  split; [auto|]. intros val Hv. repeat (case_match; simplify_eq). eauto.
Qed.

(** The part of a request after its signature. *)
Lemma serve_signed_exec h ctc body tr o :
  exec (serve_signed h ctc body) tr o ->
  (o = Panics /\ queries tr) \/ refused tr o \/
  (exists built trd,
     let task := stampTriggerClass (default_namespace h built) ctc in
     ApplyFilters body (ctc_Filters (trigger_Spec ctc)) = true /\
     BuildTask (ctc_Task (trigger_Spec ctc)) body = Returns (Ok built) /\
     exec (findActiveDuplicate h ctc task) trd (Ok ""%string) /\
     exists rest, tr = trd ++ rest /\ submitted task rest o).
Proof.
  unfold serve_signed, ObserveWebhook, writeJSON. intros Hx.
  destruct (ApplyFilters _ _) eqn:Hf; cbn [negb] in Hx;
    [|repeat exec_step; unit_answers; right; left; eexists [], _, _, _; split_and!; cbn; auto; done].
  destruct (BuildTask _ _) as [[built|e]|] eqn:Hb; [|right; left; by eapply reject_refused|left; by repeat exec_step].
  right. set (task := stampTriggerClass (default_namespace h built) ctc) in *.
  apply exec_bind in Hx as (trd & tr2 & existing & -> & Hd & Hx).
  pose proof (findActiveDuplicate_queries _ _ _ _ _ Hd) as Hq.
  destruct existing as [existing|e]; [|left; apply refused_cons; [done|by eapply reject_refused]].
  destruct (String.eqb_spec existing "") as [->|Hne]; cbn [negb] in Hx.
  2: { left. apply refused_cons; [done|]. repeat exec_step. unit_answers.
       eexists [], _, _, _. split_and!; cbn; auto; done. }
  right. exists built, trd. split_and!; [done..|]. eexists. split; [done|].
  apply exec_call_inv in Hx as (a & tr' & -> & Hx). exists []. exists a.
  destruct a as [t|e].
  - repeat exec_step. unit_answers. eexists _, _, _. split_and!; cbn; auto; done.
  - apply exec_reject in Hx as [-> ->]. eexists _, _, _. split_and!; cbn; auto; done.
Qed.

Lemma ev_classes_inj a b : ev CListTriggerClasses a = ev CListTriggerClasses b -> a = b.
Proof. intros He. exact (f_equal (fun e => match e with existT CListTriggerClasses x => x | _ => a end) He). Qed.

Lemma ev_secret_inj k k' a b : ev (CGet KSecret k) a = ev (CGet KSecret k') b -> a = b.
Proof. intros He. exact (f_equal (fun e => match e with existT (CGet KSecret _) x => x | _ => a end) He). Qed.

Lemma create_task_inj (a b : Task) : CCreate KTask a = CCreate KTask b -> a = b.
Proof. intros He. exact (f_equal (fun c => match c with CCreate KTask t => t | _ => a end) He). Qed.

(** A request either ends at a lookup, or goes on to its signature. *)
Lemma ServeHTTP_cases h r tr o :
  exec (ServeHTTP h r) tr o ->
  (exists pre class metric rsp,
     tr = pre ++ closing class metric rsp /\ queries pre /\ o = Returns tt /\ rsp_Code rsp = status_of metric /\
     metric <> ResultAccepted /\ metric <> ResultRejectedSignature) \/
  exists ctc val pre rest,
    tr = pre ++ rest /\ queries pre /\ resolved h r ctc val pre /\ exec (serve_verified h r ctc val (rq_Body r)) rest o.
Proof.
  assert (Hrej : forall pre class metric code msg tr' o', queries pre -> exec (reject class metric code msg) tr' o' ->
    code = status_of metric -> metric <> ResultAccepted -> metric <> ResultRejectedSignature ->
    exists pre' class' metric' rsp', pre ++ tr' = pre' ++ closing class' metric' rsp' /\ queries pre' /\ o' = Returns tt /\
      rsp_Code rsp' = status_of metric' /\ metric' <> ResultAccepted /\ metric' <> ResultRejectedSignature).
  { intros pre class metric code msg tr' o' Hq [-> ->]%exec_reject Hc Ha Hs. by eexists pre, _, _, _. }
  unfold ServeHTTP. intros Hx. destruct (String.eqb_spec (rq_Method r) MethodPost) as [Hm|Hm]; cbn [negb] in Hx.
  2: { left. unfold ObserveWebhook in Hx. repeat exec_step. unit_answers. eexists [], _, _, _. split_and!; cbn; auto; done. }
  unfold read_body in Hx. destruct (Z.ltb_spec maxBodyBytes (Z.of_nat (String.length (rq_Body r)))).
  { left. by eapply (Hrej []) in Hx; auto. }
  destruct (rq_BodyFails r) eqn:Hbf; [left; by eapply (Hrej []) in Hx; auto|].
  destruct (json_Valid _) eqn:Hv; cbn [negb] in Hx; [|left; by eapply (Hrej []) in Hx; auto].
  apply exec_bind in Hx as (tr1 & tr2 & found & -> & Hf & Hx).
  apply findTriggerClass_exec in Hf as (a & -> & Hf).
  destruct found as [[ctc|]|e]; [|left; eapply Hrej in Hx; eauto; done..].
  destruct Hf as (items & -> & Hf). unfold serve_class in Hx.
  apply exec_bind in Hx as (tr3 & tr4 & secret & -> & Hs & Hx).
  apply lookupSignatureSecret_exec in Hs as [Hq Hs].
  destruct secret as [val|e].
  - destruct (Hs val eq_refl) as (secret & -> & Hd & Hn & Hk). right. eexists ctc, val, [_; _], tr4. split; [done|].
    split; [auto|]. split; [|done]. split_and!; [done..|]. exists items, secret. split_and!; [done..|]. done.
  - left. rewrite app_assoc. eapply Hrej in Hx; eauto; [apply queries_app; auto|done..].
Qed.

Lemma resolved_exec h r ctc val tr o :
  exec (ServeHTTP h r) tr o -> resolved h r ctc val tr ->
  exists e1 e2 rest, tr = e1 :: e2 :: rest /\ queries [e1; e2] /\ exec (serve_verified h r ctc val (rq_Body r)) rest o.
Proof.
  unfold ServeHTTP, read_body, findTriggerClass, serve_class, lookupSignatureSecret.
  intros Hx (Hm & Hl & Hb & Hv & items & secret & [rest Htr] & Hf & Hn & Hk & Hd).
  rewrite Hm, String.eqb_refl in Hx. cbn [negb] in Hx.
  destruct (Z.ltb_spec maxBodyBytes (Z.of_nat (String.length (rq_Body r)))); [lia|].
  rewrite Hb, Hv in Hx. cbn [negb] in Hx.
  apply exec_bind in Hx as (tr1 & tr2 & found & -> & Hc & Hx).
  apply exec_call_inv in Hc as (a & tr1' & -> & Hc). apply exec_ret in Hc as [-> ->].
  cbn in Htr. injection Htr as Ha Htr. apply ev_classes_inj in Ha as ->. rewrite Hf in Hx.
  apply String.eqb_neq in Hn, Hk. rewrite Hn, Hk in Hx. cbn [orb] in Hx.
  apply exec_bind in Hx as (tr3 & tr4 & got & -> & Hc & Hx).
  apply exec_call_inv in Hc as (b & tr3' & -> & Hc). apply exec_ret in Hc as [-> ->].
  cbn in Htr. injection Htr as Hb' Htr. apply ev_secret_inj in Hb' as ->. rewrite Hd in Hx. subst.
  eexists _, _, rest. split; [done|]. split; [auto|done].
Qed.

Lemma status_of_401 metric : status_of metric = 401 -> metric = ResultRejectedSignature.
Proof. unfold status_of. repeat (case_match; try discriminate). intros _. by str_eqb. Qed.

Lemma resolved_app h r ctc val t1 t2 : resolved h r ctc val t1 -> resolved h r ctc val (t1 ++ t2).
Proof.
  intros (Hm & Hl & Hb & Hv & items & secret & Hp & Hr). split_and!; [done..|]. exists items, secret.
  split; [by apply prefix_app_r|done].
Qed.

Definition not_401 (c : Call) : Prop := match c with CRespond rsp => rsp_Code rsp <> 401 | _ => True end.

Lemma reject_codes class metric code msg : code <> 401 -> only not_401 (reject class metric code msg).
Proof. intros Hc. unfold reject, ObserveWebhook, writeStatus, writeJSON. by repeat (apply only_call; [done|intros []]); auto with conveyor. Qed.

Lemma serve_signed_codes h ctc body : only not_401 (serve_signed h ctc body).
Proof.
  unfold serve_signed, ObserveWebhook, writeJSON. case_match; [by repeat (apply only_call; [done|intros []]); auto with conveyor|].
  case_match; [case_match; [|by apply reject_codes]|auto with conveyor].
  apply only_bind.
  - unfold findActiveDuplicate. repeat case_match; auto with conveyor; by apply only_call; [|auto with conveyor].
  - intros [existing|e]; [|by apply reject_codes].
    case_match; [by repeat (apply only_call; [done|intros []]); auto with conveyor|].
    apply only_call; [done|]. intros [t|e]; [by repeat (apply only_call; [done|intros []]); auto with conveyor|by apply reject_codes].
Qed.

#[export] Instance supported_dec algorithm : Decision (supported algorithm).
Proof. unfold supported. apply _. Defined.

Lemma write_authorised h r tr o c :
  exec (ServeHTTP h r) tr o -> c ∈ calls tr -> is_write c = true ->
  exists ctc val pre trd rest built,
    let task := stampTriggerClass (default_namespace h built) ctc in
    tr = pre ++ trd ++ rest /\ c = CCreate KTask task /\
    resolved h r ctc val pre /\ verify r ctc val = None /\
    ApplyFilters (rq_Body r) (ctc_Filters (trigger_Spec ctc)) = true /\
    BuildTask (ctc_Task (trigger_Spec ctc)) (rq_Body r) = Returns (Ok built) /\
    exec (findActiveDuplicate h ctc task) trd (Ok ""%string).
Proof.
  intros Hx Hc Hw.
  assert (Hnq : forall t, queries t -> c ∉ calls t) by (intros t Hq; apply queries_not; [done|by destruct c]).
  assert (Hnc : forall class metric rsp, c ∉ calls (closing class metric rsp)) by (by intros ? ? ? [-> | ->]%closing_calls).
  apply ServeHTTP_cases in Hx as
    [(pre & class & metric & rsp & -> & Hq & -> & Hcode & Ha & _)|(ctc & val & pre & rest & -> & Hq & Hres & Hx)].
  { apply elem_of_calls_app in Hc as [Hc|Hc]; [by eapply Hnq in Hc|by apply Hnc in Hc]. }
  apply elem_of_calls_app in Hc as [Hc|Hc]; [by eapply Hnq in Hc|].
  unfold serve_verified in Hx. destruct (VerifyHMAC _ _ _ _ _) as [e|] eqn:Hv.
  { assert (Hr : refused rest o) by (destruct (_ || _); by eapply reject_refused). by eapply refused_no_write in Hc. }
  apply serve_signed_exec in Hx as [[-> Hr]|[Hr|(built & trd & Hf & Hb & Hd & rest' & -> & Hs)]];
    [by eapply Hnq in Hc|by eapply refused_no_write in Hc|].
  apply elem_of_calls_app in Hc as [Hc|Hc]; [by eapply Hnq in Hc; [|by eapply findActiveDuplicate_queries]|].
  exists ctc, val, pre, trd, rest', built. split_and!; try done.
  destruct Hs as (pre' & a & class & metric & rsp & -> & Hq' & _).
  apply elem_of_calls_app in Hc as [Hc|[-> |Hc]%elem_of_calls_cons]; [by eapply Hnq in Hc|done|by apply Hnc in Hc].
Qed.

Lemma emitted_spec h ctc built : task_Spec (stampTriggerClass (default_namespace h built) ctc) = task_Spec built.
Proof. unfold stampTriggerClass, default_namespace. by repeat case_match. Qed.

(** ** Theorems *)

(** C32. Every request that returns is answered exactly once and counted exactly
    once, with the documented status for what was counted: queries, then at most
    one create of a Task, then the sample and the response.  The status is 200
    exactly for an accepted create, which the response names; a request that
    panics has written nothing. *)
Theorem request_answered_once h r tr o :
  exec (ServeHTTP h r) tr o ->
  match o with
  | Panics => queries tr
  | Returns _ => refused tr o \/ exists task, submitted task tr o
  end.
Proof.
  intros Hx. apply ServeHTTP_cases in Hx as
    [(pre & class & metric & rsp & -> & Hq & -> & Hc & Ha & _)|(ctc & val & pre & rest & -> & Hq & _ & Hx)].
  { left. by exists pre, class, metric, rsp. }
  unfold serve_verified in Hx. destruct (VerifyHMAC _ _ _ _ _) as [e|].
  { assert (Hr : refused rest o) by (destruct (_ || _); by eapply reject_refused).
    destruct o; [left; by apply refused_cons|]. by destruct Hr as (? & ? & ? & ? & _ & _ & ? & _). }
  apply serve_signed_exec in Hx as [[-> Hr]|[Hr|(built & trd & _ & _ & Hd & rest' & -> & Hs)]].
  - by apply queries_app.
  - destruct o; [left; by apply refused_cons|]. by destruct Hr as (? & ? & ? & ? & _ & _ & ? & _).
  - apply findActiveDuplicate_queries in Hd.
    destruct o; [right; eexists; by do 2 (apply submitted_cons; [done|])|].
    by destruct Hs as (? & ? & ? & ? & ? & _ & _ & ? & _).
Qed.

(** C3. A Task is created only for an authenticated request.  Any write of a
    request is the create of one Task; before it, the request was a POST of at
    most 1 MiB of valid JSON to the path of exactly one class, the Secret of that
    class was read from the adapter's namespace, the signature of the body
    verified under it, the filters passed, and the duplicate check found
    nothing; the Task is the one the class template builds from the body, in its
    namespace or the default one, stamped with the class, and its agent class,
    permissions, resources and TTL are those of the template. *)
Theorem created_task_authorised h r tr o c :
  exec (ServeHTTP h r) tr o -> c ∈ calls tr -> is_write c = true ->
  exists ctc val pre trd rest built,
    let task := stampTriggerClass (default_namespace h built) ctc in
    let tmpl := ctc_Task (trigger_Spec ctc) in
    tr = pre ++ trd ++ rest /\ c = CCreate KTask task /\
    resolved h r ctc val pre /\ verify r ctc val = None /\
    ApplyFilters (rq_Body r) (ctc_Filters (trigger_Spec ctc)) = true /\
    BuildTask tmpl (rq_Body r) = Returns (Ok built) /\
    exec (findActiveDuplicate h ctc task) trd (Ok ""%string) /\
    agent_Ref (spec_Agent (task_Spec task)) = agent_Ref (tmpl_Agent tmpl) /\
    spec_Permissions (task_Spec task) = tmpl_Permissions tmpl /\
    spec_Resources (task_Spec task) = tmpl_Resources tmpl /\
    spec_TTLSecondsAfterFinished (task_Spec task) = tmpl_TTLSecondsAfterFinished tmpl.
Proof.
  intros Hx Hc Hw. eapply write_authorised in Hx as
    (ctc & val & pre & trd & rest & built & Htr & Hcreate & Hres & Hv & Hf & Hb & Hd); [|done..].
  exists ctc, val, pre, trd, rest, built. cbn zeta. rewrite emitted_spec.
  apply BuildTask_frame in Hb as Hframe. destruct Hframe as (? & ? & ? & ? & _). split_and!; done.
Qed.

(** The answer 401 blames the caller, and only the caller.  A request gets it
    exactly when its class and secret were found, the signature does not verify,
    and the cause is a missing header or a wrong MAC; a missing secret, an empty
    one or an unsupported algorithm gives another status. *)
Theorem unauthorized_exactly h r tr o :
  exec (ServeHTTP h r) tr o ->
  ((exists rsp, CRespond rsp ∈ calls tr /\ rsp_Code rsp = 401) <->
   exists ctc val, let sig := ctc_Signature (trigger_Spec ctc) in
     resolved h r ctc val tr /\ verify r ctc val <> None /\
     (rq_Header r (sig_Header sig) = ""%string \/ val <> ""%string /\ supported (sig_Algorithm sig))).
Proof.
  intros Hx. split.
  - intros (rsp & Hin & Hc). apply ServeHTTP_cases in Hx as
      [(pre & class & metric & rsp' & -> & Hq & -> & Hcode & _ & Hm)|(ctc & val & pre & rest & -> & Hq & Hres & Hx)].
    { apply elem_of_calls_app in Hin as [Hin|[Hin|Hin]%closing_calls]; [by eapply queries_not in Hin|done|].
      simplify_eq. rewrite Hc in Hcode. by apply symmetry, status_of_401 in Hcode. }
    apply elem_of_calls_app in Hin as [Hin|Hin]; [by eapply queries_not in Hin|].
    exists ctc, val. intros sig. split; [by apply resolved_app|].
    unfold serve_verified in Hx. unfold verify. fold sig in Hx |- *. destruct (VerifyHMAC _ _ _ _ _) as [e|] eqn:Hv.
    + split; [done|]. apply VerifyHMAC_errors in Hv. destruct (_ || _).
      * apply exec_reject in Hx as [_ ->]. by apply closing_calls in Hin as [Hin|Hin]; simplify_eq.
      * destruct (decide (rq_Header r (sig_Header sig) = ""%string)) as [He|He]; [by left|]. right.
        destruct (decide (val = ""%string)) as [Hval|Hval]; [destruct Hv as [_ Hv]; discriminate Hv; auto|].
        split; [done|]. destruct (decide (supported (sig_Algorithm sig))) as [Hs|Hs]; [done|].
        destruct Hv as [_ Hv]. discriminate Hv. auto.
    + by apply (only_exec _ _ _ _ _ (serve_signed_codes h ctc (rq_Body r)) Hx) in Hin.
  - intros (ctc & val & Hres & Hv & Hcause). eapply resolved_exec in Hx as (e1 & e2 & rest & -> & Hq & Hx); [|done].
    unfold serve_verified in Hx. unfold verify in Hv. destruct (VerifyHMAC _ _ _ _ _) as [e|] eqn:He; [|done].
    apply VerifyHMAC_errors in He. destruct (_ || _); [tauto|].
    apply exec_reject in Hx as [_ ->]. eexists. split.
    + rewrite !elem_of_calls_cons. right. right. apply closing_calls. by right.
    + done.
Qed.

(** ** Duplicates *)

(** What a list in a namespace under a selector answers from a store of Tasks. *)
Definition listed (store : list Task) (ns : string) (sel : gmap string string) (tasks : list Task) : Prop :=
  forall t, t ∈ tasks <-> t ∈ store /\ task_Namespace t = ns /\ selects sel (om_Labels (task_Meta t)) = true.

Definition unique_keys (ctc : ClusterTriggerClass) : list string :=
  match ctc_Dedupe (trigger_Spec ctc) with Some d => dedupe_UniqueBy d | None => [] end.

(** The rule applies: there are keys, and the Task has the class label and all
    of them. *)
Definition dedupe_applies (ctc : ClusterTriggerClass) (task : Task) : Prop :=
  unique_keys ctc <> [] /\
  forall k, k ∈ LabelTriggerClass :: unique_keys ctc -> map_get (om_Labels (task_Meta task)) k <> ""%string.

(** An active Task with the same class and the same values. *)
Definition blocked_by (ctc : ClusterTriggerClass) (task t : Task) : Prop :=
  task_Namespace t = task_Namespace task /\ active t = true /\
  forall k, k ∈ LabelTriggerClass :: unique_keys ctc ->
    default ∅ (om_Labels (task_Meta t)) !! k = Some (map_get (om_Labels (task_Meta task)) k).

Lemma unique_selector_spec labels keys sel :
  match unique_selector labels keys sel with
  | None => exists k, k ∈ keys /\ map_get labels k = ""%string
  | Some sel' =>
    (forall k, k ∈ keys -> map_get labels k <> ""%string) /\
    forall k, sel' !! k = if decide (k ∈ keys) then Some (map_get labels k) else sel !! k
  end.
Proof.
  revert sel. induction keys as [|key keys IH]; intros sel; cbn [unique_selector].
  - split; [by intros k ?%elem_of_nil|]. intros k. by rewrite decide_False by apply not_elem_of_nil.
  - destruct (String.eqb_spec (map_get labels key) "") as [He|He]; [exists key; split; [left|done]|].
    specialize (IH (<[key := map_get labels key]> sel)). destruct (unique_selector _ _ _) as [sel'|].
    + destruct IH as [H1' H2']. split; [by intros k [->|Hk]%elem_of_cons; auto|].
      intros k. rewrite H2'. destruct (decide (k ∈ keys)) as [Hk|Hk].
      * rewrite decide_True by (by right). done.
      * destruct (decide (k = key)) as [->|Hn].
        -- rewrite lookup_insert_eq, decide_True by left. done.
        -- rewrite lookup_insert_ne, decide_False by (rewrite ?elem_of_cons; naive_solver). done.
    + destruct IH as (k & Hk & Hv). exists k. split; [by right|done].
Qed.

Lemma first_active_spec tasks :
  Forall (fun t => task_Name t <> ""%string) tasks ->
  (first_active tasks = ""%string <-> forall t, t ∈ tasks -> active t = false) /\
  (first_active tasks <> ""%string -> exists t, t ∈ tasks /\ active t = true /\ task_Name t = first_active tasks).
Proof.
  intros Hn. unfold first_active. destruct (list_find _ tasks) as [[i t]|] eqn:Hf.
  - apply list_find_Some in Hf as (Hl & Ha & _). apply list_elem_of_lookup_2 in Hl.
    rewrite Forall_forall in Hn. split; [|by exists t]. split; [by intros He; destruct (Hn t Hl)|].
    intros Hall. specialize (Hall t Hl). congruence.
  - apply list_find_None in Hf. rewrite Forall_forall in Hf. split; [|done]. split; [|done].
    intros _ t Ht. apply not_true_iff_false. by apply Hf.
Qed.

Lemma findActiveDuplicate_exec h ctc task tr name :
  exec (findActiveDuplicate h ctc task) tr (Ok name) ->
  (~ dedupe_applies ctc task /\ name = ""%string) \/
  (dedupe_applies ctc task /\ exists sel tasks,
     tr = [ev (CListTasks (reader h) (task_Namespace task) sel) (Ok tasks)] /\ name = first_active tasks /\
     forall k, sel !! k = if decide (k ∈ LabelTriggerClass :: unique_keys ctc)
                          then Some (map_get (om_Labels (task_Meta task)) k) else None).
Proof.
  unfold findActiveDuplicate, dedupe_applies, unique_keys. set (labels := om_Labels (task_Meta task)).
  intros Hx. destruct (ctc_Dedupe _) as [d|]; [|repeat exec_step; left; tauto].
  destruct (dedupe_UniqueBy d) as [|key0 keys0]; [repeat exec_step; left; tauto|].
  set (keys := key0 :: keys0) in *. assert (Hk : keys <> []) by done. clearbody keys.
  destruct (String.eqb_spec (map_get labels LabelTriggerClass) "") as [He|He].
  { repeat exec_step. left. split; [|done]. intros [_ Hn]. apply (Hn LabelTriggerClass); [left|done]. }
  pose proof (unique_selector_spec labels keys {[LabelTriggerClass := map_get labels LabelTriggerClass]}) as Hs.
  destruct (unique_selector _ _ _) as [sel|].
  - destruct Hs as [Hall Hsel]. right. split.
    { split; [done|]. intros k [->|Hin]%elem_of_cons; auto. }
    apply exec_call_inv in Hx as (a & tr' & -> & Hx). apply exec_ret in Hx as [-> Hx]. destruct a as [tasks|e]; simplify_eq.
    exists sel, tasks. split_and!; [done..|]. intros k. rewrite Hsel.
    destruct (decide (k ∈ keys)), (decide (k = LabelTriggerClass)) as [->|Hn].
    1-2: by rewrite decide_True by (by right).
    + by rewrite decide_True, lookup_singleton_eq by left.
    + rewrite decide_False, lookup_singleton_ne by (rewrite ?elem_of_cons; naive_solver). done.
  - destruct Hs as (k & Hin & Hv). repeat exec_step. left. split; [|done]. intros [_ Hn]. apply (Hn k); [by right|done].
Qed.

Lemma selected_blocks ctc task sel t :
  (forall k, sel !! k = if decide (k ∈ LabelTriggerClass :: unique_keys ctc)
                        then Some (map_get (om_Labels (task_Meta task)) k) else None) ->
  (task_Namespace t = task_Namespace task /\ selects sel (om_Labels (task_Meta t)) = true /\ active t = true <-> blocked_by ctc task t).
Proof.
  intros Hsel. unfold blocked_by, selects. rewrite bool_decide_eq_true, map_subseteq_spec.
  split; intros (Hn & Ha & Hb); (split_and!; [done| |]); try done.
  - intros k Hk. apply Ha. by rewrite Hsel, decide_True.
  - intros k v. rewrite Hsel. case_decide; [|done]. intros [= <-]. by apply Hb.
Qed.

(** The check against a store of named Tasks that the list call answers from. *)
Lemma duplicate_listed h ctc task store tr name :
  exec (findActiveDuplicate h ctc task) tr (Ok name) ->
  Forall (fun t => task_Name t <> ""%string) store ->
  (forall live ns sel tasks, ev (CListTasks live ns sel) (Ok tasks) ∈ tr -> listed store ns sel tasks) ->
  (~ dedupe_applies ctc task /\ name = ""%string) \/
  (dedupe_applies ctc task /\
   (name = ""%string <-> forall t, t ∈ store -> ~ blocked_by ctc task t) /\
   (name <> ""%string -> exists t, t ∈ store /\ blocked_by ctc task t /\ task_Name t = name)).
Proof.
  intros Hx Hnames Hlist. apply findActiveDuplicate_exec in Hx as [Hna|(Happ & sel & tasks & -> & -> & Hsel)]; [by left|].
  right. specialize (Hlist _ _ _ _ (list_elem_of_here _ _)).
  assert (Hb : forall t, t ∈ tasks /\ active t = true <-> t ∈ store /\ blocked_by ctc task t).
  { intros t. rewrite (Hlist t), <- (selected_blocks ctc task sel t Hsel). tauto. }
  destruct (first_active_spec tasks) as [Hnone Hsome].
  { apply Forall_forall. intros t Ht. rewrite Forall_forall in Hnames. apply Hnames. by apply Hlist. }
  split; [done|]. split; [rewrite Hnone; split|].
  - intros Hall t Ht Hbt. destruct (proj2 (Hb t) (conj Ht Hbt)) as [Hin Ha]. rewrite (Hall t Hin) in Ha. done.
  - intros Hall t Ht. destruct (active t) eqn:Ha; [|done]. destruct (proj1 (Hb t) (conj Ht Ha)) as [Hs Hbt]. by destruct (Hall t Hs).
  - intros Hne. destruct (Hsome Hne) as (t & Ht & Ha & Hn). exists t. rewrite (assoc and), <- Hb. done.
Qed.

(** The duplicate check finds exactly what the rule of the class names.  With
    a store of named Tasks that the list call answers from, the check answers a
    name exactly when the rule applies and some Task of the store has the same
    namespace, class and values and is active, and the name is that of such a
    Task. *)
Theorem findActiveDuplicate_exact h ctc task store tr name :
  exec (findActiveDuplicate h ctc task) tr (Ok name) ->
  Forall (fun t => task_Name t <> ""%string) store ->
  (forall live ns sel tasks, ev (CListTasks live ns sel) (Ok tasks) ∈ tr -> listed store ns sel tasks) ->
  (name <> ""%string <-> dedupe_applies ctc task /\ exists t, t ∈ store /\ blocked_by ctc task t) /\
  (name <> ""%string -> exists t, t ∈ store /\ blocked_by ctc task t /\ task_Name t = name).
Proof.
  intros Hx Hnames Hlist. destruct (duplicate_listed _ _ _ _ _ _ Hx Hnames Hlist) as [[Hna ->]|(Happ & Hnone & Hsome)]; [tauto|].
  split; [|done]. split; [|intros (_ & t & Ht & Hb) ->; by eapply Hnone].
  intros Hne. split; [done|]. destruct (Hsome Hne) as (t & Ht & Hb & _). eauto.
Qed.

(** The adapter creates no duplicate of a Task it can see.  When the list
    calls of a request answer from a store, no Task of the store has the
    namespace, the class and the values of a Task that the request creates and
    is still active, unless the rule does not apply to it. *)
Theorem no_duplicate_created h r tr o task store :
  exec (ServeHTTP h r) tr o -> CCreate KTask task ∈ calls tr ->
  Forall (fun t => task_Name t <> ""%string) store ->
  (forall live ns sel tasks, ev (CListTasks live ns sel) (Ok tasks) ∈ tr -> listed store ns sel tasks) ->
  exists ctc val, resolved h r ctc val tr /\
    (dedupe_applies ctc task -> forall t, t ∈ store -> ~ blocked_by ctc task t).
Proof.
  intros Hx Hc Hnames Hlist. eapply write_authorised in Hx as
    (ctc & val & pre & trd & rest & built & -> & ->%create_task_inj & Hres & _ & _ & _ & Hd); [|done..].
  exists ctc, val. split; [by apply resolved_app|]. intros Happ t Ht Hb.
  eapply duplicate_listed in Hd as [[Hna _]|(_ & [Hnone _] & _)]; [done|by eapply Hnone|exact Hnames|].
  intros live ns sel tasks Hin. apply (Hlist live). apply elem_of_app. right. apply elem_of_app. by left.
Qed.

(** ** Routes *)

(** Two paths that differ in trailing slashes only. *)
Definition same_route (p q : string) : Prop :=
  exists stem n m, p = stem +:+ byte_run "/" n /\ q = stem +:+ byte_run "/" m.

Lemma trim_path_route p q : trim_path p = trim_path q <-> same_route p q.
Proof.
  split.
  - intros He. assert (Ht : TrimRightByte p "/" = TrimRightByte q "/").
    { unfold trim_path in He. destruct (String.eqb_spec (TrimRightByte p "/") ""), (String.eqb_spec (TrimRightByte q "/") "");
        [congruence| | |done].
      - pose proof (TrimRightByte_idemp q "/") as Hi. rewrite <- He in Hi at 1. by vm_compute in Hi.
      - pose proof (TrimRightByte_idemp p "/") as Hi. rewrite He in Hi at 1. by vm_compute in Hi. }
    destruct (TrimRightByte_split p "/") as [n Hn], (TrimRightByte_split q "/") as [m Hm].
    exists (TrimRightByte p "/"), n, m. split; [done|]. by rewrite Ht.
  - intros (stem & n & m & -> & ->). unfold trim_path. by rewrite !TrimRightByte_run.
Qed.

(** A path selects the one class that claims it.  With the classes of the
    cluster listed, the lookup finds a class exactly when it is the only one
    whose path is the request path up to trailing slashes, finds none when no
    class claims the path, and refuses the path when more than one does. *)
Theorem findTriggerClass_exact path items r :
  exec (findTriggerClass path) [ev CListTriggerClasses (Ok items)] r ->
  let claims ctc := same_route (ctc_Path (trigger_Spec ctc)) path in
  match r with
  | Ok (Some ctc) => exists l1 l2, items = l1 ++ ctc :: l2 /\ claims ctc /\ forall c, c ∈ l1 ++ l2 -> ~ claims c
  | Ok None => forall c, c ∈ items -> ~ claims c
  | Err _ => exists l1 c1 l2 c2 l3, items = l1 ++ c1 :: l2 ++ c2 :: l3 /\ claims c1 /\ claims c2
  end.
Proof.
  intros Hx claims.
  assert (Hm : forall c, path_matches (trim_path path) c = true <-> claims c).
  { intros c. unfold path_matches. rewrite String.eqb_eq. apply trim_path_route. }
  apply findTriggerClass_exec in Hx as (a & Ha & Hr). apply (f_equal (hd (ev _ a))) in Ha. apply ev_classes_inj in Ha as <-.
  destruct r as [[ctc|]|e].
  - destruct Hr as (items' & Hi & Hf); injection Hi as <-. apply filter_one in Hf as (l1 & l2 & -> & Hc & Hn).
    exists l1, l2. rewrite <- Hm. split_and!; [done..|]. intros c Hin. rewrite <- Hm. by apply Hn.
  - destruct Hr as (items' & Hi & Hf); injection Hi as <-. intros c Hin Hc. apply Hm in Hc.
    assert (Hin' : c ∈ filter (fun ctc => path_matches (trim_path path) ctc = true) items) by (by apply list_elem_of_filter).
    rewrite Hf in Hin'. by apply elem_of_nil in Hin'.
  - apply filter_two in Hr as (l1 & c1 & l2 & c2 & l3 & -> & Hc1 & Hc2). exists l1, c1, l2, c2, l3. by rewrite <- !Hm.
Qed.

(** ** The class label *)

(** The class label is set when the name can be one, and only then.  A class
    whose name is a valid label value overrides whatever a mapping wrote, and
    every other label stays; for any other name the Task is left as the payload
    built it, the class label of another class included. *)
Theorem stampTriggerClass_label task ctc :
  let name := om_Name (trigger_Meta ctc) in
  let labels t := default ∅ (om_Labels (task_Meta t)) in
  let stamped := stampTriggerClass task ctc in
  (IsValidLabelValue name = [] -> labels stamped !! LabelTriggerClass = Some name) /\
  (IsValidLabelValue name <> [] -> labels stamped !! LabelTriggerClass = labels task !! LabelTriggerClass) /\
  (forall k, k <> LabelTriggerClass -> labels stamped !! k = labels task !! k) /\
  task_Spec stamped = task_Spec task /\ task_Namespace stamped = task_Namespace task.
Proof.
  intros name labels stamped. unfold stamped, stampTriggerClass. fold name.
  destruct (IsValidLabelValue name) eqn:Hv; [|by split_and!].
  split_and!; [|done| |done..]; cbn.
  - intros _. apply lookup_insert_eq.
  - intros k Hk. by apply lookup_insert_ne.
Qed.

End Webhook.

(** ** The theorems at samples *)

#[local] Existing Instances KubeRef.lib Samples.errors_text Samples.tables.
#[local] Instance sample_query : Gjson :=
  {| gjson_get := fun _ path => if (path =? "title")%string then Some "fix it"%string
                                else if (path =? "repo")%string then Some "demo"%string else None |}.

Definition sample_class : ClusterTriggerClass :=
  mkClusterTriggerClass (Samples.meta "github" "" "uid-3")
    (mkClusterTriggerClassSpec "/hooks/github"
       (mkWebhookSignature "X-Hub-Signature-256" "sha256" "sha256=" (mkKeySelector "hook" "key"))
       [mkWebhookFilter "repo" "demo"]
       (mkTaskTemplate "" "" (mkAgentRef "claude" None) (mkPermissions [] [] [] [])
          (mkTaskResources "" "" Minute) None
          [mkFieldMapping "title" "prompt" ""; mkFieldMapping "repo" "labels.repo" ""])
       (Some (mkTriggerDedupe ["repo"%string]))).
Definition sample_handler : Handler := mkHandler "conveyor-system" "agents" true.
Definition sample_body : string := "[1]".
Definition sample_mac : string := EncodeToString (hmac_sha256 (bytes "s3cret") (bytes sample_body)).
Definition sample_request (header : string) : Request :=
  mkRequest "POST" "/hooks/github/" (fun k => if (k =? "X-Hub-Signature-256")%string then header else "") sample_body false.
Definition signed_request : Request := sample_request ("sha256=" +:+ sample_mac).

Definition earlier (phase : TaskPhase) : Task :=
  mkTask (mkMeta "task-1" "" "agents" "uid-4" 1 None
            (Some {["repo"%string := "demo"%string; LabelTriggerClass := "github"%string]}) None [])
    (task_Spec Samples.task) (mkTaskStatus phase 1 "" None None None []).

Definition hook_world (store : list Task) : Samples.World :=
  Samples.mkWorld 0 (Err Samples.not_found) (Err Samples.not_found) (Err Samples.not_found) [] store [sample_class]
    (Ok (mkSecret (Samples.meta "hook" "conveyor-system" "uid-5") {["key"%string := "s3cret"%string]})) (Ok []) None.
Definition store : list Task := [earlier TaskPhaseCompleted].

Definition hook_trace (r : Request) : Trace := trace_of Samples.handle (ServeHTTP sample_handler r) (hook_world store).
Definition hook_outcome (r : Request) : outcome unit := (run Samples.handle (ServeHTTP sample_handler r) (hook_world store)).1.
Definition created_task : Task :=
  default Samples.task (head (omap (fun c => match c with CCreate KTask t => Some t | _ => None end) (calls (hook_trace signed_request)))).

(** The list calls of a trace. *)
Definition list_answers (tr : Trace) : list (string * gmap string string * list Task) :=
  omap (fun e : Ev => match e with existT (CListTasks _ ns sel) (Ok tasks) => Some (ns, sel, tasks) | _ => None end) tr.

Lemma list_answers_in tr live ns sel tasks :
  ev (CListTasks live ns sel) (Ok tasks) ∈ tr -> (ns, sel, tasks) ∈ list_answers tr.
Proof. intros Hin. apply list_elem_of_omap. by exists (ev (CListTasks live ns sel) (Ok tasks)). Qed.

Lemma hook_exec r : exec (ServeHTTP sample_handler r) (hook_trace r) (hook_outcome r).
Proof. apply run_exec. Qed.

Lemma created_in : CCreate KTask created_task ∈ calls (hook_trace signed_request).
Proof.
  assert (He : calls (hook_trace signed_request) !! 3%nat = Some (CCreate KTask created_task)) by (vm_compute; reflexivity).
  by eapply list_elem_of_lookup_2.
Qed.

Lemma request_answered_once_witness :
  refused (hook_trace signed_request) (Returns tt) \/ exists task, submitted task (hook_trace signed_request) (Returns tt).
Proof. exact (request_answered_once sample_handler signed_request _ _ (hook_exec signed_request)). Defined.

Lemma created_task_authorised_witness : exists ctc val, verify signed_request ctc val = None.
Proof.
  destruct (created_task_authorised sample_handler signed_request _ _ _ (hook_exec signed_request) created_in eq_refl)
    as (ctc & val & _ & _ & _ & _ & _ & _ & _ & Hv & _). exists ctc, val. exact Hv.
Defined.

Lemma unauthorized_exactly_witness :
  exists rsp, CRespond rsp ∈ calls (hook_trace (sample_request "sha256=00")) /\ rsp_Code rsp = 401.
Proof.
  apply (unauthorized_exactly sample_handler (sample_request "sha256=00") _ _ (hook_exec _)).
  exists sample_class, "s3cret"%string. split; [|split; [vm_compute; discriminate|right; split; [discriminate|right; reflexivity]]].
  split_and!; try reflexivity; [vm_compute; discriminate|].
  exists [sample_class], (mkSecret (Samples.meta "hook" "conveyor-system" "uid-5") {["key"%string := "s3cret"%string]}).
  split_and!; [|reflexivity|discriminate..|reflexivity].
  exists (drop 2 (hook_trace (sample_request "sha256=00"))). vm_compute. reflexivity.
Defined.

Definition sample_selector : gmap string string :=
  {["repo"%string := "demo"%string; LabelTriggerClass := "github"%string]}.

Lemma listed_one phase : listed [earlier phase] "agents" sample_selector [earlier phase].
Proof.
  intros t. rewrite list_elem_of_singleton. split; [|tauto]. intros ->. split_and!; try reflexivity; vm_compute; reflexivity.
Qed.

Lemma store_listed live ns sel tasks :
  ev (CListTasks live ns sel) (Ok tasks) ∈ hook_trace signed_request -> listed store ns sel tasks.
Proof.
  intros Hin%list_answers_in.
  assert (He : list_answers (hook_trace signed_request) = [("agents"%string, sample_selector, store)]) by (vm_compute; reflexivity).
  rewrite He, list_elem_of_singleton, !pair_equal_spec in Hin. destruct Hin as [[-> ->] ->]. apply listed_one.
Qed.

Lemma no_duplicate_created_witness : exists ctc val,
  resolved sample_handler signed_request ctc val (hook_trace signed_request) /\
  (dedupe_applies ctc created_task -> ~ blocked_by ctc created_task (earlier TaskPhaseCompleted)).
Proof.
  destruct (no_duplicate_created sample_handler signed_request _ _ created_task store (hook_exec signed_request) created_in)
    as (ctc & val & Hr & Hd); [repeat constructor; discriminate|exact store_listed|].
  exists ctc, val. split; [exact Hr|]. intros Ha. apply (Hd Ha). left.
Defined.

Definition duplicate_trace : Trace :=
  [ev (CListTasks true "agents" sample_selector) (Ok [earlier TaskPhaseRunning])].

Lemma duplicate_exec : exec (findActiveDuplicate sample_handler sample_class created_task) duplicate_trace (Ok "task-1"%string).
Proof.
  assert (Ht : trace_of Samples.handle (findActiveDuplicate sample_handler sample_class created_task)
                 (hook_world [earlier TaskPhaseRunning]) = duplicate_trace) by (vm_compute; reflexivity).
  assert (Hr : (run Samples.handle (findActiveDuplicate sample_handler sample_class created_task)
                 (hook_world [earlier TaskPhaseRunning])).1 = Ok "task-1"%string) by (vm_compute; reflexivity).
  rewrite <- Ht, <- Hr. apply run_exec.
Qed.

Lemma findActiveDuplicate_exact_witness :
  exists t, t ∈ [earlier TaskPhaseRunning] /\ blocked_by sample_class created_task t /\ task_Name t = "task-1"%string.
Proof.
  apply (findActiveDuplicate_exact sample_handler sample_class created_task _ duplicate_trace "task-1" duplicate_exec);
    [repeat constructor; discriminate| |discriminate].
  intros live ns sel tasks Hin%list_answers_in. cbn in Hin. rewrite list_elem_of_singleton, !pair_equal_spec in Hin. destruct Hin as [[-> ->] ->]. apply listed_one.
Defined.

Lemma findTriggerClass_exact_witness : same_route (ctc_Path (trigger_Spec sample_class)) "/hooks/github/".
Proof.
  destruct (findTriggerClass_exact "/hooks/github/" [sample_class] (Ok (Some sample_class))) as (l1 & l2 & _ & Hc & _);
    [|exact Hc]. vm_compute. exists (Ok [sample_class]), []. split_and!; reflexivity.
Defined.
End Webhook.
