(* ===== verification/Redelivery.v ===== *)
(** * Redelivery

    Webhook requests and reconcile passes composed on the server of [ApiServer],
    one at a time: a sender that repeats a delivery gets the Task of the first
    one, and no two active Tasks of a class ever stand for the same event.  The
    handler's check and its create are two calls, so this is what it promises for
    requests that do not overlap; [Overlap] is about those that do. *)

From S2P Require Import Prelude GoString GoTime GoNet GoJson GoUrl Kube Api Effects KubeLib Metrics.
From S2P Require Import PolicyObjects PolicyConfig PolicyNetwork Reconciler Samples PolicyResult.
From S2P Require Import Build Status TaskResult Sync Reconcile Lifecycle ApiServer Settle Quiescence PassCalls.
From S2P Require Import Signature Mapping Webhook.

Module Redelivery.
Import Labels Build Status TaskResult Sync Reconcile Lifecycle ApiServer Settle Quiescence PassCalls.
Import Signature Mapping Webhook.

(** ** Tasks of one event *)

Definition label (t : Task) (k : string) : option string := default ∅ (om_Labels (task_Meta t)) !! k.

Definition of_class (ctc : ClusterTriggerClass) (t : Task) : Prop :=
  label t LabelTriggerClass = Some (om_Name (trigger_Meta ctc)).

(** The rule of the class takes the two for the same event. *)
Definition twins (ctc : ClusterTriggerClass) (t1 t2 : Task) : Prop :=
  task_Namespace t1 = task_Namespace t2 /\ unique_keys ctc <> [] /\
  forall k, k ∈ LabelTriggerClass :: unique_keys ctc -> exists v, v <> ""%string /\ label t1 k = Some v /\ label t2 k = Some v.

(** At most one active Task for each event. *)
Definition at_most_one (w : World) : Prop :=
  forall ctc key1 key2 t1 t2, ctc ∈ w_triggers w -> of_class ctc t1 -> twins ctc t1 t2 ->
    w_get w KTask key1 = Some t1 -> w_get w KTask key2 = Some t2 -> active t1 = true -> active t2 = true -> key1 = key2.

(** The names of the classes are label values and differ. *)
Record classes_ok `{KubeLib} (l : list ClusterTriggerClass) : Prop := {
  classes_valid : forall c, c ∈ l -> IsValidLabelValue (om_Name (trigger_Meta c)) = [];
  classes_distinct : forall c c', c ∈ l -> c' ∈ l -> om_Name (trigger_Meta c) = om_Name (trigger_Meta c') -> c = c' }.

(** Stored objects have names, which are their keys. *)
Definition named (w : World) : Prop := keyed w /\ forall key t, w_get w KTask key = Some t -> task_Name t <> ""%string.

Lemma map_get_label t k : map_get (om_Labels (task_Meta t)) k <> ""%string -> label t k = Some (map_get (om_Labels (task_Meta t)) k).
Proof. unfold label, map_get. destruct (om_Labels _) as [g|]; cbn; [by destruct (g !! k)|done]. Qed.

Lemma label_map_get t k v : label t k = Some v -> map_get (om_Labels (task_Meta t)) k = v.
Proof. unfold label, map_get. destruct (om_Labels _) as [g|]; cbn; [by intros ->|by rewrite lookup_empty]. Qed.

Lemma twins_sym ctc t1 t2 : twins ctc t1 t2 -> twins ctc t2 t1.
Proof. intros (Hn & Hk & Hl). split_and!; [done..|]. intros k (v & ? & ? & ?)%Hl. by exists v. Qed.

Lemma twins_class ctc t1 t2 : twins ctc t1 t2 -> of_class ctc t1 -> of_class ctc t2.
Proof. intros (_ & _ & Hl) Hc. destruct (Hl LabelTriggerClass) as (v & _ & H1 & H2); [left|]. unfold of_class in *. congruence. Qed.

(** The check of the adapter looks for a twin. *)
Lemma blocked_twins ctc t1 t2 : dedupe_applies ctc t1 /\ blocked_by ctc t1 t2 <-> twins ctc t1 t2 /\ active t2 = true.
Proof.
  split.
  - intros [[Hk Hl] (Hn & Ha & Hb)]. split; [|done]. split_and!; [done..|]. intros k Hin. eexists. split; [by apply Hl|].
    split; [by apply map_get_label, Hl|by apply Hb].
  - intros [(Hn & Hk & Hl) Ha]. split; [split; [done|]|split_and!; [done..|]]; intros k Hin;
      destruct (Hl k Hin) as (v & Hv & H1 & H2); rewrite (label_map_get _ _ _ H1); done.
Qed.

(** ** Changes that add no active Task *)

(** Every active Task was one before, in the same namespace with the same labels. *)
Record calm (w w' : World) : Prop := {
  calm_triggers : w_triggers w' = w_triggers w;
  calm_tasks : forall key t', w_get w' KTask key = Some t' -> active t' = true ->
    exists t, w_get w KTask key = Some t /\ active t = true /\ task_Namespace t = task_Namespace t' /\
      om_Labels (task_Meta t) = om_Labels (task_Meta t') }.

Lemma calm_same w w' : same w w' -> calm w w'.
Proof. intros [Hg He]. split; [apply He|]. intros key t'. rewrite Hg. intros ??. by exists t'. Qed.

Lemma twins_labels ctc t1 t2 u1 u2 :
  task_Namespace u1 = task_Namespace t1 -> om_Labels (task_Meta u1) = om_Labels (task_Meta t1) ->
  task_Namespace u2 = task_Namespace t2 -> om_Labels (task_Meta u2) = om_Labels (task_Meta t2) -> twins ctc t1 t2 -> twins ctc u1 u2.
Proof. intros N1 L1 N2 L2. unfold twins, label. by rewrite N1, L1, N2, L2. Qed.

Lemma calm_at_most_one w w' : calm w w' -> at_most_one w -> at_most_one w'.
Proof.
  intros [Htr Hts] Hone ctc key1 key2 t1 t2 Hin Hc Htw Hg1 Hg2 Ha1 Ha2.
  destruct (Hts _ _ Hg1 Ha1) as (u1 & Hu1 & Hau1 & Hn1 & Hl1), (Hts _ _ Hg2 Ha2) as (u2 & Hu2 & Hau2 & Hn2 & Hl2).
  rewrite Htr in Hin. eapply (Hone ctc _ _ u1 u2); try done; [|by eapply twins_labels].
  unfold of_class, label. by rewrite Hl1.
Qed.

Section Redelivery.
Context `{KubeLaws, Gjson, JsonErrors, UnicodeTables}.

(** ** A pass adds no active Task *)

(** A Task after a safe call, and after safe calls: as before, but for a status
    that one of them wrote. *)
Lemma safe_call_served w c x w1 task key t1 :
  served w c x w1 -> task_safe task c -> w_get w1 KTask key = Some t1 ->
  exists t, w_get w KTask key = Some t /\ task_Meta t1 = task_Meta t /\
    (task_Status t1 = task_Status t \/ exists u, c = CStatusUpdate u /\ key = key_of (task_Meta task) /\ task_Status t1 = task_Status u).
Proof.
  intros Hs Hc Ht1. destruct (safe_call_task _ _ _ _ _ _ _ Hs Hc Ht1) as (t & Ht & [->|(u & -> & -> & ->)]); exists t;
    [by auto|]. split_and!; [done..|]. right. by exists u.
Qed.

Lemma safe_served w tr w' task key t' :
  answered w tr w' -> Forall (task_safe task) (calls tr) -> w_get w' KTask key = Some t' ->
  exists t, w_get w KTask key = Some t /\ task_Meta t' = task_Meta t /\
    (task_Status t' = task_Status t \/
     exists u, CStatusUpdate u ∈ calls tr /\ key = key_of (task_Meta task) /\ task_Status t' = task_Status u).
Proof.
  revert w. induction tr as [|[c x] tr IH]; intros w Ha Hs Ht.
  - exists t'. rewrite <- (same_get _ _ Ha). auto.
  - destruct Ha as (w1 & Hs1 & Ha). apply Forall_cons in Hs as [Hc Hs].
    destruct (IH w1 Ha Hs Ht) as (t1 & Ht1 & Hm & Hst).
    destruct (safe_call_served _ _ _ _ _ _ _ Hs1 Hc Ht1) as (t & Ht0 & Hm1 & Hst1). exists t. split; [done|]. split; [congruence|].
    destruct Hst as [->|(u & Hu & ?)]; [|right; exists u; split; [by right|done]].
    destruct Hst1 as [->|(u & Hu & ?)]; [by left|right]. exists u. split; [apply elem_of_calls_cons; left; exact (eq_sym Hu)|done].
Qed.

Lemma isTerminalPhase_eq p : isTerminalPhase p = isTerminal p.
Proof. by destruct p. Qed.

Lemma active_spec t : active t = true <-> om_DeletionTimestamp (task_Meta t) = None /\ isTerminal (task_Phase t) = false.
Proof. unfold active. rewrite isTerminalPhase_eq. destruct (om_DeletionTimestamp _), (isTerminal _); cbn; naive_solver. Qed.

Lemma safe_calm w tr w' task :
  answered w tr w' -> w_get w KTask (key_of (task_Meta task)) = Some task -> Forall (task_safe task) (calls tr) ->
  (isTerminal (task_Phase task) = true -> forall u, CStatusUpdate u ∈ calls tr -> task_Phase u = task_Phase task) -> calm w w'.
Proof.
  intros Ha Hg Hs Hterm. split; [by eapply same_triggers, answered_env|]. intros key t' Ht' Hact.
  destruct (safe_served _ _ _ _ _ _ Ha Hs Ht') as (t & Ht & Hm & Hst). exists t. split; [done|].
  unfold task_Namespace. rewrite Hm. split; [|done]. apply active_spec in Hact as [Hd Hp]. apply active_spec. rewrite <- Hm. split; [done|].
  destruct Hst as [He|(u & Hu & -> & He)]; [unfold task_Phase in *; by rewrite <- He|].
  rewrite Hg in Ht. injection Ht as <-. apply not_true_iff_false. intros Htt. specialize (Hterm Htt u Hu).
  unfold task_Phase in *. rewrite He, Hterm in Hp. congruence.
Qed.

(** The calls of a pass over the Task it finds. *)
Lemma pass_safe r req w w' : keyed w -> Quiescence.pass r req w w' ->
  same w w' \/ exists t tr, w_get w KTask (key_of (task_Meta t)) = Some t /\ answered w tr w' /\ Forall (task_safe t) (calls tr) /\
    (isTerminal (task_Phase t) = true -> forall u, CStatusUpdate u ∈ calls tr -> task_Phase u = task_Phase t).
Proof.
  intros Hk Hp%reconcile_served; [|done]. destruct (w_get w KTask req) as [t|] eqn:Ht; [right|by left].
  destruct Hp as (<- & tr & res & Ha & Hx). exists t, tr. split; [done|]. split; [done|]. destruct (isTerminal (task_Phase t)) eqn:Hterm.
  - assert (Hc : Forall (terminal_call t) (calls tr)) by (apply Forall_forall; intros; by eapply terminal_pass_calls).
    split; [eapply Forall_impl; [exact Hc|apply terminal_call_safe]|].
    intros _ u Hu. rewrite Forall_forall in Hc. by apply keeps_phase, (Hc _ Hu).
  - split; [by eapply live_safe|done].
Qed.

Lemma pass_calm r req w w' : keyed w -> Quiescence.pass r req w w' -> calm w w'.
Proof.
  intros Hk Hp. destruct (pass_safe _ _ _ _ Hk Hp) as [?|(t & tr & Ht & Ha & Hs & Hterm)]; [by apply calm_same|by eapply safe_calm].
Qed.

Lemma pass_named r req w w' : named w -> Quiescence.pass r req w w' -> named w'.
Proof.
  intros [Hk Hn] Hp. split; [by eapply pass_keyed|]. intros key t' Ht'.
  destruct (pass_safe _ _ _ _ Hk Hp) as [Hs|(t & tr & _ & Ha & Hs & _)]; [rewrite (same_get _ _ Hs) in Ht'; by eapply Hn|].
  destruct (safe_served _ _ _ _ _ _ Ha Hs Ht') as (t0 & Ht0 & Hm & _). unfold task_Name. rewrite Hm. by eapply Hn.
Qed.

(** ** A request *)

Definition request (h : Handler) (r : Request) (w w1 : World) : Prop :=
  exists tr o, exec (ServeHTTP h r) tr o /\ answered w tr w1.

(** The Task that a class makes of a body. *)
Definition made (h : Handler) (ctc : ClusterTriggerClass) (body : string) (task : Task) : Prop :=
  exists built, BuildTask (ctc_Task (trigger_Spec ctc)) body = Returns (Ok built) /\
    task = stampTriggerClass (default_namespace h built) ctc.

(** The classes that claim the path of a request. *)
Definition claimed (r : Request) (w : World) : list ClusterTriggerClass :=
  filter (fun ctc => path_matches (trim_path (rq_Path r)) ctc = true) (w_triggers w).

(** The request passed every check up to the create of [task], which found no twin. *)
Record authorised (h : Handler) (r : Request) (ctc : ClusterTriggerClass) (task : Task) (w : World) : Prop := {
  au_method : rq_Method r = MethodPost;
  au_body : read_body r = Ok (rq_Body r);
  au_json : json_Valid (rq_Body r) = true;
  au_class : claimed r w = [ctc];
  au_secret : exists secret val,
    let ref := sig_SecretRef (ctc_Signature (trigger_Spec ctc)) in
    w_get w KSecret (mkNN (h_SecretNamespace h) (sel_Name ref)) = Some secret /\
    sel_Name ref <> ""%string /\ sel_Key ref <> ""%string /\ secret_Data secret !! sel_Key ref = Some val /\ verify r ctc val = None;
  au_filters : ApplyFilters (rq_Body r) (ctc_Filters (trigger_Spec ctc)) = true;
  au_made : made h ctc (rq_Body r) task }.

Definition no_twin (ctc : ClusterTriggerClass) (task : Task) (w : World) : Prop :=
  forall key t, w_get w KTask key = Some t -> active t = true -> ~ twins ctc task t.

Lemma queries_same w tr w' : queries tr -> answered w tr w' -> same w w'.
Proof. intros Hq Ha. eapply answered_reads; [done|]. eapply Forall_impl; [exact Hq|]. by intros []. Qed.

Lemma closing_same w class metric rsp w' : answered w (closing class metric rsp) w' -> same w w'.
Proof. intros Ha. eapply answered_reads; [done|]. by repeat constructor. Qed.

Lemma refused_same w tr o w' : Webhook.refused tr o -> answered w tr w' -> same w w'.
Proof.
  intros (pre & class & metric & rsp & -> & Hq & _) (w1 & H1' & H2')%answered_trans.
  etrans; [by eapply queries_same|by eapply closing_same].
Qed.

(** What the check reads. *)
Lemma duplicate_served h ctc task w tr name w' :
  exec (findActiveDuplicate h ctc task) tr (Ok name) -> answered w tr w' -> named w ->
  same w w' /\
  (name = ""%string -> no_twin ctc task w) /\
  (name <> ""%string -> exists key t, w_get w KTask key = Some t /\ active t = true /\ twins ctc task t /\ task_Name t = name).
Proof.
  intros Hx Ha [_ Hn]. split; [eapply queries_same; [by eapply findActiveDuplicate_queries|done]|].
  apply findActiveDuplicate_exec in Hx as [[Hna ->]|(Happ & sel & tasks & -> & -> & Hsel)].
  - split; [|done]. intros _ key t _ Hact Htw. by destruct (proj2 (blocked_twins ctc task t) (conj Htw Hact)).
  - destruct Ha as (w1 & (_ & l & Hl & Hin) & _). injection Hl as <-.
    assert (Htw : forall t, t ∈ tasks /\ active t = true <-> (exists key, w_get w KTask key = Some t) /\ twins ctc task t /\ active t = true).
    { intros t. rewrite <- blocked_twins, <- (selected_blocks ctc task sel t Hsel), Hin. tauto. }
    destruct (first_active_spec tasks) as [Hnone Hsome].
    { apply Forall_forall. intros t [[key Ht] _]%Hin. by eapply Hn. }
    split.
    + intros He key t Ht Hact Ht2. rewrite Hnone in He. destruct (proj2 (Htw t)) as [Hti _]; [by eauto|]. by rewrite (He t Hti) in Hact.
    + intros He. destruct (Hsome He) as (t & Ht & Hact & Hname). destruct (proj1 (Htw t) (conj Ht Hact)) as ([key Hk] & Ht2 & _). by exists key, t.
Qed.

Lemma read_body_ok r : Z.of_nat (String.length (rq_Body r)) <= maxBodyBytes -> rq_BodyFails r = false -> read_body r = Ok (rq_Body r).
Proof. intros Hl Hf. unfold read_body. destruct (Z.ltb_spec maxBodyBytes (Z.of_nat (String.length (rq_Body r)))); [lia|]. by rewrite Hf. Qed.

(** What a request has read by the time it looks for duplicates. *)
Lemma resolved_authorised h r ctc val pre w w' task :
  resolved h r ctc val pre -> answered w pre w' -> verify r ctc val = None ->
  ApplyFilters (rq_Body r) (ctc_Filters (trigger_Spec ctc)) = true -> made h ctc (rq_Body r) task -> authorised h r ctc task w.
Proof.
  intros (Hm & Hl & Hf & Hj & items & secret & [rest ->] & Hcl & Hn & Hk & Hd) Ha Hv Hfi Hmade.
  destruct Ha as (w1 & [Hs1 Hit] & w2 & [Hs2 Hsec] & _). cbn in Hit, Hsec. injection Hit as ->.
  split; try done; [by apply read_body_ok|]. exists secret, val. cbn zeta. split_and!; try done.
  rewrite <- (same_get _ _ Hs1). destruct (w_get w1 KSecret _); [by injection Hsec as ->|by destruct Hsec as (? & ? & _)].
Qed.

(** A request changes nothing, or it creates the Task that its class makes of the
    body, and no active Task was its twin. *)
Lemma request_served h r tr o w w1 :
  exec (ServeHTTP h r) tr o -> answered w tr w1 -> named w ->
  same w w1 \/
  exists ctc task t, authorised h r ctc task w /\ no_twin ctc task w /\ stored KTask task t /\
    w_get w KTask (key_of (task_Meta t)) = None /\ changes KTask (key_of (task_Meta t)) (Some t) w w1.
Proof.
  intros Hx Ha Hn. destruct (ServeHTTP_cases _ _ _ _ Hx) as
    [(pre & class & metric & rsp & -> & Hq & _)|(ctc & val & pre & rest & -> & Hq & Hres & Hv)].
  { left. apply answered_trans in Ha as (w2 & H1' & H2'). etrans; [by eapply queries_same|by eapply closing_same]. }
  apply answered_trans in Ha as (w2 & Hpre & Ha). pose proof (queries_same _ _ _ Hq Hpre) as Hs2.
  unfold serve_verified in Hv. destruct (VerifyHMAC _ _ _ _ _) as [e|] eqn:Hver.
  { left. rewrite Hs2. eapply refused_same; [|done]. destruct (_ || _); by eapply reject_refused. }
  apply serve_signed_exec in Hv as [[_ Hq2]|[Hr|(built & trd & Hf & Hb & Hd & rest' & -> & Hs)]].
  - left. rewrite Hs2. by eapply queries_same.
  - left. rewrite Hs2. by eapply refused_same.
  - apply answered_trans in Ha as (w3 & Htrd & Ha). set (task := stampTriggerClass (default_namespace h built) ctc) in *.
    assert (Hn2 : named w2) by (split; [intros ???; rewrite (same_get _ _ Hs2); by apply Hn|intros ??; rewrite (same_get _ _ Hs2); by apply Hn]).
    destruct (duplicate_served _ _ _ _ _ _ _ Hd Htrd Hn2) as (Hs3 & Hnt & _).
    destruct Hs as (pre' & a & class & metric & rsp & -> & Hq' & _). apply answered_trans in Ha as (w4 & Hpre' & Ha).
    pose proof (queries_same _ _ _ Hq' Hpre') as Hs4. destruct Ha as (w5 & Hc & Ha%closing_same). cbn in Hc.
    assert (Hw4 : same w w4) by by rewrite Hs2, Hs3.
    destruct Hc as [(t & -> & Hst & Hfree & Hch)|(_ & Hs5 & _)]; [right|left; by rewrite Hw4, Hs5].
    exists ctc, task, t. split_and!; try done.
    + eapply resolved_authorised; [done..|]. by exists built.
    + intros key t' Ht'. apply (Hnt eq_refl key t'). by rewrite (same_get _ _ Hs2).
    + by rewrite <- (same_get _ _ Hw4).
    + eapply changes_same; [exact Hch|by symmetry|done].
Qed.

(** ** Steps *)

Lemma made_class h ctc body task l : classes_ok l -> ctc ∈ l -> made h ctc body task -> of_class ctc task.
Proof.
  intros Hok Hin (built & _ & ->). unfold of_class, label, stampTriggerClass. rewrite (classes_valid _ Hok) by done.
  cbn. apply lookup_insert_eq.
Qed.

Lemma claimed_triggers r w ctc : claimed r w = [ctc] -> ctc ∈ w_triggers w.
Proof.
  intros Hc. assert (Hin : ctc ∈ claimed r w) by (rewrite Hc; left). by apply list_elem_of_filter in Hin as [_ ?].
Qed.

Lemma stored_task task t : stored KTask task t ->
  task_Namespace t = task_Namespace task /\ om_Labels (task_Meta t) = om_Labels (task_Meta task) /\ active t = true.
Proof.
  intros ([_ _ Hns Hl _ _] & _ & Hst & Hd & _). split_and!; [done..|]. apply active_spec. split; [done|]. unfold task_Phase. by rewrite Hst.
Qed.

Lemma stored_named h ctc body task t : made h ctc body task -> stored KTask task t -> task_Name t <> ""%string.
Proof.
  intros (built & Hb & ->) ([Hn Hg _ _ _ _] & _ & _ & _ & Hgen). cbn in Hn, Hg, Hgen.
  assert (Hid : identified (stampTriggerClass (default_namespace h built) ctc)).
  { apply BuildTask_identified in Hb. unfold stampTriggerClass, default_namespace. by destruct (IsValidLabelValue _), (_ =? _)%string. }
  destruct (decide (om_GenerateName (task_Meta (stampTriggerClass (default_namespace h built) ctc)) = ""%string)) as [He|He].
  - destruct Hid as [Hid|?]; [|done]. unfold task_Name in *. by rewrite (Hn He).
  - apply Hgen. by rewrite Hg.
Qed.

Lemma request_named h r w w1 : named w -> request h r w w1 -> named w1.
Proof.
  intros Hn (tr & o & Hx & Ha). split; [eapply answered_keyed; [exact Ha|apply Hn]|]. intros key t Ht.
  destruct (request_served _ _ _ _ _ _ Hx Ha Hn) as [Hs|(ctc & task & t' & Hau & _ & Hst & _ & [Hat Hfr _])].
  { rewrite (same_get _ _ Hs) in Ht. by eapply Hn. }
  destruct (decide (key = key_of (task_Meta t'))) as [->|Hne]; [|rewrite Hfr in Ht by congruence; by eapply Hn].
  rewrite Hat in Ht. injection Ht as <-. eapply stored_named; [exact (au_made _ _ _ _ _ Hau)|done].
Qed.

Lemma request_at_most_one h r w w1 :
  classes_ok (w_triggers w) -> named w -> request h r w w1 -> at_most_one w -> at_most_one w1.
Proof.
  intros Hok Hn (tr & o & Hx & Ha) Hone. destruct (request_served _ _ _ _ _ _ Hx Ha Hn) as
    [Hs|(ctc & task & t & Hau & Hnt & Hst & Hfree & [Hat Hfr Hen])].
  { eapply calm_at_most_one; [by apply calm_same|done]. }
  pose proof (claimed_triggers _ _ _ (au_class _ _ _ _ _ Hau)) as Hin.
  pose proof (made_class _ _ _ _ _ Hok Hin (au_made _ _ _ _ _ Hau)) as Hcl.
  destruct (stored_task _ _ Hst) as (Hns & Hlab & Hact). set (new := key_of (task_Meta t)) in *.
  assert (Hnew : forall ctc' key' t', ctc' ∈ w_triggers w -> of_class ctc' t -> twins ctc' t t' ->
    w_get w1 KTask key' = Some t' -> active t' = true -> key' = new).
  { intros ctc' key' t' Hin' Hcl' Htw Hg Hact'. destruct (decide (key' = new)) as [|Hne]; [done|].
    rewrite Hfr in Hg by congruence. destruct (Hnt _ _ Hg Hact').
    assert (ctc' = ctc) as ->. { apply (classes_distinct _ Hok); [done..|]. unfold of_class, label in *. rewrite Hlab in Hcl'. congruence. }
    by eapply twins_labels. }
  intros ctc' key1 key2 t1 t2 Hin' Hc1 Htw Hg1 Hg2 Ha1 Ha2. rewrite (same_triggers _ _ Hen) in Hin'.
  destruct (decide (key1 = new)) as [->|Hne1].
  - rewrite Hat in Hg1. injection Hg1 as <-. symmetry. by eapply Hnew.
  - destruct (decide (key2 = new)) as [->|Hne2].
    + rewrite Hat in Hg2. injection Hg2 as <-. eapply (Hnew ctc'); [done|by eapply twins_class|by apply twins_sym|done..].
    + rewrite Hfr in Hg1, Hg2 by congruence. by eapply Hone.
Qed.

(** What happens to the cluster, one whole request or pass at a time; others
    finish Tasks, delete them, run Jobs and write Secrets, but add no active Task. *)
Inductive step (h : Handler) (r : TaskReconciler) (w w1 : World) : Prop :=
| by_request rq : request h rq w w1 -> step h r w w1
| by_pass req : Quiescence.pass r req w w1 -> step h r w w1
| by_others : calm w w1 -> named w1 -> step h r w w1.

Lemma step_triggers h r w w1 : step h r w w1 -> w_triggers w1 = w_triggers w.
Proof.
  intros [rq (tr & o & _ & Ha)|req (tr & o & _ & Ha)|[Htr _] _]; [..|done]; by eapply same_triggers, answered_env.
Qed.

Lemma step_named h r w w1 : named w -> step h r w w1 -> named w1.
Proof. intros Hn [rq Hr|req Hp|_ ?]; [by eapply request_named|by eapply pass_named|done]. Qed.

Lemma step_at_most_one h r w w1 : classes_ok (w_triggers w) -> named w -> step h r w w1 -> at_most_one w -> at_most_one w1.
Proof.
  intros Hok Hn [rq Hr|req Hp|Hc _]; [by eapply request_at_most_one|..]; apply calm_at_most_one; [|done].
  eapply pass_calm; [apply Hn|done].
Qed.

Lemma steps_at_most_one h r w w1 : rtc (step h r) w w1 -> classes_ok (w_triggers w) -> named w -> at_most_one w ->
  w_triggers w1 = w_triggers w /\ named w1 /\ at_most_one w1.
Proof.
  induction 1 as [w|w w1 w2 Hs _ IH]; intros Hok Hn Hone; [done|]. pose proof (step_triggers _ _ _ _ Hs) as Htr.
  rewrite <- Htr. apply IH; [by rewrite Htr|by eapply step_named|by eapply step_at_most_one].
Qed.

(** ** The second delivery *)

(** An authorised request gets to the part after its signature. *)
Lemma authorised_served h r ctc task w tr o w1 :
  authorised h r ctc task w -> exec (ServeHTTP h r) tr o -> answered w tr w1 ->
  exists pre rest, tr = pre ++ rest /\ exec (serve_signed h ctc (rq_Body r)) rest o /\ answered w rest w1.
Proof.
  intros [Hm Hb Hj Hcl (secret & val & Hsec & Hn & Hk & Hd & Hv) _ _] Hx Ha. unfold ServeHTTP, findTriggerClass, serve_class, lookupSignatureSecret in Hx.
  rewrite Hm, Hb, Hj, String.eqb_refl in Hx. cbn [negb] in Hx.
  apply exec_bind in Hx as (tr1 & tr2 & found & -> & Hc & Hx). apply exec_call_inv in Hc as (items & tr1' & -> & [-> ->]%exec_ret).
  destruct Ha as (w2 & [Hs2 Hit] & Ha). cbn in Hit, Ha. subst items. fold (claimed r w) in Hx. rewrite Hcl in Hx.
  apply String.eqb_neq in Hn, Hk. rewrite Hn, Hk in Hx. cbn [orb] in Hx.
  apply exec_bind in Hx as (tr3 & tr4 & got & -> & Hc & Hx). apply exec_call_inv in Hc as (b & tr3' & -> & [-> ->]%exec_ret).
  destruct Ha as (w3 & [Hs3 Hb'] & Ha). cbn in Hb', Ha. rewrite (same_get _ _ Hs2), Hsec in Hb'. subst b. rewrite Hd in Hx.
  eexists [_; _], tr4. split; [done|]. unfold serve_verified in Hx. unfold verify in Hv. rewrite Hv in Hx. split; [done|].
  eapply answered_same; [exact Ha|by rewrite Hs2|done].
Qed.

Lemma duplicate_answers h ctc task w tr x w' :
  exec (findActiveDuplicate h ctc task) tr x -> answered w tr w' -> exists name, x = Ok name.
Proof.
  unfold findActiveDuplicate. intros Hx Ha. repeat case_match; repeat exec_step; try by eexists.
  cbn in Ha. destruct Ha as (w1 & (_ & tasks & -> & _) & _). by eexists.
Qed.

(** With a twin that is active, it creates nothing and says so. *)
Lemma twin_answered h r ctc task w tr o w1 :
  authorised h r ctc task w -> named w -> ~ no_twin ctc task w -> exec (ServeHTTP h r) tr o -> answered w tr w1 ->
  same w w1 /\ o = Returns tt /\ exists key t,
    w_get w KTask key = Some t /\ active t = true /\ twins ctc task t /\
    CRespond (mkResponse StatusAccepted None [("duplicate"%string, PBool true); ("task"%string, PString (task_Name t))]) ∈ calls tr.
Proof.
  intros Hau Hn Hnt Hx Ha. destruct (authorised_served _ _ _ _ _ _ _ _ Hau Hx Ha) as (pre & rest & -> & Hs & Har).
  destruct (au_made _ _ _ _ _ Hau) as (built & Hb & Htask). unfold serve_signed in Hs. rewrite (au_filters _ _ _ _ _ Hau), Hb in Hs.
  cbn [negb] in Hs. rewrite <- Htask in Hs. apply exec_bind in Hs as (trd & tr2 & existing & -> & Hd & Hs).
  apply answered_trans in Har as (w2 & Hd2 & Ha2). destruct (duplicate_answers _ _ _ _ _ _ _ Hd Hd2) as [name ->].
  destruct (duplicate_served _ _ _ _ _ _ _ Hd Hd2 Hn) as (Hs2 & Hnone & Hsome).
  destruct (String.eqb_spec name "") as [He|Hne]; [by destruct Hnt; apply Hnone|]. cbn [negb] in Hs.
  destruct (Hsome Hne) as (key & t & Hg & Hact & Htw & Hname). unfold ObserveWebhook, writeJSON in Hs. repeat exec_step.
  destruct Ha2 as (w3 & Hm3 & w4 & Hm4 & Hend). cbn in Hm3, Hm4, Hend. split; [by rewrite Hs2, Hm3, Hm4|]. split; [done|].
  exists key, t. split_and!; try done. apply elem_of_calls_app. right. apply elem_of_calls_app. right. right. left.
Qed.

Lemma made_unique h ctc body t1 t2 : made h ctc body t1 -> made h ctc body t2 -> t1 = t2.
Proof. intros (b1 & H1' & ->) (b2 & H2' & ->). congruence. Qed.

Lemma authorised_later h r ctc task w w2 :
  authorised h r ctc task w -> w_triggers w2 = w_triggers w -> (forall key, w_get w2 KSecret key = w_get w KSecret key) ->
  authorised h r ctc task w2.
Proof.
  intros [Hm Hb Hj Hcl (secret & val & Hsec & Hrest) Hf Hmade] Htr Hs. split; try done; [unfold claimed; by rewrite Htr|].
  exists secret, val. cbn zeta. by rewrite Hs.
Qed.

(** ** Theorems *)

(** C16. No two active Tasks stand for the same event.  Start with classes whose names
    are label values and differ, and with at most one active Task for each class,
    namespace and values of its deduplication keys.  Then, after any number of
    webhook requests and reconcile passes in any order, each ending before the next
    begins, for any senders and whatever the cluster does to Jobs, Secrets and finished
    Tasks in between, it is still at most one. *)
Theorem at_most_one_active h r w0 w :
  classes_ok (w_triggers w0) -> named w0 -> at_most_one w0 -> rtc (step h r) w0 w -> at_most_one w.
Proof. intros Hok Hn Hone Hr. by destruct (steps_at_most_one _ _ _ _ Hr Hok Hn Hone) as (_ & _ & ?). Qed.

(** C17. A repeated delivery gets the first Task back.  Let a delivery create a Task
    with all deduplication keys of its class, and let requests, passes and the
    cluster go on for as long as they like, each request and pass ending before the next
    begins.  While that Task is active and the
    Secrets are as they were, the same delivery again is answered 202 with the name of
    that Task, and changes nothing on the server. *)
Theorem redelivery_answered h r rq w0 w1 w2 w3 tr o key t t2 :
  classes_ok (w_triggers w0) -> named w0 -> at_most_one w0 ->
  request h rq w0 w1 -> w_get w0 KTask key = None -> w_get w1 KTask key = Some t ->
  (forall ctc, claimed rq w0 = [ctc] -> dedupe_applies ctc t) ->
  rtc (step h r) w1 w2 -> w_get w2 KTask key = Some t2 -> task_Meta t2 = task_Meta t -> active t2 = true ->
  (forall skey, w_get w2 KSecret skey = w_get w0 KSecret skey) ->
  exec (ServeHTTP h rq) tr o -> answered w2 tr w3 ->
  same w2 w3 /\ o = Returns tt /\
  CRespond (mkResponse StatusAccepted None [("duplicate"%string, PBool true); ("task"%string, PString (task_Name t))]) ∈ calls tr.
Proof.
  intros Hok Hn0 Hone Hreq Hnone Hsome Hded Hsteps Hg2 Hmeta Hact Hsec Hx Ha.
  assert (Hs1 : step h r w0 w1) by (by eapply by_request).
  destruct (steps_at_most_one h r w0 w2) as (Htr & Hn2 & Hone2); [by eapply rtc_l|done..|].
  destruct Hreq as (tr1 & o1 & Hx1 & Ha1). destruct (request_served _ _ _ _ _ _ Hx1 Ha1 Hn0) as
    [Hs|(ctc & task & t' & Hau & _ & Hst & _ & [Hat Hfr _])]; [by rewrite (same_get _ _ Hs), Hnone in Hsome|].
  assert (key = key_of (task_Meta t')) as ->.
  { destruct (decide (key = key_of (task_Meta t'))) as [|Hne]; [done|]. rewrite Hfr, Hnone in Hsome by congruence. done. }
  rewrite Hat in Hsome. injection Hsome as ->. destruct (stored_task _ _ Hst) as (Hns & Hlab & _).
  pose proof (claimed_triggers _ _ _ (au_class _ _ _ _ _ Hau)) as Hin.
  pose proof (made_class _ _ _ _ _ Hok Hin (au_made _ _ _ _ _ Hau)) as Hcl. specialize (Hded ctc (au_class _ _ _ _ _ Hau)).
  assert (Htw : twins ctc task t2).
  { destruct Hded as [Hk Hl]. split_and!; [unfold task_Namespace in *; congruence|done|]. intros k Hkin. specialize (Hl k Hkin).
    pose proof (map_get_label t k Hl) as Hlk. eexists. split; [exact Hl|]. unfold label in *. by rewrite <- Hlab, Hmeta, Hlk. }
  pose proof (authorised_later _ _ _ _ _ _ Hau Htr Hsec) as Hau2.
  assert (Hnt : ~ no_twin ctc task w2) by (intros Hnt; by apply (Hnt _ _ Hg2 Hact)).
  destruct (twin_answered _ _ _ _ _ _ _ _ Hau2 Hn2 Hnt Hx Ha) as (Hs3 & -> & key' & t3 & Hg3 & Hact3 & Htw3 & Hin3).
  split; [done|]. split; [done|]. assert (key_of (task_Meta t) = key') as <-.
  { eapply (Hone2 ctc _ _ t2 t3); try done; [by rewrite Htr|by eapply twins_class|].
    destruct Htw as (Hna & Hk & Hla), Htw3 as (Hnb & _ & Hlb). split_and!; [congruence|done|]. intros k Hkin.
    destruct (Hla k Hkin) as (v & Hv & L1 & L2), (Hlb k Hkin) as (v' & _ & L3 & L4). exists v. split_and!; [done..|]. congruence. }
  rewrite Hg2 in Hg3. injection Hg3 as <-. unfold task_Name in *. by rewrite Hmeta in Hin3.
Qed.

End Redelivery.

(** ** The theorems at samples

    A class with one key, its Secret and the agent class, and no Task; a delivery, a
    pass over the Task it makes, and the same delivery again. *)

Section Sample.
#[local] Existing Instances KubeRef.lib KubeRef.laws Samples.errors_text Samples.tables Webhook.sample_query.

Definition hook0 : World :=
  put KSecret (mkNN "conveyor-system" "hook") (Some (mkSecret (Samples.meta "hook" "conveyor-system" "uid-5") {["key"%string := "s3cret"%string]}))
    (put KClusterAgentClass (mkNN "" "claude") (Some Samples.agent)
       (mkWorld (fun _ _ => None) (fun _ _ => []) [sample_class] (fun _ => Ok ["192.0.2.7"%string]))).

Definition delivered : NamespacedName := mkNN "agents" "task-x1".
Definition server : forall c, World -> resp c * World := respond [delivered] (1000 * Second).
Definition delivery : Prog (outcome unit) := ServeHTTP sample_handler signed_request.
Definition hook1 : World := (run server delivery hook0).2.
Definition hook2 : World := (run server (Reconcile Samples.reconciler delivered) hook1).2.
Definition hook3 : World := (run server delivery hook2).2.
Definition first_task : Task := default (earlier TaskPhasePending) (w_get hook1 KTask delivered).
Definition later_task : Task := default (earlier TaskPhasePending) (w_get hook2 KTask delivered).

Lemma no_task_hook0 key : w_get hook0 KTask key = None.
Proof. reflexivity. Qed.

Lemma keyed_hook0 : keyed hook0.
Proof. apply keyed_put; [apply keyed_put; [by intros k key o|done]|done]. Qed.

Lemma covers_hook0 : covers [delivered] hook0.
Proof. intros key t. by rewrite no_task_hook0. Qed.

Lemma within_delivery : forallb (within [delivered]) (trace_of server delivery hook0) = true.
Proof. vm_compute. reflexivity. Qed.
Lemma within_pass : forallb (within [delivered]) (trace_of server (Reconcile Samples.reconciler delivered) hook1) = true.
Proof. vm_compute. reflexivity. Qed.
Lemma within_again : forallb (within [delivered]) (trace_of server delivery hook2) = true.
Proof. vm_compute. reflexivity. Qed.

Lemma server_covers {A} (p : Prog A) w :
  covers [delivered] w -> forallb (within [delivered]) (trace_of server p w) = true -> covers [delivered] (run server p w).2.
Proof. apply run_covers. Qed.
Lemma server_answered {A} (p : Prog A) w :
  covers [delivered] w -> forallb (within [delivered]) (trace_of server p w) = true -> answered w (trace_of server p w) (run server p w).2.
Proof. apply run_answered. Qed.

Lemma covers_hook1 : covers [delivered] hook1.
Proof. exact (server_covers delivery hook0 covers_hook0 within_delivery). Qed.
Lemma covers_hook2 : covers [delivered] hook2.
Proof. exact (server_covers (Reconcile Samples.reconciler delivered) hook1 covers_hook1 within_pass). Qed.

Lemma served_hook1 : answered hook0 (trace_of server delivery hook0) hook1.
Proof. exact (server_answered delivery hook0 covers_hook0 within_delivery). Qed.
Lemma served_hook2 : answered hook1 (trace_of server (Reconcile Samples.reconciler delivered) hook1) hook2.
Proof. exact (server_answered (Reconcile Samples.reconciler delivered) hook1 covers_hook1 within_pass). Qed.
Lemma served_hook3 : answered hook2 (trace_of server delivery hook2) hook3.
Proof. exact (server_answered delivery hook2 covers_hook2 within_again). Qed.

Lemma named_hook0 : named hook0.
Proof. split; [exact keyed_hook0|]. intros key t. by rewrite no_task_hook0. Qed.

Lemma task_hook1 : w_get hook1 KTask delivered = Some first_task.
Proof. vm_compute. reflexivity. Qed.
Lemma task_hook2 : w_get hook2 KTask delivered = Some later_task.
Proof. vm_compute. reflexivity. Qed.

Lemma classes_hook0 : classes_ok (w_triggers hook0).
Proof.
  split.
  - intros c Hc. apply list_elem_of_singleton in Hc as ->. vm_compute. reflexivity.
  - intros c c' Hc Hc' _. apply list_elem_of_singleton in Hc as ->. by apply list_elem_of_singleton in Hc' as ->.
Qed.

Lemma one_hook0 : at_most_one hook0.
Proof. intros ctc key1 key2 t1 t2 _ _ _. by rewrite no_task_hook0. Qed.

Lemma first_request : request sample_handler signed_request hook0 hook1.
Proof. eexists _, _. split; [apply (run_exec server delivery hook0)|exact served_hook1]. Qed.

Lemma then_pass : step sample_handler Samples.reconciler hook1 hook2.
Proof.
  apply (by_pass _ _ _ _ delivered). eexists _, _.
  split; [apply (run_exec server (Reconcile Samples.reconciler delivered) hook1)|exact served_hook2].
Qed.

Lemma at_most_one_active_witness : at_most_one hook2.
Proof.
  apply (at_most_one_active sample_handler Samples.reconciler hook0 hook2 classes_hook0 named_hook0 one_hook0).
  apply (rtc_l _ _ hook1); [exact (by_request _ _ _ _ _ first_request)|].
  apply rtc_once. exact then_pass.
Defined.

Lemma redelivery_answered_witness : same hook2 hook3.
Proof.
  apply (redelivery_answered sample_handler Samples.reconciler signed_request hook0 hook1 hook2 hook3 (trace_of server delivery hook2)
    (run server delivery hook2).1 delivered first_task later_task classes_hook0 named_hook0 one_hook0 first_request).
  - reflexivity.
  - exact task_hook1.
  - intros ctc Hc. vm_compute in Hc. injection Hc as <-. split; [discriminate|].
    intros k Hk. apply elem_of_cons in Hk as [->|Hk]; [vm_compute; discriminate|].
    apply list_elem_of_singleton in Hk as ->. vm_compute. discriminate.
  - apply rtc_once. exact then_pass.
  - exact task_hook2.
  - vm_compute. reflexivity.
  - vm_compute. reflexivity.
  - intros skey. vm_compute. reflexivity.
  - apply (run_exec server delivery hook2).
  - exact served_hook3.
Defined.
End Sample.
End Redelivery.
