(* ===== verification/Cluster.v ===== *)
(** * Many activities over one store

    Reconcile passes and webhook requests run concurrently, on several workers and
    several replicas, against one API server.  The theorems over [exec] treat one
    activity at a time and leave the answers open; here the activities share a
    store and interleave call by call.  The store is that of the NetworkPolicies:
    reads may be stale (the client reads from a cache), an answer may be lost after
    the write took effect, and others may change the store at any time.  Calls
    on other kinds get arbitrary answers. *)

From S2P Require Import Prelude GoString GoTime GoNet GoJson GoUrl Kube Api Effects KubeLib Metrics.
From S2P Require Import PolicyObjects PolicyConfig PolicyNetwork Reconciler Samples PolicyResult.
From S2P Require Import Build Status TaskResult Sync Reconcile Lifecycle Signature Mapping Webhook.

Module Cluster.
Import Labels Secrets Rbac Prompt Config Network Build Status TaskResult Sync Reconcile Lifecycle.

(** ** Policies that guard a Task *)

(** It selects the pods of the Task [name], denies ingress and restricts egress. *)
Definition guards (name : string) (np : NetworkPolicy) : Prop :=
  nps_PodSelector (np_Spec np) = PodSelectorLabels name /\
  nps_PolicyTypes (np_Spec np) = [PolicyTypeIngress; PolicyTypeEgress] /\ nps_Ingress (np_Spec np) = [].

Abbreviation Policies := (gmap NamespacedName NetworkPolicy).

Definition guarded (m : Policies) (key : NamespacedName) : Prop :=
  exists np, m !! key = Some np /\ guards (nn_Name key) np.

(** ** The writes of one pass *)

(** Reads are answered with the object that was asked for. *)
Definition keyed (tr : Trace) : Prop :=
  forall key np, ev (CGet KNetworkPolicy key) (Ok np) ∈ tr -> key_of (np_Meta np) = key.

(** What a pass for [task] does to policies: it writes its own, as a guard, and
    deletes none. *)
Definition policy_call (task : Task) (c : Call) : Prop :=
  match c with
  | CCreate KNetworkPolicy o | CUpdate KNetworkPolicy o =>
    key_of (np_Meta o) = key_of (task_Meta task) /\ guards (task_Name task) o
  | CDelete KNetworkPolicy _ _ => False
  | _ => True
  end.

Section Pass.
Context `{KubeLaws, JsonErrors, UnicodeTables}.

Definition policy_trace (task : Task) (tr : Trace) : Prop := keyed tr -> Forall (policy_call task) (calls tr).

Lemma keyed_app t1 t2 : keyed (t1 ++ t2) -> keyed t1 /\ keyed t2.
Proof. intros Hk. split; intros key np Hin; apply Hk, elem_of_app; auto. Qed.

#[local] Instance policy_additive task : Additive (policy_trace task).
Proof.
  split; [intros _; constructor|]. intros t1 t2 Q1 Q2 [K1 K2]%keyed_app. rewrite calls_app. apply Forall_app. split; auto.
Qed.

(** Calls that touch no policy. *)
Definition no_policy (c : Call) : bool :=
  match c with CCreate KNetworkPolicy _ | CUpdate KNetworkPolicy _ | CDelete KNetworkPolicy _ _ => false | _ => true end.

Lemma no_policy_every {A} task (P : Call -> Prop) (p : Prog A) :
  (forall c, P c -> no_policy c = true) -> only P p -> every (policy_trace task) p.
Proof.
  intros HP Hp tr a Hx _. eapply Forall_impl; [by eapply Hp|]. intros c Hc%HP. by destruct c as [|[]|[]|[]| | | | | | | | | |].
Qed.

Lemma other_kind_every k task desired mutate :
  owned_kind k = true -> k <> KNetworkPolicy -> every (policy_trace task) (ensureOwned k task desired mutate).
Proof.
  intros Hk Hn tr res Hx _.
  destruct (ensureOwned_cases _ _ _ _ _ _ Hx) as [(e & _ & -> & _)|(m & _ & [(e & _ & -> & _)|
    [(e & x & _ & -> & _)|[(o & _ & -> & _)|(o & x & _ & -> & _)]]])]; destruct k; try done; by repeat constructor.
Qed.

Lemma other_delete_every k key task : k <> KNetworkPolicy -> every (policy_trace task) (deleteIfExists k key).
Proof. intros Hn tr res (x & -> & _)%deleteIfExists_cases _. destruct k; try done; by repeat constructor. Qed.

Lemma own_policy_every task desired :
  key_of (np_Meta desired) = key_of (task_Meta task) -> guards (task_Name task) desired ->
  every (policy_trace task) (ensureOwned KNetworkPolicy task desired mutate_NetworkPolicy).
Proof.
  intros Hk Hg tr res Hx Hkey.
  destruct (ensureOwned_cases _ _ _ _ _ _ Hx) as [(e & _ & -> & _)|(m & Hm & [(e & _ & -> & _)|
    [(e & x & _ & -> & _)|[(o & _ & -> & _)|(o & x & _ & -> & _)]]])]; try by repeat constructor.
  - apply set_controller_key in Hm as [Hm _]. apply List.Forall_cons; [done|]. apply List.Forall_cons; [|constructor].
    split; [|exact Hg]. cbn. by rewrite Hm.
  - apply List.Forall_cons; [done|]. apply List.Forall_cons; [|constructor]. split; [|exact Hg].
    cbn. rewrite <- Hk. change (key_of (np_Meta o) = key_of (np_Meta desired)). apply Hkey. left.
Qed.

Lemma ensureNetworkPolicy_every r task egress : every (policy_trace task) (ensureNetworkPolicy r task egress).
Proof.
  intros tr res Hx. unfold ensureNetworkPolicy, BuildNetworkPolicy in Hx.
  apply exec_bind in Hx as (t1 & t2 & d & -> & Hb & Hx). apply additive_app.
  - eapply no_policy_every; [|apply BuildNetworkPolicy_only|exact Hb]. by intros c [h ->].
  - apply exec_bind in Hb as (te & t3 & c & -> & _ & [-> ->]%exec_ret). destruct c as [cidrs|e].
    + by eapply own_policy_every in Hx; [| |split_and!].
    + apply exec_ret in Hx as [-> _]. apply additive_nil.
Qed.

Lemma steps_policy_every r task agent egress step :
  step ∈ steps r task agent egress -> every (policy_trace task) (step_run step).
Proof.
  intros Hin. unfold steps in Hin. rewrite !elem_of_cons in Hin.
  destruct Hin as [->|[->|[->|[->|[->|[->|Hin]]]]]]; cbn [step_run]; [| | | | | |by apply elem_of_nil in Hin].
  - by apply other_kind_every.
  - unfold ensureRole. destruct (BuildRole _ _ _); [by apply other_kind_every|by apply other_delete_every].
  - unfold ensureRoleBinding. destruct (BuildRoleBinding _ _ _); [by apply other_kind_every|by apply other_delete_every].
  - apply ensureNetworkPolicy_every.
  - unfold ensurePromptConfigMap. destruct (BuildInlinePromptConfigMap _ _ _); [by apply other_kind_every|by apply other_delete_every].
  - unfold ensureAgentConfigMap. destruct (BuildAgentConfigMap _ _ _ _); [by apply other_kind_every|by apply other_delete_every].
Qed.

Lemma status_policy_every {A} task (p : Prog A) : only (fun c => status_call c = true) p -> every (policy_trace task) p.
Proof. apply no_policy_every. by intros []. Qed.

Lemma live_policy_every r task : every (policy_trace task) (reconcile_live r task).
Proof.
  apply reconcile_live_every; [apply _|..].
  - intros s _. by repeat constructor.
  - intros key x _. by repeat constructor.
  - intros. apply status_policy_every, failTask_only.
  - apply status_policy_every, markWaiting_only.
  - intros. by eapply steps_policy_every.
  - intros. eapply no_policy_every; [|apply ensureJob_only]. by intros [|[]|[]|[]| | | | | | | | | |].
  - intros. apply status_policy_every, syncStatus_only.
Qed.

(** Every call of a pass on a policy is on that of the Task it read. *)
Lemma pass_policy_calls r req task tr res c :
  exec (Reconcile r req) (ev (CGet KTask req) (Ok task) :: tr) res -> keyed tr -> c ∈ calls tr -> policy_call task c.
Proof.
  intros Hx%pass_first_exec Hk Hc. destruct (isTerminal _).
  - apply (terminal_pass_calls _ _ _ _ _ Hx) in Hc. destruct c as [|[]|[]|[]| | | | | | | | | |]; try done. by destruct Hc.
  - pose proof (live_policy_every _ _ _ _ Hx Hk) as Hf. rewrite Forall_forall in Hf. by apply Hf.
Qed.

(** A policy call of a pass comes after the read of a Task. *)
Lemma pass_read_first r req tr1 c x tr2 res :
  exec (Reconcile r req) (tr1 ++ ev c x :: tr2) res -> no_policy c = false ->
  exists task tr, tr1 = ev (CGet KTask req) (Ok task) :: tr.
Proof.
  intros (got & t & Heq & Hx)%exec_call_inv Hc. destruct tr1 as [|e tr1]; [injection Heq as -> _; done|].
  injection Heq as -> <-. destruct got as [task|e]; [by exists task, tr1|].
  destruct (IsNotFound e); apply exec_ret in Hx as [Hx _]; by destruct tr1.
Qed.

(** When a pass is about to create a Job, it holds the policy that guards its pods. *)
Lemma job_guarded r req tr1 j x tr2 res :
  exec (Reconcile r req) (tr1 ++ ev (CCreate KJob j) x :: tr2) res -> keyed (tr1 ++ ev (CCreate KJob j) x :: tr2) ->
  selects (PodSelectorLabels (om_Name (job_Meta j))) (pt_Labels (js_Template (job_Spec j))) = true /\
  exists np, holds KNetworkPolicy (key_of (job_Meta j)) tr1 np /\ key_of (np_Meta np) = key_of (job_Meta j) /\
    guards (om_Name (job_Meta j)) np.
Proof.
  intros Hx Hk. destruct (job_created _ _ _ _ _ _ _ Hx) as
    (task & agent & trs & e & d & m & -> & _ & _ & _ & Hs & Hb & Hm & -> & _).
  assert (Hkey : key_of (job_Meta (set_meta KJob m d)) = key_of (task_Meta task)).
  { apply set_controller_key in Hm as [Hm _]. cbn. rewrite Hm. by apply buildJob_key in Hb. }
  assert (Hname : om_Name (job_Meta (set_meta KJob m d)) = task_Name task) by (apply (f_equal nn_Name) in Hkey; exact Hkey).
  rewrite Hkey, Hname. split.
  { cbn [set_meta job_Spec]. rewrite (buildJob_labels _ _ _ _ _ Hb). apply pod_selected. }
  destruct (steps_policy _ _ _ _ Hs) as (t & Ht & Hp). destruct (ensureNetworkPolicy_ok _ _ _ _ Hp) as (te & cidrs & np & _ & _ & Hh & Hspec).
  exists np. split_and!; [| |unfold guards; by rewrite Hspec].
  - eapply holds_mono; [|exact Hh]. intros e0 He0. right. right. apply elem_of_app. left. apply elem_of_concat. by exists t.
  - cbn [app] in Hx. assert (Ht' : forall e0, e0 ∈ t -> ev_call e0 ∈ calls (ev (CGet KClusterAgentClass (agent_key task)) (Ok agent) ::
      (concat trs ++ [ev (CGet KJob (mkNN (task_Namespace task) (task_Name task))) (Err e)]) ++ ev (CCreate KJob (set_meta KJob m d)) x :: tr2)).
    { intros e0 He0. apply elem_of_trace_calls. right. rewrite <- app_assoc. apply elem_of_app. left. apply elem_of_concat. by exists t. }
    destruct Hh as [[y Hy]|[[y Hy]|Hy]].
    + apply Ht' in Hy. eapply pass_policy_calls in Hy; [|exact Hx|]; [by destruct Hy|]. intros key o Hin. apply Hk. by right.
    + apply Ht' in Hy. eapply pass_policy_calls in Hy; [|exact Hx|]; [by destruct Hy|]. intros key o Hin. apply Hk. by right.
    + apply Hk. apply elem_of_app. left. right. right. apply elem_of_app. left. apply elem_of_concat. by exists t.
Qed.

End Pass.
(** ** The cluster *)

(** What runs: a reconcile pass or a webhook request. *)
Inductive Activity :=
| Pass (r : TaskReconciler) (req : NamespacedName)
| Request (h : Webhook.Handler) (rq : Webhook.Request).

Section Cluster.
Context `{KubeLaws, Gjson, JsonErrors, UnicodeTables}.

Definition program (a : Activity) : Prog unit :=
  match a with
  | Pass r req => Reconcile r req ;; Ret tt
  | Request h rq => Webhook.ServeHTTP h rq ;; Ret tt
  end.

(** An activity, the calls it has made, and how it goes on. *)
Record Thread := mkThread { th_Activity : Activity; th_Trace : Trace; th_Rest : Prog unit }.

(** The policies now and at every earlier moment; the Jobs whose creation was ever
    attempted; the policies that others took away or changed. *)
Record State := mkState {
  cl_Policies : Policies;
  cl_Past : list Policies;
  cl_Threads : list Thread;
  cl_Jobs : list Job;
  cl_Released : gset NamespacedName }.

(** The server keeps every policy under its own name. *)
Definition well_keyed (m : Policies) : Prop := forall key np, m !! key = Some np -> key_of (np_Meta np) = key.

(** [m'] is [m] with [o] stored, up to the fields the server fills in. *)
Definition stored (o : NetworkPolicy) (m m' : Policies) : Prop :=
  exists x, key_of (np_Meta x) = key_of (np_Meta o) /\ np_Spec x = np_Spec o /\ m' = <[key_of (np_Meta o) := x]> m.

(** How the server answers a call and what becomes of the policies.  A read may see
    an earlier state; a write that is answered with an error may have happened. *)
Definition served (past : list Policies) (m : Policies) (c : Call) : resp c -> Policies -> Prop :=
  match c with
  | CGet KNetworkPolicy key => fun r m' =>
    m' = m /\ match r with Ok np => exists p, p ∈ past /\ p !! key = Some np | Err _ => True end
  | CCreate KNetworkPolicy o | CUpdate KNetworkPolicy o => fun r m' =>
    match r with Ok _ => stored o m m' | Err _ => m' = m \/ stored o m m' end
  | CDelete KNetworkPolicy key _ => fun r m' => m' = delete key m \/ (m' = m /\ exists e, r = Err e)
  | _ => fun _ m' => m' = m
  end.

Definition attempted (c : Call) : list Job := match c with CCreate KJob j => [j] | _ => [] end.

Inductive cluster_step : State -> State -> Prop :=
| cs_begin m past ths jobs rel a :
    cluster_step (mkState m past ths jobs rel) (mkState m past (ths ++ [mkThread a [] (program a)]) jobs rel)
| cs_call m past ths1 ths2 jobs rel a tr c k (x : resp c) m' :
    served past m c x m' ->
    cluster_step (mkState m past (ths1 ++ mkThread a tr (Vis c k) :: ths2) jobs rel)
      (mkState m' (m' :: past) (ths1 ++ mkThread a (tr ++ [ev c x]) (k x) :: ths2) (attempted c ++ jobs) rel)
| cs_outside m past ths jobs rel m' rel' :
    well_keyed m' -> rel ⊆ rel' -> (forall key, guarded m key -> guarded m' key \/ key ∈ rel') ->
    cluster_step (mkState m past ths jobs rel) (mkState m' (m' :: past) ths jobs rel').

(** A cluster at the start: any policies, no activity. *)
Inductive initial : State -> Prop :=
| initial_state m : well_keyed m -> initial (mkState m [m] [] [] ∅).

Definition safe (st : State) (key : NamespacedName) : Prop :=
  guarded (cl_Policies st) key \/ key ∈ cl_Released st.

(** ** The next call of an activity *)

Lemma keyed_cons_refusal c tr : keyed tr -> keyed (ev c (refusal c) :: tr).
Proof.
  intros Hk key np [Heq|Hin]%elem_of_cons; [|by apply Hk].
  apply (f_equal (fun e : Ev => match e with existT (CGet KNetworkPolicy _) (Ok _) => true | _ => false end)) in Heq.
  by destruct c as [[]| | | | | | | | | | | | |].
Qed.

Lemma refused_exec {A} (p : Prog A) : exists tr a, exec p tr a /\ keyed tr.
Proof.
  induction p as [a|c k IH]; [exists [], a; split; [done|]; by intros key np []%elem_of_nil|].
  destruct (IH (refusal c)) as (tr & a & Hx & Hk). exists (ev c (refusal c) :: tr), a.
  split; [by exists (refusal c), tr|by apply keyed_cons_refusal].
Qed.

Lemma reject_only P class metric code msg :
  (forall m, P (CMetric m)) -> (forall rsp, P (CRespond rsp)) -> only P (Webhook.reject class metric code msg).
Proof. intros Hm Hr. do 2 (apply only_call; [done|]; intros []). apply only_ret. Qed.

(** A webhook request touches neither policies nor Jobs. *)
Definition webhook_call (c : Call) : bool :=
  match c with CUpdate _ _ | CDelete _ _ _ | CStatusUpdate _ => false | CCreate k _ => bool_decide (k = KTask) | _ => true end.

Lemma ServeHTTP_only h r : only (fun c => webhook_call c = true) (Webhook.ServeHTTP h r).
Proof.
  assert (Hrej : forall class metric code msg, only (fun c => webhook_call c = true) (Webhook.reject class metric code msg))
    by (intros; by apply reject_only).
  unfold Webhook.ServeHTTP. destruct (negb _); [do 2 (apply only_call; [done|]; intros []); apply only_ret|].
  destruct (Webhook.read_body r) as [body|[]]; [|done..]. destruct (negb _); [done|].
  apply only_call; [done|]. intros items. cbn [bind]. destruct (match items with Err _ => _ | Ok _ => _ end) as [[ctc|]|]; [|done..].
  unfold Webhook.serve_class. apply only_bind.
  { unfold Webhook.lookupSignatureSecret. destruct (_ || _); [apply only_ret|]. apply only_call; [done|]. intros; apply only_ret. }
  intros [secret|]; [|done]. unfold Webhook.serve_verified. destruct (Signature.VerifyHMAC _ _ _ _ _); [destruct (_ || _); done|].
  unfold Webhook.serve_signed. destruct (negb _); [do 2 (apply only_call; [done|]; intros []); apply only_ret|].
  destruct (Mapping.BuildTask _ _) as [[task|]|]; [|done|apply only_ret]. apply only_bind.
  - eapply only_impl; [|intros tr x Hx; exact (Webhook.findActiveDuplicate_queries _ _ _ _ _ Hx)]. by intros [].
  - intros [existing|]; [|done]. destruct (negb _); [do 2 (apply only_call; [done|]; intros []); apply only_ret|].
    apply only_call; [done|]. intros [t|]; [|done]. do 2 (apply only_call; [done|]; intros []). apply only_ret.
Qed.

(** What the next call of a partial execution can be. *)
Definition call_ok (tr : Trace) (c : Call) : Prop :=
  match c with
  | CCreate KNetworkPolicy o | CUpdate KNetworkPolicy o => guards (nn_Name (key_of (np_Meta o))) o
  | CDelete KNetworkPolicy _ _ => False
  | CCreate KJob j =>
    selects (PodSelectorLabels (om_Name (job_Meta j))) (pt_Labels (js_Template (job_Spec j))) = true /\
    exists np, holds KNetworkPolicy (key_of (job_Meta j)) tr np /\ key_of (np_Meta np) = key_of (job_Meta j) /\
      guards (om_Name (job_Meta j)) np
  | _ => True
  end.

Lemma pass_call_ok r req tr1 c x tr2 res :
  exec (Reconcile r req) (tr1 ++ ev c x :: tr2) res -> keyed (tr1 ++ ev c x :: tr2) -> call_ok tr1 c.
Proof.
  intros Hx Hk. destruct (no_policy c) eqn:Hn.
  - destruct c as [|[]|[]|[]| | | | | | | | | |]; try done. by eapply job_guarded.
  - destruct (pass_read_first _ _ _ _ _ _ _ Hx Hn) as (task & tr & ->). cbn [app] in Hx.
    assert (Hc : policy_call task c).
    { eapply pass_policy_calls; [exact Hx| |].
      - intros key np Hin. apply Hk. by right.
      - apply elem_of_calls_app. right. apply elem_of_calls_cons. by left. }
    destruct c as [|[]|[]|[]| | | | | | | | | |]; try done; destruct Hc as [Hkey Hg]; unfold call_ok; by rewrite Hkey.
Qed.

Lemma next_call_ok a tr c k : after (program a) tr (Vis c k) -> keyed tr -> call_ok tr c.
Proof.
  intros Ha Hk. destruct (refused_exec (k (refusal c))) as (tr2 & [] & Hx & Hk2).
  assert (Hfull : exec (program a) (tr ++ ev c (refusal c) :: tr2) tt) by (eapply after_exec; [done|by exists (refusal c), tr2]).
  assert (Hkf : keyed (tr ++ ev c (refusal c) :: tr2)).
  { intros key np [Hin|Hin]%elem_of_app; [by apply Hk|]. by apply (keyed_cons_refusal c tr2 Hk2). }
  destruct a as [r req|h rq]; apply exec_bind in Hfull as (t1 & t2 & res & Heq & Hr & [-> _]%exec_ret); rewrite app_nil_r in Heq; subst t1.
  - by eapply pass_call_ok.
  - assert (Hc : webhook_call c = true).
    { apply (only_exec (fun c => webhook_call c = true) _ _ _ c (ServeHTTP_only h rq) Hr). apply elem_of_calls_app. right. apply elem_of_calls_cons. by left. }
    by destruct c as [|[]|[]|[]| | | | | | | | | |].
Qed.

(** ** The invariant *)

(** A thread is a partial execution; the policies it read or wrote as guards are
    still there. *)
Record thread_ok (st : State) (th : Thread) : Prop := {
  tok_after : after (program (th_Activity th)) (th_Trace th) (th_Rest th);
  tok_keyed : keyed (th_Trace th);
  tok_safe : forall key np, holds KNetworkPolicy key (th_Trace th) np -> key_of (np_Meta np) = key ->
    guards (nn_Name key) np -> safe st key }.

Record Inv (st : State) : Prop := {
  inv_now : cl_Policies st ∈ cl_Past st;
  inv_past : forall p, p ∈ cl_Past st -> well_keyed p;
  inv_guard : forall p key, p ∈ cl_Past st -> guarded p key -> safe st key;
  inv_threads : Forall (thread_ok st) (cl_Threads st);
  inv_jobs : forall j, j ∈ cl_Jobs st -> safe st (key_of (job_Meta j)) /\
    selects (PodSelectorLabels (om_Name (job_Meta j))) (pt_Labels (js_Template (job_Spec j))) = true }.

(** What a call leaves guarded: everything that was, and what it wrote. *)
Lemma served_guarded past m c x m' tr key :
  served past m c x m' -> call_ok tr c -> guarded m key -> guarded m' key.
Proof.
  intros Hs Hc (np & Hm & Hg).
  assert (Hkeep : m' = m -> guarded m' key) by (intros ->; by exists np).
  assert (Hst : forall o, stored o m m' -> guards (nn_Name (key_of (np_Meta o))) o -> guarded m' key).
  { intros o (y & _ & Hsp & ->) Ho. destruct (decide (key_of (np_Meta o) = key)) as [<-|Hne].
    - exists y. rewrite lookup_insert_eq. split; [done|]. unfold guards. by rewrite Hsp.
    - exists np. by rewrite lookup_insert_ne. }
  destruct c as [[]|[]|[]|[]| | | | | | | | | |]; cbn in Hs, Hc; try (by apply Hkeep); try done.
  - by apply Hkeep, Hs.
  - destruct x; [by eapply Hst|]. destruct Hs; [by apply Hkeep|by eapply Hst].
  - destruct x; [by eapply Hst|]. destruct Hs; [by apply Hkeep|by eapply Hst].
Qed.

Lemma served_well_keyed past m c x m' tr : served past m c x m' -> call_ok tr c -> well_keyed m -> well_keyed m'.
Proof.
  intros Hs Hc Hw. assert (Hst : forall o, stored o m m' -> well_keyed m').
  { intros o (y & Hy & _ & ->) key np. destruct (decide (key_of (np_Meta o) = key)) as [<-|Hne].
    - rewrite lookup_insert_eq. by intros [= <-].
    - rewrite lookup_insert_ne by done. apply Hw. }
  destruct c as [[]|[]|[]|[]| | | | | | | | | |]; cbn in Hs, Hc; try (by rewrite Hs); try done.
  - by destruct Hs as [-> _].
  - destruct x; [by eapply Hst|]. destruct Hs as [->|]; [done|by eapply Hst].
  - destruct x; [by eapply Hst|]. destruct Hs as [->|]; [done|by eapply Hst].
Qed.

Lemma thread_ok_mono st st' th : (forall key, safe st key -> safe st' key) -> thread_ok st th -> thread_ok st' th.
Proof. intros Hs [Ha Hk Hg]. split; [done..|]. eauto. Qed.

(** A single event after which the server holds a policy. *)
Lemma holds_snoc key tr e np :
  holds KNetworkPolicy key (tr ++ [e]) np -> holds KNetworkPolicy key tr np \/ holds KNetworkPolicy key [e] np.
Proof.
  unfold holds. intros [[y Hy]|[[y Hy]|Hy]]; apply elem_of_app in Hy as [Hy|Hy]; [left|right|left|right|left|right]; eauto 6.
Qed.

(** The policy an answered call shows or stores. *)
Definition shown (c : Call) : resp c -> option NetworkPolicy :=
  match c with
  | CGet KNetworkPolicy _ => fun r => match r with Ok np => Some np | Err _ => None end
  | CCreate KNetworkPolicy o | CUpdate KNetworkPolicy o => fun r => match r with Ok _ => Some o | Err _ => None end
  | _ => fun _ => None
  end.

Lemma holds_shown key c x np : holds KNetworkPolicy key [ev c x] np -> shown c x = Some np.
Proof.
  intros Hh. change (shown (projT1 (ev c x)) (projT2 (ev c x)) = Some np).
  destruct Hh as [[y Hy]|[[y Hy]|Hy]]; apply list_elem_of_singleton in Hy; by rewrite <- Hy.
Qed.

(** An answered call leaves the policy it shows guarded, when that policy is a guard. *)
Lemma answer_guarded past m c x m' np :
  (forall p, p ∈ past -> well_keyed p) -> served past m c x m' -> shown c x = Some np ->
  guards (nn_Name (key_of (np_Meta np))) np ->
  guarded m' (key_of (np_Meta np)) \/ exists p, p ∈ past /\ guarded p (key_of (np_Meta np)).
Proof.
  intros Hw Hs Hn Hg. assert (Hst : stored np m m' -> guarded m' (key_of (np_Meta np))).
  { intros (y & _ & Hsp & ->). exists y. rewrite lookup_insert_eq. split; [done|]. unfold guards. by rewrite Hsp. }
  destruct c as [[]|[]|[]|[]| | | | | | | | | |]; try done; cbn in Hs, Hn; destruct x as [o'|]; simplify_eq.
  - destruct Hs as [_ (p & Hp & Hl)]. right. exists p. split; [done|]. exists np. split; [|done]. by rewrite (Hw _ Hp _ _ Hl).
  - left. by apply Hst.
  - left. by apply Hst.
Qed.

(** Reads show policies under the name that was asked for. *)
Lemma served_keyed past m c x m' tr :
  (forall p, p ∈ past -> well_keyed p) -> served past m c x m' -> keyed tr -> keyed (tr ++ [ev c x]).
Proof.
  intros Hw Hs Hk key np [Hin|Heq%list_elem_of_singleton]%elem_of_app; [by apply Hk|].
  assert (Hget : match ev c x with existT (CGet KNetworkPolicy key) (Ok np) => key_of (np_Meta np) = key | _ => True end).
  { destruct c as [[]| | | | | | | | | | | | |]; try done. destruct x as [o|]; [|done]. destruct Hs as [_ (p & Hp & Hl)]. exact (Hw _ Hp _ _ Hl). }
  by rewrite <- Heq in Hget.
Qed.

(** What is left to show of a step whose new policies keep the guards: the
    threads and the Jobs it adds. *)
Lemma Inv_step m past ths jobs rel m' ths' jobs' rel' :
  Inv (mkState m past ths jobs rel) -> well_keyed m' -> rel ⊆ rel' -> (forall key, guarded m key -> guarded m' key \/ key ∈ rel') ->
  (let st' := mkState m' (m' :: past) ths' jobs' rel' in
   (forall th, thread_ok (mkState m past ths jobs rel) th -> thread_ok st' th) -> Forall (thread_ok st') ths') ->
  (forall j, j ∈ jobs' -> j ∈ jobs \/ safe (mkState m past ths jobs rel) (key_of (job_Meta j)) /\
    selects (PodSelectorLabels (om_Name (job_Meta j))) (pt_Labels (js_Template (job_Spec j))) = true) ->
  Inv (mkState m' (m' :: past) ths' jobs' rel').
Proof.
  intros [Hnow Hpast Hguard Hths Hjobs] Hw Hrel Hkeep Hths' Hjobs'.
  assert (Hsafe : forall key, safe (mkState m past ths jobs rel) key -> safe (mkState m' (m' :: past) ths' jobs' rel') key).
  { intros key [Hg|Hin]; [by destruct (Hkeep _ Hg); [left|right]|right; by apply Hrel]. }
  split; cbn.
  - left.
  - intros p [->|Hp]%elem_of_cons; [done|by apply Hpast].
  - intros p key [->|Hp]%elem_of_cons Hg; [by left|]. by eapply Hsafe, Hguard.
  - apply Hths'. intros th. by apply thread_ok_mono.
  - intros j Hj. destruct (Hjobs' _ Hj) as [Hin|[Hs Hsel]]; [destruct (Hjobs _ Hin)|]; auto.
Qed.

(** The thread that made a call is as the invariant wants it. *)
Lemma thread_call m past ths jobs rel a tr c k x m' ths' jobs' :
  Inv (mkState m past ths jobs rel) -> served past m c x m' ->
  thread_ok (mkState m' (m' :: past) ths' jobs' rel) (mkThread a tr (Vis c k)) ->
  (forall key, safe (mkState m past ths jobs rel) key -> safe (mkState m' (m' :: past) ths' jobs' rel) key) ->
  thread_ok (mkState m' (m' :: past) ths' jobs' rel) (mkThread a (tr ++ [ev c x]) (k x)).
Proof.
  intros Hinv Hs [Ha Hk Hg] Hsafe. split; cbn in *.
  - by constructor.
  - eapply served_keyed; [|done..]. apply (inv_past _ Hinv).
  - intros key np [Hh|Hh%holds_shown]%holds_snoc Hkey Hnp; [by eapply Hg|]. subst key.
    destruct (answer_guarded _ _ _ _ _ _ (inv_past _ Hinv) Hs Hh Hnp) as [Hm|(p & Hp & Hgp)]; [by left|].
    by eapply Hsafe, (inv_guard _ Hinv).
Qed.

Lemma cluster_step_Inv st st' : cluster_step st st' -> Inv st -> Inv st'.
Proof.
  intros Hstep Hinv. destruct Hstep as [m past ths jobs rel a|m past ths1 ths2 jobs rel a tr c k x m' Hs|m past ths jobs rel m' rel' Hw Hrel Hkeep].
  - destruct Hinv as [Hnow Hpast Hguard Hths Hjobs]. split; [done..| |done]. cbn in *. apply Forall_app. split.
    { eapply Forall_impl; [done|]. intros th. by apply thread_ok_mono. }
    apply Forall_singleton. split; [constructor|by intros key np []%elem_of_nil|].
    intros key np [[y []%elem_of_nil]|[[y []%elem_of_nil]|[]%elem_of_nil]].
  - assert (Hth := inv_threads _ Hinv). cbn in Hth. apply Forall_app in Hth as [Hth1 [Hth Hth2]%Forall_cons].
    pose proof (next_call_ok _ _ _ _ (tok_after _ _ Hth) (tok_keyed _ _ Hth)) as Hc. cbn in Hc.
    eapply Inv_step; [exact Hinv|..]; [|done|..].
    + eapply served_well_keyed; [done..|]. apply (inv_past _ Hinv), (inv_now _ Hinv).
    + intros key Hg. left. by eapply served_guarded.
    + intros st' Hmono. subst st'. apply Forall_app. split; [by eapply Forall_impl|]. apply Forall_cons. split; [|by eapply Forall_impl].
      eapply thread_call; [done..|by apply Hmono|]. intros key [Hg|Hin]; [left; by eapply served_guarded|by right].
    + intros j [Hj|Hj]%elem_of_app; [right|by left]. destruct c as [|[]| | | | | | | | | | | |]; try by apply elem_of_nil in Hj.
      apply list_elem_of_singleton in Hj as ->. destruct Hc as (Hsel & np & Hh & Hkey & Hg). split; [|done].
      by eapply (tok_safe _ _ Hth).
  - eapply Inv_step; [done..| |by left]. intros st' Hmono. eapply Forall_impl; [apply (inv_threads _ Hinv)|done].
Qed.

Lemma initial_Inv st : initial st -> Inv st.
Proof.
  intros [m Hm]. split; cbn.
  - left.
  - by intros p ->%list_elem_of_singleton.
  - intros p key ->%list_elem_of_singleton Hg. by left.
  - constructor.
  - by intros j []%elem_of_nil.
Qed.

Lemma reachable_Inv st0 st : rtc cluster_step st0 st -> Inv st0 -> Inv st.
Proof. induction 1 as [|s1 s2 s3 Hstep _ IH]; [done|]. intros Hi. by eapply IH, cluster_step_Inv. Qed.

(** C11. However reconcile passes and webhook requests interleave over one store, with
    stale reads, lost answers and others who write policies at any time, every Job
    whose creation was ever attempted has, at every later moment, a NetworkPolicy
    under its name in its namespace that selects its pods, restricts both directions
    and admits no ingress, unless somebody else took that policy away or changed it:
    no interleaving of the program's own activities leaves an agent pod unguarded. *)
Theorem jobs_stay_guarded st0 st j :
  initial st0 -> rtc cluster_step st0 st -> j ∈ cl_Jobs st -> key_of (job_Meta j) ∉ cl_Released st ->
  exists np, cl_Policies st !! key_of (job_Meta j) = Some np /\
    selects (nps_PodSelector (np_Spec np)) (pt_Labels (js_Template (job_Spec j))) = true /\
    nps_PolicyTypes (np_Spec np) = [PolicyTypeIngress; PolicyTypeEgress] /\ nps_Ingress (np_Spec np) = [].
Proof.
  intros Hi Hr Hj Hnr. destruct (inv_jobs _ (reachable_Inv _ _ Hr (initial_Inv _ Hi)) _ Hj) as [[(np & Hl & Hg)|Hin] Hsel]; [|done].
  exists np. destruct Hg as (Hp & Ht & Hing). by rewrite Hp.
Qed.

(** ** A scheduler

    Plays a schedule, a list of thread numbers, against the answers of a sample
    world; policy writes take effect. *)

Definition after_write (m : Policies) (c : Call) : Policies :=
  match c with
  | CCreate KNetworkPolicy o | CUpdate KNetworkPolicy o => <[key_of (np_Meta o) := o]> m
  | CDelete KNetworkPolicy key _ => delete key m
  | _ => m
  end.

Definition play_one (w : Samples.World) (st : State) (i : nat) : State :=
  match cl_Threads st !! i with
  | Some (mkThread a tr (Vis c k)) =>
    let x := (Samples.handle c w).1 in
    let m' := after_write (cl_Policies st) c in
    mkState m' (m' :: cl_Past st) (<[i := mkThread a (tr ++ [ev c x]) (k x)]> (cl_Threads st))
      (attempted c ++ cl_Jobs st) (cl_Released st)
  | _ => st
  end.

Lemma after_write_served w past m c : served past m c (Samples.handle c w).1 (after_write m c).
Proof. destruct c as [[]|[]|[]|[]| | | | | | | | | |]; try done; cbn; try by eexists. by left. Qed.

Lemma play_one_step w st i : rtc cluster_step st (play_one w st i).
Proof.
  unfold play_one. destruct st as [m past ths jobs rel]. cbn. destruct (ths !! i) as [[a tr [[]|c k]]|] eqn:Hi; [done| |done].
  apply rtc_once. rewrite insert_take_drop by by eapply lookup_lt_Some. rewrite <- (take_drop_middle _ _ _ Hi) at 1.
  apply cs_call, after_write_served.
Qed.

Definition play (w : Samples.World) (schedule : list nat) (st : State) : State := fold_left (play_one w) schedule st.

Lemma play_reach w schedule st : rtc cluster_step st (play w schedule st).
Proof.
  unfold play. revert st. induction schedule as [|i schedule IH]; intros st; [done|]. etrans; [apply play_one_step|apply IH].
Qed.

End Cluster.

(** ** An interleaving

    Two passes for one Task, call by call in turn: each finds no policy and no Job,
    and both create them. *)

Section Sample.
Import Samples KubeRef.
#[local] Instance no_queries : Gjson := {| gjson_get := fun _ _ => None |}.

Definition both : State :=
  let a := Pass reconciler (key_of (task_Meta task)) in
  mkState ∅ [∅] [mkThread a [] (program a); mkThread a [] (program a)] [] ∅.
Definition played : State := play fresh (concat (replicate 17 [0; 1]%nat)) both.

Lemma played_reachable : rtc cluster_step (mkState ∅ [∅] [] [] ∅) played.
Proof.
  eapply rtc_l; [apply (cs_begin _ _ _ _ _ (Pass reconciler (key_of (task_Meta task))))|].
  eapply rtc_l; [apply (cs_begin _ _ _ _ _ (Pass reconciler (key_of (task_Meta task))))|]. apply play_reach.
Qed.

Lemma jobs_stay_guarded_witness :
  length (cl_Jobs played) = 2%nat /\ exists j np, j ∈ cl_Jobs played /\ cl_Policies played !! key_of (job_Meta j) = Some np /\
    nps_Ingress (np_Spec np) = [].
Proof.
  split; [vm_compute; reflexivity|].
  assert (Hj : exists j, head (cl_Jobs played) = Some j) by (vm_compute; eexists; reflexivity). destruct Hj as [j Hj].
  assert (Hin : j ∈ cl_Jobs played) by (destruct (cl_Jobs played); [discriminate|injection Hj as ->; left]).
  assert (Hr : cl_Released played = ∅) by (vm_compute; reflexivity).
  destruct (jobs_stay_guarded (mkState ∅ [∅] [] [] ∅) played j) as (np & Hl & _ & _ & Hi).
  - constructor. intros key np. by rewrite lookup_empty.
  - exact played_reachable.
  - exact Hin.
  - rewrite Hr. apply not_elem_of_empty.
  - exists j, np. split_and!; [exact Hin|exact Hl|exact Hi].
Defined.
End Sample.
End Cluster.
