(* ===== verification/Overlap.v ===== *)
(** * Overlapping deliveries

    Webhook requests and reconcile passes interleaved call by call over one server.
    The duplicate check of a request and its create are two calls, so two requests
    can both create a Task for one event; this file shows that they do so only when
    the time from the check to the create of each overlaps that of the other. *)

From S2P Require Import Prelude GoString GoTime GoNet GoJson GoUrl Kube Api Effects KubeLib Metrics.
From S2P Require Import PolicyObjects PolicyConfig PolicyNetwork Reconciler Samples PolicyResult.
From S2P Require Import Build Status TaskResult Sync Reconcile Lifecycle ApiServer Settle Quiescence PassCalls.
From S2P Require Import Signature Mapping Webhook Redelivery Cluster.

Module Overlap.
Import Labels Build Status TaskResult Sync Reconcile Lifecycle ApiServer Settle PassCalls.
Import Signature Mapping Webhook Redelivery.

(** ** States *)

(** One call of an activity: what the server did and what the activity saw. *)
Record Entry := mkEntry { en_Thread : nat; en_Call : Call; en_Did : resp en_Call; en_Saw : resp en_Call }.

(** The server, the activities, and the calls so far in their order. *)
Record State := mkState { ov_World : World; ov_Threads : list Cluster.Thread; ov_Log : list Entry }.

(** The answer to a create may get lost; a cached list may be old. *)
Definition lost (c : Call) : resp c -> Prop :=
  match c with
  | CCreate _ _ => fun x => exists e, x = Err e
  | CListTasks false _ _ => fun _ => True
  | _ => fun _ => False
  end.

(** Optimistic concurrency: a status is taken while the stored Task is the one the
    activity read first. *)
Definition current (tr : Trace) (w : World) (c : Call) : Prop :=
  match c with
  | CStatusUpdate u => exists req task,
      head tr = Some (ev (CGet KTask req) (Ok task)) /\ w_get w KTask (key_of (task_Meta u)) = Some task
  | _ => True
  end.

Section Overlap.
Context `{KubeLaws, Gjson, JsonErrors, UnicodeTables}.

(** What a call does.  A request reads what is stored.  A pass may read old objects,
    and its writes may fail or their answers get lost. *)
Definition answers (a : Cluster.Activity) (tr : Trace) (w : World) (c : Call) (did saw : resp c) (w' : World) : Prop :=
  match a with
  | Cluster.Request _ _ => served w c did w' /\ (saw = did \/ lost c saw)
  | Cluster.Pass _ _ => same w w' \/ (served w c did w' /\ current tr w c)
  end.

(** The handlers of the command list with the live reader. *)
Definition reads_live (a : Cluster.Activity) : Prop :=
  match a with Cluster.Request h _ => reader h = true | Cluster.Pass _ _ => True end.

Inductive step : State -> State -> Prop :=
| begins w ths log a :
    reads_live a -> step (mkState w ths log) (mkState w (ths ++ [Cluster.mkThread a [] (Cluster.program a)]) log)
| calls_once w ths log i a tr c k did saw w' :
    ths !! i = Some (Cluster.mkThread a tr (Vis c k)) -> answers a tr w c did saw w' ->
    step (mkState w ths log)
      (mkState w' (<[i := Cluster.mkThread a (tr ++ [ev c saw]) (k saw)]> ths) (log ++ [mkEntry i c did saw]))
| others w ths log w' : calm w w' -> named w' -> step (mkState w ths log) (mkState w' ths log).

Definition initial (w : World) : State := mkState w [] [].

(** The Task that the server created, if it did. *)
Definition task_of (k : Kind) : res ApiError (obj k) -> option Task :=
  match k with
  | KTask => fun did => match did with Ok o => Some o | Err _ => None end
  | _ => fun _ => None
  end.
Definition created (e : Entry) : option Task :=
  match e with
  | mkEntry _ c did _ =>
    match c return resp c -> option Task with
    | CCreate k _ => task_of k
    | _ => fun _ => None
    end did
  end.

(** The call lists Tasks. *)
Definition lists (e : Entry) : Prop := match en_Call e with CListTasks _ _ _ => True | _ => False end.

(** What a thread saw. *)
Definition seen (i : nat) (log : list Entry) : Trace :=
  (fun e => ev (en_Call e) (en_Saw e)) <$> filter (fun e => en_Thread e = i) log.

Lemma seen_app i l1 l2 : seen i (l1 ++ l2) = seen i l1 ++ seen i l2.
Proof. unfold seen. by rewrite filter_app, fmap_app. Qed.

Lemma seen_own i c did saw : seen i [mkEntry i c did saw] = [ev c saw].
Proof. unfold seen. rewrite filter_cons_True; [done|reflexivity]. Qed.

Lemma seen_other i e : en_Thread e <> i -> seen i [e] = [].
Proof. intros Hn. unfold seen. by rewrite filter_cons_False. Qed.

Lemma elem_of_seen i log c x : ev c x ∈ seen i log -> exists j did, log !! j = Some (mkEntry i c did x).
Proof.
  intros (e & He & Hin)%list_elem_of_fmap. apply list_elem_of_filter in Hin as [Hi Hin]. apply list_elem_of_lookup in Hin as [j Hj].
  exists j. change (exists did : resp (projT1 (ev c x)), log !! j = Some (mkEntry i (projT1 (ev c x)) did (projT2 (ev c x)))).
  rewrite He. destruct e as [i' c' did saw]. cbn in Hi. subst i'. by exists did.
Qed.

(** ** The parts of an activity *)

Lemma program_full a tr c k : after (Cluster.program a) tr (Vis c k) ->
  forall x, exists tr2, match a with
  | Cluster.Pass r req => exists res, exec (Reconcile r req) (tr ++ ev c x :: tr2) res
  | Cluster.Request h rq => exists o, exec (ServeHTTP h rq) (tr ++ ev c x :: tr2) o
  end.
Proof.
  intros Ha x. destruct (exec_exists (k x) refusal) as (tr2 & [] & Hx). exists tr2.
  assert (Hfull : exec (Cluster.program a) (tr ++ ev c x :: tr2) tt) by (eapply after_exec; [done|by exists x, tr2]).
  destruct a as [r req|h rq]; apply exec_bind in Hfull as (t1 & t2 & res & Heq & Hr & [-> _]%exec_ret); rewrite app_nil_r in Heq; subst t1; by exists res.
Qed.

Lemma ev_task_inj req req' a b : ev (CGet KTask req) a = ev (CGet KTask req') b -> a = b.
Proof. intros He. exact (f_equal (fun e : Ev => match e return resp (CGet KTask req) with existT (CGet KTask _) x => x | _ => a end) He). Qed.

(** A pass writes only Tasks that it read, and revives none. *)
Lemma pass_call r req tr c x tr2 res :
  exec (Reconcile r req) (tr ++ ev c x :: tr2) res -> is_write c = true ->
  exists task, head tr = Some (ev (CGet KTask req) (Ok task)) /\ task_safe task c /\
    (isTerminal (task_Phase task) = true -> forall u, c = CStatusUpdate u -> task_Phase u = task_Phase task).
Proof.
  intros Hx Hw. destruct tr as [|e tr].
  { apply exec_call_inv in Hx as (got & t & Heq & _). apply (f_equal (fun l => ev_call <$> head l)) in Heq. cbn in Heq. by simplify_eq. }
  pose proof Hx as (got & t & Heq & Hk)%exec_call_inv. cbn in Heq. injection Heq as -> Heq. cbn [head].
  destruct got as [task|err]; [|apply exec_ret in Hk as [-> _]; by destruct tr].
  exists task. split; [done|]. cbn [app] in Hx. apply pass_first_exec in Hx.
  assert (Hin : c ∈ calls (tr ++ ev c x :: tr2)) by (apply elem_of_calls_app; right; apply elem_of_calls_cons; by left).
  destruct (isTerminal (task_Phase task)) eqn:Hterm.
  - apply (terminal_pass_calls _ _ _ _ _ Hx) in Hin. split; [by apply terminal_call_safe|]. intros _ u ->. by apply keeps_phase.
  - split; [|done]. exact (only_exec _ _ _ _ _ (live_safe r task) Hx Hin).
Qed.

Lemma pass_call_calm r req tr c k did saw w w' :
  after (Cluster.program (Cluster.Pass r req)) tr (Vis c k) -> answers (Cluster.Pass r req) tr w c did saw w' -> calm w w'.
Proof.
  intros Haf [Hs|[Hs Hcur]]; [by apply calm_same|]. destruct (is_write c) eqn:Hw.
  2: { apply calm_same. split; [|by eapply served_env]. intros k' key. eapply served_frame; [done|by apply is_write_at_slot]. }
  destruct (program_full _ _ _ _ Haf saw) as (tr2 & res & Hx). destruct (pass_call _ _ _ _ _ _ _ Hx Hw) as (task & Hh & Hsafe & Hterm).
  split; [by eapply same_triggers, served_env|]. intros key t' Ht' Hact.
  destruct (safe_call_served _ _ _ _ _ _ _ Hs Hsafe Ht') as (t & Ht & Hm & Hst). exists t. split; [done|].
  unfold task_Namespace. rewrite Hm. split; [|done]. apply active_spec in Hact as [Hd Hp]. apply active_spec. rewrite <- Hm. split; [done|].
  destruct Hst as [He|(u & -> & -> & He)]; [unfold task_Phase in *; by rewrite <- He|].
  destruct Hcur as (req' & task' & Hh' & Hg'). rewrite Hh in Hh'. cbn in Hsafe. rewrite Hsafe, Ht in Hg'. injection Hg' as <-.
  assert (t = task) as ->.
  { apply (inj Some), ev_task_inj in Hh'. by injection Hh' as ->. }
  apply not_true_iff_false. intros Htt. specialize (Hterm Htt u eq_refl). unfold task_Phase in *. rewrite He, Hterm in Hp. congruence.
Qed.

(** A request that creates a Task has checked before. *)
Record checked (h : Handler) (rq : Request) (task : Task) (tr : Trace) (ctc : ClusterTriggerClass) : Prop := {
  ch_class : exists items, ev CListTriggerClasses (Ok items) ∈ tr /\ ctc ∈ items;
  ch_made : made h ctc (rq_Body rq) task;
  ch_listed : exists trd, exec (findActiveDuplicate h ctc task) trd (Ok ""%string) /\ trd ⊆ tr;
  ch_first : forall t, CCreate KTask t ∉ calls tr }.

Definition creates_task (e : Ev) : Prop := match ev_call e with CCreate KTask _ => True | _ => False end.

Lemma queries_create_nothing tr : queries tr -> Forall (fun e => ~ creates_task e) tr.
Proof.
  intros Hq. unfold queries, calls in Hq. rewrite Forall_fmap in Hq. eapply Forall_impl; [exact Hq|].
  intros [c x] He Hc. cbn in He, Hc. by destruct c.
Qed.

Lemma request_checked h rq task tr x tr2 o :
  exec (ServeHTTP h rq) (tr ++ ev (CCreate KTask task) x :: tr2) o -> exists ctc, checked h rq task tr ctc.
Proof.
  intros Hx. assert (Hno : forall full, Forall (fun e => ~ creates_task e) full -> tr ++ ev (CCreate KTask task) x :: tr2 = full -> False).
  { intros full Hf <-. apply Forall_app in Hf as [_ [Hf _]%Forall_cons]. by apply Hf. }
  assert (Hcl : forall class metric rsp, Forall (fun e => ~ creates_task e) (closing class metric rsp)) by (intros; repeat constructor; by intros []).
  assert (Href : forall t' o', Webhook.refused t' o' -> Forall (fun e => ~ creates_task e) t').
  { intros t' o' (pre & class & metric & rsp & -> & Hq & _). apply Forall_app. split; [by apply queries_create_nothing|done]. }
  destruct (ServeHTTP_cases _ _ _ _ Hx) as [(pre & class & metric & rsp & Heq & Hq & _)|(ctc & val & pre & rest & Heq & Hq & Hres & Hv)].
  { destruct (Hno _ ltac:(apply Forall_app; split; [by apply queries_create_nothing|apply Hcl]) Heq). }
  pose proof (queries_create_nothing _ Hq) as Hpre. unfold serve_verified in Hv. destruct (VerifyHMAC _ _ _ _ _) as [e|].
  { assert (Hr : Webhook.refused rest o) by (destruct (_ || _); by eapply reject_refused).
    destruct (Hno _ ltac:(apply Forall_app; split; [exact Hpre|by eapply Href]) Heq). }
  apply serve_signed_exec in Hv as [[_ Hq2]|[Hr|(built & trd & _ & Hb & Hd & rest' & -> & Hs)]].
  - destruct (Hno _ ltac:(apply Forall_app; split; [exact Hpre|by apply queries_create_nothing]) Heq).
  - destruct (Hno _ ltac:(apply Forall_app; split; [exact Hpre|by eapply Href]) Heq).
  - destruct Hs as (pre' & a & class & metric & rsp & -> & Hq' & _). set (task' := stampTriggerClass (default_namespace h built) ctc) in *.
    pose proof (findActiveDuplicate_queries _ _ _ _ _ Hd) as Hqd. rewrite !app_assoc in Heq. symmetry in Heq.
    destruct (split_unique creates_task _ _ _ _ _ _ Heq) as (-> & Hev & _).
    { rewrite !Forall_app. split_and!; [exact Hpre|by apply queries_create_nothing..]. }
    { apply Hcl. } { done. }
    apply (f_equal ev_call), create_task_inj in Hev as ->. exists ctc. split.
    + destruct Hres as (_ & _ & _ & _ & items & secret & [l ->] & Hf & _). exists items. split; [left|].
      assert (Hin : ctc ∈ filter (fun ctc => path_matches (trim_path (rq_Path rq)) ctc = true) items) by (rewrite Hf; left).
      by apply list_elem_of_filter in Hin as [_ ?].
    + by exists built.
    + exists trd. split; [exact Hd|]. intros e Hin. apply elem_of_app. left. apply elem_of_app. by right.
    + intros t Hin. assert (Hall : queries ((pre ++ trd) ++ pre')) by (by rewrite !queries_app).
      by eapply queries_not in Hin.
Qed.

(** ** One call of an activity *)

(** The same namespace and labels. *)
Definition alike (t t' : Task) : Prop := task_Namespace t = task_Namespace t' /\ om_Labels (task_Meta t) = om_Labels (task_Meta t').

Lemma request_call h rq tr c k did saw w w' :
  after (Cluster.program (Cluster.Request h rq)) tr (Vis c k) -> answers (Cluster.Request h rq) tr w c did saw w' ->
  (same w w' /\ forall i, created (mkEntry i c did saw) = None) \/
  exists task ctc o, (forall i, created (mkEntry i c did saw) = Some o) /\ checked h rq task tr ctc /\ stored KTask task o /\
    changes KTask (key_of (task_Meta o)) (Some o) w w'.
Proof.
  intros Haf [Hs _]. destruct (program_full _ _ _ _ Haf saw) as (tr2 & o & Hx).
  assert (Hc : Cluster.webhook_call c = true).
  { apply (only_exec (fun c => Cluster.webhook_call c = true) _ _ _ c (Cluster.ServeHTTP_only h rq) Hx). apply elem_of_calls_app. right. apply elem_of_calls_cons. by left. }
  destruct (is_write c) eqn:Hw.
  2: { left. split; [|by destruct c]. split; [|by eapply served_env]. intros k' key. eapply served_frame; [done|by apply is_write_at_slot]. }
  destruct c as [|kk task| | | | | | | | | | | |]; try done. cbn in Hc. apply bool_decide_eq_true in Hc as ->.
  destruct (request_checked _ _ _ _ _ _ _ Hx) as [ctc Hch]. cbn in Hs.
  destruct Hs as [(t & -> & Hst & _ & Hch')|((e & -> & _) & Hsm & _)]; [right; by exists task, ctc, t|left; by split].
Qed.

Lemma pass_creates_none r req tr c k i did saw :
  after (Cluster.program (Cluster.Pass r req)) tr (Vis c k) -> created (mkEntry i c did saw) = None.
Proof.
  intros Haf. destruct (program_full _ _ _ _ Haf saw) as (tr2 & res & Hx). destruct c as [|kk o| | | | | | | | | | | |]; try done.
  destruct (pass_call _ _ _ _ _ _ _ Hx eq_refl) as (task & _ & Hsafe & _). cbn in Hsafe. by destruct kk.
Qed.

Lemma pass_call_named r req tr c k did saw w w' :
  named w -> after (Cluster.program (Cluster.Pass r req)) tr (Vis c k) -> answers (Cluster.Pass r req) tr w c did saw w' -> named w'.
Proof.
  intros [Hk Hn] Haf Hans. assert (Hid : same w w' -> named w') by (intros Hs; split; [intros ???|intros ??]; rewrite (same_get _ _ Hs); [apply Hk|apply Hn]).
  destruct Hans as [?|[Hs _]]; [by apply Hid|]. destruct (is_write c) eqn:Hw.
  2: { apply Hid. split; [|by eapply served_env]. intros k' key. eapply served_frame; [done|by apply is_write_at_slot]. }
  split; [by eapply served_stays_keyed|]. intros key t Ht. destruct (program_full _ _ _ _ Haf saw) as (tr2 & res & Hx).
  destruct (pass_call _ _ _ _ _ _ _ Hx Hw) as (task & _ & Hsafe & _). destruct (safe_call_served _ _ _ _ _ _ _ Hs Hsafe Ht) as (t0 & Ht0 & Hm & _).
  unfold task_Name. rewrite Hm. by eapply Hn.
Qed.

(** A call keeps the active Tasks, or it adds the one Task that it creates. *)
Lemma call_effect a tr c k i did saw w w' :
  named w -> after (Cluster.program a) tr (Vis c k) -> answers a tr w c did saw w' ->
  named w' /\ w_triggers w' = w_triggers w /\
  ((calm w w' /\ created (mkEntry i c did saw) = None) \/
   exists o, created (mkEntry i c did saw) = Some o /\ changes KTask (key_of (task_Meta o)) (Some o) w w').
Proof.
  intros Hn Haf Hans. destruct a as [r req|h rq].
  - assert (Hc : calm w w') by by eapply pass_call_calm. split_and!; [by eapply pass_call_named|apply Hc|left; split; [done|by eapply pass_creates_none]].
  - destruct (request_call _ _ _ _ _ _ _ _ _ Haf Hans) as [[Hs Hnone]|(task & ctc & o & Ho & Hch & Hst & Hcg)].
    + split_and!; [|by apply same_triggers, Hs|left; split; [by apply calm_same|done]].
      destruct Hn as [Hk Hn]. split; [intros ???|intros ??]; rewrite (same_get _ _ Hs); [apply Hk|apply Hn].
    + split_and!; [|by eapply same_triggers, changed_rest|right; by exists o]. destruct Hn as [Hk Hn], Hans as [Hs _]. split; [by eapply served_stays_keyed|].
      intros key t Ht. destruct (decide (key = key_of (task_Meta o))) as [->|Hne].
      * rewrite (changed_at _ _ _ _ _ Hcg) in Ht. injection Ht as <-. eapply stored_named; [exact (ch_made _ _ _ _ _ Hch)|done].
      * rewrite (changed_frame _ _ _ _ _ Hcg) in Ht by congruence. by eapply Hn.
Qed.

(** ** Invariant *)

Record thread_ok (log : list Entry) (i : nat) (th : Cluster.Thread) : Prop := {
  tok_after : after (Cluster.program (Cluster.th_Activity th)) (Cluster.th_Trace th) (Cluster.th_Rest th);
  tok_seen : Cluster.th_Trace th = seen i log;
  tok_live : reads_live (Cluster.th_Activity th) }.

Record Inv (w0 : World) (st : State) : Prop := {
  inv_named : named (ov_World st);
  inv_triggers : w_triggers (ov_World st) = w_triggers w0;
  inv_threads : forall i th, ov_Threads st !! i = Some th -> thread_ok (ov_Log st) i th;
  inv_log : Forall (fun e => (en_Thread e < length (ov_Threads st))%nat) (ov_Log st) }.

Lemma seen_none n log : Forall (fun e => (en_Thread e < n)%nat) log -> seen n log = [].
Proof.
  intros Hl. unfold seen. rewrite filter_none; [done|]. intros e He. rewrite Forall_forall in Hl. specialize (Hl e He). lia.
Qed.

Lemma Inv_initial w0 : named w0 -> Inv w0 (initial w0).
Proof. intros Hn. split; [done|done|by intros i th|constructor]. Qed.

Lemma call_keeps w0 st st' : step st st' -> Inv w0 st -> Inv w0 st'.
Proof.
  intros Hs [Hn Ht Hth Hl]. destruct Hs as [w ths log a Hlive|w ths log i a tr c k did saw w' Hi Hans|w ths log w' Hc Hn']; cbn in *.
  - split; cbn; [done..| |].
    + intros i th [Hi|[Hi Hs]]%lookup_app_Some; [by apply Hth|]. apply list_lookup_singleton_Some in Hs as [Hz <-].
      assert (i = length ths) as -> by lia. split; cbn; [constructor|by rewrite seen_none|done].
    + eapply Forall_impl; [exact Hl|]. cbn beta. intros e He. rewrite length_app. cbn [length]. lia.
  - pose proof (Hth _ _ Hi) as [Haf Hseen Hlive]. cbn in Haf, Hseen, Hlive.
    destruct (call_effect _ _ _ _ i _ _ _ _ Hn Haf Hans) as (Hn' & Htr & _). split; cbn; [done|congruence| |].
    + intros j th Hj. destruct (decide (j = i)) as [->|Hne].
      * rewrite list_lookup_insert_eq in Hj by by eapply lookup_lt_Some. injection Hj as <-. split; cbn; [|by rewrite seen_app, seen_own, Hseen|done].
        by apply after_call.
      * rewrite list_lookup_insert_ne in Hj by done. destruct (Hth _ _ Hj) as [? Hsj ?]. split; [done| |done].
        rewrite seen_app, seen_other, app_nil_r by (cbn; congruence). done.
    + rewrite length_insert. apply Forall_app. split; [done|]. constructor; [|constructor]. cbn. by eapply lookup_lt_Some.
  - split; cbn; [done| |done..]. rewrite <- Ht. by apply calm_triggers.
Qed.

Lemma interleaved_keeps w0 st st' : rtc step st st' -> Inv w0 st -> Inv w0 st'.
Proof. induction 1 as [|st st1 st2 Hs _ IH]; [done|]. intros Hi. by eapply IH, call_keeps. Qed.

(** A thread stays what it is. *)
Lemma threads_stay st st' i th : rtc step st st' -> ov_Threads st !! i = Some th ->
  exists th', ov_Threads st' !! i = Some th' /\ Cluster.th_Activity th' = Cluster.th_Activity th.
Proof.
  intros Hr. revert th. induction Hr as [|st st1 st2 Hs _ IH]; intros th Hi; [by exists th|].
  assert (Hone : exists th', ov_Threads st1 !! i = Some th' /\ Cluster.th_Activity th' = Cluster.th_Activity th).
  { destruct Hs as [w ths log a _|w ths log j a tr c k did saw w' Hj _|w ths log w' _ _]; cbn in *; [|destruct (decide (i = j)) as [->|Hne]|].
    - exists th. by rewrite (lookup_app_l_Some _ _ _ _ Hi).
    - eexists. split; [by rewrite list_lookup_insert_eq by by eapply lookup_lt_Some|]. cbn. rewrite Hj in Hi. by injection Hi as <-.
    - exists th. by rewrite list_lookup_insert_ne.
    - by exists th. }
  destruct Hone as (th1 & Hi1 & Ha1). destruct (IH th1 Hi1) as (th2 & ? & Ha2). exists th2. split; [done|congruence].
Qed.

(** ** History *)

(** Every entry was made by a step, between two states on the way. *)
Lemma history w0 st j e : rtc step (initial w0) st -> ov_Log st !! j = Some e ->
  exists st1 st2, rtc step (initial w0) st1 /\ step st1 st2 /\ rtc step st2 st /\
    ov_Log st1 = take j (ov_Log st) /\ ov_Log st2 = ov_Log st1 ++ [e].
Proof.
  intros Hr. revert j e. pattern st. refine (rtc_ind_r _ _ _ _ st Hr); [by intros j e|]. clear st Hr. intros st1 st2 Hr Hs IH j e He.
  assert (Hext : ov_Log st2 = ov_Log st1 \/ exists e', ov_Log st2 = ov_Log st1 ++ [e']) by (destruct Hs; cbn; eauto).
  destruct (decide (j < length (ov_Log st1))%nat) as [Hj|Hj].
  - assert (Htk : take j (ov_Log st2) = take j (ov_Log st1) /\ ov_Log st1 !! j = Some e).
    { destruct Hext as [Heq|[e' Heq]]; rewrite Heq in He |- *; [done|]. rewrite lookup_app_l in He by done. by rewrite take_app_le by lia. }
    destruct Htk as [-> He1]. destruct (IH _ _ He1) as (sa & sb & ? & ? & ? & ? & ?). exists sa, sb. split_and!; try done. by eapply rtc_r.
  - destruct Hext as [Heq|[e' Heq]]; [rewrite Heq in He; apply lookup_lt_Some in He; lia|].
    rewrite Heq, lookup_app_r in He by lia. apply list_lookup_singleton_Some in He as [Hz ->].
    exists st1, st2. split_and!; [done..| |done]. rewrite Heq, take_app_length'; [done|lia].
Qed.

Lemma snoc_inj {A} (l : list A) a b : l ++ [a] = l ++ [b] -> a = b.
Proof. intros Heq%app_inj_tail. by destruct Heq. Qed.

(** The call behind an entry. *)
Lemma call_of w0 st i c did saw j : named w0 -> rtc step (initial w0) st -> ov_Log st !! j = Some (mkEntry i c did saw) ->
  exists st1 st2 a k, rtc step (initial w0) st1 /\ rtc step st1 st /\ Inv w0 st1 /\ ov_Log st1 = take j (ov_Log st) /\
    after (Cluster.program a) (seen i (take j (ov_Log st))) (Vis c k) /\ reads_live a /\
    answers a (seen i (take j (ov_Log st))) (ov_World st1) c did saw (ov_World st2) /\
    (exists th, ov_Threads st !! i = Some th /\ Cluster.th_Activity th = a).
Proof.
  intros Hn Hr Hj. destruct (history _ _ _ _ Hr Hj) as (st1 & st2 & Hr1 & Hs & Hr2 & Htk & Hlog).
  pose proof (interleaved_keeps _ _ _ Hr1 (Inv_initial _ Hn)) as Hinv. rewrite <- Htk.
  assert (Hr12 : rtc step st1 st) by by eapply rtc_l.
  destruct Hs as [w ths log a _|w ths log i' a tr c' k did' saw' w' Hi Hans|w ths log w' _ _]; cbn in Hlog;
    [by apply app_singleton_r in Hlog || (apply (f_equal length) in Hlog; rewrite length_app in Hlog; cbn in Hlog; lia)| |
     apply (f_equal length) in Hlog; rewrite length_app in Hlog; cbn in Hlog; lia].
  apply snoc_inj in Hlog. destruct (inv_threads _ _ Hinv _ _ Hi) as [Haf Hseen Hlive]. cbn in Haf, Hseen, Hlive.
  destruct (threads_stay _ _ i' _ Hr12 Hi) as (th & Hth & Ha).
  assert (Hgoal : forall e, mkEntry i' c' did' saw' = e -> exists k,
    after (Cluster.program a) (seen (en_Thread e) log) (Vis (en_Call e) k) /\
    answers a (seen (en_Thread e) log) w (en_Call e) (en_Did e) (en_Saw e) w').
  { intros e <-. exists k. cbn [en_Thread en_Call en_Did en_Saw]. change (tr = seen i' log) in Hseen. by rewrite <- Hseen. }
  destruct (Hgoal _ Hlog) as (k' & Haf' & Hans'). apply (f_equal en_Thread) in Hlog. cbn in Hlog. subst i'.
  eexists _, (mkState w' ths log), a, k'. split_and!; [exact Hr1|exact Hr12|exact Hinv|reflexivity|exact Haf'|exact Hlive|exact Hans'|by exists th].
Qed.

(** The last creation under a key, at or after [n]. *)
Definition born (log : list Entry) (n : nat) (key : NamespacedName) (t : Task) : Prop :=
  exists j e o, (n <= j)%nat /\ log !! j = Some e /\ created e = Some o /\ key_of (task_Meta o) = key /\ alike o t /\
    forall j' e' o', (j < j')%nat -> log !! j' = Some e' -> created e' = Some o' -> key_of (task_Meta o') <> key.

(** A Task that is active now was so all the time, or it was born in between. *)
Definition since (st st' : State) : Prop :=
  forall key t, w_get (ov_World st') KTask key = Some t -> active t = true ->
    (exists t0, w_get (ov_World st) KTask key = Some t0 /\ active t0 = true /\ alike t0 t /\
       forall j e o, (length (ov_Log st) <= j)%nat -> ov_Log st' !! j = Some e -> created e = Some o -> key_of (task_Meta o) <> key) \/
    born (ov_Log st') (length (ov_Log st)) key t.

Lemma alike_trans t1 t2 t3 : alike t1 t2 -> alike t2 t3 -> alike t1 t3.
Proof. intros [N1 L1] [N2 L2]. split; congruence. Qed.

(** Nothing is born by an entry that creates nothing, or under another key. *)
Lemma since_keeps st st1 st2 l :
  since st st1 -> (length (ov_Log st) <= length (ov_Log st1))%nat -> ov_Log st2 = ov_Log st1 ++ l ->
  (forall key t', w_get (ov_World st2) KTask key = Some t' -> active t' = true ->
    (exists t, w_get (ov_World st1) KTask key = Some t /\ active t = true /\ alike t t' /\
       forall e o, e ∈ l -> created e = Some o -> key_of (task_Meta o) <> key) \/
    born (ov_Log st2) (length (ov_Log st)) key t') -> since st st2.
Proof.
  intros Hsi Hlen Hlog Hone key t' Hg Hact. destruct (Hone key t' Hg Hact) as [(t & Ht & Hat & Hal & Hno)|?]; [|by right].
  assert (Hlater : forall j e o, (length (ov_Log st1) <= j)%nat -> ov_Log st2 !! j = Some e -> created e = Some o -> key_of (task_Meta o) <> key).
  { intros j e o Hj He Ho. rewrite Hlog, lookup_app_r in He by done. eapply Hno; [by eapply list_elem_of_lookup_2|done]. }
  destruct (Hsi key t Ht Hat) as [(t0 & ? & ? & Hal0 & Hno0)|(j & e & o & Hj & He & Ho & Hk & Hao & Hlast)].
  - left. exists t0. split_and!; [done..|by eapply alike_trans|]. intros j e o Hj He Ho.
    destruct (decide (length (ov_Log st1) <= j)%nat) as [?|Hlt]; [by eapply Hlater|]. eapply Hno0; [done| |done].
    rewrite Hlog, lookup_app_l in He by lia. done.
  - right. exists j, e, o. split_and!; [done| |done..|by eapply alike_trans|].
    + rewrite Hlog. by apply lookup_app_l_Some.
    + intros j' e' o' Hj' He' Ho'. destruct (decide (length (ov_Log st1) <= j')%nat) as [?|Hlt]; [by eapply Hlater|].
      eapply (Hlast j'); [done| |done]. rewrite Hlog, lookup_app_l in He' by lia. done.
Qed.

Lemma log_grows st st' : rtc step st st' -> (length (ov_Log st) <= length (ov_Log st'))%nat.
Proof. induction 1 as [|st st1 st2 Hs _ IH]; [done|]. destruct Hs; cbn in *; rewrite ?length_app in IH; cbn in IH; lia. Qed.

Lemma calm_alike w w' key t' : calm w w' -> w_get w' KTask key = Some t' -> active t' = true ->
  exists t, w_get w KTask key = Some t /\ active t = true /\ alike t t'.
Proof. intros Hc Hg Ha. destruct (calm_tasks _ _ Hc _ _ Hg Ha) as (t & ? & ? & ? & ?). by exists t. Qed.

Lemma since_step w0 st st1 st2 : Inv w0 st1 -> rtc step st st1 -> since st st1 -> step st1 st2 -> since st st2.
Proof.
  intros Hinv Hr Hsi Hs. pose proof (log_grows _ _ Hr) as Hlen.
  destruct Hs as [w ths log a _|w ths log i a tr c k did saw w' Hi Hans|w ths log w' Hc _].
  - exact Hsi.
  - destruct (inv_threads _ _ Hinv _ _ Hi) as [Haf _ _]. cbn in Haf.
    destruct (call_effect _ _ _ _ i _ _ _ _ (inv_named _ _ Hinv) Haf Hans) as (_ & _ & Heff).
    eapply since_keeps; [exact Hsi|exact Hlen|reflexivity|]. cbn [ov_World ov_Log]. intros key t' Hg Hact.
    destruct Heff as [[Hc Hnone]|(o & Ho & [Hat Hfr _])].
    + left. destruct (calm_alike _ _ _ _ Hc Hg Hact) as (t & ? & ? & ?). exists t. split_and!; try done.
      intros e o ->%list_elem_of_singleton. by rewrite Hnone.
    + destruct (decide (key = key_of (task_Meta o))) as [->|Hne].
      * right. rewrite Hat in Hg. injection Hg as <-. cbn in Hlen. exists (length log), (mkEntry i c did saw), o. split_and!; [done|by apply list_lookup_middle|done..|].
        intros j' e' o' Hj' He'. apply lookup_lt_Some in He'. rewrite length_app in He'. cbn in He'. lia.
      * left. rewrite Hfr in Hg by congruence. exists t'. split_and!; [done..|]. intros e o' ->%list_elem_of_singleton. rewrite Ho. by intros [= <-].
  - eapply (since_keeps st _ _ []); [exact Hsi|exact Hlen|by rewrite app_nil_r|]. cbn [ov_World ov_Log]. intros key t' Hg Hact. left.
    destruct (calm_alike _ _ _ _ Hc Hg Hact) as (t & ? & ? & ?). exists t. split_and!; try done. by intros e o ?%elem_of_nil.
Qed.

Lemma since_steps w0 st st' : Inv w0 st -> rtc step st st' -> since st st'.
Proof.
  intros Hinv Hr. pattern st'. refine (rtc_ind_r _ _ _ _ st' Hr).
  - intros key t Hg Ha. left. exists t. split_and!; [done..|]. intros j e o Hj He. apply lookup_lt_Some in He. lia.
  - intros st1 st2 Hr1 Hs Hsi. eapply since_step; [by eapply interleaved_keeps|done..].
Qed.

(** ** The check behind a creation *)

Lemma elem_of_seen_take i j log c x : ev c x ∈ seen i (take j log) -> exists j' did, (j' < j)%nat /\ log !! j' = Some (mkEntry i c did x).
Proof.
  intros (j' & did & Hj)%elem_of_seen. exists j', did. apply lookup_take_Some in Hj as [? ?]. done.
Qed.

(** A request answers each of its calls from the server, but for what may get lost. *)
Lemma request_entry w0 st h rq i c did saw j :
  named w0 -> rtc step (initial w0) st -> ov_Log st !! j = Some (mkEntry i c did saw) ->
  (exists th, ov_Threads st !! i = Some th /\ Cluster.th_Activity th = Cluster.Request h rq) ->
  exists st1 w', rtc step (initial w0) st1 /\ rtc step st1 st /\ Inv w0 st1 /\ ov_Log st1 = take j (ov_Log st) /\
    reader h = true /\ served (ov_World st1) c did w' /\ (saw = did \/ lost c saw).
Proof.
  intros Hn Hr Hj (th & Hth & Ha). destruct (call_of _ _ _ _ _ _ _ Hn Hr Hj) as (st1 & st2 & a & k & Hr1 & Hr2 & Hinv & Htk & _ & Hlive & Hans & th' & Hth' & Ha').
  rewrite Hth in Hth'. injection Hth' as <-. rewrite Ha in Ha'. subst a. destruct Hans as [Hs Hl]. by exists st1, (ov_World st2).
Qed.

(** The request that created a Task, its class, and its check at an earlier moment. *)
Record origin (w0 : World) (st : State) (j : nat) (e : Entry) (o : Task) (ctc : ClusterTriggerClass) (task : Task) : Prop := {
  or_class : ctc ∈ w_triggers w0 /\ of_class ctc task;
  or_alike : alike o task;
  or_check : forall t2, twins ctc task t2 -> exists i ei sti,
    (i < j)%nat /\ ov_Log st !! i = Some ei /\ en_Thread ei = en_Thread e /\ lists ei /\
    rtc step (initial w0) sti /\ rtc step sti st /\ Inv w0 sti /\ ov_Log sti = take i (ov_Log st) /\ no_twin ctc task (ov_World sti);
  or_first : forall j' e', (j' < j)%nat -> ov_Log st !! j' = Some e' -> en_Thread e' = en_Thread e -> created e' = None }.

Lemma seen_elem i log j e : log !! j = Some e -> en_Thread e = i -> ev (en_Call e) (en_Saw e) ∈ seen i log.
Proof.
  intros Hj Hi. unfold seen. apply (list_elem_of_fmap_2 (fun e => ev (en_Call e) (en_Saw e))). apply list_elem_of_filter.
  split; [done|by eapply list_elem_of_lookup_2].
Qed.

Lemma creates_call e o : created e = Some o -> exists t, en_Call e = CCreate KTask t.
Proof. destruct e as [i [|[] t| | | | | | | | | | | |] did saw]; cbn; try done. by exists t. Qed.

Lemma find_origin w0 st j e o : named w0 -> classes_ok (w_triggers w0) -> rtc step (initial w0) st ->
  ov_Log st !! j = Some e -> created e = Some o -> exists ctc task, origin w0 st j e o ctc task.
Proof.
  intros Hn Hok Hr Hj Ho. destruct e as [i c did saw].
  destruct (call_of _ _ _ _ _ _ _ Hn Hr Hj) as (st1 & st2 & a & k & Hr1 & Hr2 & Hinv & Htk & Haf & Hlive & Hans & Hth).
  destruct a as [r req|h rq]; [by rewrite (pass_creates_none _ _ _ _ _ _ did saw Haf) in Ho|].
  destruct (request_call _ _ _ _ _ _ _ _ _ Haf Hans) as [[_ Hnone]|(task & ctc & o' & Ho' & [(items & Hit & Hin) Hmade (trd & Hd & Hsub) Hfirst] & Hst & _)];
    [by rewrite Hnone in Ho|]. rewrite Ho' in Ho. injection Ho as ->.
  destruct (stored_task _ _ Hst) as (Hns & Hlab & _).
  assert (Hctc : ctc ∈ w_triggers w0).
  { apply elem_of_seen_take in Hit as (j' & did' & _ & Hj'). destruct (request_entry _ _ _ _ _ _ _ _ _ Hn Hr Hj' Hth) as (s1 & w1 & _ & _ & Hi1 & _ & _ & [_ Hs] & [Heq|[]]).
    rewrite <- (inv_triggers _ _ Hi1). rewrite <- Heq in Hs. by injection Hs as ->. }
  exists ctc, task. split; [split; [done|by eapply made_class]|done| |].
  - intros t2 Htw. apply findActiveDuplicate_exec in Hd as Hd'. destruct Hd' as [[Hna _]|(_ & sel & tasks & -> & _ & _)].
    { destruct Hna. destruct Htw as (_ & Hk & Hl). split; [done|]. intros k' Hk'. destruct (Hl k' Hk') as (v & Hv & L & _). by rewrite (label_map_get _ _ _ L). }
    assert (Hl : ev (CListTasks (reader h) (task_Namespace task) sel) (Ok tasks) ∈ seen i (take j (ov_Log st))) by (apply Hsub; left).
    apply elem_of_seen_take in Hl as (i' & did' & Hlt & Hi'). eexists i', _.
    destruct (request_entry _ _ _ _ _ _ _ _ _ Hn Hr Hi' Hth) as (s1 & w1 & Hra & Hrb & Hinv1 & Htk1 & Hlive1 & Hs & Hl).
    exists s1. split_and!; [done|exact Hi'|done|exact I|done..|].
    assert (saw_did : did' = Ok tasks) by (destruct Hl as [Heq|Hl]; [by rewrite Heq|by rewrite Hlive1 in Hl]). rewrite saw_did in Hs.
    eapply duplicate_served; [exact Hd|by exists w1|apply Hinv1|done].
  - intros j' [n ci di si] Hj' He' Hi'. cbn in Hi'. subst n. destruct (created _) as [o2|] eqn:Hc; [|done].
    apply creates_call in Hc as [t Hc]. cbn in Hc. destruct (Hfirst t). rewrite <- Hc. apply (elem_of_trace_calls (ev ci si)).
    apply (seen_elem i _ j' (mkEntry i ci di si)); [|done]. by apply lookup_take_Some.
Qed.

(** ** Two Tasks for one event *)

(** Thread [a] listed the Tasks at [i] and created [o] at [j]. *)
Definition window (log : list Entry) (a i j : nat) (o : Task) : Prop :=
  (i < j)%nat /\ (exists e, log !! i = Some e /\ en_Thread e = a /\ lists e) /\
  (exists e, log !! j = Some e /\ en_Thread e = a /\ created e = Some o).

Definition last_created (log : list Entry) (j : nat) (key : NamespacedName) : Prop :=
  forall j' e' o', (j < j')%nat -> log !! j' = Some e' -> created e' = Some o' -> key_of (task_Meta o') <> key.

Lemma born_mono log n m key t : (n <= m)%nat -> born log m key t -> born log n key t.
Proof. intros Hle (j & e & o & ? & ?). exists j, e, o. split; [lia|done]. Qed.

Lemma lists_creates_none e o : lists e -> created e = Some o -> False.
Proof. intros Hl [t Ht]%creates_call. unfold lists in Hl. by rewrite Ht in Hl. Qed.

Lemma alike_sym t t' : alike t t' -> alike t' t.
Proof. intros [? ?]. by split. Qed.

Lemma alike_twins ctc t1 t2 u1 u2 : alike u1 t1 -> alike u2 t2 -> twins ctc t1 t2 -> twins ctc u1 u2.
Proof. intros [N1 L1] [N2 L2]. by apply twins_labels. Qed.

Lemma alike_class ctc t t' : alike t t' -> of_class ctc t' -> of_class ctc t.
Proof. intros [_ Hl]. unfold of_class, label. by rewrite Hl. Qed.

(** When one of two twins was born, the other was born after the check of the first. *)
Lemma twin_born w0 st ctc key1 key2 t1 t2 :
  named w0 -> classes_ok (w_triggers w0) -> rtc step (initial w0) st -> ctc ∈ w_triggers w0 -> of_class ctc t1 -> twins ctc t1 t2 ->
  w_get (ov_World st) KTask key2 = Some t2 -> active t2 = true -> born (ov_Log st) 0 key1 t1 ->
  exists a i j o, window (ov_Log st) a i j o /\ key_of (task_Meta o) = key1 /\ last_created (ov_Log st) j key1 /\
    born (ov_Log st) i key2 t2 /\
    (forall j' e', (j' < j)%nat -> ov_Log st !! j' = Some e' -> en_Thread e' = a -> created e' = None).
Proof.
  intros Hn Hok Hr Hin Hcl Htw Hg2 Ha2 (j & e & o & _ & Hj & Ho & Hkey & Hal & Hlast).
  destruct (find_origin _ _ _ _ _ Hn Hok Hr Hj Ho) as (ctc' & task & [[Hin' Hcl'] Halt Hcheck Hfirst]).
  pose proof (alike_trans _ _ _ (alike_sym _ _ Halt) Hal) as Htask.
  assert (ctc' = ctc) as ->.
  { apply (classes_distinct _ Hok); [done..|]. pose proof (alike_class _ _ _ Htask Hcl) as Hc. unfold of_class in *. congruence. }
  assert (Htw' : twins ctc task t2) by (eapply alike_twins; [exact Htask|done|exact Htw]).
  destruct (Hcheck t2 Htw') as (i & ei & sti & Hij & Hi & Hti & Hli & Hr1 & Hr2 & Hinv & Htk & Hnt).
  exists (en_Thread e), i, j, o. split_and!; [split_and!; [done|by exists ei|by exists e]|done|exact Hlast| |exact Hfirst].
  assert (Hlen : length (ov_Log sti) = i) by (rewrite Htk, length_take; apply lookup_lt_Some in Hi; lia).
  destruct (since_steps _ _ _ Hinv Hr2 key2 t2 Hg2 Ha2) as [(u & Hu & Hau & Halu & _)|Hb]; [|by rewrite Hlen in Hb].
  destruct (Hnt _ _ Hu Hau). by eapply alike_twins.
Qed.

Lemma last_unique log j key n t o e : last_created log j key -> log !! j = Some e -> created e = Some o -> key_of (task_Meta o) = key ->
  born log n key t -> (n <= j)%nat.
Proof.
  intros Hl Hj Ho Hk (j' & e' & o' & Hn & Hj' & Ho' & Hk' & _ & Hl'). destruct (Nat.lt_trichotomy j j') as [Hlt|[->|Hlt]]; [|done|].
  - by destruct (Hl _ _ _ Hlt Hj' Ho').
  - by destruct (Hl' _ _ _ Hlt Hj Ho).
Qed.

(** C18. Only overlapping deliveries can make duplicates.  Let requests and passes run
    interleaved call by call, with answers of creates lost, passes reading old objects
    and failing anywhere, and the cluster finishing and deleting Tasks in between.  When
    two active Tasks of a class stand for one event that had at most one at the start,
    then two different requests created them, and each listed the Tasks before the
    other had created its own.  [TriggerDedupe] calls the check best effort; this is all
    that it leaves open.  Deliveries whose checks and creates do not overlap in
    this way never make a duplicate. *)
Theorem duplicates_overlap w0 st ctc key1 key2 t1 t2 :
  classes_ok (w_triggers w0) -> named w0 -> at_most_one w0 -> rtc step (initial w0) st ->
  ctc ∈ w_triggers w0 -> of_class ctc t1 -> twins ctc t1 t2 -> key1 <> key2 ->
  w_get (ov_World st) KTask key1 = Some t1 -> w_get (ov_World st) KTask key2 = Some t2 ->
  active t1 = true -> active t2 = true ->
  exists a b i1 j1 i2 j2 o1 o2, a <> b /\
    window (ov_Log st) a i1 j1 o1 /\ key_of (task_Meta o1) = key1 /\
    window (ov_Log st) b i2 j2 o2 /\ key_of (task_Meta o2) = key2 /\
    (i1 < j2)%nat /\ (i2 < j1)%nat.
Proof.
  intros Hok Hn Hone Hr Hin Hc1 Htw Hne Hg1 Hg2 Ha1 Ha2. pose proof (twins_sym _ _ _ Htw) as Htw'. pose proof (twins_class _ _ _ Htw Hc1) as Hc2.
  pose proof (twin_born _ _ _ key1 _ _ _ Hn Hok Hr Hin Hc1 Htw Hg2 Ha2) as H12.
  pose proof (twin_born _ _ _ key2 _ _ _ Hn Hok Hr Hin Hc2 Htw' Hg1 Ha1) as H21.
  assert (Hb : born (ov_Log st) 0 key1 t1).
  { pose proof (since_steps _ _ _ (Inv_initial _ Hn) Hr) as Hs.
    destruct (Hs _ _ Hg1 Ha1) as [(u1 & Hu1 & Hau1 & Hal1 & _)|?]; [|done].
    destruct (Hs _ _ Hg2 Ha2) as [(u2 & Hu2 & Hau2 & Hal2 & _)|Hb2].
    - destruct Hne. eapply (Hone ctc _ _ u1 u2); try done; [by eapply alike_class|by eapply alike_twins].
    - destruct (H21 Hb2) as (a & i & j & o & _ & _ & _ & Hb & _). eapply born_mono; [|exact Hb]. lia. }
  destruct (H12 Hb) as (a & i1 & j1 & o1 & Hw1 & Hk1 & Hl1 & Hb2 & Hf1).
  destruct (H21 ltac:(eapply born_mono; [|exact Hb2]; lia)) as (b & i2 & j2 & o2 & Hw2 & Hk2 & Hl2 & Hb1 & Hf2).
  pose proof Hw1 as (_ & (e1 & He1 & _ & Hli1) & (f1 & Hf1' & Ht1 & Ho1)). pose proof Hw2 as (_ & (e2 & He2 & _ & Hli2) & (f2 & Hf2' & Ht2 & Ho2)).
  assert (Hi1 : (i1 <= j2)%nat) by by eapply last_unique. assert (Hi2 : (i2 <= j1)%nat) by by eapply last_unique.
  exists a, b, i1, j1, i2, j2, o1, o2. split_and!; try done.
  - intros ->. destruct (Nat.lt_trichotomy j1 j2) as [Hlt|[->|Hlt]]; [|congruence|].
    + by rewrite (Hf2 _ _ Hlt Hf1' Ht1) in Ho1.
    + by rewrite (Hf1 _ _ Hlt Hf2' Ht2) in Ho2.
  - destruct (Nat.eq_dec i1 j2) as [->|]; [|lia]. rewrite He1 in Hf2'. injection Hf2' as ->. by destruct (lists_creates_none _ _ Hli1 Ho2).
  - destruct (Nat.eq_dec i2 j1) as [->|]; [|lia]. rewrite He2 in Hf1'. injection Hf1' as ->. by destruct (lists_creates_none _ _ Hli2 Ho1).
Qed.

(** ** An interleaving that can be run *)

(** Thread [i] makes its next call; names that the server generates end in [suffix i]. *)
Definition play_one (suffix : nat -> string) (keys : list NamespacedName) (now : Time) (st : State) (i : nat) : State * bool :=
  match ov_Threads st !! i with
  | Some (Cluster.mkThread (Cluster.Request h rq) tr (Vis c k)) =>
    let '(x, w') := respond_as (suffix i) keys now c (ov_World st) in
    (mkState w' (<[i := Cluster.mkThread (Cluster.Request h rq) (tr ++ [ev c x]) (k x)]> (ov_Threads st)) (ov_Log st ++ [mkEntry i c x x]),
     within keys (ev c x))
  | _ => (st, true)
  end.

Fixpoint play suffix keys now (schedule : list nat) (st : State) : State * bool :=
  match schedule with
  | [] => (st, true)
  | i :: schedule =>
    let '(st1, b1) := play_one suffix keys now st i in
    let '(st2, b2) := play suffix keys now schedule st1 in (st2, b1 && b2)
  end.

Lemma played_one suffix keys now st i :
  covers keys (ov_World st) -> (play_one suffix keys now st i).2 = true ->
  rtc step st (play_one suffix keys now st i).1 /\ covers keys (ov_World (play_one suffix keys now st i).1).
Proof.
  destruct st as [w ths log]. unfold play_one. cbn [ov_World ov_Threads ov_Log]. intros Hc.
  destruct (ths !! i) as [[[r req|h rq] tr [[]|c k]]|] eqn:Hi; try done.
  pose proof (respond_served (suffix i) keys now w c Hc) as Hs. destruct (respond_as _ _ _ _ _) as [x w']. cbn in Hs |- *. intros Hw. split.
  - apply rtc_once, calls_once; [done|]. split; [done|by left].
  - by eapply served_covers.
Qed.

Lemma play_steps suffix keys now schedule st :
  covers keys (ov_World st) -> (play suffix keys now schedule st).2 = true -> rtc step st (play suffix keys now schedule st).1.
Proof.
  revert st. induction schedule as [|i schedule IH]; intros st Hc Hb; [done|]. cbn [play] in *.
  pose proof (played_one suffix keys now st i Hc) as Hone. destruct (play_one _ _ _ _ _) as [st1 b1]. cbn in Hone.
  specialize (IH st1). destruct (play suffix keys now schedule st1) as [st2 b2]. cbn in *.
  apply andb_true_iff in Hb as [-> ->]. destruct Hone as [? ?]; [done|]. etrans; [done|by apply IH].
Qed.

End Overlap.

(** ** The theorem at a sample

    Two deliveries of the same event, call by call in turn: both find no Task and
    both create one. *)

Section Sample.
#[local] Existing Instances KubeRef.lib KubeRef.laws Samples.errors_text Samples.tables Webhook.sample_query.

Definition twice : list NamespacedName := [mkNN "agents" "task-x1"; mkNN "agents" "task-x2"].
Definition ending (i : nat) : string := match i with O => "x1" | _ => "x2" end.
Definition delivering : Cluster.Activity := Cluster.Request sample_handler signed_request.
Definition two_deliveries : State :=
  mkState hook0 [Cluster.mkThread delivering [] (Cluster.program delivering); Cluster.mkThread delivering [] (Cluster.program delivering)] [].
Definition raced : State := (play ending twice 0 (concat (replicate 6 [0; 1]%nat)) two_deliveries).1.
Definition raced_task (key : NamespacedName) : Task := default created_task (w_get (ov_World raced) KTask key).

Lemma raced_reachable : rtc step (initial hook0) raced.
Proof.
  eapply rtc_l; [apply (begins _ _ _ delivering); reflexivity|]. eapply rtc_l; [apply (begins _ _ _ delivering); reflexivity|].
  apply (play_steps ending twice 0 (concat (replicate 6 [0; 1]%nat)) two_deliveries).
  - intros key t Ht. change (w_get hook0 KTask key = Some t) in Ht. by rewrite no_task_hook0 in Ht.
  - vm_compute. reflexivity.
Qed.

Lemma raced_twins : twins sample_class (raced_task (mkNN "agents" "task-x1")) (raced_task (mkNN "agents" "task-x2")).
Proof.
  split_and!; [vm_compute; reflexivity|discriminate|]. intros k Hk. apply elem_of_cons in Hk as [->|Hk].
  - exists "github"%string. split_and!; [discriminate|vm_compute; reflexivity..].
  - apply list_elem_of_singleton in Hk as ->. exists "demo"%string. split_and!; [discriminate|vm_compute; reflexivity..].
Qed.

Lemma duplicates_overlap_witness : exists a b i1 j1 i2 j2 o1 o2, a <> b /\
  window (ov_Log raced) a i1 j1 o1 /\ window (ov_Log raced) b i2 j2 o2 /\ (i1 < j2)%nat /\ (i2 < j1)%nat.
Proof.
  destruct (duplicates_overlap hook0 raced sample_class (mkNN "agents" "task-x1") (mkNN "agents" "task-x2")
    (raced_task (mkNN "agents" "task-x1")) (raced_task (mkNN "agents" "task-x2"))) as (a & b & i1 & j1 & i2 & j2 & o1 & o2 & Hab & Hw1 & _ & Hw2 & _ & Hij & Hji).
  - exact classes_hook0.
  - exact named_hook0.
  - exact one_hook0.
  - exact raced_reachable.
  - left.
  - vm_compute. reflexivity.
  - exact raced_twins.
  - discriminate.
  - vm_compute. reflexivity.
  - vm_compute. reflexivity.
  - vm_compute. reflexivity.
  - vm_compute. reflexivity.
  - exists a, b, i1, j1, i2, j2, o1, o2. split; [exact Hab|]. split; [exact Hw1|]. split; [exact Hw2|]. split; [exact Hij|exact Hji].
Defined.
End Sample.
End Overlap.
