(* ===== verification/Server.v ===== *)
(** * The webhook server

    [internal/trigger/server.go]: the routes in front of the webhook handler, and
    the life of the listener between [Start] and the end of the manager.  The
    multiplexer and the server of [net/http] are modelled as far as [Start] uses
    them: the two patterns it registers, the cleaning of paths, and the moments at
    which [Serve] and [Shutdown] return. *)

From S2P Require Import Prelude GoString GoTime GoUrl GoNet GoJson Kube Api Effects KubeLib Metrics.
From S2P Require Import PolicyObjects PolicyConfig PolicyNetwork Reconciler Samples Signature Mapping Webhook.

Module Server.

(** ** Paths *)

(** [cleanPath] of [net/http]. *)
Definition cleanPath (p : string) : string :=
  if (p =? "")%string then "/"
  else
    let p := if HasPrefix p "/" then p else "/" +:+ p in
    let np := Clean p in
    if HasPrefix (rev_string p) "/" && negb (np =? "/")%string then np +:+ "/" else np.

(** A segment that [Clean] keeps. *)
Definition kept (seg : string) : Prop :=
  seg <> ""%string /\ seg <> "."%string /\ seg <> ".."%string /\ ContainsByte seg "/" = false.

Lemma split_slash_free seg cur : ContainsByte seg "/" = false -> split_slash seg cur = [rev_string cur +:+ seg].
Proof.
  revert cur. induction seg as [|c seg IH]; intros cur; cbn; [by rewrite append_nil_r|].
  rewrite contains_cons. intros [Hc Hs]%orb_false_iff. rewrite Hc, IH by done.
  rewrite rev_string_cons, append_assoc. done.
Qed.

Lemma split_slash_cons seg cur rest :
  ContainsByte seg "/" = false ->
  split_slash (seg +:+ String "/" rest) cur = (rev_string cur +:+ seg) :: split_slash rest "".
Proof.
  revert cur. induction seg as [|c seg IH]; intros cur; [intros _; by rewrite append_nil_r|].
  rewrite append_cons. cbn [split_slash]. rewrite contains_cons. intros [Hc Hs]%orb_false_iff. rewrite Hc, IH by done.
  rewrite rev_string_cons, append_assoc. done.
Qed.

Lemma split_slash_rev_free s cur :
  ContainsByte (rev_string cur) "/" = false -> Forall (fun seg => ContainsByte seg "/" = false) (split_slash s cur).
Proof.
  revert cur. induction s as [|c s IH]; intros cur Hc; cbn; [by repeat constructor|].
  destruct (Ascii.eqb c "/") eqn:He; [constructor; [done|by apply IH]|]. apply IH. rewrite rev_string_cons.
  unfold str1. by rewrite contains_append, Hc, contains_cons, He.
Qed.

(** Splitting undoes joining. *)
Lemma split_concat l tail :
  l <> [] -> Forall kept l ->
  split_slash (String.concat "/" l) "" = l /\
  split_slash (String.concat "/" l +:+ String "/" tail) "" = l ++ split_slash tail "".
Proof.
  induction l as [|seg l IH]; [done|]. intros _ Hk. apply Forall_cons_1 in Hk as [(_ & _ & _ & Hf) Hk].
  destruct l as [|seg' l]; [by rewrite split_slash_free, split_slash_cons|].
  destruct (IH ltac:(done) Hk) as [IH1 IH2].
  change (String.concat "/" (seg :: seg' :: l)) with (seg +:+ String "/" (String.concat "/" (seg' :: l))).
  rewrite append_assoc, append_cons, !split_slash_cons, IH1, IH2 by done. done.
Qed.

Lemma clean_kept segs st :
  Forall kept st -> Forall (fun seg => ContainsByte seg "/" = false) segs -> Forall kept (foldl (clean_step true) st segs).
Proof.
  revert st. induction segs as [|seg segs IH]; intros st Hst Hs; [done|]. apply Forall_cons_1 in Hs as [Hf Hs].
  cbn. apply IH; [|done]. unfold clean_step. destruct (seg =? "")%string eqn:H1; [done|]. destruct (seg =? ".")%string eqn:H2; [done|].
  cbn [orb]. destruct (seg =? "..")%string eqn:H3.
  - destruct st as [|top st]; [done|]. apply Forall_cons_1 in Hst as [(_ & _ & Ht & _) Hst]. by rewrite (proj2 (String.eqb_neq _ _) Ht).
  - constructor; [|done]. split_and!; first [by apply String.eqb_neq|done].
Qed.

Lemma foldl_kept l st : Forall kept l -> foldl (clean_step true) st l = rev l ++ st.
Proof.
  revert st. induction l as [|seg l IH]; intros st Hk; [done|]. apply Forall_cons_1 in Hk as [(H1 & H2 & H3 & _) Hk].
  cbn. unfold clean_step. rewrite (proj2 (String.eqb_neq _ _) H1), (proj2 (String.eqb_neq _ _) H2), (proj2 (String.eqb_neq _ _) H3).
  cbn [orb]. rewrite IH by done. by rewrite <- app_assoc.
Qed.

(** A rooted path in canonical form: kept segments, and maybe a slash at the end. *)
Definition canonical (l : list string) (slash : bool) : string :=
  String "/" (String.concat "/" l +:+ (if slash && negb (bool_decide (l = [])) then "/" else "")).

Lemma Clean_slash s :
  Clean (String "/" s) = String "/" (String.concat "/" (rev (foldl (clean_step true) [] (split_slash s "")))).
Proof. reflexivity. Qed.

Lemma Clean_rooted s : exists l, Forall kept l /\ Clean (String "/" s) = String "/" (String.concat "/" l).
Proof.
  rewrite Clean_slash. eexists. split; [|reflexivity]. apply Forall_rev, clean_kept; [constructor|]. by apply split_slash_rev_free.
Qed.

Lemma Clean_canonical l slash : Forall kept l -> Clean (canonical l slash) = String "/" (String.concat "/" l).
Proof.
  intros Hk. unfold canonical. rewrite Clean_slash. do 2 f_equal.
  destruct (decide (l = [])) as [->|Hl]; [by destruct slash|].
  destruct (split_concat l "" Hl Hk) as [H1 H2]. rewrite bool_decide_false by done. destruct slash; cbn [andb negb].
  - rewrite H2, foldl_app, (foldl_kept l), app_nil_r by done. apply rev_involutive.
  - rewrite append_nil_r, H1, foldl_kept, app_nil_r by done. apply rev_involutive.
Qed.

Lemma ends_in s c d : HasPrefix (rev_string (s +:+ str1 c)) (str1 d) = Ascii.eqb d c.
Proof.
  rewrite rev_string_append. change (rev_string (str1 c)) with (str1 c). unfold HasPrefix, str1. rewrite append_cons. cbn [CutPrefix].
  by destruct (Ascii.eqb d c).
Qed.

Lemma last_char s : s <> ""%string -> exists s' c, s = s' +:+ str1 c.
Proof.
  induction s as [|c s IH]; [done|]. intros _. destruct s as [|d s]; [by exists ""%string, c|].
  destruct IH as (s' & x & ->); [done|]. by exists (String c s'), x.
Qed.

Lemma concat_last l : l <> [] -> Forall kept l -> exists s c, String.concat "/" l = s +:+ str1 c /\ Ascii.eqb "/" c = false.
Proof.
  induction l as [|seg l IH]; [done|]. intros _ Hk. apply Forall_cons_1 in Hk as [(Hne & _ & _ & Hf) Hk]. destruct l as [|seg' l].
  - destruct (last_char seg Hne) as (s & c & ->). exists s, c. split; [done|]. rewrite contains_append in Hf.
    apply orb_false_iff in Hf as [_ Hf]. unfold str1 in Hf. rewrite contains_cons in Hf. apply orb_false_iff in Hf as [Hf _].
    by rewrite Ascii.eqb_sym.
  - destruct (IH ltac:(done) Hk) as (s & c & He & Hc). exists (seg +:+ String "/" s), c. split; [|done].
    change (String.concat "/" (seg :: seg' :: l)) with (seg +:+ String "/" (String.concat "/" (seg' :: l))).
    rewrite He, append_assoc, append_cons. done.
Qed.

Lemma concat_nil l : Forall kept l -> (String "/" (String.concat "/" l) =? "/")%string = bool_decide (l = []).
Proof.
  intros Hk. case_bool_decide as Hl; [by subst|]. destruct (concat_last l Hl Hk) as (s & c & -> & _).
  by destruct s.
Qed.

(** Every cleaned path is canonical. *)
Lemma cleanPath_canonical p : exists l slash, Forall kept l /\ cleanPath p = canonical l slash.
Proof.
  unfold cleanPath. destruct (p =? "")%string; [by exists [], false|].
  assert (Hp : exists s, (if HasPrefix p "/" then p else "/" +:+ p) = String "/" s).
  { destruct (HasPrefix p "/") eqn:Hp; [|by exists p]. unfold HasPrefix in Hp. destruct (CutPrefix "/" p) eqn:Hc; [|done].
    apply CutPrefix_Some in Hc as ->. eauto. }
  destruct Hp as [s ->]. destruct (Clean_rooted s) as (l & Hk & ->). exists l, (HasPrefix (rev_string (String "/" s)) "/").
  split; [done|]. unfold canonical. rewrite concat_nil by done. by destruct (_ && _); [|rewrite append_nil_r].
Qed.

Lemma cleanPath_fixed l slash : Forall kept l -> cleanPath (canonical l slash) = canonical l slash.
Proof.
  intros Hk. unfold cleanPath. change (canonical l slash =? "")%string with false.
  change (HasPrefix (canonical l slash) "/") with true. cbn iota zeta. rewrite Clean_canonical, concat_nil by done.
  unfold canonical. case_bool_decide as Hl; [subst; by destruct slash|]. destruct slash; cbn [andb negb].
  - rewrite <- append_cons. pose proof (ends_in (String "/" (String.concat "/" l)) "/" "/") as He.
    change (str1 "/") with "/"%string in He. by rewrite He.
  - rewrite append_nil_r. destruct (concat_last l Hl Hk) as (s & c & -> & Hc). rewrite <- append_cons.
    pose proof (ends_in (String "/" s) c "/") as He. change (str1 "/") with "/"%string in He. by rewrite He, Hc.
Qed.

Lemma cleanPath_idemp p : cleanPath (cleanPath p) = cleanPath p.
Proof. destruct (cleanPath_canonical p) as (l & slash & Hk & ->). by apply cleanPath_fixed. Qed.

(** ** Routes *)

(** A request as the server sees it: whether its request line names [*] instead of
    a path, the path with its escapes, and what the handler is given. *)
Record ServerRequest := mkServerRequest {
  sr_Star : bool; sr_EscapedPath : string; sr_Request : Webhook.Request }.

(** Where a request goes: the health check, the webhook handler, a redirect to the
    cleaned path, or an answer of [net/http] itself. *)
Inductive Route := ToHealthz | ToHandler | ToRedirect (path : string) | Unrouted.

(** An escape that does not decode stays as it is. *)
Definition pathUnescape (s : string) : string := default s (unescape s encodePath).

(** The pattern [/healthz] matches one segment that decodes to [healthz]; the pattern
    [/] matches every other path. *)
Definition match_path (path : string) : Route :=
  match path with
  | EmptyString => Unrouted
  | String _ rest =>
    if negb (ContainsByte rest "/") && (pathUnescape rest =? "healthz")%string then ToHealthz else ToHandler
  end.

Definition MethodConnect : string := "CONNECT".

Definition route (r : ServerRequest) : Route :=
  let path := sr_EscapedPath r in
  if sr_Star r then Unrouted
  else if (Webhook.rq_Method (sr_Request r) =? MethodConnect)%string then match_path path
  else if negb (cleanPath path =? path)%string then ToRedirect (cleanPath path)
  else match_path path.

Record Server := mkServer { s_Addr : string; s_Handler : option Webhook.Handler }.

(** The server runs on every replica. *)
Definition NeedLeaderElection (s : Server) : bool := false.

Section Serve.
Context `{KubeLib, Gjson, JsonErrors, UnicodeTables}.

(** The multiplexer that [Start] builds; [status] is the status code of the answers
    that [net/http] makes itself. *)
Definition serve (status : ServerRequest -> Z) (h : Webhook.Handler) (r : ServerRequest) : Prog (outcome unit) :=
  match route r with
  | ToHealthz => call (CRespond (mkResponse Webhook.StatusOK None [])) ;; Ret (Returns tt)
  | ToHandler => Webhook.ServeHTTP h (sr_Request r)
  | ToRedirect _ | Unrouted => call (CRespond (mkResponse (status r) None [])) ;; Ret (Returns tt)
  end.

Lemma match_path_rooted s : match_path (String "/" s) <> Unrouted.
Proof. cbn. by destruct (_ && _). Qed.

Lemma cleanPath_rooted p : exists s, cleanPath p = String "/" s.
Proof. destruct (cleanPath_canonical p) as (l & slash & _ & ->). by eexists. Qed.

(** Decoding keeps slashes. *)
Lemma unescape_slash s t : unescape s encodePath = Some t -> ContainsByte t "/" = false -> ContainsByte s "/" = false.
Proof.
  revert t. induction s as [s IH] using (well_founded_induction (well_founded_ltof _ String.length)). intros t.
  destruct s as [|c s]; [done|]. cbn [unescape]. destruct (Ascii.eqb_spec c "%") as [->|Hc].
  - destruct s as [|h [|l s]]; try done. destruct (hex_val h) as [a|] eqn:Hh; [|done]. destruct (hex_val l) as [b|] eqn:Hl; [|done].
    intros (t' & Ht & ->)%fmap_Some. rewrite !contains_cons. intros [_ Hn]%orb_false_iff.
    assert (Hd : forall x v, hex_val x = Some v -> Ascii.eqb x "/" = false).
    { intros x v Hx. apply Ascii.eqb_neq. by intros ->. }
    rewrite (Hd h a Hh), (Hd l b Hl). change (Ascii.eqb "%" "/") with false. cbn [orb].
    apply (IH s) in Ht; [done| |done]. unfold ltof. cbn. lia.
  - cbn [is_host_mode andb]. intros (t' & Ht & ->)%fmap_Some. rewrite !contains_cons. intros [-> Hn]%orb_false_iff.
    apply (IH s) in Ht; [done| |done]. unfold ltof. cbn. lia.
Qed.

(** A path that decodes to [/healthz] goes to the health check, unless it is not
    clean or the method is CONNECT. *)
Lemma route_healthz r :
  unescape (sr_EscapedPath r) encodePath = Some "/healthz"%string -> Webhook.rq_Method (sr_Request r) <> MethodConnect ->
  route r <> ToHandler.
Proof.
  intros Hu Hm. unfold route. destruct (sr_Star r); [done|]. rewrite (proj2 (String.eqb_neq _ _) Hm).
  destruct (cleanPath _ =? _)%string eqn:Hc; [|done]. apply String.eqb_eq in Hc. cbn [negb].
  destruct (cleanPath_rooted (sr_EscapedPath r)) as [s Hs]. rewrite Hs in Hc. rewrite <- Hc in Hu |- *. cbn in Hu.
  apply fmap_Some in Hu as (t & Ht & [= <-]). unfold match_path, pathUnescape.
  by rewrite (unescape_slash s "healthz" Ht eq_refl), Ht.
Qed.

Lemma exec_respond rsp tr (o : outcome unit) :
  exec (call (CRespond rsp) ;; Ret (Returns tt)) tr o -> tr = [ev (CRespond rsp) tt] /\ o = Returns tt.
Proof. intros ([] & t1 & -> & [-> ->]%exec_ret)%exec_call_inv. done. Qed.

(** The paths that reach the handler: those that are clean, or come with CONNECT. *)
Lemma route_handler r :
  route r = ToHandler ->
  sr_Star r = false /\
  (Webhook.rq_Method (sr_Request r) = MethodConnect \/ cleanPath (sr_EscapedPath r) = sr_EscapedPath r).
Proof.
  unfold route. destruct (sr_Star r); [done|]. destruct (_ =? MethodConnect)%string eqn:Hm; [apply String.eqb_eq in Hm; auto|].
  destruct (cleanPath _ =? _)%string eqn:Hc; [|done]. apply String.eqb_eq in Hc. auto.
Qed.

Lemma connect_no_task h r tr o task :
  exec (Webhook.ServeHTTP h r) tr o -> Webhook.rq_Method r = MethodConnect -> CCreate KTask task ∉ calls tr.
Proof.
  intros Hx Hm. unfold Webhook.ServeHTTP in Hx. rewrite Hm in Hx. change (MethodConnect =? Webhook.MethodPost)%string with false in Hx.
  cbn [negb] in Hx. unfold ObserveWebhook in Hx. repeat exec_step. rewrite !elem_of_calls_cons. intros [[=]|[[=]|[]%elem_of_calls_nil]].
Qed.

Definition with_path (path : string) (r : ServerRequest) : ServerRequest :=
  mkServerRequest (sr_Star r) path (sr_Request r).

(** C27. The server hides nothing from the handler but the health check.  A request
    for [/healthz] that is not redirected is answered with 200 and nothing else, whatever
    its method, and creates no Task even when a trigger class claims that path.
    Whatever else happens beyond the answer happens in the webhook handler, on the request as
    it came, with a clean path.  A redirect leads to a path that is not redirected
    again, and a clean path other than the health check reaches the handler. *)
Theorem server_routes status h r tr o (Hx : exec (serve status h r) tr o) :
  (route r = ToHealthz -> tr = [ev (CRespond (mkResponse 200 None [])) tt] /\ o = Returns tt) /\
  (unescape (sr_EscapedPath r) encodePath = Some "/healthz"%string -> forall task, CCreate KTask task ∉ calls tr) /\
  (forall c, c ∈ calls tr -> (forall rsp, c <> CRespond rsp) ->
     exec (Webhook.ServeHTTP h (sr_Request r)) tr o /\
     (Webhook.rq_Method (sr_Request r) = MethodConnect \/ cleanPath (sr_EscapedPath r) = sr_EscapedPath r)) /\
  (forall path, route r = ToRedirect path ->
     route (with_path path r) = ToHealthz \/ route (with_path path r) = ToHandler) /\
  (sr_Star r = false -> cleanPath (sr_EscapedPath r) = sr_EscapedPath r ->
   pathUnescape (drop_str 1 (sr_EscapedPath r)) <> "healthz"%string -> route r = ToHandler).
Proof.
  assert (Hother : route r <> ToHandler -> exists rsp, tr = [ev (CRespond rsp) tt]).
  { intros Hr. unfold serve in Hx. destruct (route r); try done; apply exec_respond in Hx as [-> _]; eauto. }
  split_and!.
  - intros Hr. unfold serve in Hx. rewrite Hr in Hx. by apply exec_respond in Hx.
  - intros Hu task Hin. destruct (decide (Webhook.rq_Method (sr_Request r) = MethodConnect)) as [Hm|Hm].
    + unfold serve in Hx. destruct (route r) eqn:Hr; [| by eapply connect_no_task in Hin | |];
        destruct Hother as [rsp ->]; try done; by apply list_elem_of_singleton in Hin.
    + destruct Hother as [rsp ->]; [by apply route_healthz|]. by apply list_elem_of_singleton in Hin.
  - intros c Hc Hn. destruct (route r) eqn:Hr;
      try (destruct Hother as [rsp ->]; [done|]; apply list_elem_of_singleton in Hc; by destruct (Hn rsp)).
    unfold serve in Hx. rewrite Hr in Hx. split; [done|]. by apply route_handler in Hr as [_ ?].
  - intros path. unfold route. cbn [with_path sr_Star sr_Request sr_EscapedPath]. destruct (sr_Star r); [done|].
    destruct (_ =? MethodConnect)%string eqn:Hm; [unfold match_path; repeat case_match; done|].
    destruct (cleanPath (sr_EscapedPath r) =? sr_EscapedPath r)%string; cbn [negb]; [unfold match_path; repeat case_match; done|].
    intros [= <-]. rewrite cleanPath_idemp, String.eqb_refl. cbn [negb]. destruct (cleanPath_rooted (sr_EscapedPath r)) as [s ->].
    cbn. destruct (_ && _); auto.
  - intros Hs Hc Hn. unfold route. rewrite Hs, Hc, String.eqb_refl. cbn [negb].
    destruct (cleanPath_rooted (sr_EscapedPath r)) as [s Hp]. rewrite Hc in Hp. rewrite Hp in Hn |- *.
    change (drop_str 1 (String "/" s)) with s in Hn. unfold match_path.
    rewrite (proj2 (String.eqb_neq _ _) Hn), andb_false_r. by destruct (_ =? _)%string.
Qed.

End Serve.
(** ** From [Start] to the end

    [Start] runs two goroutines: one calls [Serve] and sends its outcome on a
    channel with one place, the other waits for the end of the context or for that
    outcome.  Their steps interleave freely; cancelling the context and a failure
    of [Serve] come from outside. *)

(** The goroutine that serves: not yet in [Serve], in it, about to send, done. *)
Inductive Serving := NotYet | InServe | Sending (v : option GoError) | Done.

(** The goroutine of [Start]: in [select], in [Shutdown], returned. *)
Inductive Waiting := Selecting | ShuttingDown | Returned (v : option GoError).

(** [rs_Shutdown]: [Shutdown] was called; [rs_Open]: the listener is open. *)
Record RunState := mkRun {
  rs_Serving : Serving;
  rs_Waiting : Waiting;
  rs_Chan : option (option GoError);
  rs_Cancelled : bool;
  rs_Shutdown : bool;
  rs_Open : bool }.

(** Up to [net.Listen], whose answer is [listen]: the two goroutines, or an error. *)
Definition Start (s : Server) (listen : result unit) : result RunState :=
  match s_Handler s with
  | None => Err (ErrNew "trigger server: Handler is nil")
  | Some _ =>
    match listen with
    | Err e => Err (ErrWrap ("trigger server listen " +:+ s_Addr s +:+ ": ") e "")
    | Ok _ => Ok (mkRun NotYet Selecting None false false true)
    end
  end.

(** Who makes a step: the program, or its surroundings. *)
Inductive actor := Program | Outside.

(** [Serve] closes the listener when it returns, and returns [ErrServerClosed] only
    after [Shutdown]; [Shutdown] closes the listener of a [Serve] that has begun, and
    returns at the latest after its timeout, with an error that is only logged. *)
Inductive step : actor -> RunState -> RunState -> Prop :=
| step_cancel g w c sh op :
    step Outside (mkRun g w c false sh op) (mkRun g w c true sh op)
| step_enter w c ca op :
    step Program (mkRun NotYet w c ca false op) (mkRun InServe w c ca false op)
| step_enter_closed w c ca op :
    step Program (mkRun NotYet w c ca true op) (mkRun (Sending None) w c ca true false)
| step_serve_fails w c ca e op :
    step Outside (mkRun InServe w c ca false op) (mkRun (Sending (Some e)) w c ca false false)
| step_serve_closed w c ca op :
    step Program (mkRun InServe w c ca true op) (mkRun (Sending None) w c ca true false)
| step_send w v ca sh op :
    step Program (mkRun (Sending v) w None ca sh op) (mkRun Done w (Some v) ca sh op)
| step_select_done g c sh op :
    step Program (mkRun g Selecting c true sh op)
         (mkRun g ShuttingDown c true true (match g with InServe => false | _ => op end))
| step_select_err g v ca sh op :
    step Program (mkRun g Selecting (Some v) ca sh op) (mkRun g (Returned v) None ca sh op)
| step_shutdown g c ca sh op :
    step Program (mkRun g ShuttingDown c ca sh op) (mkRun g (Returned None) c ca sh op).

(** What holds in every state the server can reach. *)
Record Inv (st : RunState) : Prop := {
  inv_shutdown : rs_Shutdown st = true -> rs_Cancelled st = true /\ rs_Waiting st <> Selecting;
  inv_waiting : rs_Waiting st = ShuttingDown \/ rs_Waiting st = Returned None -> rs_Shutdown st = true;
  inv_chan : rs_Serving st <> Done -> rs_Chan st = None;
  inv_nil : rs_Chan st = Some None \/ rs_Serving st = Sending None -> rs_Shutdown st = true;
  inv_failed : forall e, rs_Waiting st = Returned (Some e) -> rs_Serving st = Done;
  inv_open : rs_Open st = true -> rs_Serving st = NotYet \/ (rs_Serving st = InServe /\ rs_Shutdown st = false) }.

Lemma start_inv s listen st : Start s listen = Ok st -> Inv st.
Proof. unfold Start. destruct (s_Handler s), listen; intros [= <-]. split; cbn; intuition congruence. Qed.

Definition any_step (st st' : RunState) : Prop := exists a, step a st st'.

Lemma step_inv st st' : any_step st st' -> Inv st -> Inv st'.
Proof.
  intros [a Hs] [I1 I2 I3 I4 I5 I6]. destruct Hs; cbn in *; split; cbn; intros; try (match goal with e : GoError |- _ => specialize (I5 e) end);
    try (destruct g); intuition (simplify_eq; try congruence; auto).
Qed.

Lemma steps_inv st st' : rtc any_step st st' -> Inv st -> Inv st'.
Proof. induction 1; eauto using step_inv. Qed.

(** An error on its way to the caller of [Start]. *)
Definition carries (e : GoError) (st : RunState) : Prop :=
  rs_Serving st = Sending (Some e) \/ rs_Chan st = Some (Some e) \/ rs_Waiting st = Returned (Some e).

Lemma carried_back st st' e : any_step st st' -> carries e st' -> carries e st \/ rs_Serving st' = Sending (Some e).
Proof. intros [a Hs]. unfold carries. destruct Hs; cbn; intuition (simplify_eq; auto). Qed.

Lemma carried_from st st' e :
  rtc any_step st st' -> carries e st' -> carries e st \/ exists st1, rtc any_step st st1 /\ rtc any_step st1 st' /\ rs_Serving st1 = Sending (Some e).
Proof.
  revert st'. refine (rtc_ind_r _ st _ _); [by left|]. intros st1 st2 Hr Hs IH Hc.
  destruct (carried_back st1 st2 e Hs Hc) as [Hc1|Hc1].
  - destruct (IH Hc1) as [|(st3 & H1 & H2 & H3)]; [by left|]. right. exists st3. split_and!; [done| |done]. by eapply rtc_r.
  - right. exists st2. split_and!; [by eapply rtc_r|done..].
Qed.

(** The steps that are left. *)
Definition steps_left (st : RunState) : nat :=
  match rs_Serving st with NotYet => 3 | InServe => 2 | Sending _ => 1 | Done => 0 end +
  match rs_Waiting st with Selecting => 2 | ShuttingDown => 1 | Returned _ => 0 end +
  (if rs_Cancelled st then 0 else 1).

Lemma step_decreases st st' : any_step st st' -> (steps_left st' < steps_left st)%nat.
Proof. intros [a Hs]. destruct Hs; unfold steps_left; cbn; lia. Qed.

Lemma steps_bounded n st st' : nsteps any_step n st st' -> (n + steps_left st' <= steps_left st)%nat.
Proof. induction 1 as [|n st1 st2 st3 Hs _ IH]; [lia|]. apply step_decreases in Hs. lia. Qed.

(** After the context ended, the program has a step unless everything is done. *)
Lemma program_progress st :
  Inv st -> rs_Cancelled st = true -> (forall st', ~ step Program st st') ->
  (exists v, rs_Waiting st = Returned v) /\ (rs_Shutdown st = true -> rs_Serving st = Done /\ rs_Open st = false).
Proof.
  destruct st as [g w c ca sh op]. intros [I1 I2 I3 I4 I5 I6]. cbn in *. intros -> Hstuck.
  assert (Hw : exists v, w = Returned v).
  { destruct w; [| |eauto]; exfalso; eapply Hstuck; [apply step_select_done|apply step_shutdown]. }
  split; [done|]. intros ->. assert (Hg : g = Done).
  { destruct g; [| | |done]; exfalso; eapply Hstuck; [apply step_enter_closed|apply step_serve_closed|].
    rewrite I3 by done. apply step_send. }
  subst g. split; [done|]. destruct op; [|done]. intuition congruence.
Qed.

Lemma done_closed st : Inv st -> rs_Serving st = Done -> rs_Open st = false.
Proof. intros Hi Hd. destruct (rs_Open st) eqn:Ho; [|done]. apply (inv_open st Hi) in Ho. intuition congruence. Qed.

(** C21. The trigger server ends with the manager, and tells why when it ends before.
    Without a handler or a listener [Start] fails at once.  Otherwise, however the
    two goroutines interleave: [Start] returns nil only after the context was
    cancelled, and an error only after [Serve] failed with that very error; the send
    on the channel never blocks; no run has more than six steps; and a run
    that cannot continue after the context was cancelled has returned, with its
    goroutine finished and its listener closed. *)
Theorem server_lifecycle s listen st0 n st (Hs : Start s listen = Ok st0) (Hn : nsteps any_step n st0 st) :
  (exists h, s_Handler s = Some h) /\ listen = Ok tt /\ (n <= 6)%nat /\
  (rs_Waiting st = Returned None -> rs_Cancelled st = true) /\
  (forall e, rs_Waiting st = Returned (Some e) ->
     rs_Open st = false /\
     exists st1, rtc any_step st0 st1 /\ rtc any_step st1 st /\ rs_Serving st1 = Sending (Some e)) /\
  (forall v, rs_Serving st = Sending v -> exists st', step Program st st' /\ rs_Chan st' = Some v) /\
  (rs_Cancelled st = true -> (forall st', ~ step Program st st') ->
     exists v, rs_Waiting st = Returned v /\ rs_Serving st = Done /\ rs_Open st = false).
Proof.
  pose proof (start_inv s listen st0 Hs) as Hi0. unfold Start in Hs. destruct (s_Handler s) as [h|]; [|done].
  destruct listen as [[]|]; [|done]. injection Hs as <-. pose proof (rtc_nsteps_2 _ _ _ Hn) as Hr.
  pose proof (steps_inv _ _ Hr Hi0) as Hi. split; [eauto|]. split; [done|]. split_and!.
  - apply steps_bounded in Hn. cbn in Hn. lia.
  - intros Hw. apply (inv_shutdown st Hi). apply (inv_waiting st Hi). auto.
  - intros e Hw. split.
    + exact (done_closed st Hi (inv_failed st Hi e Hw)).
    + destruct (carried_from _ _ e Hr) as [Hc|Hc]; [unfold carries; auto| |done]. unfold carries in Hc. cbn in Hc. intuition congruence.
  - intros v Hv. pose proof (inv_chan st Hi) as Hc. destruct st as [g w c ca sh op]. cbn in *. subst g. rewrite Hc by done.
    eexists. split; [apply step_send|done].
  - intros Hca Hstuck. destruct (program_progress st Hi Hca Hstuck) as [[v Hv] Hd]. exists v. split; [done|].
    destruct v as [e|].
    + pose proof (inv_failed st Hi e Hv) as Hdone. split; [done|]. exact (done_closed st Hi Hdone).
    + apply Hd. apply (inv_waiting st Hi). auto.
Qed.

(** ** Witnesses *)

#[local] Existing Instances KubeRef.lib Webhook.sample_query Samples.errors_text Samples.tables.

Definition health_probe : ServerRequest :=
  mkServerRequest false "/%68ealthz" (Webhook.mkRequest "GET" "/healthz" (fun _ => ""%string) "" false).
Definition always_404 (_ : ServerRequest) : Z := 404.

Lemma server_routes_witness : exists tr o,
  exec (serve always_404 Webhook.sample_handler health_probe) tr o /\ tr = [ev (CRespond (mkResponse 200 None [])) tt].
Proof.
  exists [ev (CRespond (mkResponse 200 None [])) tt], (Returns tt).
  assert (Hx : exec (serve always_404 Webhook.sample_handler health_probe) [ev (CRespond (mkResponse 200 None [])) tt] (Returns tt)).
  { vm_compute. eauto. }
  split; [exact Hx|]. apply (proj1 (server_routes _ _ _ _ _ Hx)). vm_compute. reflexivity.
Defined.

Definition a_server : Server := mkServer ":9090" (Some Webhook.sample_handler).

(** The context ends before [Serve] is entered: the goroutine still finishes. *)
Lemma server_lifecycle_witness : exists st,
  nsteps any_step 5 (mkRun NotYet Selecting None false false true) st /\
  rs_Waiting st = Returned None /\ rs_Cancelled st = true.
Proof.
  exists (mkRun Done (Returned None) (Some None) true true false).
  assert (Hn : nsteps any_step 5 (mkRun NotYet Selecting None false false true) (mkRun Done (Returned None) (Some None) true true false)).
  { eapply nsteps_l; [exists Outside; apply step_cancel|]. eapply nsteps_l; [exists Program; apply step_select_done|].
    eapply nsteps_l; [exists Program; apply step_shutdown|]. eapply nsteps_l; [exists Program; apply step_enter_closed|].
    eapply nsteps_l; [exists Program; apply step_send|]. apply nsteps_O. }
  split; [exact Hn|]. split; [reflexivity|].
  apply (server_lifecycle a_server (Ok tt) _ _ _ eq_refl Hn). reflexivity.
Defined.

End Server.
