(* ===== verification/Main.v ===== *)
(** * The manager

    [cmd/main.go]: from the command line to the configuration of the reconciler,
    of the webhook adapter and of the manager's servers, the filter of the pod cache,
    and the order in which [run] hands them to the manager.  The manager itself, its
    servers and its leader election are [controller-runtime]'s: each call to them is
    recorded, and its answer is a parameter. *)

From S2P Require Import Prelude GoString GoTime GoJson Kube Api Effects KubeLib Metrics.
From S2P Require Import PolicyObjects PolicyConfig PolicyNetwork Reconciler Samples Build TaskResult Signature Mapping Webhook.
From S2P Require Import Watch Server.

Module Main.
Import Labels Secrets Build TaskResult.

(** An [int] has 64 bits. *)
Record flags := mkFlags {
  fl_metricsAddr : string;
  fl_metricsCertPath : string;
  fl_metricsCertName : string;
  fl_metricsCertKey : string;
  fl_webhookCertPath : string;
  fl_webhookCertName : string;
  fl_webhookCertKey : string;
  fl_probeAddr : string;
  fl_enableLeaderElection : bool;
  fl_secureMetrics : bool;
  fl_enableHTTP2 : bool;
  fl_triggerAddr : string;
  fl_triggerNamespace : string;
  fl_egressRefresh : Duration;
  fl_jobTTLSeconds : Z;
  fl_taskTTLSeconds : Z }.

Definition defaultTriggerNamespace : string := "conveyor-system".
Definition defaultEgressRefresh : Duration := 5 * Minute.

(** What [parseFlags] yields for an empty command line. *)
Definition default_flags : flags :=
  mkFlags "0" "" "tls.crt" "tls.key" "" "tls.crt" "tls.key" ":8081" false true false "" ""
    defaultEgressRefresh DefaultJobTTLSeconds (-1).

Definition validateJobTTL (v : Z) : result unit :=
  if (v <? 1) || (MaxInt32 <? v) then
    Err (ErrNew ("--job-ttl-seconds must be between 1 and " +:+ Itoa MaxInt32 +:+ ", got " +:+ Itoa v +:+
           ": 0 deletes the pod before the controller can read the agent Result"))
  else Ok tt.

(** [podNamespace] is the variable [POD_NAMESPACE], empty when it is unset. *)
Definition resolveTriggerNamespace (podNamespace flagValue : string) : string :=
  if negb (flagValue =? "")%string then flagValue
  else if negb (podNamespace =? "")%string then podNamespace
  else defaultTriggerNamespace.

(** The defaults that [SetupWithManager] fills in. *)
Definition with_defaults (r : TaskReconciler) : TaskReconciler :=
  mkReconciler (Some (default Network.DefaultResolver (r_Resolver r))) true
    (r_EgressRefreshInterval r) (r_JobTTLSeconds r) (r_DefaultTaskTTLSeconds r) (r_ResultWait r).

(** The reconciler as [run] writes it, before its defaults. *)
Definition run_reconciler (fl : flags) (taskTTL : option Z) : TaskReconciler :=
  mkReconciler None false (fl_egressRefresh fl) (int32 (fl_jobTTLSeconds fl)) taskTTL 0.

(** The reconciler that [run] sets up. *)
Definition new_reconciler (fl : flags) (taskTTL : option Z) : TaskReconciler := with_defaults (run_reconciler fl taskTTL).

(** The checks of [run]: the default TTL of a Task. *)
Definition check_ttls (fl : flags) : result (option Z) :=
  try _ok := validateJobTTL (fl_jobTTLSeconds fl) in
  if MaxInt32 <? fl_taskTTLSeconds fl then
    Err (ErrNew ("--task-ttl-seconds must be at most " +:+ Itoa MaxInt32 +:+ ", got " +:+ Itoa (fl_taskTTLSeconds fl)))
  else Ok (if 0 <=? fl_taskTTLSeconds fl then Some (int32 (fl_taskTTLSeconds fl)) else None).

Definition configure (fl : flags) : result TaskReconciler :=
  try taskTTL := check_ttls fl in Ok (new_reconciler fl taskTTL).

(** A requirement of a label selector. *)
Inductive Requirement := Exists_ (key : string) | Equals (key value : string).
Definition requirement_matches (labels : GoMap) (q : Requirement) : bool :=
  match q with
  | Exists_ key => match default ∅ labels !! key with Some _ => true | None => false end
  | Equals key value => match default ∅ labels !! key with Some v => (v =? value)%string | None => false end
  end.
Definition taskPodSelector : list Requirement := [Exists_ LabelTaskName; Equals LabelManagedBy ManagedByValue].
Definition selector_matches (sel : list Requirement) (labels : GoMap) : bool := forallb (requirement_matches labels) sel.

(** ** The servers of the manager *)

Record TLSConfig := mkTLSConfig { NextProtos : list string }.

Definition buildTLSOpts (fl : flags) : list (TLSConfig -> TLSConfig) :=
  if negb (fl_enableHTTP2 fl) then [fun _ => mkTLSConfig ["http/1.1"%string]] else [].

Record WebhookOptions := mkWebhookOptions {
  wo_TLSOpts : list (TLSConfig -> TLSConfig); wo_CertDir : string; wo_CertName : string; wo_KeyName : string }.

Definition buildWebhookServer (fl : flags) (tlsOpts : list (TLSConfig -> TLSConfig)) : WebhookOptions :=
  if (0 <? Z.of_nat (String.length (fl_webhookCertPath fl))) then
    mkWebhookOptions tlsOpts (fl_webhookCertPath fl) (fl_webhookCertName fl) (fl_webhookCertKey fl)
  else mkWebhookOptions tlsOpts "" "" "".

Inductive FilterProvider := WithAuthenticationAndAuthorization.

Record MetricsOptions := mkMetricsOptions {
  me_BindAddress : string; me_SecureServing : bool; me_TLSOpts : list (TLSConfig -> TLSConfig);
  me_FilterProvider : option FilterProvider; me_CertDir : string; me_CertName : string; me_KeyName : string }.

Definition buildMetricsOptions (fl : flags) (tlsOpts : list (TLSConfig -> TLSConfig)) : MetricsOptions :=
  let filter := if fl_secureMetrics fl then Some WithAuthenticationAndAuthorization else None in
  if (0 <? Z.of_nat (String.length (fl_metricsCertPath fl))) then
    mkMetricsOptions (fl_metricsAddr fl) (fl_secureMetrics fl) tlsOpts filter
      (fl_metricsCertPath fl) (fl_metricsCertName fl) (fl_metricsCertKey fl)
  else mkMetricsOptions (fl_metricsAddr fl) (fl_secureMetrics fl) tlsOpts filter "" "" "".

(** [ctrl.Options]: the kinds the client does not cache, and the selector of the
    Pod cache. *)
Record ManagerOptions := mkManagerOptions {
  mo_DisableFor : list Kind; mo_PodLabel : list Requirement; mo_Metrics : MetricsOptions; mo_WebhookServer : WebhookOptions;
  mo_HealthProbeBindAddress : string; mo_LeaderElection : bool; mo_LeaderElectionID : string }.

Definition manager_options (fl : flags) : ManagerOptions :=
  let tlsOpts := buildTLSOpts fl in
  mkManagerOptions [KSecret] taskPodSelector (buildMetricsOptions fl tlsOpts) (buildWebhookServer fl tlsOpts)
    (fl_probeAddr fl) (fl_enableLeaderElection fl) "17b16654.openconveyor.ai".

(** ** The calls to the manager *)

Inductive SetupCall :=
| NewManager (o : ManagerOptions)
| IndexField
| Complete (r : TaskReconciler) (rows : list Watch.Row)
| AddRunnable (s : Server.Server)
| AddHealthzCheck
| AddReadyzCheck
| StartManager.

(** The calls so far and the outcome, for given answers of the manager. *)
Definition Setup (A : Type) : Type := (SetupCall -> result unit) -> list SetupCall * result A.

Definition pure {A} (r : result A) : Setup A := fun _ => ([], r).
Definition lib (c : SetupCall) : Setup unit := fun answer => ([c], answer c).
Definition and_then {A B} (m : Setup A) (k : A -> Setup B) : Setup B := fun answer =>
  match m answer with
  | (l, Err e) => (l, Err e)
  | (l, Ok a) => let '(l', r) := k a answer in (l ++ l', r)
  end.
(** [fmt.Errorf("msg: %w", err)] on an error. *)
Definition wrap {A} (msg : string) (m : Setup A) : Setup A := fun answer =>
  match m answer with (l, Err e) => (l, Err (ErrWrap msg e "")) | ok => ok end.

Notation "'step!' x <- m ; k" := (and_then m (fun x => k)) (at level 10, x name, m at level 100, k at level 200).

(** [podNamespace] is the variable [POD_NAMESPACE]. *)
Definition trigger_server (podNamespace : string) (fl : flags) : Server.Server :=
  let ns := resolveTriggerNamespace podNamespace (fl_triggerNamespace fl) in
  Server.mkServer (fl_triggerAddr fl) (Some (Webhook.mkHandler ns ns true)).

Definition setupTrigger (podNamespace : string) (fl : flags) : Setup unit :=
  if (fl_triggerAddr fl =? "")%string then pure (Ok tt)
  else wrap "register trigger server: " (lib (AddRunnable (trigger_server podNamespace fl))).

Definition SetupWithManager (r : TaskReconciler) : Setup unit :=
  let r := with_defaults r in
  step! _ok <- lib IndexField;
  lib (Complete r Watch.watches).

Definition run (podNamespace : string) (fl : flags) : Setup unit :=
  step! taskTTL <- pure (check_ttls fl);
  step! _mgr <- wrap "start manager: " (lib (NewManager (manager_options fl)));
  step! _task <- wrap "create Task controller: " (SetupWithManager (run_reconciler fl taskTTL));
  step! _trigger <- setupTrigger podNamespace fl;
  step! _healthz <- wrap "set up health check: " (lib AddHealthzCheck);
  step! _readyz <- wrap "set up ready check: " (lib AddReadyzCheck);
  wrap "run manager: " (lib StartManager).

(** The calls of the process and its exit status. *)
Definition main (podNamespace : string) (fl : flags) (answer : SetupCall -> result unit) : list SetupCall * Z :=
  match run podNamespace fl answer with
  | (calls, Err _) => (calls, 1)
  | (calls, Ok tt) => (calls, 0)
  end.

Section Theorems.
Context `{KubeLib, JsonErrors, UnicodeTables}.

(** Every pod whose event reaches a Task is in the cache. *)
Lemma cached_of_taskForPod pod key :
  key ∈ taskForPod pod -> selector_matches taskPodSelector (om_Labels pod) = true.
Proof.
  unfold taskForPod, selector_matches, map_get. cbn [taskPodSelector forallb requirement_matches].
  destruct (_ || _) eqn:Hb; [intros []%elem_of_nil|]. intros _.
  apply orb_false_iff in Hb as [Hn Hm%negb_false_iff].
  destruct (om_Labels pod) as [g|]; [|discriminate Hn]. cbn in Hn, Hm |- *.
  destruct (g !! LabelTaskName) as [v|]; [|discriminate Hn].
  destruct (g !! LabelManagedBy) as [v'|]; [|discriminate Hm]. cbn in Hm. by rewrite Hm.
Qed.

Lemma podLabels_cached task : selector_matches taskPodSelector (Some (podLabels task)) = true.
Proof.
  assert (Hl : podLabels task !! LabelTaskName = Some (task_Name task) /\ podLabels task !! LabelManagedBy = Some ManagedByValue).
  { unfold podLabels, ownershipLabels, OwnershipLabels, PodSelectorLabels. rewrite !lookup_union. by simpl_map. }
  destruct Hl as [Ht Hm]. unfold selector_matches, taskPodSelector. cbn [forallb requirement_matches].
  change (default ∅ (Some (podLabels task))) with (podLabels task). by rewrite Ht, Hm, String.eqb_refl.
Qed.

Lemma setupTrigger_registers podNamespace fl answer s :
  AddRunnable s ∈ (setupTrigger podNamespace fl answer).1 ->
  Server.s_Addr s = fl_triggerAddr fl /\ Server.s_Addr s <> ""%string /\
  exists h, Server.s_Handler s = Some h /\ Webhook.h_Reader h = true /\
    Webhook.h_SecretNamespace h = Webhook.h_DefaultTaskNamespace h /\ Webhook.h_SecretNamespace h <> ""%string.
Proof.
  unfold setupTrigger. destruct (fl_triggerAddr fl =? "")%string eqn:Ha; [intros []%elem_of_nil|].
  assert (Hin : (wrap "register trigger server: " (lib (AddRunnable (trigger_server podNamespace fl))) answer).1 =
    [AddRunnable (trigger_server podNamespace fl)]) by (unfold wrap, lib; by destruct (answer _)).
  rewrite Hin. intros [= ->]%list_elem_of_singleton. split; [done|]. split; [by apply String.eqb_neq|]. eexists. split; [done|].
  split_and!; [done..|]. cbn. unfold resolveTriggerNamespace.
  destruct (fl_triggerNamespace fl =? "")%string eqn:Hf; [|by apply String.eqb_neq].
  cbn [negb]. destruct (podNamespace =? "")%string eqn:Hp; [done|by apply String.eqb_neq].
Qed.

(** C40. The flags reach the Jobs unchanged, and the controller sees their pods.
    The manager starts exactly when the Job TTL is between one second and the
    largest 32-bit value and the Task TTL is at most that; no value is then
    truncated, a negative Task TTL means none, every Job the reconciler builds is
    kept for the seconds of the flag, and its pods pass the filter of the pod
    cache.  A trigger server that is registered has the address of the flag, a
    live reader, and one namespace, never empty, for its Secrets and its Tasks. *)
Theorem configure_sound fl :
  (forall podNamespace answer s, AddRunnable s ∈ (setupTrigger podNamespace fl answer).1 ->
     Server.s_Addr s = fl_triggerAddr fl /\ Server.s_Addr s <> ""%string /\
     exists h, Server.s_Handler s = Some h /\ Webhook.h_Reader h = true /\
       Webhook.h_SecretNamespace h = Webhook.h_DefaultTaskNamespace h /\ Webhook.h_SecretNamespace h <> ""%string) /\
  (is_ok (configure fl) = true <->
   1 <= fl_jobTTLSeconds fl <= MaxInt32 /\ fl_taskTTLSeconds fl <= MaxInt32) /\
  forall r, configure fl = Ok r ->
    r_EgressRefreshInterval r = fl_egressRefresh fl /\ r_Recorder r = true /\
    (forall ttl, r_DefaultTaskTTLSeconds r = Some ttl <-> ttl = fl_taskTTLSeconds fl /\ 0 <= ttl) /\
    forall task agent secrets job, buildJob task agent secrets (r_JobTTLSeconds r) = Ok job ->
      js_TTLSecondsAfterFinished (job_Spec job) = Some (fl_jobTTLSeconds fl) /\
      selector_matches taskPodSelector (pt_Labels (js_Template (job_Spec job))) = true.
Proof.
  split; [intros; by eapply setupTrigger_registers|].
  unfold configure, check_ttls, validateJobTTL. destruct (Z.ltb_spec (fl_jobTTLSeconds fl) 1) as [Hj|Hj]; cbn [orb];
    [split; [split; [done|lia]|done]|].
  destruct (Z.ltb_spec MaxInt32 (fl_jobTTLSeconds fl)) as [Hm|Hm]; [split; [split; [done|lia]|done]|].
  destruct (Z.ltb_spec MaxInt32 (fl_taskTTLSeconds fl)) as [Ht|Ht]; [split; [split; [done|lia]|done]|].
  split; [split; [lia|done]|]. intros r [= <-]. cbn [new_reconciler run_reconciler with_defaults r_EgressRefreshInterval r_Recorder r_DefaultTaskTTLSeconds r_JobTTLSeconds]. split_and!; [done..| |].
  - intros ttl. destruct (Z.leb_spec 0 (fl_taskTTLSeconds fl)) as [Hpos|Hpos].
    + rewrite int32_id by lia. split; [intros [= <-]; lia|intros [-> _]; done].
    + split; [done|lia].
  - intros task agent secrets job Hb. rewrite int32_id in Hb by lia. split; [by apply buildJob_ttl in Hb|].
    rewrite (buildJob_labels _ _ _ _ _ Hb). apply podLabels_cached.
Qed.

(** The calls of a run in which the manager refuses nothing. *)
Definition plan (podNamespace : string) (fl : flags) (taskTTL : option Z) : list SetupCall :=
  [NewManager (manager_options fl); IndexField; Complete (new_reconciler fl taskTTL) Watch.watches] ++
  (if (fl_triggerAddr fl =? "")%string then [] else [AddRunnable (trigger_server podNamespace fl)]) ++
  [AddHealthzCheck; AddReadyzCheck; StartManager].

(** What the error of a refused call is wrapped in. *)
Definition context (c : SetupCall) : string :=
  match c with
  | NewManager _ => "start manager: "
  | IndexField | Complete _ _ => "create Task controller: "
  | AddRunnable _ => "register trigger server: "
  | AddHealthzCheck => "set up health check: "
  | AddReadyzCheck => "set up ready check: "
  | StartManager => "run manager: "
  end.

(** [m] makes the calls of [calls] in order: all of them, or up to the first that is
    refused, whose error it returns in context. *)
Definition along (answer : SetupCall -> result unit) (calls : list SetupCall) (m : list SetupCall * result unit) : Prop :=
  (m = (calls, Ok tt) /\ Forall (fun c => answer c = Ok tt) calls) \/
  exists l1 c l2 e, calls = l1 ++ c :: l2 /\ m = (l1 ++ [c], Err (ErrWrap (context c) e "")) /\
    Forall (fun c => answer c = Ok tt) l1 /\ answer c = Err e.

Lemma along_lib answer c : along answer [c] (wrap (context c) (lib c) answer).
Proof.
  unfold wrap, lib. destruct (answer c) as [[]|e] eqn:Ha; [left; split; [done|by constructor]|].
  right. exists [], c, [], e. done.
Qed.

Lemma along_then answer m k l1 l2 :
  along answer l1 (m answer) -> along answer l2 (k answer) -> along answer (l1 ++ l2) (and_then m (fun _ : unit => k) answer).
Proof.
  unfold and_then. intros [[-> Hf]|(a & c & b & e & -> & -> & Hf & He)] Hk.
  - destruct Hk as [[-> Hf2]|(a & c & b & e & -> & -> & Hf2 & He)].
    + left. split; [done|]. by apply Forall_app.
    + right. exists (l1 ++ a), c, b, e. rewrite <- !app_assoc. split_and!; [done..| |done]. by apply Forall_app.
  - right. exists a, c, (b ++ l2), e. rewrite <- app_assoc. done.
Qed.

Lemma wrap_then msg m (k : Setup unit) answer :
  wrap msg (and_then m (fun _ : unit => k)) answer = and_then (wrap msg m) (fun _ => wrap msg k) answer.
Proof. unfold wrap, and_then. destruct (m answer) as [l [[]|e]]; [|done]. by destruct (k answer) as [l' [[]|e]]. Qed.

(** The calls of [run], whatever the manager answers. *)
Lemma run_along podNamespace fl answer :
  match check_ttls fl with
  | Err e => run podNamespace fl answer = ([], Err e)
  | Ok taskTTL => along answer (plan podNamespace fl taskTTL) (run podNamespace fl answer)
  end.
Proof.
  unfold run. destruct (check_ttls fl) as [ttl|e]; [|done]. unfold plan.
  change (along answer ?l (and_then (pure (Ok ttl)) ?k answer)) with (along answer l (let '(l', r) := k ttl answer in ([] ++ l', r))).
  assert (Hid : forall m : list SetupCall * result unit, (let '(l', r) := m in ([] ++ l', r)) = m) by by intros [].
  rewrite Hid. apply (along_then answer _ _ [_]); [apply along_lib|].
  apply (along_then answer _ _ [_; _]).
  { unfold SetupWithManager. rewrite wrap_then. apply (along_then answer _ _ [_] [_]); apply along_lib. }
  apply along_then. { unfold setupTrigger. destruct (_ =? _)%string; [by left|apply along_lib]. }
  do 2 (apply (along_then answer _ _ [_]); [apply along_lib|]). apply along_lib.
Qed.

Lemma main_status podNamespace fl answer :
  (main podNamespace fl answer).2 = 0 <->
  exists taskTTL, check_ttls fl = Ok taskTTL /\ Forall (fun c => answer c = Ok tt) (plan podNamespace fl taskTTL).
Proof.
  pose proof (run_along podNamespace fl answer) as Hr. unfold main. destruct (check_ttls fl) as [ttl|e].
  - destruct Hr as [[-> Hall]|(l1 & c & l2 & e & Hp & -> & _ & Hc)]; cbn [snd]; [by split; [exists ttl|]|].
    split; [done|]. intros (ttl' & [= <-] & Hall). rewrite Hp in Hall. apply Forall_app in Hall as [_ [Hok _]%Forall_cons]. congruence.
  - rewrite Hr. cbn. split; [done|]. by intros (? & ? & _).
Qed.

(** C24. The manager starts only when everything is in place, and is never left open.
    Bad TTL flags end the program before any call.  Otherwise the calls are made in
    one order, the trigger server among them exactly when it has an address; the first
    refusal ends the program with that error and its context, so the manager starts only
    after every other call succeeded, and the exit status is 0 exactly when all did.
    Whatever the flags: Secrets are never cached, the Pod cache holds Task pods only, a
    secure metrics endpoint authenticates its clients, both servers refuse HTTP/2 unless
    the flag allows it, and the trigger server runs on every replica. *)
Theorem run_in_order podNamespace fl answer :
  match check_ttls fl with
  | Err e => run podNamespace fl answer = ([], Err e)
  | Ok taskTTL => along answer (plan podNamespace fl taskTTL) (run podNamespace fl answer)
  end /\
  ((main podNamespace fl answer).2 = 0 <->
   exists taskTTL, check_ttls fl = Ok taskTTL /\ Forall (fun c => answer c = Ok tt) (plan podNamespace fl taskTTL)) /\
  let o := manager_options fl in
  KSecret ∈ mo_DisableFor o /\ mo_PodLabel o = taskPodSelector /\ mo_LeaderElection o = fl_enableLeaderElection fl /\
  (me_SecureServing (mo_Metrics o) = true <-> me_FilterProvider (mo_Metrics o) = Some WithAuthenticationAndAuthorization) /\
  (fl_enableHTTP2 fl = false -> forall opts c, opts = me_TLSOpts (mo_Metrics o) \/ opts = wo_TLSOpts (mo_WebhookServer o) ->
     NextProtos (foldl (fun c f => f c) c opts) = ["http/1.1"%string]) /\
  Server.NeedLeaderElection (trigger_server podNamespace fl) = false.
Proof.
  split; [|split].
  - apply run_along.
  - apply main_status.
  - unfold manager_options, buildMetricsOptions, buildWebhookServer, buildTLSOpts.
    cbn [mo_DisableFor mo_PodLabel mo_LeaderElection mo_Metrics mo_WebhookServer]. split_and!; try done.
    + left.
    + destruct (0 <? _), (fl_secureMetrics fl); done.
    + intros ->. intros opts c [-> | ->]; destruct (0 <? _); done.
Qed.

End Theorems.
(** The defaults of the command line start the manager, without a Task TTL. *)
Example default_starts : exists r, configure default_flags = Ok r /\ r_DefaultTaskTTLSeconds r = None /\ r_JobTTLSeconds r = 3600.
Proof. eexists. split; [vm_compute; reflexivity|]. split; reflexivity. Qed.

End Main.
