(* ===== verification/TestUtils.v ===== *)
(** * Helpers of the end-to-end tests

    [test/utils/utils.go]: running a command in the project directory, loading an
    image into the kind cluster, splitting output into lines and uncommenting a
    piece of a file.  What the operating system answers is an argument; a function
    returns the calls that change something, in their order, and its result. *)

From S2P Require Import Prelude GoString GoTime.

Module TestUtils.

Definition newline : ascii := "010"%char.

(** ** What the file uses of [strings] and [bufio] *)

(** [strings.Split(s, c)] for one byte. *)
Fixpoint split_byte (c : ascii) (s : string) : list string :=
  match s with
  | "" => [""%string]
  | String d s' =>
    if Ascii.eqb d c then ""%string :: split_byte c s'
    else match split_byte c s' with l :: ls => String d l :: ls | [] => [str1 d] end
  end.

(** [strings.Join]. *)
Fixpoint Join (l : list string) (sep : string) : string :=
  match l with
  | [] => ""
  | [s] => s
  | s :: l => s +:+ sep +:+ Join l sep
  end.

(** [strings.Index]; [None] for -1. *)
Fixpoint Index (s sub : string) : option nat :=
  if HasPrefix s sub then Some O
  else match s with "" => None | String _ s' => S <$> Index s' sub end.

(** [strings.ReplaceAll] of a text that is not empty; [skip] bytes belong to a
    match that was replaced. *)
Fixpoint replace_from (old new : string) (skip : nat) (s : string) : string :=
  match s, skip with
  | "", _ => ""
  | String _ s', S n => replace_from old new n s'
  | String c s', O =>
    if HasPrefix s old then new +:+ replace_from old new (pred (String.length old)) s'
    else String c (replace_from old new 0 s')
  end.
Definition ReplaceAll (s old new : string) : string := replace_from old new 0 s.

(** A scanner gives up on a token that does not end in its buffer. *)
Definition MaxScanTokenSize : nat := Z.to_nat 65536.

Fixpoint take_while {A} (f : A -> bool) (l : list A) : list A :=
  match l with
  | [] => []
  | x :: l => if f x then x :: take_while f l else []
  end.

(** The lines of a text: a last line is one when it is not empty. *)
Fixpoint drop_last_empty (l : list string) : list string :=
  match l with
  | [] => []
  | [s] => if (s =? "")%string then [] else [s]
  | s :: l => s :: drop_last_empty l
  end.
Definition lines (s : string) : list string := drop_last_empty (split_byte newline s).

Definition dropCR (s : string) : string := TrimSuffix s (str1 "013"%char).

(** The tokens of [bufio.NewScanner(s)] until [Scan] answers false. *)
Definition scan (s : string) : list string :=
  dropCR <$> take_while (fun l => bool_decide (String.length l < MaxScanTokenSize)%nat) (lines s).

(** ** The operating system *)

(** A command, its directory and its environment. *)
Record Cmd := mkCmd { cmd_Args : list string; cmd_Dir : string; cmd_Env : list string }.
Definition Command (name : string) (args : list string) : Cmd := mkCmd (name :: args) "" [].

Inductive OsCall :=
| OsChdir (dir : string)
| OsCombinedOutput (cmd : Cmd)
| OsWriteFile (name content : string).

(** What the functions of [os] and [os/exec] answer. *)
Record System := mkSystem {
  Getwd : string * option GoError;
  Environ : list string;
  LookupEnv : string -> option string;
  CombinedOutput : Cmd -> string * option GoError;
  ReadFile : string -> result string;
  WriteFile : string -> string -> option GoError }.

Section Utils.
Context `{UnicodeTables}.

(** ** utils.go *)

Definition defaultKindBinary : string := "kind".
Definition defaultKindCluster : string := "kind".

Definition GetProjectDir (sys : System) : string * option GoError :=
  match Getwd sys with
  | (wd, Some e) => (wd, Some (ErrWrap "failed to get current working directory: " e ""))
  | (wd, None) => (ReplaceAll wd "/test/e2e" "", None)
  end.

Definition Run (sys : System) (cmd : Cmd) : list OsCall * (string * option GoError) :=
  let dir := fst (GetProjectDir sys) in
  let cmd := mkCmd (cmd_Args cmd) dir (Environ sys ++ ["GO111MODULE=on"%string]) in
  let command := Join (cmd_Args cmd) " " in
  ([OsChdir dir; OsCombinedOutput cmd],
   match CombinedOutput sys cmd with
   | (output, Some e) => (output, Some (ErrWrap (Quote command +:+ " failed with error " +:+ Quote output +:+ ": ") e ""))
   | (output, None) => (output, None)
   end).

Definition LoadImageToKindClusterWithName (sys : System) (name : string) : list OsCall * option GoError :=
  let cluster := default defaultKindCluster (LookupEnv sys "KIND_CLUSTER") in
  let kindOptions := ["load"; "docker-image"; name; "--name"; cluster]%string in
  let kindBinary := default defaultKindBinary (LookupEnv sys "KIND") in
  let '(calls, (_, err)) := Run sys (Command kindBinary kindOptions) in
  (calls, err).

Definition GetNonEmptyLines (output : string) : list string :=
  filter (fun element => element <> ""%string) (split_byte newline output).

(** The writes to [out] cannot fail: it is a [bytes.Buffer]. *)
Definition UncommentCode (sys : System) (filename target prefix : string) : list OsCall * option GoError :=
  match ReadFile sys filename with
  | Err e => ([], Some (ErrWrap ("failed to read file " +:+ Quote filename +:+ ": ") e ""))
  | Ok content =>
    match Index content target with
    | None => ([], Some (ErrNew ("unable to find the code " +:+ Quote target +:+ " to be uncommented")))
    | Some idx =>
      match scan target with
      | [] => ([], None)
      | tokens =>
        let out := take_str idx content +:+ Join ((fun text => TrimPrefix text prefix) <$> tokens) (str1 newline) +:+
                   drop_str (idx + String.length target) content in
        ([OsWriteFile filename out],
         match WriteFile sys filename out with
         | Some e => Some (ErrWrap ("failed to write file " +:+ Quote filename +:+ ": ") e "")
         | None => None
         end)
      end
    end
  end.

(** ** Lines *)

Lemma split_nonempty c s : split_byte c s <> [].
Proof. destruct s as [|d s]; cbn; [done|]. destruct (Ascii.eqb d c); [done|]. by destruct (split_byte c s). Qed.

(** Splitting and joining are inverse. *)
Lemma split_join c s : Join (split_byte c s) (str1 c) = s.
Proof.
  induction s as [|d s IH]; [done|]. cbn [split_byte]. pose proof (split_nonempty c s) as Hn.
  destruct (Ascii.eqb_spec d c) as [->|Hd].
  - destruct (split_byte c s) as [|l ls] eqn:Hs; [done|]. cbn [Join] in *. rewrite IH. done.
  - destruct (split_byte c s) as [|l [|l' ls]] eqn:Hs; [done|..]; cbn [Join] in *; by rewrite <- IH.
Qed.

Lemma join_split c l : l <> [] -> Forall (fun s => ContainsByte s c = false) l -> split_byte c (Join l (str1 c)) = l.
Proof.
  assert (Hone : forall s rest, ContainsByte s c = false -> split_byte c (s +:+ str1 c +:+ rest) = s :: split_byte c rest).
  { induction s as [|d s IH]; intros rest Hc.
    - change (split_byte c (String c rest) = ""%string :: split_byte c rest). cbn [split_byte]. by rewrite (proj2 (Ascii.eqb_eq c c)).

    - rewrite contains_cons in Hc. apply orb_false_iff in Hc as [Hd Hc]. rewrite append_cons. cbn [split_byte].
      rewrite Hd, IH by done. done. }
  assert (Hlast : forall s, ContainsByte s c = false -> split_byte c s = [s]).
  { induction s as [|d s IH]; intros Hc; [done|]. rewrite contains_cons in Hc. apply orb_false_iff in Hc as [Hd Hc].
    cbn [split_byte]. by rewrite Hd, IH. }
  induction l as [|s l IH]; [done|]. intros _ [Hs Hl]%Forall_cons. destruct l as [|s' l]; [by apply Hlast|].
  cbn [Join]. rewrite Hone by done. f_equal. by apply IH.
Qed.

(** The lines of a command's output that are not empty, in their order. *)
Theorem GetNonEmptyLines_exact l :
  Forall (fun s => ContainsByte s newline = false) l ->
  GetNonEmptyLines (Join l (str1 newline)) = filter (fun s => s <> ""%string) l.
Proof. intros Hl. unfold GetNonEmptyLines. destruct l as [|s l]; [done|]. by rewrite join_split. Qed.

(** ** The uncommented file *)

Lemma Index_spec s sub :
  match Index s sub with
  | Some i => s = take_str i s +:+ sub +:+ drop_str (i + String.length sub) s /\
              forall a b, s = a +:+ sub +:+ b -> (i <= String.length a)%nat
  | None => forall a b, s <> a +:+ sub +:+ b
  end.
Proof.
  induction s as [|c s IH]; cbn [Index].
  - unfold HasPrefix. destruct (CutPrefix sub "") as [r|] eqn:Hc; cbn [is_Some_dec].
    + apply CutPrefix_Some in Hc. destruct sub; [|done]. split; [done|]. intros; lia.
    + intros a b Hs. destruct a; [|done]. destruct sub; [by destruct b|done].
  - unfold HasPrefix. destruct (CutPrefix sub (String c s)) as [r|] eqn:Hc.
    + apply CutPrefix_Some in Hc. cbn [take_str Nat.add]. split; [|intros; lia]. rewrite Hc at 1. by rewrite Hc, drop_str_app.
    + destruct (Index s sub) as [i|]; cbn [fmap option_fmap option_map take_str drop_str Nat.add].
      * destruct IH as [IH Hf]. split; [rewrite append_cons; by f_equal|]. intros [|d a] b Hs.
        { change (String c s = sub +:+ b) in Hs. by rewrite Hs, CutPrefix_app in Hc. }
        injection Hs as -> Hs. apply Hf in Hs. cbn. lia.
      * intros [|d a] b Hs; [|injection Hs as -> Hs; by eapply IH].
        change (String c s = sub +:+ b) in Hs. by rewrite Hs, CutPrefix_app in Hc.
Qed.

Lemma take_while_all {A} (f : A -> bool) l : Forall (fun x => f x = true) l -> take_while f l = l.
Proof. induction 1 as [|x l Hx _ IH]; [done|]. cbn. by rewrite Hx, IH. Qed.

Lemma take_while_split {A} (f : A -> bool) l rest :
  Forall (fun x => f x = true) l -> match rest with x :: _ => f x = false | [] => True end -> take_while f (l ++ rest) = l.
Proof.
  intros Hl Hr. induction Hl as [|x l Hx _ IH]; cbn; [destruct rest as [|y rest]; cbn; by rewrite ?Hr|]. by rewrite Hx, IH.
Qed.

Lemma drop_last_kept l : last l <> Some ""%string -> drop_last_empty l = l.
Proof.
  induction l as [|s [|s' l] IH]; [done| |]; intros Hl.
  - cbn in *. by destruct (String.eqb_spec s "") as [->|].
  - cbn [drop_last_empty] in *. f_equal. by apply IH.
Qed.

(** A line that a scanner delivers, as it is. *)
Definition short (l : string) : bool := bool_decide (String.length l < MaxScanTokenSize)%nat.

Lemma scan_lines l rest :
  l <> [] -> Forall (fun s => ContainsByte s newline = false) (l ++ rest) -> last (l ++ rest) <> Some ""%string ->
  Forall (fun s => short s = true /\ dropCR s = s) l -> match rest with x :: _ => short x = false | [] => True end ->
  scan (Join (l ++ rest) (str1 newline)) = l.
Proof.
  intros Hn Hb Hlast Hl Hr. unfold scan, lines. rewrite join_split; [|by destruct l|done]. rewrite drop_last_kept by done.
  fold short. rewrite take_while_split; [|eapply Forall_impl; [exact Hl|]; by intros ? [? _]|done].
  clear -Hl. induction Hl as [|s l [_ Hs] _ IH]; [done|]. cbn. by rewrite Hs, IH.
Qed.

(** Uncommenting, exactly.  For a target whose lines do not end in a carriage return
    and whose last line is not empty, the first occurrence of the target in the file is
    replaced by its lines without their prefixes; the bytes around it stay.  When a
    line of the target has 65536 bytes or more, that line and all after it are
    dropped from the file, and no error is reported. *)
Theorem UncommentCode_exact sys filename before after l rest prefix :
  let target := Join (l ++ rest) (str1 newline) in
  ReadFile sys filename = Ok (before +:+ target +:+ after) ->
  (forall a b, before +:+ target +:+ after = a +:+ target +:+ b -> (String.length before <= String.length a)%nat) ->
  l <> [] -> Forall (fun s => ContainsByte s newline = false) (l ++ rest) -> last (l ++ rest) <> Some ""%string ->
  Forall (fun s => short s = true /\ dropCR s = s) l -> match rest with x :: _ => short x = false | [] => True end ->
  let written := before +:+ Join ((fun s => TrimPrefix s prefix) <$> l) (str1 newline) +:+ after in
  exists err, UncommentCode sys filename target prefix = ([OsWriteFile filename written], err) /\
    (err = None <-> WriteFile sys filename written = None).
Proof.
  cbn zeta. set (target := Join (l ++ rest) (str1 newline)). intros Hread Hfirst Hn Hb Hlast Hl Hr. unfold UncommentCode. rewrite Hread.
  pose proof (Index_spec (before +:+ target +:+ after) target) as Hi. destruct (Index _ target) as [i|]; [|by destruct (Hi before after)].
  destruct Hi as [Hs Hf]. specialize (Hf before after eq_refl). apply Hfirst in Hs as Hge. pose proof (length_take_str i (before +:+ target +:+ after)).
  assert (i = String.length before) as -> by lia. assert (Hscan : scan target = l) by (by apply scan_lines). rewrite Hscan.
  destruct l as [|s l]; [done|]. set (tokens := s :: l) in *. rewrite take_str_app.
  assert (Hd : drop_str (String.length before + String.length target) (before +:+ target +:+ after) = after).
  { rewrite <- length_append, <- append_assoc. apply drop_str_app. }
  rewrite Hd. eexists. split; [reflexivity|]. by destruct (WriteFile _ _ _).
Qed.

End Utils.

(** ** Samples *)

Definition sample_target : string := Join ["#- one"; "#- two"]%string (str1 newline).
Definition sample_system : System :=
  mkSystem ("/src/openconveyor/test/e2e"%string, None) ["PATH=/bin"%string] (fun _ => None) (fun _ => (""%string, None))
    (fun _ => Ok ("a:" +:+ sample_target +:+ "!")) (fun _ _ => None).

Example load_image :
  LoadImageToKindClusterWithName (H := plain_tables) sample_system "img:1" =
  ([OsChdir "/src/openconveyor";
    OsCombinedOutput (mkCmd ["kind"; "load"; "docker-image"; "img:1"; "--name"; "kind"] "/src/openconveyor" ["PATH=/bin"; "GO111MODULE=on"])]%string, None).
Proof. vm_compute. reflexivity. Qed.

Lemma UncommentCode_exact_witness :
  exists err, UncommentCode (H := plain_tables) sample_system "f" sample_target "#" =
    ([OsWriteFile "f" ("a:" +:+ Join ["- one"; "- two"]%string (str1 newline) +:+ "!")], err) /\ err = None.
Proof.
  destruct (UncommentCode_exact (H := plain_tables) sample_system "f" "a:" "!" ["#- one"; "#- two"]%string [] "#") as (err & He & Hn).
  - reflexivity.
  - intros [|c [|d a]] b Hab; [discriminate Hab|discriminate Hab|cbn; lia].
  - discriminate.
  - repeat constructor.
  - discriminate.
  - repeat constructor; vm_compute; reflexivity.
  - exact I.
  - exists err. split; [exact He|by apply Hn].
Defined.

End TestUtils.
